(* ===== verification/_CoqProject ===== *)
-Q . S2P
Prelude.v
Wire.v
Strconv.v
Defs.v
Fsm.v
Ams.v
Client.v
SumCmd.v
SumCmdFacts.v
SumPlc.v
NotifStream.v
Mux.v
MuxFacts.v
Route.v
RouteFacts.v
Identify.v
NetIP.v
Udp.v
SymbolTable.v
SymbolTableFacts.v
GoTime.v
Utf.v
Codec.v
CodecFacts.v
CodecSafety.v
Subs.v
SubsFacts.v
Batch.v
BatchFacts.v
Window.v
WindowFacts.v
Policies.v
PoliciesFacts.v
Access.v
AccessFacts.v
Discovery.v
DiscoveryFacts.v
ReloadFacts.v
DiscoveryWitness.v
LifeState.v
Lifecycle.v
Connect.v
LifeLogic.v
LifeInv.v
LifeFacts.v
ConnectFacts.v
ReconnectFacts.v
LifeTerm.v
LifeWitness.v
Browse.v
BrowseFacts.v
ListingFacts.v
Watch.v
WatchFacts.v
Orphan.v
OrphanFacts.v
Subscribe.v
SubscribeFacts.v
Options.v
OptionsFacts.v
OptionsLife.v
RuntimeWatch.v
RuntimeFacts.v
StaleReload.v
StaleReloadFacts.v
Peer.v
PeerFacts.v
SymbolView.v
SymbolViewFacts.v
Shutdown.v
ShutdownFacts.v
Codes.v
Pipeline.v
PipelineFacts.v
RawClient.v
RawFacts.v
PeerMemory.v
Redial.v
RedialFacts.v
Report.v
