(* ===== verification/Prelude.v ===== *)
(** go-ads: a model of the Beckhoff ADS client library (Go, package [ads], the files
    under src/), and the theorems that make it correct.

    The library speaks AMS/ADS over one TCP connection to a PLC. A [Client]
    multiplexes requests and notification frames on that connection; a [Session]
    keeps a symbol table, subscriptions and a state machine over a sequence of
    clients; routes and identities are negotiated over UDP. The development follows
    that structure, a file (or a pair: definitions, facts) per part:

    - Prelude: Go errors ([errors.As], [errors.Is]), the result type [res] with
      panics, machine integers as [Z] with their wrap-around, lists, automation
      (hint databases [ads], [len], [wire]; the tactics [res_inv], [zbool], [len_lia]).
      Wire: bytes, little-endian integers, slices that panic out of range,
      [bytes.Buffer] reads.  Strconv: decimal text.  GoTime: the calendar and the
      layouts of package time.  Utf: UTF-8 and UTF-16.
    - Defs (defs.go): codes, groups, modes, type codes and the functions on them;
      Codes: the constants that are only handed on, and their texts.
    - Fsm (session_fsm.go): the session states, both transition functions, the
      generation counter, and the machine under arbitrary schedules.
    - Ams (ams.go): addresses, headers, NetID text.
    - Client (cmd_simple.go, process_image.go, capabilities.go, the Client half of
      cmd_notification.go and symbol_discovery.go): one operation per command in
      the state monad [rpc] over the interface [Transport], which promises one
      reply or error per request.  Mux implements that interface.
    - SumCmd, SumCmdFacts, SumPlc (cmd_sum.go): the batched commands, their probes
      and fallbacks; SumPlc is a small simulated device for the examples.
    - NotifStream (client.go [decodeNotification], [notifWorker]): the notification
      payload and its sharding.
    - Mux, MuxFacts (client.go, transport.go): framing, classification, queues,
      the request table and the receive workers, as a step system whose events are
      the atomic actions of the goroutines.
    - Route, RouteFacts, Identify (route.go, identify.go): packets, parsers and the
      retransmission loops, driven by a script of what the socket returns.  NetIP: the
      text of IP addresses (Go's package net).  Udp: the entry points, from the host
      name to the socket.
    - SymbolTable, SymbolTableFacts (symbols.go): the parsers of the datatype and
      symbol uploads, arrays, expansion of members.  SymbolView, SymbolViewFacts: the
      copy of a symbol a caller gets, its base type and its members.
    - Codec, CodecFacts, CodecSafety (symbol_codec.go, symbols.go): values to text, text
      to values, single bits, what a decode that fails half-way leaves in the cache.
    - Subs, SubsFacts (notification_api.go, cmd_notification.go): the registry of
      subscriptions guarded by [notificationManager.lock].
    - Batch, BatchFacts (notification_api.go, session.go): batch subscription with
      its per-item callback and tail, re-subscribing, recovery, while other
      goroutines change the registry between the items in arbitrary ways.
    - Window, WindowFacts (cmd_notification.go): dispatch of a sample, the buffer
      for samples that precede their subscription, the heartbeat, stale marks.
    - Pipeline, PipelineFacts (client.go, cmd_notification.go): the send of an update on
      the channel of the caller; NotifStream, Window and that send composed, from a
      notification frame to the channel, with the worker, the shards and the callers
      taking turns in any order.
    - Policies, PoliciesFacts (session.go, session_options.go): backoff, reload
      budget, error classification, patience of the heartbeat, runtime-state gate.
    - Access, AccessFacts (symbol_access.go, batch_result.go, on-demand resolution in
      symbol_discovery.go): reading and writing by name, singly and in batches, with
      the cached value and its interval, stale handles, the retry after a reconnect.
    - Discovery, DiscoveryFacts, ReloadFacts, DiscoveryWitness (symbol_discovery.go,
      session.go): the loaders of the two tables, whole and in chunks, refresh, and
      re-resolving after a reconnect.
    - LifeState, Lifecycle, Connect (session.go, the drop handler of client.go):
      Connect, Reconnect and Close.  LifeState is the state, Lifecycle the handlers
      and the steps (dial, handshake, teardown, probes, permits, loops), Connect the
      two operations.  LifeLogic and LifeInv are the program logic they are proved in:
      triples, and a traversal that carries an invariant through every operation.
      LifeFacts: the invariants of sockets and of a closed session; ConnectFacts: the
      contracts; ReconnectFacts: liveness; LifeTerm: termination; LifeWitness:
      concrete environments.
    - Watch, WatchFacts (cmd_notification.go): the heartbeat watcher, one function per
      tick.  Orphan, OrphanFacts: the deletion of handles nobody owns.  Subscribe,
      SubscribeFacts (notification_api.go, cmd_notification.go, cmd_sum.go): subscribing
      one symbol; giving subscriptions back, request and bookkeeping together.
    - Options, OptionsFacts, OptionsLife (session_options.go, session.go [NewSession]):
      the configuration as a record, each option a function on it, the defaults, the
      discovery of an incomplete target; what the configuration means for Connect and
      for a route.
    - RuntimeWatch, RuntimeFacts (session.go): the poll of the runtime state and the gate
      it feeds, as a list of events of one session.
    - StaleReload, StaleReloadFacts (session.go): what the detection of a stale cache
      starts, cut where a goroutine waits, as a list of actions.
    - Peer, PeerFacts (client.go, session.go): Dial, the handshake counter, the verdict on
      a drop; the connections the PLC opens, their adoption and teardown.  PeerMemory:
      what the sessions of a process remember about devices that answer on such
      connections only.  RawClient, RawFacts: the goroutines of a client used on its own,
      the callbacks they run, and its Close.
    - Shutdown, ShutdownFacts (session.go): the gates of background goroutines, what
      Close and a teardown wait for, what Close releases, as interleaved steps.
    - Redial, RedialFacts (session.go): Close and a reconnect in flight, statement by
      statement, with the bound on how long Close waits.  Report (notification_api.go,
      client.go, symbols.go, batch_result.go): when a rate-limited or latched record is
      written, and the message of a batch error.
    - Browse, BrowseFacts, ListingFacts (browse.go): the table as a tree to walk.

    What the theorems show. Wire formats: encoders and parsers are inverse, the
    parsers never panic and read no more than they are given. Optimised paths: the
    sum commands return what the single commands return, and leave the device in the
    same state. Concurrency: a reply only ever reaches the request that asked for
    it, the request table holds requests in flight and nothing else, a drop lets every
    one of them return and empties it, a closed session stays closed and one closer wins, the registry invariants hold under
    every interleaving, a batch accounts for every handle the PLC created, and giving
    back a batch is giving back its handles one by one.
    Values: what is read can be written back, for every type and canonical value;
    out-of-range integers are refused; a failed decode does not affect the next. Policies: delays are monotone and capped,
    reloads are bounded in every window. Access: a batch reports one outcome for
    every name, a write is never answered from the value cached before it.
    Discovery: a chunked download ends and returns what one request would, the slow
    and the fast loader install the same table, a loader that fails installs
    nothing. Browsing: the answer does not depend on the order of Go's maps, and
    every symbol the PLC listed is found by walking down from the root. Watching:
    silence and missing subscriptions are noticed on time, a session whose beats
    arrive is left alone, stray handles are deleted a few at a time and never those
    in use, one subscribe is a batch of one. Lifecycle: a failed Connect leaves no
    socket, one that succeeded holds at most one and adopts a drop on record, a drop
    during a reconnect is not lost, both return, and a session reconnects once its
    PLC is back. Construction: only options of one kind depend on their order, every
    session is configured within what its components assume, and NewSession asks the
    device for what is missing of the address and fills in only that. Reloading: one at
    a time, within its budget, over after five steps. Closing: no wait group is misused,
    nothing runs when Close has returned, every Close can return, and the handles the
    PLC held are given back; however a reconnect in flight interleaves with Close, no
    socket and no workers outlive both; a raw client's Close returns exactly when it was not called
    from one of its own callbacks. Delivery: every sample on the wire is dispatched
    once, those of a subscription in order, and reaches the caller's channel while it has
    room, however the goroutines interleave. Where the code does not do what it means to, a theorem exhibits it:
    a declaration lost by a partly refused recovery, an early sample lost in one
    interleaving, replies that pin a worker, a cyclic datatype that the depth cap
    does not contain, a member offset that panics, times that do not survive a round
    trip, patience that overflows, a drop between publication and probe that strands
    the session, sockets leaked by a second Connect and by a close during the first
    dial, global variables of TwinCAT 2 that browsing cannot reach, a heartbeat
    watcher that ends with the first reconnect it triggers, a recovery let in before
    Close that registers after its release, marks of a reload that outlive the handles
    they were put on or are lost on a full channel, an alias of a time type that
    BaseTypeName misnames, a Close that returns before a reconnect has ended, a batch
    delete during a recovery that costs the caller every other subscription.

    Conventions. A Go [(value, error)] is [res]: [Ok], [Err], or [Panic] for a run-
    time panic. Unsigned integers wrap explicitly ([u8] ... [u64]), signed ones are
    reinterpreted ([i8] ... [i64]); [int] is 64 bits wide. Loops that are not
    structural take fuel computed from the input length and answer [Panic] if it ran
    out, so the no-panic theorems also prove the fuel sufficient: one unit per byte
    for the parsers (each round consumes at least one), two rounds for type
    resolution in the codec, 256 levels for member expansion (the code's own cap);
    one round per byte asked for in a chunked download; for the activation window,
    its length over the shortest pause; for the reconnect loop, one round more than
    the attempts it may make. Go maps are [gmap]s where order does not matter and
    association lists where it does. Time is an integer of nanoseconds and an
    argument.

    Parameters, with what is assumed of them stated as named hypotheses where it is
    used: the transport below [Client], the environment of a session ([Env]: what
    the network and the clock answer, and at each blocking point the drops, frames,
    closes and incoming connections that the other goroutines produced meanwhile),
    what other goroutines did to the symbol cache while a request was out
    ([interfere]), the text of floating-point numbers and of JSON ([FloatText],
    [JsonText]: Go's strconv and encoding/json), the outcome of resolving a symbol
    name in a batch.

    Not modelled, and why: sockets, name resolution, timers and keep-alive settings,
    which are the operating system's (their results are events or script entries); the
    records the library logs and the loggers they go to, which nothing reads back
    (when a rate-limited record is written is Report); the detection of containers and
    of NAT, which only logs; requests of the caller that are under way when Close is
    called, apart from their release by the drop of the client (Mux); the command-line
    example, which only calls the public operations. Symbol names are taken to be
    ASCII, as TwinCAT identifiers are, so case folding is [to_lower] on ASCII. The flat
    table of Access and the tree of Window are two views of one cache; a change made
    through one is not carried to the other. *)
From Stdlib Require Import ZArith Lia.
From Stdlib Require Export Strings.Byte Strings.String.
From stdpp Require Export base tactics list numbers strings gmap.

Declare Scope ads_scope.
Delimit Scope ads_scope with ads.
Global Open Scope Z_scope.
Global Open Scope ads_scope.

Create HintDb ads.
Create HintDb len.
Create HintDb wire.

(** ** Go errors *)

(** The package-level sentinel errors the modelled code compares against. *)
Inductive sentinel : Type :=
| ErrTransportClosed
| ErrDisconnected
| ErrRuntimeNotRunning
| ErrDeadlineExceeded
| ErrCanceled
| ErrEOF
| ErrConnReset
| ErrBatchSymbolUnresolved
| ErrBatchValueUnserializable
| ErrBatchValueUnparsable
| ErrBatchSymbolVanished
| ErrBatchNoResult
| ErrNotificationTransportFailure
| ErrNotificationDuplicate
| ErrNotificationChannelMismatch
| ErrNotificationSymbolVanished
| ErrNotificationStrandedByReload
| ErrRouteNotServed
| ErrEstablishedDropped
| ErrRouterUnresponsive.

#[export] Instance sentinel_eq_dec : EqDecision sentinel.
Proof. solve_decision. Defined.

(** An [error] value. [EMsg] is an error that wraps nothing ([errors.New],
    [fmt.Errorf] without [%w]; only the static text is kept). [ECode] is a
    [ReturnCode] used as an error, [EAMS] an [AMSError]. [EWrap] is
    [fmt.Errorf("...: %w", e)], [EWrap2] is [fmt.Errorf("%w: %w", e1, e2)]. *)
Inductive goerr : Type :=
| EMsg (msg : string)
| ECode (rc : Z)
| EAMS (rc : Z)
| ESentinel (s : sentinel)
| EWrap (msg : string) (e : goerr)
| EWrap2 (e1 e2 : goerr).

#[export] Instance goerr_eq_dec : EqDecision goerr.
Proof. solve_decision. Defined.

(** [var rc ReturnCode; errors.As(err, &rc)]: the first [ReturnCode] of a
    pre-order walk of the chain.  [AMSError] has no [Unwrap], so the walk stops
    at it (transport.go, the comment on [AMSError.Is]). *)
Fixpoint errors_as_code (e : goerr) : option Z :=
  match e with
  | ECode rc => Some rc
  | EMsg _ | EAMS _ | ESentinel _ => None
  | EWrap _ e' => errors_as_code e'
  | EWrap2 e1 e2 =>
      match errors_as_code e1 with Some rc => Some rc | None => errors_as_code e2 end
  end.

(** [var a AMSError; errors.As(err, &a)]. *)
Fixpoint errors_as_ams (e : goerr) : option Z :=
  match e with
  | EAMS rc => Some rc
  | EMsg _ | ECode _ | ESentinel _ => None
  | EWrap _ e' => errors_as_ams e'
  | EWrap2 e1 e2 =>
      match errors_as_ams e1 with Some rc => Some rc | None => errors_as_ams e2 end
  end.

(** [errors.Is(err, s)] for a sentinel. *)
Fixpoint errors_is (s : sentinel) (e : goerr) : bool :=
  match e with
  | ESentinel s' => bool_decide (s = s')
  | EMsg _ | ECode _ | EAMS _ => false
  | EWrap _ e' => errors_is s e'
  | EWrap2 e1 e2 => errors_is s e1 || errors_is s e2
  end.

(** [errors.Is(err, rc)] for a [ReturnCode]: [==] on a [ReturnCode], the [Is]
    method on an [AMSError]. *)
Fixpoint errors_is_code (rc : Z) (e : goerr) : bool :=
  match e with
  | ECode c | EAMS c => c =? rc
  | EMsg _ | ESentinel _ => false
  | EWrap _ e' => errors_is_code rc e'
  | EWrap2 e1 e2 => errors_is_code rc e1 || errors_is_code rc e2
  end.

(** ** Results: a Go [(value, error)] pair, or a run-time panic *)

Inductive res (A : Type) : Type :=
| Ok (a : A)
| Err (e : goerr)
| Panic.
Arguments Ok {A} a.
Arguments Err {A} e.
Arguments Panic {A}.

#[export] Instance res_ret : MRet res := fun A a => Ok a.
#[export] Instance res_bind : MBind res := fun A B f m =>
  match m with Ok a => f a | Err e => Err e | Panic => Panic end.
#[export] Instance res_fmap : FMap res := fun A B f m =>
  match m with Ok a => Ok (f a) | Err e => Err e | Panic => Panic end.

(** [if cond { return ..., err }]. *)
Definition fail_if (b : bool) (e : goerr) : res unit := if b then Err e else Ok tt.

(** [fmt.Errorf("msg: %w", err)] on the error path of a call. *)
Definition wrap_err {A} (msg : string) (m : res A) : res A :=
  match m with Err e => Err (EWrap msg e) | _ => m end.

Definition is_ok {A} (m : res A) : bool := match m with Ok _ => true | _ => false end.
Definition is_err {A} (m : res A) : bool := match m with Err _ => true | _ => false end.

(** [p != nil]. *)
Definition is_Some_b {A} (o : option A) : bool := match o with Some _ => true | None => false end.

(** A computation that never panics. *)
Definition no_panic {A} (m : res A) : Prop := m <> Panic.

Lemma bind_Ok {A B} (m : res A) (f : A -> res B) b :
  (m ≫= f) = Ok b <-> exists a, m = Ok a /\ f a = Ok b.
Proof.
  destruct m as [a|e|]; cbn; split; intros H.
  1: by exists a.
  1: by destruct H as (? & [= <-] & ?).
  all: try discriminate; by destruct H as (? & ? & ?).
Qed.

Lemma bind_Panic {A B} (m : res A) (f : A -> res B) :
  (m ≫= f) = Panic <-> m = Panic \/ exists a, m = Ok a /\ f a = Panic.
Proof.
  destruct m as [a|e|]; cbn; split; intros H; auto.
  1: right; by exists a.
  1: by destruct H as [|(? & [= <-] & ?)].
  all: try discriminate; by destruct H as [|(? & ? & ?)].
Qed.

Lemma no_panic_bind {A B} (m : res A) (f : A -> res B) :
  no_panic m -> (forall a, m = Ok a -> no_panic (f a)) -> no_panic (m ≫= f).
Proof. unfold no_panic; intros Hm Hf. destruct m; cbn; auto. Qed.

Lemma no_panic_Ok {A} (a : A) : no_panic (Ok a).
Proof. discriminate. Qed.
Lemma no_panic_Err {A} e : no_panic (@Err A e).
Proof. discriminate. Qed.
Lemma no_panic_fail_if b e : no_panic (fail_if b e).
Proof. by destruct b. Qed.
Lemma no_panic_wrap {A} msg (m : res A) : no_panic m -> no_panic (wrap_err msg m).
Proof. by destruct m. Qed.
#[export] Hint Resolve no_panic_Ok no_panic_Err no_panic_fail_if no_panic_wrap : ads.

Lemma fail_if_Ok b e u : fail_if b e = Ok u <-> b = false.
Proof. by destruct b, u. Qed.

(** ** Automation *)

(** Decompose [m ≫= f = Ok b] hypotheses and boolean guards. *)
Ltac res_inv :=
  repeat match goal with
  | H : mbind _ _ = Ok _ |- _ => apply bind_Ok in H as (? & ? & H)
  | H : fail_if _ _ = Ok _ |- _ => apply fail_if_Ok in H
  | H : Ok _ = Ok _ |- _ => injection H as H; try subst
  | H : Err _ = Ok _ |- _ => discriminate H
  | H : Panic = Ok _ |- _ => discriminate H
  | H : (_ && _)%bool = true |- _ => apply andb_prop in H as [? ?]
  | H : (_ || _)%bool = false |- _ => apply orb_false_elim in H as [? ?]
  end.

(** Turn boolean comparisons on Z into arithmetic. *)
Ltac zbool :=
  repeat match goal with
  | H : (_ <? _) = true |- _ => apply Z.ltb_lt in H
  | H : (_ <? _) = false |- _ => apply Z.ltb_ge in H
  | H : (_ <=? _) = true |- _ => apply Z.leb_le in H
  | H : (_ <=? _) = false |- _ => apply Z.leb_gt in H
  | H : (_ =? _) = true |- _ => apply Z.eqb_eq in H
  | H : (_ =? _) = false |- _ => apply Z.eqb_neq in H
  end.

(** Case analysis on the guard of an [if] or scrutinee of a [match] in the goal. *)
Ltac case_if :=
  match goal with
  | |- context [if ?b then _ else _] => let E := fresh "E" in destruct b eqn:E
  end.
Ltac case_match_goal :=
  match goal with
  | |- context [match ?b with _ => _ end] => let E := fresh "E" in destruct b eqn:E
  end.

(** ** Machine integers: a [w]-bit value is a [Z] with its wrap-around *)

Definition wrap_u (w z : Z) : Z := z mod 2 ^ w.
Definition u8 : Z -> Z := wrap_u 8.
Definition u16 : Z -> Z := wrap_u 16.
Definition u32 : Z -> Z := wrap_u 32.
Definition u64 : Z -> Z := wrap_u 64.
Definition wrap_s (w z : Z) : Z :=
  let u := z mod 2 ^ w in if u <? 2 ^ (w - 1) then u else u - 2 ^ w.
Definition i8 : Z -> Z := wrap_s 8.
Definition i16 : Z -> Z := wrap_s 16.
Definition i32 : Z -> Z := wrap_s 32.
Definition i64 : Z -> Z := wrap_s 64.
Definition in_u (w z : Z) : Prop := 0 <= z < 2 ^ w.
Definition in_s (w z : Z) : Prop := - 2 ^ (w - 1) <= z < 2 ^ (w - 1).
Abbreviation MaxUint32 := (2 ^ 32 - 1).
Abbreviation MaxInt32 := (2 ^ 31 - 1).

Lemma wrap_u_range w z : 0 <= w -> in_u w (wrap_u w z).
Proof. intros. unfold in_u, wrap_u. apply Z.mod_pos_bound. lia. Qed.

Lemma wrap_u_small w z : in_u w z -> wrap_u w z = z.
Proof. apply Z.mod_small. Qed.

Lemma wrap_s_range w z : 0 < w -> in_s w (wrap_s w z).
Proof.
  intros. unfold in_s, wrap_s.
  pose proof (Z.mod_pos_bound z (2 ^ w) ltac:(lia)).
  assert (2 ^ w = 2 * 2 ^ (w - 1)) by (rewrite <- Z.pow_succ_r by lia; f_equal; lia).
  destruct (Z.ltb_spec (z mod 2 ^ w) (2 ^ (w - 1))); lia.
Qed.

(** Reinterpreting the two's complement pattern of a signed value. *)
Lemma wrap_s_wrap_u w z : 0 < w -> in_s w z -> wrap_s w (wrap_u w z) = z.
Proof.
  intros Hw Hz. unfold in_s, wrap_s, wrap_u in *.
  assert (2 ^ w = 2 * 2 ^ (w - 1)) by (rewrite <- Z.pow_succ_r by lia; f_equal; lia).
  rewrite Z.mod_mod by lia.
  destruct (Z.leb_spec 0 z).
  - rewrite Z.mod_small by lia. destruct (Z.ltb_spec z (2 ^ (w - 1))); lia.
  - assert (E : z mod 2 ^ w = z + 2 ^ w).
    { symmetry. apply Z.mod_unique_pos with (q := -1); lia. }
    rewrite E. destruct (Z.ltb_spec (z + 2 ^ w) (2 ^ (w - 1))); lia.
Qed.

(** ** Lists and options *)

(** Go's [len]. *)
Definition len {A} (l : list A) : Z := Z.of_nat (length l).

Lemma len_nonneg {A} (l : list A) : 0 <= len l.
Proof. unfold len. lia. Qed.
Lemma len_nil {A} : len (@nil A) = 0.
Proof. done. Qed.
Lemma len_cons {A} (a : A) l : len (a :: l) = 1 + len l.
Proof. unfold len. cbn [length]. lia. Qed.
Lemma len_app {A} (l k : list A) : len (l ++ k) = len l + len k.
Proof. unfold len. rewrite length_app. lia. Qed.
Lemma len_take {A} n (l : list A) : len (take n l) = Z.min (Z.of_nat n) (len l).
Proof. unfold len. rewrite length_take. lia. Qed.
Lemma len_drop {A} n (l : list A) : len (drop n l) = Z.max 0 (len l - Z.of_nat n).
Proof. unfold len. rewrite length_drop. lia. Qed.
Lemma len_replicate {A} n (a : A) : len (replicate n a) = Z.of_nat n.
Proof. unfold len. by rewrite length_replicate. Qed.
Lemma len_map {A B} (f : A -> B) l : len (map f l) = len l.
Proof. unfold len. by rewrite length_map. Qed.
#[export] Hint Rewrite @len_nil @len_cons @len_app @len_take @len_drop @len_replicate @len_map : len.
#[export] Hint Resolve len_nonneg : ads.

(** Normalise lengths, then [lia]. *)
Ltac len_lia :=
  repeat match goal with
  | l : list _ |- _ => lazymatch goal with
      | _ : 0 <= len l |- _ => fail | _ => pose proof (len_nonneg l) end
  end; autorewrite with len in *; unfold len in *; try lia.

Lemma take_app_len {A} (n : nat) (l k : list A) : length l = n -> take n (l ++ k) = l.
Proof. intros <-. apply take_app_length. Qed.
Lemma drop_app_len {A} (n : nat) (l k : list A) : length l = n -> drop n (l ++ k) = k.
Proof. intros <-. apply drop_app_length. Qed.

(** A loop over a list in a monad-like result type. *)
Fixpoint mapM_res {A B} (f : A -> res B) (l : list A) : res (list B) :=
  match l with
  | [] => Ok []
  | a :: l => b ← f a; bs ← mapM_res f l; Ok (b :: bs)
  end.

Lemma mapM_res_length {A B} (f : A -> res B) l bs : mapM_res f l = Ok bs -> length bs = length l.
Proof.
  revert bs. induction l as [|a l IH]; cbn; intros bs H; res_inv; [done|].
  cbn. f_equal. eauto.
Qed.
