(* ===== verification/Wire.v ===== *)
(** Wire primitives shared by every component: bytes, little-endian integers
    ([encoding/binary]), Go slices with their bounds checks, the sequential
    reads of a [bytes.Buffer], and the decimal conversions of [strconv]. *)
From S2P Require Import Prelude.
From Stdlib Require Import Ascii.

(** ** Bytes *)

Abbreviation byte := Byte.byte.
Abbreviation bytes := (list Byte.byte).

Definition Z_of_byte (b : byte) : Z := Z.of_N (Byte.to_N b).
Definition byte_of_Z (z : Z) : byte :=
  match Byte.of_N (Z.to_N (z mod 256)) with Some b => b | None => Byte.x00 end.

#[export] Instance byte_eq_dec : EqDecision byte.
Proof. intros x y. destruct (Byte.byte_eq_dec x y); [left|right]; done. Defined.

Lemma Z_of_byte_range b : 0 <= Z_of_byte b < 256.
Proof. unfold Z_of_byte. pose proof (Byte.to_N_bounded b). lia. Qed.

Lemma byte_of_Z_of_byte b : byte_of_Z (Z_of_byte b) = b.
Proof.
  unfold byte_of_Z. rewrite Z.mod_small by apply Z_of_byte_range.
  unfold Z_of_byte. by rewrite N2Z.id, Byte.of_to_N.
Qed.

Lemma Z_of_byte_of_Z z : Z_of_byte (byte_of_Z z) = z mod 256.
Proof.
  unfold byte_of_Z, Z_of_byte. pose proof (Z.mod_pos_bound z 256 ltac:(lia)).
  destruct (Byte.of_N _) as [b|] eqn:E.
  - apply Byte.to_of_N in E. lia.
  - apply Byte.of_N_None_iff in E. lia.
Qed.

Lemma Z_of_byte_inj a b : Z_of_byte a = Z_of_byte b -> a = b.
Proof. intros E. by rewrite <- (byte_of_Z_of_byte a), E, byte_of_Z_of_byte. Qed.

#[export] Hint Rewrite byte_of_Z_of_byte Z_of_byte_of_Z : wire.

(** ** Little-endian integers *)

Fixpoint le_put (n : nat) (z : Z) : bytes :=
  match n with
  | O => []
  | S n => byte_of_Z z :: le_put n (z / 256)
  end.

Fixpoint le_get (bs : bytes) : Z :=
  match bs with
  | [] => 0
  | b :: bs => Z_of_byte b + 256 * le_get bs
  end.

Abbreviation put_u16 := (le_put 2).
Abbreviation put_u32 := (le_put 4).
Abbreviation put_u64 := (le_put 8).

Lemma length_le_put n z : length (le_put n z) = n.
Proof. revert z; induction n; intros; cbn; auto. Qed.

Lemma len_le_put n z : len (le_put n z) = Z.of_nat n.
Proof. unfold len. by rewrite length_le_put. Qed.
#[export] Hint Rewrite len_le_put : len.

Lemma le_get_put n z : le_get (le_put n z) = z mod 2 ^ (8 * Z.of_nat n).
Proof.
  revert z; induction n as [|n IH]; intros z; cbn [le_put le_get].
  - by rewrite Z.mod_1_r.
  - rewrite IH, Z_of_byte_of_Z.
    replace (8 * Z.of_nat (S n)) with (8 + 8 * Z.of_nat n) by lia.
    rewrite Z.pow_add_r by lia. change (2 ^ 8) with 256.
    rewrite Z.rem_mul_r by lia. done.
Qed.

Lemma le_get_bound bs : 0 <= le_get bs < 2 ^ (8 * len bs).
Proof.
  induction bs as [|b bs IH]; cbn [le_get]; [by cbn|].
  pose proof (Z_of_byte_range b). rewrite len_cons.
  replace (8 * (1 + len bs)) with (8 + 8 * len bs) by lia.
  rewrite Z.pow_add_r by (unfold len; lia). change (2 ^ 8) with 256. lia.
Qed.

Lemma le_put_get bs : le_put (length bs) (le_get bs) = bs.
Proof.
  induction bs as [|b bs IH]; [done|]. cbn [length le_put le_get].
  pose proof (Z_of_byte_range b). f_equal.
  - apply Z_of_byte_inj. rewrite Z_of_byte_of_Z.
    rewrite (Z.mul_comm 256), Z_mod_plus_full. by apply Z.mod_small.
  - rewrite (Z.mul_comm 256), Z_div_plus_full by lia.
    rewrite Z.div_small by lia. apply IH.
Qed.

Lemma le_get_put_small n z : 0 <= z < 2 ^ (8 * Z.of_nat n) -> le_get (le_put n z) = z.
Proof. intros. by rewrite le_get_put, Z.mod_small. Qed.

Lemma le_put_inj n a b : le_put n a = le_put n b ->
  a mod 2 ^ (8 * Z.of_nat n) = b mod 2 ^ (8 * Z.of_nat n).
Proof. intros E. by rewrite <- !le_get_put, E. Qed.

Lemma le_put_mod n z : le_put n (z mod 2 ^ (8 * Z.of_nat n)) = le_put n z.
Proof.
  rewrite <- (le_put_get (le_put n z)), length_le_put, le_get_put. done.
Qed.

Lemma le_put_0 n : le_put n 0 = replicate n Byte.x00.
Proof. induction n; cbn; [done|]. f_equal; done. Qed.

(** ** Slices

    [data[lo:hi]], [data[i]] and [binary.LittleEndian.UintNN(data[off:])] with
    the panics of the Go runtime.  (A slice expression may extend up to the
    capacity; every slice taken in the modelled code is bounded by the length or
    by a prior bound on it, so the length is used.)  [int] is 64-bit. *)

Definition slice {A} (l : list A) (lo hi : Z) : res (list A) :=
  if (0 <=? lo) && (lo <=? hi) && (hi <=? len l)
  then Ok (take (Z.to_nat (hi - lo)) (drop (Z.to_nat lo) l)) else Panic.

Definition slice_from {A} (l : list A) (lo : Z) : res (list A) := slice l lo (len l).

Definition index {A} (l : list A) (i : Z) : res A :=
  if i <? 0 then Panic
  else match l !! Z.to_nat i with Some a => Ok a | None => Panic end.

Definition le_uint (n : nat) (bs : bytes) : res Z :=
  if len bs <? Z.of_nat n then Panic else Ok (le_get (take n bs)).

Definition uint_at (n : nat) (bs : bytes) (off : Z) : res Z :=
  b ← slice_from bs off; le_uint n b.

Abbreviation u16_at := (uint_at 2).
Abbreviation u32_at := (uint_at 4).
Abbreviation u64_at := (uint_at 8).

Lemma slice_Ok {A} (l : list A) lo hi :
  0 <= lo <= hi -> hi <= len l ->
  slice l lo hi = Ok (take (Z.to_nat (hi - lo)) (drop (Z.to_nat lo) l)).
Proof.
  intros. unfold slice.
  by rewrite !(proj2 (Z.leb_le _ _)) by lia.
Qed.

Lemma slice_panic {A} (l : list A) lo hi :
  lo < 0 \/ hi < lo \/ len l < hi -> slice l lo hi = Panic.
Proof.
  intros H. unfold slice. case_if; [|done].
  rewrite !andb_true_iff, !Z.leb_le in E. lia.
Qed.

Lemma slice_from_Ok {A} (l : list A) lo :
  0 <= lo <= len l -> slice_from l lo = Ok (drop (Z.to_nat lo) l).
Proof.
  intros. unfold slice_from. rewrite slice_Ok by lia.
  rewrite firstn_all2; [done|]. rewrite length_drop. unfold len. lia.
Qed.

Lemma uint_at_Ok n bs off :
  0 <= off -> off + Z.of_nat n <= len bs ->
  uint_at n bs off = Ok (le_get (take n (drop (Z.to_nat off) bs))).
Proof.
  intros. unfold uint_at. rewrite slice_from_Ok by lia. cbn. unfold le_uint.
  rewrite len_drop. by rewrite (proj2 (Z.ltb_ge _ _)) by lia.
Qed.

Lemma uint_at_app n pre z post off :
  len pre = off -> uint_at n (pre ++ le_put n z ++ post) off = Ok (z mod 2 ^ (8 * Z.of_nat n)).
Proof.
  intros <-. rewrite uint_at_Ok by len_lia.
  unfold len. rewrite Nat2Z.id, drop_app_len, take_app_len by (done || apply length_le_put).
  by rewrite le_get_put.
Qed.

Lemma no_panic_uint_at n bs off :
  0 <= off -> off + Z.of_nat n <= len bs -> no_panic (uint_at n bs off).
Proof. intros. by rewrite uint_at_Ok. Qed.

Lemma no_panic_slice {A} (l : list A) lo hi :
  0 <= lo <= hi -> hi <= len l -> no_panic (slice l lo hi).
Proof. intros. by rewrite slice_Ok. Qed.
#[export] Hint Resolve no_panic_uint_at no_panic_slice : ads.

Lemma slice_mid {A} (pre m post : list A) lo hi :
  len pre = lo -> hi = lo + len m -> slice (pre ++ m ++ post) lo hi = Ok m.
Proof.
  intros <- ->. rewrite slice_Ok by len_lia.
  replace (len pre + len m - len pre) with (len m) by lia.
  unfold len. rewrite !Nat2Z.id, drop_app_len, take_app_len by done. done.
Qed.

(** ** Sequential reads of a [bytes.Buffer]

    The buffer is the list of its unread bytes.  [binary.Read] of a fixed-size
    value fails with [io.EOF] / [io.ErrUnexpectedEOF] when too few bytes are
    left; [Next] takes what is there. *)

Definition read_full (n : Z) (buf : bytes) : res (bytes * bytes) :=
  if len buf <? n then Err (ESentinel ErrEOF)
  else Ok (take (Z.to_nat n) buf, drop (Z.to_nat n) buf).

Definition read_uint (n : nat) (buf : bytes) : res (Z * bytes) :=
  '(b, buf) ← read_full (Z.of_nat n) buf; Ok (le_get b, buf).

Abbreviation read_u8 := (read_uint 1).
Abbreviation read_u16 := (read_uint 2).
Abbreviation read_u32 := (read_uint 4).
Abbreviation read_u64 := (read_uint 8).

Definition buf_next (n : Z) (buf : bytes) : bytes * bytes :=
  (take (Z.to_nat n) buf, drop (Z.to_nat n) buf).

Lemma read_full_app bs rest n : len bs = n -> read_full n (bs ++ rest) = Ok (bs, rest).
Proof.
  intros <-. unfold read_full. rewrite len_app.
  rewrite (proj2 (Z.ltb_ge _ _)) by (pose proof (len_nonneg rest); lia).
  unfold len. by rewrite Nat2Z.id, take_app_len, drop_app_len.
Qed.

Lemma read_uint_app n z rest :
  read_uint n (le_put n z ++ rest) = Ok (z mod 2 ^ (8 * Z.of_nat n), rest).
Proof.
  unfold read_uint. rewrite read_full_app by apply len_le_put. cbn. by rewrite le_get_put.
Qed.

Lemma read_full_Ok n buf b rest :
  read_full n buf = Ok (b, rest) -> 0 <= n -> buf = b ++ rest /\ len b = n.
Proof.
  unfold read_full. case_if; [done|]. intros [= <- <-] Hn. zbool.
  rewrite take_drop. split; [done|]. len_lia.
Qed.

Lemma read_full_enough n buf : 0 <= n <= len buf ->
  read_full n buf = Ok (take (Z.to_nat n) buf, drop (Z.to_nat n) buf).
Proof. intros. unfold read_full. by rewrite (proj2 (Z.ltb_ge _ _)) by lia. Qed.

Lemma read_uint_enough n buf : Z.of_nat n <= len buf ->
  read_uint n buf = Ok (le_get (take n buf), drop n buf).
Proof. intros. unfold read_uint. rewrite read_full_enough by lia. cbn. by rewrite Nat2Z.id. Qed.

Lemma read_uint_Ok n buf z rest :
  read_uint n buf = Ok (z, rest) ->
  exists b, buf = b ++ rest /\ length b = n /\ z = le_get b.
Proof.
  unfold read_uint. intros H. res_inv.
  destruct x as [b r]. injection H as <- <-.
  match goal with E : read_full _ _ = _ |- _ => apply read_full_Ok in E as [-> Hl]; [|lia] end.
  exists b. unfold len in Hl. split_and!; (done || lia).
Qed.

Lemma read_uint_range n buf z rest : read_uint n buf = Ok (z, rest) -> in_u (8 * Z.of_nat n) z.
Proof.
  intros (b & _ & Hl & ->)%read_uint_Ok. unfold in_u.
  pose proof (le_get_bound b). unfold len in *. by subst n.
Qed.

Lemma no_panic_read_full n buf : no_panic (read_full n buf).
Proof. unfold read_full. by case_if. Qed.
Lemma no_panic_read_uint n buf : no_panic (read_uint n buf).
Proof. unfold read_uint, read_full. by case_if. Qed.
#[export] Hint Resolve no_panic_read_full no_panic_read_uint : ads.

Lemma buf_next_app d rest : buf_next (len d) (d ++ rest) = (d, rest).
Proof. unfold buf_next, len. by rewrite Nat2Z.id, take_app_len, drop_app_len. Qed.

(** ** Strings *)

Definition bytes_of_string (s : string) : bytes := list_byte_of_string s.
Definition string_of_bytes (b : bytes) : string := string_of_list_byte b.

Lemma string_of_bytes_of_string s : string_of_bytes (bytes_of_string s) = s.
Proof. apply string_of_list_byte_of_string. Qed.
Lemma bytes_of_string_of_bytes b : bytes_of_string (string_of_bytes b) = b.
Proof. apply list_byte_of_string_of_list_byte. Qed.

(** [bytes.IndexByte(b, c)], as the number of bytes before the first [c]. *)
Fixpoint index_byte (c : byte) (b : bytes) : option nat :=
  match b with
  | [] => None
  | x :: b => if decide (x = c) then Some O else S <$> index_byte c b
  end.

(** The bytes up to the first NUL. *)
Definition until_nul (b : bytes) : bytes :=
  match index_byte Byte.x00 b with Some i => take i b | None => b end.

Lemma index_byte_None c b : index_byte c b = None <-> c ∉ b.
Proof.
  induction b as [|x b IH]; cbn; [split; [by intros _ ?%elem_of_nil|done]|].
  destruct (decide (x = c)) as [->|Hne].
  - split; [done|]. intros H. exfalso. apply H. constructor.
  - destruct (index_byte c b); cbn; rewrite elem_of_cons.
    + split; [done|]. intros H. exfalso. apply H. right.
      destruct (decide (c ∈ b)); [done|]. by apply IH in n0.
    + split; [|done]. intros _ [->|Hin]; [done|]. by apply IH in Hin.
Qed.

Lemma until_nul_no_nul b : Byte.x00 ∉ b -> until_nul b = b.
Proof. intros H%index_byte_None. unfold until_nul. by rewrite H. Qed.

Lemma until_nul_app b rest : Byte.x00 ∉ b -> until_nul (b ++ Byte.x00 :: rest) = b.
Proof.
  intros H. unfold until_nul.
  assert (E : index_byte Byte.x00 (b ++ Byte.x00 :: rest) = Some (length b)).
  { induction b as [|x b IH]; cbn.
    - by rewrite decide_True by done.
    - rewrite elem_of_cons in H. rewrite decide_False by naive_solver.
      rewrite IH by naive_solver. done. }
  rewrite E. by apply take_app_len.
Qed.
