(* ===== verification/Strconv.v ===== *)
(** The text conversions of [strconv], [strings] and [fmt] the modelled code
    uses: decimal and hexadecimal integers, [strings.Split] on a separator byte,
    ASCII lower-casing, joins. *)
From S2P Require Import Prelude Wire.
From Stdlib Require Import Ascii.

(** ** Decimal digits *)

Definition digit_char (d : Z) : ascii := ascii_of_nat (Z.to_nat (48 + d)).
Definition char_Z (c : ascii) : Z := Z.of_nat (nat_of_ascii c).
Definition char_digit (c : ascii) : option Z :=
  let v := char_Z c in if (48 <=? v) && (v <=? 57) then Some (v - 48) else None.

Lemma char_Z_digit d : 0 <= d < 10 -> char_Z (digit_char d) = 48 + d.
Proof.
  intros. unfold char_Z, digit_char. rewrite nat_ascii_embedding by lia. lia.
Qed.

Lemma char_digit_char d : 0 <= d < 10 -> char_digit (digit_char d) = Some d.
Proof.
  intros. unfold char_digit. rewrite char_Z_digit by lia.
  rewrite !(proj2 (Z.leb_le _ _)) by lia. cbn. f_equal. lia.
Qed.

(** Digits, least significant first. *)
Fixpoint dec_digits (fuel : nat) (z : Z) : list Z :=
  match fuel with
  | O => []
  | S f => if z <? 10 then [z] else z mod 10 :: dec_digits f (z / 10)
  end.

Definition dec_fuel (z : Z) : nat := S (Z.to_nat (Z.log2 z)).

(** [strconv.FormatUint(z, 10)]. *)
Definition format_uint (z : Z) : string :=
  String.string_of_list_ascii (rev (map digit_char (dec_digits (dec_fuel z) z))).

(** [strconv.FormatInt(z, 10)]. *)
Definition format_int (z : Z) : string :=
  if z <? 0 then String.String "-" (format_uint (- z)) else format_uint z.

Fixpoint parse_digits (acc : Z) (s : list ascii) : option Z :=
  match s with
  | [] => Some acc
  | c :: s => match char_digit c with
              | Some d => parse_digits (10 * acc + d) s
              | None => None
              end
  end.

(** [strconv.ParseUint(s, 10, bits)]. *)
Definition parse_uint (bits : Z) (s : string) : res Z :=
  match String.list_ascii_of_string s with
  | [] => Err (EMsg "strconv.ParseUint: invalid syntax")
  | cs => match parse_digits 0 cs with
          | None => Err (EMsg "strconv.ParseUint: invalid syntax")
          | Some v => if v <? 2 ^ bits then Ok v
                      else Err (EMsg "strconv.ParseUint: value out of range")
          end
  end.

(** [strconv.ParseInt(s, 10, bits)]: an optional sign, then decimal digits. *)
Definition parse_int (bits : Z) (s : string) : res Z :=
  let '(neg, ds) := match String.list_ascii_of_string s with
                    | c :: cs => if Ascii.eqb c "-" then (true, cs)
                                 else if Ascii.eqb c "+" then (false, cs) else (false, c :: cs)
                    | [] => (false, [])
                    end in
  match ds with
  | [] => Err (EMsg "strconv.ParseInt: invalid syntax")
  | _ => match parse_digits 0 ds with
         | None => Err (EMsg "strconv.ParseInt: invalid syntax")
         | Some v =>
             if neg then (if v <=? 2 ^ (bits - 1) then Ok (- v)
                          else Err (EMsg "strconv.ParseInt: value out of range"))
             else (if v <? 2 ^ (bits - 1) then Ok v
                   else Err (EMsg "strconv.ParseInt: value out of range"))
         end
  end.

Fixpoint dec_value (ds : list Z) : Z :=
  match ds with [] => 0 | d :: ds => d + 10 * dec_value ds end.

Lemma dec_digits_spec fuel z :
  0 <= z < 2 ^ Z.of_nat fuel ->
  dec_value (dec_digits fuel z) = z /\ Forall (fun d => 0 <= d < 10) (dec_digits fuel z).
Proof.
  revert z; induction fuel as [|f IH]; intros z Hz.
  - cbn in *. split; [lia|constructor].
  - cbn [dec_digits]. destruct (Z.ltb_spec z 10).
    + cbn. split; [lia|]. repeat constructor; lia.
    + replace (Z.of_nat (S f)) with (1 + Z.of_nat f) in Hz by lia.
      rewrite Z.pow_add_r in Hz by lia.
      destruct (IH (z / 10)) as [IH1 IH2].
      { split; [apply Z.div_pos; lia|]. apply Z.div_lt_upper_bound; lia. }
      split.
      * cbn. rewrite IH1. pose proof (Z.div_mod z 10). lia.
      * constructor; [|done]. apply Z.mod_pos_bound. lia.
Qed.

Lemma dec_fuel_enough z : 0 <= z -> z < 2 ^ Z.of_nat (dec_fuel z).
Proof.
  intros. unfold dec_fuel. rewrite Nat2Z.inj_succ, Z2Nat.id by apply Z.log2_nonneg.
  destruct (decide (z = 0)) as [->|]; [by cbn|].
  apply Z.log2_spec. lia.
Qed.

Lemma dec_digits_nonempty fuel z : dec_digits (S fuel) z <> [].
Proof. cbn. by case_if. Qed.

Lemma parse_digits_app acc a b :
  parse_digits acc (a ++ b) =
  match parse_digits acc a with Some v => parse_digits v b | None => None end.
Proof.
  revert acc; induction a as [|c a IH]; intros; cbn; [done|].
  destruct (char_digit c); [apply IH|done].
Qed.

Lemma parse_rev_digits ds :
  Forall (fun d => 0 <= d < 10) ds ->
  parse_digits 0 (rev (map digit_char ds)) = Some (dec_value ds).
Proof.
  induction 1 as [|d ds Hd Hds IH]; [done|].
  cbn [map rev dec_value]. rewrite parse_digits_app, IH. cbn [parse_digits].
  rewrite char_digit_char by done. f_equal. lia.
Qed.

Lemma list_ascii_format_uint z :
  String.list_ascii_of_string (format_uint z) = rev (map digit_char (dec_digits (dec_fuel z) z)).
Proof. apply String.list_ascii_of_string_of_list_ascii. Qed.

Lemma parse_digits_format z : 0 <= z ->
  parse_digits 0 (String.list_ascii_of_string (format_uint z)) = Some z.
Proof.
  intros Hz. rewrite list_ascii_format_uint.
  destruct (dec_digits_spec (dec_fuel z) z) as [Hv Hd].
  { split; [done|by apply dec_fuel_enough]. }
  rewrite parse_rev_digits by done. by rewrite Hv.
Qed.

Lemma format_uint_cons z : 0 <= z -> exists d ds, 0 <= d < 10 /\
  String.list_ascii_of_string (format_uint z) = digit_char d :: ds.
Proof.
  intros Hz. rewrite list_ascii_format_uint.
  destruct (dec_digits_spec (dec_fuel z) z) as [_ Hd]; [split; [done|by apply dec_fuel_enough]|].
  set (l := dec_digits _ _) in *. assert (Hl : l <> []) by apply dec_digits_nonempty.
  destruct (exists_last Hl) as (l' & d & ->).
  exists d, (rev (map digit_char l')). rewrite Forall_app, Forall_singleton in Hd.
  split; [tauto|]. by rewrite map_app, rev_app_distr.
Qed.

(** Printing then parsing an unsigned value that fits gives it back. *)
Lemma parse_uint_format bits z : in_u bits z -> parse_uint bits (format_uint z) = Ok z.
Proof.
  intros [H0 H1]. unfold parse_uint.
  pose proof (parse_digits_format z H0) as Hp.
  destruct (format_uint_cons z H0) as (d & ds & _ & E). rewrite E in Hp |- *.
  rewrite Hp. by rewrite (proj2 (Z.ltb_lt _ _)).
Qed.

Lemma digit_char_not_sign d : 0 <= d < 10 ->
  Ascii.eqb (digit_char d) "-" = false /\ Ascii.eqb (digit_char d) "+" = false.
Proof.
  intros Hd. pose proof (char_Z_digit d Hd) as H.
  assert (char_Z "-" = 45) by done. assert (char_Z "+" = 43) by done.
  split; apply Ascii.eqb_neq; intros E; rewrite E in H; lia.
Qed.

(** Printing then parsing a signed value that fits gives it back. *)
Lemma parse_int_format bits z : in_s bits z -> parse_int bits (format_int z) = Ok z.
Proof.
  intros [H0 H1]. unfold parse_int, format_int.
  destruct (Z.ltb_spec z 0) as [Hn|Hn].
  - cbn [String.list_ascii_of_string]. rewrite (Ascii.eqb_refl "-").
    destruct (format_uint_cons (- z)) as (d & ds & Hd & E); [lia|].
    pose proof (parse_digits_format (- z) ltac:(lia)) as Hp.
    rewrite E in Hp |- *. rewrite Hp.
    rewrite (proj2 (Z.leb_le _ _)) by lia. f_equal. lia.
  - destruct (format_uint_cons z) as (d & ds & Hd & E); [lia|].
    pose proof (parse_digits_format z ltac:(lia)) as Hp.
    rewrite E in Hp |- *. destruct (digit_char_not_sign d Hd) as [-> ->].
    rewrite Hp. by rewrite (proj2 (Z.ltb_lt _ _)) by lia.
Qed.

Lemma parse_uint_Ok bits s v : parse_uint bits s = Ok v -> v < 2 ^ bits.
Proof.
  unfold parse_uint. repeat case_match; try discriminate. intros [= <-]. by zbool.
Qed.

Lemma parse_digits_nonneg s : forall acc v, 0 <= acc -> parse_digits acc s = Some v -> 0 <= v.
Proof.
  induction s as [|c s IH]; cbn; intros acc v Ha H; [naive_solver|].
  destruct (char_digit c) eqn:E; [|done]. apply IH in H; [done|].
  unfold char_digit in E. case_match; [|done]. res_inv. zbool.
  injection E as <-. lia.
Qed.

Lemma parse_uint_range bits s v : parse_uint bits s = Ok v -> in_u bits v.
Proof.
  intros H. split; [|by eapply parse_uint_Ok].
  unfold parse_uint in H. destruct (String.list_ascii_of_string s) as [|c cs] eqn:E; [done|].
  destruct (parse_digits 0 (c :: cs)) eqn:E2; [|done].
  destruct (_ <? _); [|done]. injection H as <-. by eapply parse_digits_nonneg in E2.
Qed.

Lemma parse_int_range bits s v : 0 < bits -> parse_int bits s = Ok v -> in_s bits v.
Proof.
  intros Hb. assert (0 < 2 ^ (bits - 1)) by (apply Z.pow_pos_nonneg; lia).
  unfold parse_int, in_s.
  match goal with |- context [let '(_, _) := ?x in _] => destruct x as [neg ds] end.
  destruct ds as [|c ds]; [done|].
  destruct (parse_digits 0 (c :: ds)) eqn:E2; [|done].
  apply parse_digits_nonneg in E2; [|done].
  destruct neg; case_if; try done; intros [= <-]; zbool; lia.
Qed.

(** ** Hexadecimal: [fmt.Sprintf("0x%0<w>X", z)] *)

Definition hex_char (d : Z) : ascii :=
  ascii_of_nat (Z.to_nat (if d <? 10 then 48 + d else 55 + d)).

Fixpoint hex_digits (fuel : nat) (z : Z) : list ascii :=
  match fuel with
  | O => []
  | S f => if z <? 16 then [hex_char z] else hex_char (z mod 16) :: hex_digits f (z / 16)
  end.

Definition format_hex (width : nat) (z : Z) : string :=
  let ds := hex_digits (dec_fuel z) z in
  String.string_of_list_ascii
    ("0"%char :: "x"%char :: replicate (width - length ds) "0"%char ++ rev ds).

(** ** [strings.Split(s, sep)] for a one-byte separator *)

Fixpoint split_chars (sep : ascii) (cur : list ascii) (s : list ascii) : list (list ascii) :=
  match s with
  | [] => [rev cur]
  | c :: s => if Ascii.eqb c sep then rev cur :: split_chars sep [] s
              else split_chars sep (c :: cur) s
  end.

Definition split (sep : ascii) (s : string) : list string :=
  map String.string_of_list_ascii (split_chars sep [] (String.list_ascii_of_string s)).

Fixpoint join_chars (sep : ascii) (parts : list (list ascii)) : list ascii :=
  match parts with
  | [] => []
  | [p] => p
  | p :: ps => p ++ sep :: join_chars sep ps
  end.

(** [strings.Join(parts, sep)]. *)
Definition join (sep : ascii) (parts : list string) : string :=
  String.string_of_list_ascii (join_chars sep (map String.list_ascii_of_string parts)).

Lemma split_chars_no_sep sep p : forall cur rest, sep ∉ p ->
  split_chars sep cur (p ++ sep :: rest) = (rev cur ++ p) :: split_chars sep [] rest.
Proof.
  induction p as [|c p IH]; intros cur rest Hp; cbn.
  - by rewrite Ascii.eqb_refl, app_nil_r.
  - rewrite elem_of_cons in Hp.
    destruct (Ascii.eqb_spec c sep); [naive_solver|].
    rewrite IH by naive_solver. cbn. by rewrite <- app_assoc.
Qed.

Lemma split_chars_last sep p : forall cur, sep ∉ p -> split_chars sep cur p = [rev cur ++ p].
Proof.
  induction p as [|c p IH]; intros cur Hp; cbn; [by rewrite app_nil_r|].
  rewrite elem_of_cons in Hp. destruct (Ascii.eqb_spec c sep); [naive_solver|].
  rewrite IH by naive_solver. cbn. by rewrite <- app_assoc.
Qed.

(** Splitting a join of parts that do not contain the separator gives them back. *)
Lemma split_join_chars sep parts : parts <> [] -> Forall (fun p => sep ∉ p) parts ->
  split_chars sep [] (join_chars sep parts) = parts.
Proof.
  intros Hne H. induction H as [|p ps Hp Hps IH]; [done|].
  destruct ps as [|q qs]; [by apply split_chars_last|].
  change (join_chars sep (p :: q :: qs)) with (p ++ sep :: join_chars sep (q :: qs)).
  rewrite split_chars_no_sep by done. cbn [rev app]. f_equal. by apply IH.
Qed.

Lemma split_join sep parts : parts <> [] ->
  Forall (fun p => sep ∉ String.list_ascii_of_string p) parts -> split sep (join sep parts) = parts.
Proof.
  intros Hne H. unfold split, join.
  rewrite String.list_ascii_of_string_of_list_ascii, split_join_chars.
  - rewrite map_map. rewrite (map_ext _ id); [by rewrite map_id|].
    intros. apply String.string_of_list_ascii_of_string.
  - by destruct parts.
  - by rewrite Forall_map.
Qed.

Lemma format_uint_no_sep z sep : 0 <= z -> char_digit sep = None ->
  sep ∉ String.list_ascii_of_string (format_uint z).
Proof.
  intros Hz Hs Hin. rewrite list_ascii_format_uint in Hin.
  apply list_elem_of_In, in_rev, in_map_iff in Hin as (d & <- & Hd).
  destruct (dec_digits_spec (dec_fuel z) z) as [_ Hf]; [split; [done|by apply dec_fuel_enough]|].
  rewrite Forall_forall in Hf. apply list_elem_of_In, Hf in Hd.
  by rewrite char_digit_char in Hs.
Qed.

(** ** [strings.ToLower] on ASCII text (IEC 61131-3 identifiers are ASCII) *)

Definition lower_char (c : ascii) : ascii :=
  let v := char_Z c in
  if (65 <=? v) && (v <=? 90) then ascii_of_nat (Z.to_nat (v + 32)) else c.

Fixpoint to_lower (s : string) : string :=
  match s with
  | EmptyString => EmptyString
  | String.String c s => String.String (lower_char c) (to_lower s)
  end.

Lemma lower_char_idem c : lower_char (lower_char c) = lower_char c.
Proof. destruct c as [[] [] [] [] [] [] [] []]; vm_compute; reflexivity. Qed.

Lemma to_lower_idem s : to_lower (to_lower s) = to_lower s.
Proof. induction s as [|c s IH]; cbn; [done|]. by rewrite lower_char_idem, IH. Qed.

Lemma to_lower_length s : String.length (to_lower s) = String.length s.
Proof. induction s; cbn; auto. Qed.

Lemma list_ascii_app a b :
  list_ascii_of_string (a ++ b)%string = list_ascii_of_string a ++ list_ascii_of_string b.
Proof.
  induction a as [|c a IH]; [done|]. change (String c a +:+ b) with (String c (a +:+ b)).
  cbn. f_equal. exact IH.
Qed.

(** Printing then parsing any signed value: itself in range, an error otherwise. *)
Lemma parse_int_of_format bits z : 0 < bits ->
  parse_int bits (format_int z)
  = if (- 2 ^ (bits - 1) <=? z) && (z <? 2 ^ (bits - 1)) then Ok z
    else Err (EMsg "strconv.ParseInt: value out of range").
Proof.
  intros Hb. assert (0 < 2 ^ (bits - 1)) by (apply Z.pow_pos_nonneg; lia). unfold parse_int, format_int.
  destruct (Z.ltb_spec z 0) as [Hn|Hn].
  - cbn [String.list_ascii_of_string]. rewrite (Ascii.eqb_refl "-").
    destruct (format_uint_cons (- z)) as (d & ds & Hd & E); [lia|].
    pose proof (parse_digits_format (- z) ltac:(lia)) as Hp. rewrite E in Hp |- *. rewrite Hp.
    destruct (Z.leb_spec (- z) (2 ^ (bits - 1))), (Z.leb_spec (- 2 ^ (bits - 1)) z); try lia; cbn [andb];
      [|done]. rewrite (proj2 (Z.ltb_lt _ _)) by lia. f_equal. lia.
  - destruct (format_uint_cons z) as (d & ds & Hd & E); [lia|].
    pose proof (parse_digits_format z ltac:(lia)) as Hp.
    rewrite E in Hp |- *. destruct (digit_char_not_sign d Hd) as [-> ->]. rewrite Hp.
    rewrite (proj2 (Z.leb_le (- _) z)) by lia. cbn [andb]. by destruct (z <? _).
Qed.

Lemma parse_uint_of_format bits z :
  parse_uint bits (format_int z)
  = if 0 <=? z then (if z <? 2 ^ bits then Ok z else Err (EMsg "strconv.ParseUint: value out of range"))
    else Err (EMsg "strconv.ParseUint: invalid syntax").
Proof.
  unfold parse_uint, format_int. destruct (Z.ltb_spec z 0) as [Hn|Hn].
  - by rewrite (proj2 (Z.leb_gt _ _)) by lia.
  - destruct (format_uint_cons z) as (d & ds & Hd & E); [lia|].
    pose proof (parse_digits_format z ltac:(lia)) as Hp. rewrite E in Hp |- *. rewrite Hp.
    by rewrite (proj2 (Z.leb_le _ _)) by lia.
Qed.
