(* ===== verification/Defs.v ===== *)
(** defs.go: ADS return codes and their texts, transmission modes, symbol flags,
    data-type codes, the classification of return codes (stale cache,
    sum-command support). *)
From S2P Require Import Prelude Wire Strconv.

(** ** Constants *)

Definition ReturnCodeNoErrors : Z := 0x0.
Definition ReturnCodeGlobalInsertMailboxError : Z := 0x4.
Definition ReturnCodeGlobalTargetPortNotFound : Z := 0x6.
Definition ReturnCodeGlobalTargetNotFound : Z := 0x7.
Definition ReturnCodeGlobalUnknownCommandID : Z := 0x8.
Definition ReturnCodeGlobalUnknownAdsCommand : Z := 0xb.
Definition ReturnCodeRouterMailboxFull : Z := 0x502.
Definition ReturnCodeDeviceError : Z := 0x700.
Definition ReturnCodeDeviceServiceNotSupported : Z := 0x701.
Definition ReturnCodeDeviceInvalidOffset : Z := 0x703.
Definition ReturnCodeDeviceInvalidSize : Z := 0x705.
Definition ReturnCodeDeviceInvalidState : Z := 0x712.
Definition ReturnCodeDeviceSymbolNoFound : Z := 0x710.
Definition ReturnCodeDeviceSymbolVersionInvalid : Z := 0x711.
Definition ReturnCodeDeviceNotifyHandleInvalid : Z := 0x714.
Definition ReturnCodeDeviceClientUnknown : Z := 0x715.
Definition ReturnCodeDeviceSymbolNotActive : Z := 0x722.
Definition ReturnCodeDeviceTransModeNotSupported : Z := 0x713.
Definition ReturnCodeDeviceInvalidGroup : Z := 0x702.
Definition ReturnCodeDeviceNotReady : Z := 0x707.
Definition ReturnCodeDeviceBusy : Z := 0x708.

Definition GroupSymbolHandleByName : Z := 0xf003.
Definition GroupSymbolValueByHandle : Z := 0xf005.
Definition GroupSymbolReleaseHandle : Z := 0xf006.
Definition GroupSymbolVersion : Z := 0xf008.
Definition GroupSymbolInfoByNameEx : Z := 0xf009.
Definition GroupSymbolUpload : Z := 0xf00b.
Definition GroupSymbolUploadInfo : Z := 0xf00c.
Definition GroupSymbolDataTypeUpload : Z := 0xf00e.
Definition GroupSymbolUploadInfo2 : Z := 0xf00f.
Definition GroupSumupWrite : Z := 0xf081.
Definition GroupSumupReadEx : Z := 0xf083.
Definition GroupSumupReadEx2 : Z := 0xf084.
Definition GroupSumupAddDeviceNotification : Z := 0xf085.
Definition GroupSumupDeleteDeviceNotification : Z := 0xf086.
Definition GroupIoImageRwib : Z := 0xf020.
Definition GroupIoImageRwix : Z := 0xf021.
Definition GroupIoImageRisize : Z := 0xf025.
Definition GroupIoImageRwob : Z := 0xf030.
Definition GroupIoImageRwox : Z := 0xf031.
Definition GroupIoImageCleari : Z := 0xf040.
Definition GroupIoImageClearo : Z := 0xf050.

Definition CommandIDReadDeviceInfo : Z := 1.
Definition CommandIDRead : Z := 2.
Definition CommandIDWrite : Z := 3.
Definition CommandIDReadState : Z := 4.
Definition CommandIDAddDeviceNotification : Z := 6.
Definition CommandIDDeleteDeviceNotification : Z := 7.
Definition CommandIDDeviceNotification : Z := 8.
Definition CommandIDReadWrite : Z := 9.

Definition TransModeNoTransmission : Z := 0.
Definition TransModeClientCycle : Z := 1.
Definition TransModeClientOnChange : Z := 2.
Definition TransModeServerCycle : Z := 3.
Definition TransModeServerOnChange : Z := 4.
Definition TransModeServerCycle2 : Z := 5.
Definition TransModeServerOnChange2 : Z := 6.
Definition TransModeClient1Request : Z := 10.

Definition ADSStateRun : Z := 5.
Definition ADSStateConfig : Z := 15.
Definition PortR0PlcRts1 : Z := 801.
Definition PortR0PlcTc3 : Z := 851.
Definition PortSystemService : Z := 10000.

(** ** Return-code texts *)

Definition returnCodeDescriptions : list (Z * string) :=
  [(0x0, "no error");
   (0x1, "internal error");
   (0x2, "no real-time");
   (0x3, "allocation locked memory error");
   (0x4, "mailbox full, ADS message could not be sent");
   (0x5, "wrong receive HMSG");
   (0x6, "target port not found, ADS server not started");
   (0x7, "target machine not found, AMS route not found");
   (0x8, "unknown command ID");
   (0x9, "invalid task ID");
   (0xa, "no IO");
   (0xb, "unknown ADS command");
   (0xc, "Win32 error");
   (0xd, "port not connected");
   (0xe, "invalid ADS length");
   (0xf, "invalid AMS Net ID");
   (0x10, "installation level too low (TwinCAT 2 license error)");
   (0x11, "no debugging available");
   (0x12, "port disabled, TwinCAT system service not started");
   (0x13, "port already connected");
   (0x14, "ADS Sync Win32 error");
   (0x15, "ADS Sync timeout");
   (0x16, "ADS Sync AMS error");
   (0x17, "no index map for ADS Sync available");
   (0x18, "invalid ADS port");
   (0x19, "no memory");
   (0x1a, "TCP send error");
   (0x1b, "host unreachable");
   (0x1c, "invalid AMS fragment");
   (0x1d, "TLS send error, secure ADS connection failed");
   (0x1e, "access denied, secure ADS access denied");
   (0x500, "locked memory cannot be allocated");
   (0x501, "router memory size could not be changed");
   (0x502, "mailbox full, maximum number of messages reached");
   (0x503, "debug mailbox full");
   (0x504, "unknown port type");
   (0x505, "router is not initialized");
   (0x506, "port number is already assigned");
   (0x507, "port not registered");
   (0x508, "maximum number of ports reached");
   (0x509, "invalid port");
   (0x50a, "TwinCAT router not active");
   (0x50b, "fragment mailbox full");
   (0x50c, "fragment timeout");
   (0x50d, "port is being removed");
   (0x700, "general device error");
   (0x701, "service not supported by server");
   (0x702, "invalid index group");
   (0x703, "invalid index offset");
   (0x704, "reading/writing not permitted");
   (0x705, "parameter size not correct");
   (0x706, "invalid parameter value(s)");
   (0x707, "device is not in a ready state");
   (0x708, "device is busy");
   (0x709, "invalid operating system context (must be in Windows)");
   (0x70a, "out of memory");
   (0x70b, "invalid parameter value(s)");
   (0x70c, "not found (files, ...)");
   (0x70d, "syntax error in command or file");
   (0x70e, "objects do not match");
   (0x70f, "object already exists");
   (0x710, "symbol not found");
   (0x711, "symbol version invalid, please reload symbols");
   (0x712, "server is in invalid state");
   (0x713, "ADS TransMode not supported");
   (0x714, "notification handle is invalid");
   (0x715, "notification client not registered");
   (0x716, "no more notification handles available");
   (0x717, "notification size too large");
   (0x718, "device not initialized");
   (0x719, "device has a timeout");
   (0x71a, "query interface failed");
   (0x71b, "wrong interface required");
   (0x71c, "class ID is invalid");
   (0x71d, "object ID is invalid");
   (0x71e, "request is pending");
   (0x71f, "request is aborted");
   (0x720, "signal warning");
   (0x721, "invalid array index");
   (0x722, "symbol not active, release handle and try again");
   (0x723, "access denied");
   (0x724, "missing license");
   (0x725, "license expired");
   (0x726, "license exceeded");
   (0x727, "license invalid");
   (0x728, "license invalid system ID");
   (0x729, "license not limited in time");
   (0x72a, "license issue time in the future");
   (0x72b, "license time period too long");
   (0x72c, "exception at system startup");
   (0x72d, "license file read twice");
   (0x72e, "invalid signature");
   (0x72f, "invalid public key certificate");
   (0x730, "public key not known from OEM");
   (0x731, "license not valid for this system ID");
   (0x732, "demo license prohibited");
   (0x733, "invalid function ID");
   (0x734, "outside the valid range");
   (0x735, "invalid alignment");
   (0x736, "invalid platform level");
   (0x737, "context forward to passive level");
   (0x738, "context forward to dispatch level");
   (0x739, "context forward to real-time");
   (0x740, "client error");
   (0x741, "invalid parameter at service call");
   (0x742, "polling list is empty");
   (0x743, "var connection already in use");
   (0x744, "invoke ID already in use");
   (0x745, "timeout elapsed, remote terminal not responding");
   (0x746, "error in Win32 subsystem");
   (0x747, "invalid client timeout value");
   (0x748, "ADS port not opened");
   (0x749, "no AMS address");
   (0x750, "internal error in ADS sync");
   (0x751, "hash table overflow");
   (0x752, "key not found in hash table");
   (0x753, "no more symbols in cache");
   (0x754, "invalid response received");
   (0x755, "sync port is locked");
   (0x756, "request was cancelled");
   (0x1000, "internal fatal error in TwinCAT real-time system");
   (0x1001, "timer value not valid");
   (0x1002, "task pointer has invalid value zero");
   (0x1003, "stack pointer has invalid value zero");
   (0x1004, "requested task priority already assigned");
   (0x1005, "no free TCB available (max 64)");
   (0x1006, "no free semaphores available (max 64)");
   (0x1007, "no free queue available (max 64)");
   (0x100d, "external synchronization interrupt already applied");
   (0x100e, "no external synchronization interrupt applied");
   (0x100f, "external synchronization interrupt application failed");
   (0x1010, "service called in wrong context");
   (0x1017, "Intel VT-x extension not supported");
   (0x1018, "Intel VT-x extension not enabled in BIOS");
   (0x1019, "missing feature in Intel VT-x extension");
   (0x101a, "enabling Intel VT-x failed");
   (0x274c, "connection timed out, host unreachable");
   (0x274d, "connection refused, host not responding");
   (0x2751, "host is down, connection actively refused")]%string.

Fixpoint assoc_Z {A} (k : Z) (l : list (Z * A)) : option A :=
  match l with
  | [] => None
  | (k', a) :: l => if k' =? k then Some a else assoc_Z k l
  end.

(** [func (rc ReturnCode) String() string]. *)
Definition ReturnCode_String (rc : Z) : string :=
  match assoc_Z rc returnCodeDescriptions with
  | Some desc => (format_hex 4 rc ++ ": " ++ desc)%string
  | None => (format_hex 4 rc ++ ": unknown error code")%string
  end.

(** ** Transmission modes *)

Definition TransMode_String (tm : Z) : string :=
  if tm =? TransModeNoTransmission then "NoTransmission"
  else if tm =? TransModeClientCycle then "ClientCycle"
  else if tm =? TransModeClientOnChange then "ClientOnChange"
  else if tm =? TransModeServerCycle then "ServerCycle"
  else if tm =? TransModeServerOnChange then "ServerOnChange"
  else if tm =? TransModeServerCycle2 then "ServerCycle2/CyclicInContext"
  else if tm =? TransModeServerOnChange2 then "ServerOnChange2/OnChangeInContext"
  else if tm =? TransModeClient1Request then "Client1Request"
  else ("Unknown(" ++ format_uint tm ++ ")")%string.

Definition downgradeTransMode (mode : Z) : Z :=
  if mode =? TransModeServerOnChange2 then TransModeServerOnChange
  else if mode =? TransModeServerCycle2 then TransModeServerCycle
  else mode.

(** Durations are nanoseconds, an [int64]. *)
Definition Nanosecond : Z := 1.
Definition Millisecond : Z := 1000000.
Definition Second : Z := 1000000000.

Definition notificationCycleField (mode contextMask cycleTime : Z) : Z * Z :=
  if (mode =? TransModeServerCycle2) || (mode =? TransModeServerOnChange2) then
    if contextMask =? 0 then (downgradeTransMode mode, cycleTime)
    else (mode, contextMask * 100 * Nanosecond)
  else (mode, cycleTime).

(** cmd_notification.go [durationToADSTicks]. *)
Definition durationToADSTicks (d : Z) : res Z :=
  if d <? 0 then Err (EMsg "must be non-negative")
  else let ticks := d / 100 in
       if MaxUint32 <? ticks then Err (EMsg "exceeds ADS 32-bit 100ns limit (~429.5s)")
       else Ok (u32 ticks).

(** ** Symbol flags *)

Definition SymbolFlag_ContextMask (f : Z) : Z := u8 (Z.land (Z.shiftr f 8) 15).
Definition SymbolFlag_Has (f flag : Z) : bool := Z.land f flag =? flag.

(** ** ADST_ data-type codes *)

Definition ADSTVoid : Z := 0.
Definition ADSTInt16 : Z := 2.
Definition ADSTInt32 : Z := 3.
Definition ADSTReal32 : Z := 4.
Definition ADSTReal64 : Z := 5.
Definition ADSTInt8 : Z := 16.
Definition ADSTUint8 : Z := 17.
Definition ADSTUint16 : Z := 18.
Definition ADSTUint32 : Z := 19.
Definition ADSTInt64 : Z := 20.
Definition ADSTUint64 : Z := 21.
Definition ADSTString : Z := 30.
Definition ADSTWString : Z := 31.
Definition ADSTBool : Z := 33.
Definition ADSTBigType : Z := 65.

Definition adsTypeToString (code : Z) : string :=
  if code =? ADSTBool then "BOOL"
  else if code =? ADSTInt8 then "SINT"
  else if code =? ADSTUint8 then "USINT"
  else if code =? ADSTInt16 then "INT"
  else if code =? ADSTUint16 then "UINT"
  else if code =? ADSTInt32 then "DINT"
  else if code =? ADSTUint32 then "UDINT"
  else if code =? ADSTReal32 then "REAL"
  else if code =? ADSTReal64 then "LREAL"
  else if code =? ADSTInt64 then "LINT"
  else if code =? ADSTUint64 then "ULINT"
  else if code =? ADSTString then "STRING"
  else if code =? ADSTWString then "WSTRING"
  else "".

Definition adsTypeWidth (code : Z) : Z :=
  if existsb (Z.eqb code) [ADSTBool; ADSTInt8; ADSTUint8] then 1
  else if existsb (Z.eqb code) [ADSTInt16; ADSTUint16] then 2
  else if existsb (Z.eqb code) [ADSTInt32; ADSTUint32; ADSTReal32] then 4
  else if existsb (Z.eqb code) [ADSTInt64; ADSTUint64; ADSTReal64] then 8
  else 0.

(** ** Classification of errors *)

Definition isSumCommandUnsupportedError (err : goerr) : bool :=
  match errors_as_code err with
  | None => false
  | Some rc => (rc =? ReturnCodeDeviceServiceNotSupported)
               || (rc =? ReturnCodeGlobalUnknownCommandID)
               || (rc =? ReturnCodeGlobalUnknownAdsCommand)
  end.

Inductive SymbolVersionStrategy : Type :=
| SymbolVersionAutoReload
| SymbolVersionClose
| SymbolVersionIgnore.

Inductive Reason : Type :=
| ReasonSymbolVersionInvalid
| ReasonSymbolNotFound
| ReasonInvalidOffset
| ReasonSymbolNotActive
| ReasonNotifyHandleInvalid
| ReasonInvalidSize
| ReasonReloadCapExhausted
| ReasonReloadInProgress
| ReasonHeartbeatSilent.

#[export] Instance Reason_eq_dec : EqDecision Reason.
Proof. solve_decision. Defined.
#[export] Instance SymbolVersionStrategy_eq_dec : EqDecision SymbolVersionStrategy.
Proof. solve_decision. Defined.

(** [(true, reason)] is [Some reason], [(false, "")] is [None]. *)
Definition detectStaleCache (rc : Z) : option Reason :=
  if rc =? ReturnCodeDeviceSymbolVersionInvalid then Some ReasonSymbolVersionInvalid
  else if rc =? ReturnCodeDeviceSymbolNoFound then Some ReasonSymbolNotFound
  else if rc =? ReturnCodeDeviceInvalidOffset then Some ReasonInvalidOffset
  else if rc =? ReturnCodeDeviceSymbolNotActive then Some ReasonSymbolNotActive
  else if rc =? ReturnCodeDeviceNotifyHandleInvalid then Some ReasonNotifyHandleInvalid
  else if rc =? ReturnCodeDeviceInvalidSize then Some ReasonInvalidSize
  else None.

(** cmd_notification.go [isBestEffortDeleteSuccess] and its error-wrapped variant. *)
Definition isBestEffortDeleteSuccess (code : Z) : bool :=
  (code =? ReturnCodeNoErrors) || (code =? ReturnCodeDeviceNotifyHandleInvalid)
  || (code =? ReturnCodeDeviceClientUnknown).

Definition isBestEffortDeleteSuccessErr (err : option goerr) : bool :=
  match err with
  | None => true
  | Some e => errors_is_code ReturnCodeDeviceNotifyHandleInvalid e
              || errors_is_code ReturnCodeDeviceClientUnknown e
  end.

(** ** Lemmas *)

Lemma SymbolFlag_ContextMask_range f : 0 <= SymbolFlag_ContextMask f < 16.
Proof.
  unfold SymbolFlag_ContextMask, u8, wrap_u.
  change 15 with (Z.ones 4). rewrite Z.land_ones by lia.
  pose proof (Z.mod_pos_bound (Z.shiftr f 8) (2 ^ 4) ltac:(lia)).
  rewrite Z.mod_small; lia.
Qed.

Lemma durationToADSTicks_range d t : durationToADSTicks d = Ok t -> in_u 32 t /\ t = d / 100 /\ 0 <= d.
Proof.
  unfold durationToADSTicks, in_u. repeat case_if; try done. intros [= <-]. zbool.
  pose proof (Z.div_pos d 100 ltac:(lia) ltac:(lia)).
  unfold u32. rewrite wrap_u_small by (unfold in_u; lia). lia.
Qed.

(** A library-side error never looks like a device verdict. *)
Lemma unsupported_needs_code err : errors_as_code err = None -> isSumCommandUnsupportedError err = false.
Proof. intros E. unfold isSumCommandUnsupportedError. by rewrite E. Qed.
