(* ===== verification/Fsm.v ===== *)
(** session_fsm.go: the explicit finite-state machine of a Session — its states,
    the transition table, the two transition operations with the generation
    counter [epoch], the derived predicates, and the machine as a step relation
    over any interleaving of callers (transitions serialise on the FSM mutex). *)
From S2P Require Import Prelude.

Inductive SessionState : Type :=
| SessionStateConstructed
| SessionStateConnecting
| SessionStateConnected
| SessionStateReloading
| SessionStateDisconnected
| SessionStateReconnecting
| SessionStateClosed.

#[export] Instance SessionState_eq_dec : EqDecision SessionState.
Proof. solve_decision. Defined.

Definition SessionState_String (s : SessionState) : string :=
  match s with
  | SessionStateConstructed => "Constructed"
  | SessionStateConnecting => "Connecting"
  | SessionStateConnected => "Connected"
  | SessionStateReloading => "Reloading"
  | SessionStateDisconnected => "Disconnected"
  | SessionStateReconnecting => "Reconnecting"
  | SessionStateClosed => "Closed"
  end.

(** The [allowedTransitions] table: the states legal after [from]. *)
Definition allowedTransitions (from : SessionState) : list SessionState :=
  match from with
  | SessionStateConstructed => [SessionStateConnecting; SessionStateClosed]
  | SessionStateConnecting =>
      [SessionStateConnected; SessionStateReconnecting; SessionStateDisconnected; SessionStateClosed]
  | SessionStateConnected =>
      [SessionStateReloading; SessionStateDisconnected; SessionStateReconnecting; SessionStateClosed]
  | SessionStateReloading => [SessionStateConnected; SessionStateDisconnected; SessionStateClosed]
  | SessionStateDisconnected => [SessionStateReconnecting; SessionStateConnecting; SessionStateClosed]
  | SessionStateReconnecting => [SessionStateConnected; SessionStateReconnecting; SessionStateClosed]
  | SessionStateClosed => []
  end.

Definition allowed (from want : SessionState) : bool := bool_decide (want ∈ allowedTransitions from).

(** [epoch] is an [atomic.Uint64]. *)
Record sessionFSM : Type := { fsm_value : SessionState; fsm_epoch : Z }.

Definition initial_fsm : sessionFSM :=
  {| fsm_value := SessionStateConstructed; fsm_epoch := 0 |}.

Definition bump (e : Z) : Z := u64 (e + 1).

(** The store under the mutex, shared by both operations. *)
Definition land_transition (s : sessionFSM) (want : SessionState) : sessionFSM :=
  {| fsm_value := want;
     fsm_epoch := if decide (want = SessionStateConnected) then bump (fsm_epoch s) else fsm_epoch s |}.

Definition transitionTo (s : sessionFSM) (want : SessionState) : sessionFSM * SessionState * bool :=
  let from := fsm_value s in
  if decide (from = want) then (s, from, true)
  else if allowed from want then (land_transition s want, from, true)
  else (s, from, false).

Definition transitionToOnce (s : sessionFSM) (want : SessionState) : sessionFSM * SessionState * bool :=
  let from := fsm_value s in
  if decide (from = want) then (s, from, false)
  else if allowed from want then (land_transition s want, from, true)
  else (s, from, false).

Definition bumpEpoch (s : sessionFSM) : sessionFSM :=
  {| fsm_value := fsm_value s; fsm_epoch := bump (fsm_epoch s) |}.

Definition isClosed (s : sessionFSM) : bool := bool_decide (fsm_value s = SessionStateClosed).
Definition isDisconnected (s : sessionFSM) : bool :=
  bool_decide (fsm_value s = SessionStateDisconnected)
  || bool_decide (fsm_value s = SessionStateReconnecting).
Definition isReconnecting (s : sessionFSM) : bool :=
  bool_decide (fsm_value s = SessionStateReconnecting).

(** session.go [enterConnected]: the connected generation advances only when the
    transition really came from a connect or a reconnect. *)
Definition enterConnected (s : sessionFSM) (connectedGen : Z) : sessionFSM * Z :=
  let '(s', from, ok) := transitionTo s SessionStateConnected in
  if ok then
    (s', if decide (from = SessionStateConnecting \/ from = SessionStateReconnecting)
         then u64 (connectedGen + 1) else connectedGen)
  else (s', connectedGen).

(** ** The machine under arbitrary interleavings *)

Inductive event : Type :=
| EvTo (want : SessionState)
| EvOnce (want : SessionState)
| EvBump.

#[export] Instance event_eq_dec : EqDecision event.
Proof. solve_decision. Defined.

Definition step (s : sessionFSM) (e : event) : sessionFSM :=
  match e with
  | EvTo w => (transitionTo s w).1.1
  | EvOnce w => (transitionToOnce s w).1.1
  | EvBump => bumpEpoch s
  end.

Definition run (s : sessionFSM) (es : list event) : sessionFSM := foldl step s es.

(** The results seen by a sequence of [transitionToOnce] callers. *)
Fixpoint once_results (s : sessionFSM) (w : SessionState) (es : list event) : list bool :=
  match es with
  | [] => []
  | EvOnce w' :: es =>
      let '(s', _, ok) := transitionToOnce s w' in
      (if decide (w' = w) then [ok] else []) ++ once_results s' w es
  | e :: es => once_results (step s e) w es
  end.

(** One step of a legal history: the state is unchanged or moves along the table. *)
Definition legal_move (a b : SessionState) : Prop := a = b \/ allowed a b = true.

Inductive reachable : sessionFSM -> Prop :=
| reach_init : reachable initial_fsm
| reach_step s e : reachable s -> reachable (step s e).

(** ** Lemmas *)

Lemma land_value s w : fsm_value (land_transition s w) = w.
Proof. done. Qed.

Lemma transitionTo_value s w :
  fsm_value (transitionTo s w).1.1 =
  if decide (fsm_value s = w) then fsm_value s
  else if allowed (fsm_value s) w then w else fsm_value s.
Proof. unfold transitionTo. repeat case_if; done. Qed.

Lemma step_cases s e :
  step s e = s \/ (exists w, e = EvTo w \/ e = EvOnce w) /\
    (exists w, fsm_value s <> w /\ allowed (fsm_value s) w = true /\ step s e = land_transition s w)
  \/ (e = EvBump /\ step s e = bumpEpoch s).
Proof.
  destruct e as [w|w|]; cbn; [| |by right; right].
  - unfold transitionTo. destruct (decide _); [by left|].
    destruct (allowed _ _) eqn:E; [|by left]. right; left; split; eauto 10.
  - unfold transitionToOnce. destruct (decide _); [by left|].
    destruct (allowed _ _) eqn:E; [|by left]. right; left; split; eauto 10.
Qed.

Lemma step_legal s e : legal_move (fsm_value s) (fsm_value (step s e)).
Proof.
  destruct (step_cases s e) as [->|[[_ (w & _ & Ha & ->)]|[_ ->]]].
  - by left.
  - by right.
  - by left.
Qed.

Lemma allowed_closed w : allowed SessionStateClosed w = false.
Proof. apply bool_decide_eq_false. by intros ?%elem_of_nil. Qed.

Lemma allowed_to_closed s : s <> SessionStateClosed -> allowed s SessionStateClosed = true.
Proof. by destruct s. Qed.

Lemma closed_step s e : fsm_value s = SessionStateClosed -> fsm_value (step s e) = SessionStateClosed.
Proof.
  intros Hc. destruct (step_cases s e) as [->|[[_ (w & _ & Ha & ->)]|[_ ->]]]; [done| |done].
  by rewrite Hc, allowed_closed in Ha.
Qed.

Lemma closed_run s es : fsm_value s = SessionStateClosed -> fsm_value (run s es) = SessionStateClosed.
Proof.
  revert s. induction es as [|e es IH]; intros s Hc; [done|].
  cbn. apply IH. by apply closed_step.
Qed.

Lemma run_reachable es : reachable (run initial_fsm es).
Proof.
  unfold run. induction es as [|e es IH] using rev_ind; [constructor|].
  rewrite foldl_app. cbn. by constructor.
Qed.

(** How often the generation advances along a schedule: every landed entry into
    Connected and every explicit bump. *)
Definition epoch_step (s : sessionFSM) (e : event) : Z :=
  match e with
  | EvTo w | EvOnce w =>
      if decide (w = SessionStateConnected /\ fsm_value s <> w /\ allowed (fsm_value s) w = true)
      then 1 else 0
  | EvBump => 1
  end.

Fixpoint epoch_entries (s : sessionFSM) (es : list event) : Z :=
  match es with
  | [] => 0
  | e :: es => epoch_step s e + epoch_entries (step s e) es
  end.

Lemma epoch_step_ok s e : in_u 64 (fsm_epoch s) ->
  fsm_epoch (step s e) = u64 (fsm_epoch s + epoch_step s e).
Proof.
  intros Hr. assert (E0 : u64 (fsm_epoch s + 0) = fsm_epoch s)
    by (rewrite Z.add_0_r; by apply wrap_u_small).
  destruct e as [w|w|]; [| |done];
    cbn [step epoch_step]; unfold transitionTo, transitionToOnce;
    destruct (decide (fsm_value s = w)) as [Hw|Hw]; cbn.
  1,3: rewrite decide_False by tauto; by rewrite E0.
  all: destruct (allowed (fsm_value s) w) eqn:Ha; cbn;
    [|rewrite decide_False by (intros (? & ? & ?); congruence); by rewrite E0].
  all: destruct (decide (w = SessionStateConnected)) as [Hc|Hc];
    [by rewrite decide_True by tauto|by rewrite decide_False, E0 by tauto].
Qed.

Lemma u64_add_l a b : u64 (u64 a + b) = u64 (a + b).
Proof. unfold u64, wrap_u. apply Z.add_mod_idemp_l. lia. Qed.

Lemma once_results_closed s es : fsm_value s = SessionStateClosed ->
  Forall (fun b => b = false) (once_results s SessionStateClosed es).
Proof.
  revert s. induction es as [|[w|w|] es IH]; intros s Hc; cbn [once_results]; [constructor| | |].
  - apply IH. by apply closed_step.
  - pose proof (closed_step s (EvOnce w) Hc) as Hs. cbn in Hs.
    destruct (transitionToOnce s w) as [[s' f] ok] eqn:E. cbn in Hs.
    apply Forall_app; split; [|by apply IH].
    destruct (decide (w = SessionStateClosed)) as [->|]; [|constructor].
    unfold transitionToOnce in E. rewrite decide_True in E by done.
    injection E as _ _ <-. by constructor.
  - apply IH. by apply closed_step.
Qed.

(** ** Properties *)

(** Closed is terminal: once a run of the machine has reached Closed, every
    further schedule leaves it there and every transition elsewhere is refused. *)
Theorem closed_is_terminal es1 es2 :
  fsm_value (run initial_fsm es1) = SessionStateClosed ->
  fsm_value (run (run initial_fsm es1) es2) = SessionStateClosed /\
  (forall w, w <> SessionStateClosed -> (transitionTo (run initial_fsm es1) w).2 = false).
Proof.
  intros Hc. split; [by apply closed_run|].
  intros w Hw. unfold transitionTo. rewrite Hc, decide_False by done.
  by rewrite allowed_closed.
Qed.

Lemma once_wins_closed s es : fsm_value s = SessionStateClosed ->
  List.filter id (once_results s SessionStateClosed es) = [].
Proof.
  intros H%(once_results_closed s es). induction H as [|b l -> _ IH]; [done|]. cbn. apply IH.
Qed.

Lemma once_other s w : w <> SessionStateClosed ->
  fsm_value s <> SessionStateClosed -> fsm_value (transitionToOnce s w).1.1 <> SessionStateClosed.
Proof.
  intros Hw Hs. unfold transitionToOnce. case_decide; [done|].
  destruct (allowed _ _); [done|]. done.
Qed.

Lemma once_results_once s w w' es :
  once_results s w (EvOnce w' :: es) =
  (if decide (w' = w) then [(transitionToOnce s w').2] else [])
  ++ once_results (transitionToOnce s w').1.1 w es.
Proof. cbn. by destruct (transitionToOnce s w') as [[? ?] ?]. Qed.

(** Close and the other one-shot transitions: whatever the interleaving, when no
    plain transition to Closed interferes, exactly one of the racing
    [transitionToOnce Closed] callers is told that it landed it. *)
Theorem close_lands_once s es :
  fsm_value s <> SessionStateClosed ->
  EvTo SessionStateClosed ∉ es ->
  EvOnce SessionStateClosed ∈ es ->
  length (List.filter id (once_results s SessionStateClosed es)) = 1%nat /\
  fsm_value (run s es) = SessionStateClosed.
Proof.
  revert s. induction es as [|e es IH]; intros s Hs Hno Hin; [by apply elem_of_nil in Hin|].
  rewrite elem_of_cons in Hno, Hin. cbn [run foldl].
  change (foldl step (step s e) es) with (run (step s e) es).
  destruct e as [w|w|].
  - destruct Hin as [|Hin]; [done|]. apply IH; [|tauto|done].
    cbn. rewrite transitionTo_value. repeat case_match; naive_solver.
  - rewrite once_results_once. cbn [step].
    destruct (decide (w = SessionStateClosed)) as [->|Hw].
    + unfold transitionToOnce. rewrite decide_False, allowed_to_closed by done. cbn.
      rewrite once_wins_closed by done. split; [done|]. by apply closed_run.
    + apply IH; [by apply once_other|tauto|naive_solver].
  - destruct Hin as [|Hin]; [done|]. apply IH; [done|tauto|done].
Qed.

(** The generation counter counts: after any schedule it equals its start value
    plus the number of entries into Connected and explicit bumps, modulo 2^64. *)
Theorem epoch_counts s es :
  in_u 64 (fsm_epoch s) -> fsm_epoch (run s es) = u64 (fsm_epoch s + epoch_entries s es).
Proof.
  revert s. induction es as [|e es IH]; intros s Hr; cbn [run foldl epoch_entries].
  - rewrite Z.add_0_r. symmetry. by apply wrap_u_small.
  - change (foldl step (step s e) es) with (run (step s e) es).
    rewrite IH, epoch_step_ok, u64_add_l, Z.add_assoc; [done|done|].
    rewrite epoch_step_ok by done. by apply wrap_u_range.
Qed.

Lemma close_lands_once_witness :
  length (List.filter id (once_results initial_fsm SessionStateClosed
    [EvTo SessionStateConnecting; EvOnce SessionStateClosed; EvOnce SessionStateClosed])) = 1%nat /\
  fsm_value (run initial_fsm
    [EvTo SessionStateConnecting; EvOnce SessionStateClosed; EvOnce SessionStateClosed])
  = SessionStateClosed.
Proof.
  apply (close_lands_once initial_fsm
    [EvTo SessionStateConnecting; EvOnce SessionStateClosed; EvOnce SessionStateClosed]).
  - discriminate.
  - apply (bool_decide_unpack _). vm_compute. exact I.
  - apply (bool_decide_unpack _). vm_compute. exact I.
Defined.

Lemma epoch_counts_witness :
  fsm_epoch (run initial_fsm [EvTo SessionStateConnecting; EvTo SessionStateConnected; EvBump])
  = u64 (0 + epoch_entries initial_fsm
      [EvTo SessionStateConnecting; EvTo SessionStateConnected; EvBump]).
Proof. apply (epoch_counts initial_fsm). split; reflexivity || discriminate. Defined.

Lemma closed_is_terminal_witness :
  fsm_value (run (run initial_fsm [EvTo SessionStateClosed]) [EvTo SessionStateConnected])
    = SessionStateClosed /\
  (forall w, w <> SessionStateClosed ->
    (transitionTo (run initial_fsm [EvTo SessionStateClosed]) w).2 = false).
Proof. apply (closed_is_terminal [EvTo SessionStateClosed] [EvTo SessionStateConnected]). reflexivity. Defined.
