(* ===== verification/Ams.v ===== *)
(** ams.go: AMS addresses, the 32-byte AMS header, NetID notation and the framing
    of a request ([encodeTo]). *)
From S2P Require Import Prelude Wire Strconv.
From Stdlib Require Import Ascii.

(** [NetID] is a [[6]byte], [Port] a [uint16]. *)
Record AMSAddress : Type := { NetID : bytes; Port : Z }.

Definition wf_addr (a : AMSAddress) : Prop := length (NetID a) = 6%nat /\ in_u 16 (Port a).

#[export] Instance AMSAddress_eq_dec : EqDecision AMSAddress.
Proof. solve_decision. Defined.

Record AMSHeader : Type := {
  Target : AMSAddress; Source : AMSAddress;
  Command : Z; State : Z; Length : Z; ErrorCode : Z; InvokeID : Z }.

Definition wf_header (h : AMSHeader) : Prop :=
  wf_addr (Target h) /\ wf_addr (Source h) /\ in_u 16 (Command h) /\ in_u 16 (State h) /\
  in_u 32 (Length h) /\ in_u 32 (ErrorCode h) /\ in_u 32 (InvokeID h).

Definition AMSHeaderSize : Z := 32.
Definition MaxAMSPayloadSize : Z := 32 * 1024 * 1024.

(** [binary.Write] / [binary.Read] of the structs, field by field in declaration order. *)
Definition encode_addr (a : AMSAddress) : bytes := NetID a ++ put_u16 (Port a).

Definition read_addr (buf : bytes) : res (AMSAddress * bytes) :=
  '(id, buf) ← read_full 6 buf;
  '(port, buf) ← read_u16 buf;
  Ok ({| NetID := id; Port := port |}, buf).

Definition read_header (buf : bytes) : res (AMSHeader * bytes) :=
  '(target, buf) ← read_addr buf;
  '(source, buf) ← read_addr buf;
  '(cmd, buf) ← read_u16 buf;
  '(st, buf) ← read_u16 buf;
  '(ln, buf) ← read_u32 buf;
  '(ec, buf) ← read_u32 buf;
  '(id, buf) ← read_u32 buf;
  Ok ({| Target := target; Source := source; Command := cmd; State := st;
         Length := ln; ErrorCode := ec; InvokeID := id |}, buf).

Definition EncodeAMSHeader (h : AMSHeader) : bytes :=
  encode_addr (Target h) ++ encode_addr (Source h) ++
  put_u16 (Command h) ++ put_u16 (State h) ++
  put_u32 (Length h) ++ put_u32 (ErrorCode h) ++ put_u32 (InvokeID h).

Definition ParseAMSHeader (b : bytes) : res AMSHeader :=
  if len b <? AMSHeaderSize then Err (EMsg "ams: header too short")
  else
    hd ← slice b 0 AMSHeaderSize;
    '(h, _) ← wrap_err "ams: parse header" (read_header hd);
    if MaxAMSPayloadSize <? Length h
    then Err (EMsg "ams: declared payload length exceeds MaxAMSPayloadSize")
    else Ok h.

(** ** NetID notation *)

Definition ParseNetID (source : string) : res bytes :=
  let parts := split "." source in
  if negb (len parts =? 6) then Err (EMsg "invalid NetID: expected 6 dot-separated parts")
  else
    vs ← mapM_res (fun a => wrap_err "invalid NetID: part" (parse_uint 8 a)) parts;
    Ok (map byte_of_Z vs).

Definition NewAMSAddress (netID : string) (port : Z) : res AMSAddress :=
  id ← ParseNetID netID;
  Ok {| NetID := id; Port := port |}.

(** ["%d.%d.%d.%d.%d.%d"] *)
Definition NetIDString (a : AMSAddress) : string :=
  join "." (map (fun b => format_uint (Z_of_byte b)) (NetID a)).

Definition AMSAddress_String (a : AMSAddress) : string :=
  (NetIDString a ++ ":" ++ format_uint (Port a))%string.

Definition AMSAddress_Equal (a other : AMSAddress) : bool :=
  bool_decide (NetID a = NetID other) && (Port a =? Port other).

(** ** Framing a request *)

Definition request_header (target source : AMSAddress) (command : Z) (data : bytes) (invokeID : Z)
  : AMSHeader :=
  {| Target := target; Source := source; Command := command; State := 4;
     Length := u32 (len data); ErrorCode := 0; InvokeID := invokeID |}.

(** The 6-byte AMS/TCP prefix: two [uint8]s, then the frame length. *)
Definition encode_tcp_header (system length : Z) : bytes :=
  byte_of_Z 0 :: byte_of_Z system :: put_u32 length.

Definition encodeTo (target source : AMSAddress) (command : Z) (data : bytes) (invokeID : Z) : bytes :=
  encode_tcp_header 0 (u32 (AMSHeaderSize + len data)) ++
  EncodeAMSHeader (request_header target source command data invokeID) ++ data.

(** ** Lemmas *)

Lemma read_addr_encode a rest : wf_addr a -> read_addr (encode_addr a ++ rest) = Ok (a, rest).
Proof.
  intros [Hl Hp]. unfold read_addr, encode_addr. rewrite <- app_assoc.
  rewrite read_full_app by (unfold len; by rewrite Hl). cbn [mbind res_bind].
  rewrite read_uint_app. cbn [mbind res_bind]. rewrite Z.mod_small by done. by destruct a.
Qed.

Lemma read_header_encode h rest :
  wf_header h -> read_header (EncodeAMSHeader h ++ rest) = Ok (h, rest).
Proof.
  intros (Ht & Hs & Hc & Hst & Hl & He & Hi). unfold read_header, EncodeAMSHeader.
  rewrite <- !app_assoc.
  rewrite read_addr_encode by done. cbn [mbind res_bind].
  rewrite read_addr_encode by done. cbn [mbind res_bind].
  do 5 (rewrite read_uint_app; cbn [mbind res_bind]).
  rewrite !Z.mod_small by done. by destruct h.
Qed.

Lemma len_encode_addr a : wf_addr a -> len (encode_addr a) = 8.
Proof. intros [Hl _]. unfold encode_addr. rewrite len_app, len_le_put. unfold len. lia. Qed.

Lemma len_EncodeAMSHeader h : wf_header h -> len (EncodeAMSHeader h) = 32.
Proof.
  intros (Ht & Hs & _). unfold EncodeAMSHeader.
  rewrite !len_app, !len_encode_addr, !len_le_put by done. lia.
Qed.

Lemma no_panic_read_addr buf : no_panic (read_addr buf).
Proof.
  unfold read_addr. apply no_panic_bind; [auto with ads|]. intros [id b] _.
  apply no_panic_bind; [auto with ads|]. intros [p b'] _. auto with ads.
Qed.
#[export] Hint Resolve no_panic_read_addr : ads.

Lemma no_panic_read_header buf : no_panic (read_header buf).
Proof.
  unfold read_header.
  repeat (apply no_panic_bind; [auto with ads|]; intros [? ?] _). auto with ads.
Qed.
#[export] Hint Resolve no_panic_read_header : ads.

Lemma read_addr_enough buf : 8 <= len buf ->
  exists a, read_addr buf = Ok (a, drop 8 buf) /\ wf_addr a /\ encode_addr a = take 8 buf.
Proof.
  intros H. unfold read_addr. rewrite read_full_enough by lia. cbn [mbind res_bind].
  rewrite read_uint_enough by len_lia. cbn [mbind res_bind]. rewrite drop_drop.
  eexists; split; [done|]. unfold wf_addr, encode_addr. cbn [NetID Port].
  assert (H6 : length (take (Z.to_nat 6) buf) = 6%nat) by (rewrite length_take; unfold len in H; lia).
  assert (H2 : length (take 2 (drop (Z.to_nat 6) buf)) = 2%nat)
    by (rewrite length_take, length_drop; unfold len in H; lia).
  split_and!; [done| |].
  - pose proof (le_get_bound (take 2 (drop (Z.to_nat 6) buf))) as Hb.
    unfold len in Hb. rewrite H2 in Hb. exact Hb.
  - rewrite <- H2 at 1. rewrite le_put_get.
    change (Z.to_nat 6) with 6%nat.
    by rewrite take_take_drop.
Qed.

Lemma read_uint_split n buf : (n <= length buf)%nat ->
  exists v, read_uint n buf = Ok (v, drop n buf) /\ in_u (8 * Z.of_nat n) v /\ le_put n v = take n buf.
Proof.
  intros H. rewrite read_uint_enough by (unfold len; lia).
  assert (Hn : length (take n buf) = n) by (rewrite length_take; lia).
  eexists; split_and!; [done| |].
  - pose proof (le_get_bound (take n buf)) as Hb. unfold len in Hb. rewrite Hn in Hb. exact Hb.
  - rewrite <- Hn at 1. by rewrite le_put_get.
Qed.

(** Decoding any 32 bytes yields a well-formed header that re-encodes to them. *)
Lemma read_header_enough buf : 32 <= len buf ->
  exists h, read_header buf = Ok (h, drop 32 buf) /\ wf_header h /\ EncodeAMSHeader h = take 32 buf.
Proof.
  intros H. unfold read_header. assert (Hl : (32 <= length buf)%nat) by (unfold len in H; lia).
  destruct (read_addr_enough buf) as (t & -> & Ht & Et); [lia|]. cbn [mbind res_bind].
  destruct (read_addr_enough (drop 8 buf)) as (s & -> & Hs & Es); [len_lia|]. cbn [mbind res_bind].
  rewrite drop_drop.
  destruct (read_uint_split 2 (drop (8 + 8) buf)) as (c & -> & Hc & Ec);
    [rewrite length_drop; lia|]. cbn [mbind res_bind]. rewrite drop_drop.
  destruct (read_uint_split 2 (drop (8 + 8 + 2) buf)) as (st & -> & Hst & Est);
    [rewrite length_drop; lia|]. cbn [mbind res_bind]. rewrite drop_drop.
  destruct (read_uint_split 4 (drop (8 + 8 + 2 + 2) buf)) as (l & -> & Hln & El);
    [rewrite length_drop; lia|]. cbn [mbind res_bind]. rewrite drop_drop.
  destruct (read_uint_split 4 (drop (8 + 8 + 2 + 2 + 4) buf)) as (e & -> & He & Ee);
    [rewrite length_drop; lia|]. cbn [mbind res_bind]. rewrite drop_drop.
  destruct (read_uint_split 4 (drop (8 + 8 + 2 + 2 + 4 + 4) buf)) as (i & -> & Hi & Ei);
    [rewrite length_drop; lia|]. cbn [mbind res_bind]. rewrite drop_drop.
  eexists; split; [done|]. split; [exact (conj Ht (conj Hs (conj Hc (conj Hst (conj Hln (conj He Hi))))))|].
  unfold EncodeAMSHeader. cbn [Target Source Command State Length ErrorCode InvokeID].
  rewrite Et, Es, Ec, Est, El, Ee, Ei.
  rewrite !app_assoc. by rewrite !take_take_drop.
Qed.

(** ** Properties *)

(** Encoding a header and parsing it (with anything after it) gives it back,
    exactly when its declared payload is within [MaxAMSPayloadSize]; a larger
    declaration is refused. *)
Theorem ParseAMSHeader_roundtrip h rest :
  wf_header h ->
  ParseAMSHeader (EncodeAMSHeader h ++ rest) =
  if Length h <=? MaxAMSPayloadSize then Ok h
  else Err (EMsg "ams: declared payload length exceeds MaxAMSPayloadSize").
Proof.
  intros Hh. pose proof (len_EncodeAMSHeader h Hh) as Hl. unfold ParseAMSHeader.
  rewrite (proj2 (Z.ltb_ge _ _)) by (unfold AMSHeaderSize; len_lia).
  rewrite slice_Ok by (unfold AMSHeaderSize; len_lia). cbn [mbind res_bind].
  change (Z.to_nat 0) with 0%nat. rewrite drop_0, take_app_len by (unfold AMSHeaderSize, len in *; lia).
  rewrite <- (app_nil_r (EncodeAMSHeader h)), read_header_encode by done. cbn.
  rewrite Z.leb_antisym. by destruct (_ <? _).
Qed.

(** Parsing is total on at least 32 bytes and loses nothing: whenever it
    succeeds, the header is well formed, within bounds, and re-encodes to the
    very bytes it was read from; on shorter input it reports an error.  It never
    panics. *)
Theorem ParseAMSHeader_sound b :
  match ParseAMSHeader b with
  | Ok h => 32 <= len b /\ wf_header h /\ Length h <= MaxAMSPayloadSize /\ EncodeAMSHeader h = take 32 b
  | Err _ => len b < 32 \/
      (exists h, wf_header h /\ EncodeAMSHeader h = take 32 b /\ MaxAMSPayloadSize < Length h)
  | Panic => False
  end.
Proof.
  unfold ParseAMSHeader, AMSHeaderSize. destruct (Z.ltb_spec (len b) 32) as [H|H]; [by left|].
  rewrite slice_Ok by lia. cbn [mbind res_bind].
  change (Z.to_nat 0) with 0%nat. change (Z.to_nat (32 - 0)) with 32%nat. rewrite drop_0.
  destruct (read_header_enough (take 32 b)) as (h & -> & Hh & E); [len_lia|].
  cbn. rewrite take_take, Nat.min_id in E.
  destruct (Z.ltb_spec MaxAMSPayloadSize (Length h)); [right; eauto|done].
Qed.

(** A NetID printed in dotted notation parses back to the same six bytes. *)
Theorem ParseNetID_NetIDString a : wf_addr a -> ParseNetID (NetIDString a) = Ok (NetID a).
Proof.
  intros [Hl _]. unfold ParseNetID, NetIDString.
  rewrite split_join.
  - rewrite len_map. unfold len. rewrite Hl. cbn [Z.of_nat].
    change (negb (Z.of_nat 6 =? 6)) with false. cbn iota.
    assert (H : forall l, mapM_res (fun s => wrap_err "invalid NetID: part" (parse_uint 8 s))
                (map (fun b => format_uint (Z_of_byte b)) l) = Ok (map Z_of_byte l)).
    { induction l as [|x l IH]; [done|]. cbn [map mapM_res].
      rewrite parse_uint_format by (unfold in_u; pose proof (Z_of_byte_range x); lia).
      cbn [wrap_err mbind res_bind]. by rewrite IH. }
    rewrite H. cbn. f_equal. rewrite map_map. rewrite (map_ext _ id); [apply map_id|].
    intros x. apply byte_of_Z_of_byte.
  - by destruct (NetID a).
  - rewrite Forall_map. apply Forall_true. intros b. apply format_uint_no_sep; [|done].
    pose proof (Z_of_byte_range b). lia.
Qed.

(** Whatever [ParseNetID] accepts is six bytes, so [NewAMSAddress] builds
    well-formed addresses. *)
Lemma NewAMSAddress_wf s port a : in_u 16 port -> NewAMSAddress s port = Ok a -> wf_addr a.
Proof.
  intros Hp H. unfold NewAMSAddress, ParseNetID in H. res_inv.
  split; [|done]. cbn. destruct (negb _) eqn:E; [done|].
  apply negb_false_iff in E. zbool. res_inv.
  match goal with H : mapM_res _ _ = _ |- _ => apply mapM_res_length in H end.
  rewrite length_map. unfold len in E. lia.
Qed.

(** ** Witnesses *)

Definition sample_addr : AMSAddress :=
  {| NetID := map byte_of_Z [5; 66; 133; 203; 1; 1]; Port := 851 |}.

Lemma wf_sample_addr : wf_addr sample_addr.
Proof. split; [done|]. split; [discriminate|reflexivity]. Qed.

Definition sample_header : AMSHeader := request_header sample_addr sample_addr 2 [Byte.x01] 7.

Lemma wf_sample_header : wf_header sample_header.
Proof.
  repeat split; try discriminate; try apply wf_sample_addr; try reflexivity.
Qed.

Lemma ParseAMSHeader_roundtrip_witness :
  ParseAMSHeader (EncodeAMSHeader sample_header ++ [Byte.x01]) = Ok sample_header.
Proof. apply (ParseAMSHeader_roundtrip sample_header [Byte.x01] wf_sample_header). Defined.

Lemma ParseNetID_NetIDString_witness :
  ParseNetID (NetIDString sample_addr) = Ok (map byte_of_Z [5; 66; 133; 203; 1; 1]).
Proof. apply (ParseNetID_NetIDString sample_addr wf_sample_addr). Defined.

Example NetIDString_ex : AMSAddress_String sample_addr = "5.66.133.203.1.1:851"%string.
Proof. reflexivity. Qed.
