(* ===== verification/Client.v ===== *)
(** The raw RPC surface of [*Client] (cmd_simple.go, process_image.go,
    capabilities.go, the single-symbol RPCs of symbol_discovery.go and
    cmd_notification.go), against the interface its transport promises.

    [Transport] is what [sendRequestTo] (client.go) offers: one request in, one
    reply payload or an error out, the transport's own state threaded through.
    The multiplexer that implements it is modelled in Mux.v. *)
From S2P Require Import Prelude Wire Strconv Defs Ams.

(** ** The interface *)

Class Transport (W : Type) : Type :=
  sendRequestTo_tx : AMSAddress -> Z -> bytes -> W -> W * res bytes.

(** capabilities.go: per-connection feature detection, all zero on a fresh Client. *)
Record capabilities : Type := {
  sumReadCmd : Z; sumWriteState : Z; sumAddNotifState : Z; sumDeleteNotifState : Z;
  chunkedDownloadSupported : bool; chunkedDownloadChecked : bool }.

Definition fresh_capabilities : capabilities :=
  {| sumReadCmd := 0; sumWriteState := 0; sumAddNotifState := 0; sumDeleteNotifState := 0;
     chunkedDownloadSupported := false; chunkedDownloadChecked := false |}.

Record client (W : Type) : Type := { cl_target : AMSAddress; cl_caps : capabilities; cl_tx : W }.
Arguments cl_target {W}. Arguments cl_caps {W}. Arguments cl_tx {W}.
Arguments Build_client {W}.

(** A client method: the client's state, and [(value, error)]. *)
Definition rpc (W A : Type) : Type := client W -> client W * res A.

#[export] Instance rpc_ret W : MRet (rpc W) := fun A a c => (c, Ok a).
#[export] Instance rpc_bind W : MBind (rpc W) := fun A B f m c =>
  match m c with
  | (c', Ok a) => f a c'
  | (c', Err e) => (c', Err e)
  | (c', Panic) => (c', Panic)
  end.

Definition lift {W A} (r : res A) : rpc W A := fun c => (c, r).
(** [v, err := m(); ...] with the error inspected by the caller. *)
Definition attempt {W A} (m : rpc W A) : rpc W (A + goerr) := fun c =>
  match m c with
  | (c', Ok a) => (c', Ok (inl a))
  | (c', Err e) => (c', Ok (inr e))
  | (c', Panic) => (c', Panic)
  end.
Definition wrap_rpc {W A} (msg : string) (m : rpc W A) : rpc W A := fun c =>
  let '(c', r) := m c in (c', wrap_err msg r).

Section Capabilities.
Context {W : Type}.

Definition caps_get : rpc W capabilities := fun c => (c, Ok (cl_caps c)).
Definition caps_set (k : capabilities) : rpc W () := fun c =>
  ({| cl_target := cl_target c; cl_caps := k; cl_tx := cl_tx c |}, Ok ()).

Definition SumReadCmdLoad : rpc W Z := k ← caps_get; mret (sumReadCmd k).
Definition SumReadCmdStore (v : Z) : rpc W () :=
  k ← caps_get;
  caps_set {| sumReadCmd := v; sumWriteState := sumWriteState k;
              sumAddNotifState := sumAddNotifState k; sumDeleteNotifState := sumDeleteNotifState k;
              chunkedDownloadSupported := chunkedDownloadSupported k;
              chunkedDownloadChecked := chunkedDownloadChecked k |}.

Definition SumWriteStateLoad : rpc W Z := k ← caps_get; mret (sumWriteState k).
Definition SumWriteStateCAS (old new : Z) : rpc W bool :=
  k ← caps_get;
  if sumWriteState k =? old then
    _ ← caps_set {| sumReadCmd := sumReadCmd k; sumWriteState := new;
              sumAddNotifState := sumAddNotifState k; sumDeleteNotifState := sumDeleteNotifState k;
              chunkedDownloadSupported := chunkedDownloadSupported k;
              chunkedDownloadChecked := chunkedDownloadChecked k |};
    mret true
  else mret false.

Definition SumAddNotifStateLoad : rpc W Z := k ← caps_get; mret (sumAddNotifState k).
Definition SumAddNotifStateCAS (old new : Z) : rpc W bool :=
  k ← caps_get;
  if sumAddNotifState k =? old then
    _ ← caps_set {| sumReadCmd := sumReadCmd k; sumWriteState := sumWriteState k;
              sumAddNotifState := new; sumDeleteNotifState := sumDeleteNotifState k;
              chunkedDownloadSupported := chunkedDownloadSupported k;
              chunkedDownloadChecked := chunkedDownloadChecked k |};
    mret true
  else mret false.

Definition SumDeleteNotifStateLoad : rpc W Z := k ← caps_get; mret (sumDeleteNotifState k).
Definition SumDeleteNotifStateCAS (old new : Z) : rpc W bool :=
  k ← caps_get;
  if sumDeleteNotifState k =? old then
    _ ← caps_set {| sumReadCmd := sumReadCmd k; sumWriteState := sumWriteState k;
              sumAddNotifState := sumAddNotifState k; sumDeleteNotifState := new;
              chunkedDownloadSupported := chunkedDownloadSupported k;
              chunkedDownloadChecked := chunkedDownloadChecked k |};
    mret true
  else mret false.

(** [ChunkedDownloadSupportedStore(sup); ChunkedDownloadCheckedStore(true)]. *)
Definition ChunkedDownloadStore (sup : bool) : rpc W () :=
  k ← caps_get;
  caps_set {| sumReadCmd := sumReadCmd k; sumWriteState := sumWriteState k;
              sumAddNotifState := sumAddNotifState k; sumDeleteNotifState := sumDeleteNotifState k;
              chunkedDownloadSupported := sup; chunkedDownloadChecked := true |}.
End Capabilities.

(** ** Reply parsing, shared by the commands *)

(** [{Error, Length}] then [Length] bytes: the body of a Read / ReadWrite reply. *)
Definition parse_read_reply (what : string) (resp : bytes) : res bytes :=
  '(err, b) ← wrap_err "failed to parse response" (read_u32 resp);
  '(ln, b) ← wrap_err "failed to parse response" (read_u32 b);
  if 0 <? err then Err (EWrap what (ECode err))
  else if len b <? ln then Err (EMsg "declared length exceeds the body")
  else Ok (buf_next ln b).1.

(** A bare result code: the body of a Write / DeleteDeviceNotification reply. *)
Definition parse_code_reply (what : string) (resp : bytes) : res () :=
  '(code, _) ← wrap_err "failed to parse response" (read_u32 resp);
  if 0 <? code then Err (EWrap what (ECode code)) else Ok ().

Record States : Type := { ADSState : Z; DeviceState : Z }.
Record DeviceInfo : Type := { Major : Z; Minor : Z; Version : Z; DeviceName : bytes }.

Definition parse_state_reply (resp : bytes) : res States :=
  '(err, b) ← wrap_err "failed to parse ReadState response" (read_u32 resp);
  '(ads, b) ← wrap_err "failed to parse ReadState response" (read_u16 b);
  '(dev, _) ← wrap_err "failed to parse ReadState response" (read_u16 b);
  if 0 <? err then Err (EWrap "ADS error in ReadState" (ECode err))
  else Ok {| ADSState := ads; DeviceState := dev |}.

Definition parse_device_info_reply (resp : bytes) : res DeviceInfo :=
  if negb (len resp =? 24) then Err (EMsg "wrong length of response")
  else
    '(err, b) ← wrap_err "failed to parse ReadDeviceInfo response" (read_u32 resp);
    '(ma, b) ← wrap_err "failed to parse ReadDeviceInfo response" (read_u8 b);
    '(mi, b) ← wrap_err "failed to parse ReadDeviceInfo response" (read_u8 b);
    '(v, b) ← wrap_err "failed to parse ReadDeviceInfo response" (read_u16 b);
    '(nm, _) ← wrap_err "failed to parse ReadDeviceInfo response" (read_full 16 b);
    if 0 <? err then Err (EWrap "ADS error in ReadDeviceInfo" (ECode err))
    else Ok {| Major := ma; Minor := mi; Version := v; DeviceName := nm |}.

Definition parse_add_notification_reply (resp : bytes) : res Z :=
  '(err, b) ← read_u32 resp;
  '(h, _) ← read_u32 b;
  if negb (err =? 0) then Err (EWrap "unable to create notification" (ECode err)) else Ok h.

Record SymbolUploadInfo : Type := {
  SymbolCount : Z; SymbolLength : Z; DataTypeCount : Z; DataTypeLength : Z;
  ExtraCount : Z; ExtraLength : Z }.

Definition parse_upload_info (res0 : bytes) : res SymbolUploadInfo :=
  '(sc, b) ← wrap_err "reading SymbolCount" (read_u32 res0);
  '(sl, b) ← wrap_err "reading SymbolLength" (read_u32 b);
  '(dc, b) ← wrap_err "reading DataTypeCount" (read_u32 b);
  '(dl, b) ← wrap_err "reading DataTypeLength" (read_u32 b);
  if 8 <=? len b then
    '(ec, b) ← wrap_err "reading ExtraCount" (read_u32 b);
    '(el, _) ← wrap_err "reading ExtraLength" (read_u32 b);
    Ok {| SymbolCount := sc; SymbolLength := sl; DataTypeCount := dc; DataTypeLength := dl;
          ExtraCount := ec; ExtraLength := el |}
  else
    Ok {| SymbolCount := sc; SymbolLength := sl; DataTypeCount := dc; DataTypeLength := dl;
          ExtraCount := 0; ExtraLength := 0 |}.

(** ** The commands *)

Section Commands.
Context {W : Type} `{Transport W}.

Definition sendRequestTo (target : AMSAddress) (command : Z) (data : bytes) : rpc W bytes :=
  fun c => let '(w, r) := sendRequestTo_tx target command data (cl_tx c) in
           ({| cl_target := cl_target c; cl_caps := cl_caps c; cl_tx := w |}, r).

Definition sendRequest (command : Z) (data : bytes) : rpc W bytes :=
  fun c => sendRequestTo (cl_target c) command data c.

Definition read_packet (group offset length : Z) : bytes :=
  put_u32 group ++ put_u32 offset ++ put_u32 length.

Definition Read (group offset length : Z) : rpc W bytes :=
  resp ← sendRequest CommandIDRead (read_packet group offset length);
  lift (parse_read_reply "ADS error in Read" resp).

Definition write_packet (group offset : Z) (data : bytes) : bytes :=
  put_u32 group ++ put_u32 offset ++ put_u32 (len data) ++ data.

Definition Write (group offset : Z) (data : bytes) : rpc W () :=
  resp ← sendRequest CommandIDWrite (write_packet group offset data);
  lift (parse_code_reply "ADS error in Write" resp).

Definition writeread_packet (group offset readLength : Z) (send : bytes) : bytes :=
  put_u32 group ++ put_u32 offset ++ put_u32 readLength ++ put_u32 (len send) ++ send.

Definition WriteRead (group offset readLength : Z) (send : bytes) : rpc W bytes :=
  resp ← sendRequest CommandIDReadWrite (writeread_packet group offset readLength send);
  lift (parse_read_reply "ADS error in WriteRead" resp).

Definition readStateOn (target : AMSAddress) : rpc W States :=
  resp ← sendRequestTo target CommandIDReadState [];
  lift (parse_state_reply resp).

Definition ReadState : rpc W States := fun c => readStateOn (cl_target c) c.

Definition ReadStateOnPort (port : Z) : rpc W States :=
  fun c => readStateOn {| NetID := NetID (cl_target c); Port := u16 port |} c.

Definition ReadDeviceInfo : rpc W DeviceInfo :=
  resp ← sendRequest CommandIDReadDeviceInfo [];
  lift (parse_device_info_reply resp).

Definition add_notification_packet (group offset length mode maxDelayTicks cycleTicks : Z) : bytes :=
  put_u32 group ++ put_u32 offset ++ put_u32 length ++ put_u32 mode ++
  put_u32 maxDelayTicks ++ put_u32 cycleTicks ++ replicate 16 Byte.x00.

Definition AddDeviceNotification (group offset length mode maxDelay cycleTime : Z) : rpc W Z :=
  maxDelayTicks ← lift (durationToADSTicks maxDelay);
  cycleTimeTicks ← lift (durationToADSTicks cycleTime);
  resp ← sendRequest CommandIDAddDeviceNotification
           (add_notification_packet group offset length mode maxDelayTicks cycleTimeTicks);
  lift (parse_add_notification_reply resp).

Definition DeleteDeviceNotification (handle : Z) : rpc W () :=
  resp ← sendRequest CommandIDDeleteDeviceNotification (put_u32 handle);
  lift (parse_code_reply "ADS error in DeleteDeviceNotification" resp).

Definition ReleaseHandle (handle : Z) : rpc W () :=
  Write GroupSymbolReleaseHandle 0 (put_u32 handle).

Definition GetHandleByName (symbolName : string) : rpc W Z :=
  resp ← wrap_rpc "getting handle"
           (WriteRead GroupSymbolHandleByName 0 4 (bytes_of_string symbolName ++ [Byte.x00]));
  if len resp <? 4 then lift (Err (EMsg "getting handle: response too short"))
  else lift (le_uint 4 resp).

Definition GetSymbolUploadInfo : rpc W SymbolUploadInfo :=
  r ← attempt (Read GroupSymbolUploadInfo2 0 24);
  buf ← match r with
        | inl b => mret b
        | inr _ => wrap_rpc "GetSymbolUploadInfo failed" (Read GroupSymbolUploadInfo 0 16)
        end;
  lift (parse_upload_info buf).

Definition DownloadSymbolList (length : Z) : rpc W bytes :=
  wrap_rpc "DownloadSymbolList failed" (Read GroupSymbolUpload 0 length).

Definition DownloadDataTypes (length : Z) : rpc W bytes :=
  wrap_rpc "DownloadDataTypes failed" (Read GroupSymbolDataTypeUpload 0 length).

Definition GetSymbolVersion : rpc W Z :=
  data ← wrap_rpc "failed to read symbol version" (Read GroupSymbolVersion 0 1);
  if len data <? 1 then lift (Err (EMsg "symbol version response too short"))
  else lift (b ← index data 0; Ok (Z_of_byte b)).

(** process_image.go *)

Definition ReadProcessInput (byteOffset length : Z) : rpc W bytes :=
  Read GroupIoImageRwib byteOffset length.
Definition ReadProcessOutput (byteOffset length : Z) : rpc W bytes :=
  Read GroupIoImageRwob byteOffset length.
Definition WriteProcessOutput (byteOffset : Z) (data : bytes) : rpc W () :=
  Write GroupIoImageRwob byteOffset data.

(** The bit address, computed in [uint64]: [byteOffset] is a [uint32], so the
    product cannot wrap. *)
Definition process_bit_offset (byteOffset bitIndex : Z) : res Z :=
  if 7 <? bitIndex then Err (EMsg "bitIndex must be 0-7")
  else let bitOffset := u64 (u64 (byteOffset * 8) + bitIndex) in
       if MaxUint32 <? bitOffset then Err (EMsg "bit address exceeds uint32 max")
       else Ok (u32 bitOffset).

Definition ReadProcessInputBit (byteOffset bitIndex : Z) : rpc W bool :=
  bitOffset ← lift (process_bit_offset byteOffset bitIndex);
  data ← Read GroupIoImageRwix bitOffset 1;
  if len data <? 1 then lift (Err (EMsg "ReadProcessInputBit: response too short"))
  else lift (b ← index data 0; Ok (negb (Z_of_byte b =? 0))).

Definition WriteProcessOutputBit (byteOffset bitIndex : Z) (value : bool) : rpc W () :=
  bitOffset ← lift (process_bit_offset byteOffset bitIndex);
  Write GroupIoImageRwox bitOffset [if value then Byte.x01 else Byte.x00].

Definition ReadProcessInputSize : rpc W Z :=
  data ← Read GroupIoImageRisize 0 4;
  if len data <? 4 then lift (Err (EMsg "ReadProcessInputSize: response too short"))
  else lift (le_uint 4 data).

Definition ClearProcessInputs : rpc W () := Write GroupIoImageCleari 0 [Byte.x00].
Definition ClearProcessOutputs : rpc W () := Write GroupIoImageClearo 0 [Byte.x00].
End Commands.

(** ** Lemmas *)

Lemma rpc_bind_Ok {W A B} (m : rpc W A) (f : A -> rpc W B) c c' a :
  m c = (c', Ok a) -> (m ≫= f) c = f a c'.
Proof. intros E. unfold mbind, rpc_bind. by rewrite E. Qed.

Lemma rpc_bind_Err {W A B} (m : rpc W A) (f : A -> rpc W B) c c' e :
  m c = (c', Err e) -> (m ≫= f) c = (c', Err e).
Proof. intros E. unfold mbind, rpc_bind. by rewrite E. Qed.

Lemma attempt_Ok {W A} (m : rpc W A) c c' a : m c = (c', Ok a) -> attempt m c = (c', Ok (inl a)).
Proof. intros E. unfold attempt. by rewrite E. Qed.
Lemma attempt_Err {W A} (m : rpc W A) c c' e : m c = (c', Err e) -> attempt m c = (c', Ok (inr e)).
Proof. intros E. unfold attempt. by rewrite E. Qed.

(** The documented replies. *)
Definition read_reply (code : Z) (data : bytes) : bytes := put_u32 code ++ put_u32 (len data) ++ data.

Lemma parse_read_reply_ok what data rest :
  len data < 2 ^ 32 -> parse_read_reply what (read_reply 0 data ++ rest) = Ok data.
Proof.
  intros H. unfold parse_read_reply, read_reply. rewrite <- !app_assoc.
  rewrite read_uint_app. cbn [wrap_err mbind res_bind].
  rewrite read_uint_app. cbn [wrap_err mbind res_bind].
  rewrite (Z.mod_small (len data)) by (split; [apply len_nonneg|done]).
  change (0 <? 0 mod 2 ^ (8 * Z.of_nat 4)) with false. cbn iota.
  rewrite (proj2 (Z.ltb_ge _ _)) by len_lia.
  unfold buf_next, len. rewrite Nat2Z.id. cbn. by rewrite take_app_len.
Qed.

Lemma parse_read_reply_code what code data rest :
  0 < code < 2 ^ 32 -> parse_read_reply what (read_reply code data ++ rest) = Err (EWrap what (ECode code)).
Proof.
  intros Hc. unfold parse_read_reply, read_reply. rewrite <- !app_assoc.
  rewrite read_uint_app. cbn [wrap_err mbind res_bind].
  rewrite read_uint_app. cbn [wrap_err mbind res_bind].
  rewrite (Z.mod_small code) by (cbn; lia). by rewrite (proj2 (Z.ltb_lt _ _)) by lia.
Qed.

Lemma parse_code_reply_ok what code rest : in_u 32 code ->
  parse_code_reply what (put_u32 code ++ rest) =
  if 0 <? code then Err (EWrap what (ECode code)) else Ok ().
Proof.
  intros Hc. unfold parse_code_reply. rewrite read_uint_app. cbn [wrap_err mbind res_bind].
  by rewrite Z.mod_small.
Qed.

Lemma parse_read_reply_len what resp data : parse_read_reply what resp = Ok data ->
  exists code ln body, resp = put_u32 code ++ put_u32 ln ++ body /\ code = 0 /\ len data = ln /\
    data = take (Z.to_nat ln) body.
Proof.
  intros H. unfold parse_read_reply in H. res_inv.
  destruct (read_u32 resp) as [[e b]| |] eqn:E1; try done.
  match goal with H : wrap_err _ _ = Ok x |- _ => cbn in H; injection H as <- end.
  res_inv. destruct (read_u32 b) as [[l b']| |] eqn:E2; try done.
  match goal with H : wrap_err _ _ = Ok x |- _ => cbn in H; injection H as <- end.
  destruct (0 <? e) eqn:Ee; [done|]. destruct (len b' <? l) eqn:El; [done|]. res_inv. zbool.
  apply read_uint_range in E1 as R1. apply read_uint_range in E2 as R2.
  apply read_uint_Ok in E1 as (h1 & -> & L1 & ->). apply read_uint_Ok in E2 as (h2 & -> & L2 & ->).
  unfold in_u in *. exists 0, (le_get h2), b'.
  assert (P1 : put_u32 (le_get h1) = h1) by (rewrite <- L1; apply le_put_get).
  assert (P2 : put_u32 (le_get h2) = h2) by (rewrite <- L2; apply le_put_get).
  assert (E0 : le_get h1 = 0) by lia. rewrite E0 in P1. rewrite P1, P2.
  split_and!; [done|done| |done]. cbn. rewrite len_take. lia.
Qed.
