(* ===== verification/SumCmd.v ===== *)
(** cmd_sum.go: the batched ADS sum commands with their per-connection capability
    detection and their fallbacks to individual commands. *)
From S2P Require Import Prelude Wire Strconv Defs Ams Client.

(** ** Data *)

Record SumReadRequest : Type := { rr_Group : Z; rr_Offset : Z; rr_Length : Z }.
Record SumReadResult : Type := { rs_Error : Z; rs_Data : bytes }.
Record SumWriteRequest : Type := { wr_Group : Z; wr_Offset : Z; wr_Data : bytes }.
Record SumWriteResult : Type := { ws_Error : Z }.
Record SumNotificationRequest : Type := {
  nr_Group : Z; nr_Offset : Z; nr_Length : Z; nr_TransmissionMode : Z;
  nr_MaxDelay : Z; nr_CycleTime : Z }.
Record SumNotificationResult : Type := { ns_Handle : Z; ns_Error : Z; ns_Skipped : option goerr }.

(** A Go [([]Res, error)] pair: partial results may accompany an error. *)
Definition multi (A : Type) : Type := list A * option goerr.
Definition fail_multi {A} (e : goerr) : multi A := ([], Some e).

(** ** parseSumReadResponse *)

(** The [N x (error, length)] header section. *)
Fixpoint sum_read_headers (resp : bytes) (i : Z) (n : nat) : res (list (Z * Z)) :=
  match n with
  | O => Ok []
  | S n =>
      err ← u32_at resp (i * 8);
      ln ← u32_at resp (i * 8 + 4);
      hs ← sum_read_headers resp (i + 1) n;
      Ok ((err, ln) :: hs)
  end.

(** Item [i] and everything after it is lost. *)
Definition sum_read_cascade (hdrs : list (Z * Z)) : list SumReadResult :=
  map (fun _ => {| rs_Error := ReturnCodeDeviceInvalidSize; rs_Data := [] |}) hdrs.

(** The walk over the data section. *)
Fixpoint sum_read_items (resp : bytes) (dataOffset : Z) (hdrs : list (Z * Z))
    (requests : list SumReadRequest) : res (list SumReadResult) :=
  match hdrs with
  | [] => Ok []
  | (err, ln) :: hs =>
      if negb (err =? ReturnCodeNoErrors) then
        let remaining := u32 (len resp - dataOffset) in
        if remaining <? ln then Ok (sum_read_cascade hdrs)
        else
          rs ← sum_read_items resp (dataOffset + ln) hs (tail requests);
          Ok ({| rs_Error := err; rs_Data := [] |} :: rs)
      else
        match requests with
        | [] => Panic
        | req :: requests =>
            if ln <? rr_Length req then Ok (sum_read_cascade hdrs)
            else if rr_Length req <? ln then Ok (sum_read_cascade hdrs)
            else
              let remaining := u32 (len resp - dataOffset) in
              if remaining <? ln then Ok (sum_read_cascade hdrs)
              else
                data ← slice resp dataOffset (dataOffset + ln);
                rs ← sum_read_items resp (dataOffset + ln) hs requests;
                Ok ({| rs_Error := ReturnCodeNoErrors; rs_Data := data |} :: rs)
        end
  end.

Definition parseSumReadResponse (resp : bytes) (n : nat) (requests : list SumReadRequest)
  : res (list SumReadResult) :=
  if len resp <? Z.of_nat n * 8 then Err (EMsg "SumRead response too short")
  else
    hdrs ← sum_read_headers resp 0 n;
    sum_read_items resp (Z.of_nat n * 8) hdrs requests.

(** ** Request encodings *)

Definition sum_read_item (r : SumReadRequest) : bytes :=
  put_u32 (rr_Group r) ++ put_u32 (rr_Offset r) ++ put_u32 (rr_Length r).
Definition sum_read_request (rs : list SumReadRequest) : bytes := concat (map sum_read_item rs).

(** [uint64] sums: far below a wrap for any request that passes the bound. *)
Definition sum_read_total (rs : list SumReadRequest) : Z :=
  len rs * 8 + foldr (fun r acc => rr_Length r + acc) 0 rs.

Definition sum_write_header (r : SumWriteRequest) : bytes :=
  put_u32 (wr_Group r) ++ put_u32 (wr_Offset r) ++ put_u32 (u32 (len (wr_Data r))).
Definition sum_write_request (rs : list SumWriteRequest) : bytes :=
  concat (map sum_write_header rs) ++ concat (map wr_Data rs).

(** The code of one item of a fallback loop. *)
Definition fallback_code (err : goerr) : Z :=
  match errors_as_code err with Some rc => rc | None => ReturnCodeDeviceError end.

Section SumCommands.
Context {W : Type} `{Transport W}.

(** ** SumRead *)

Fixpoint sumReadFallback (requests : list SumReadRequest) : rpc W (list SumReadResult) :=
  match requests with
  | [] => mret []
  | req :: requests =>
      r ← attempt (Read (rr_Group req) (rr_Offset req) (rr_Length req));
      rs ← sumReadFallback requests;
      mret (match r with
            | inl data => {| rs_Error := ReturnCodeNoErrors; rs_Data := data |}
            | inr err => {| rs_Error := fallback_code err; rs_Data := [] |}
            end :: rs)
  end.

Definition sumReadExec (group count readLen : Z) (writeData : bytes)
    (requests : list SumReadRequest) : rpc W (list SumReadResult) :=
  resp ← wrap_rpc "SumRead failed" (WriteRead group count readLen writeData);
  lift (parseSumReadResponse resp (Z.to_nat count) requests).

Definition sumReadProbe (count readLen : Z) (writeData : bytes)
    (requests : list SumReadRequest) : rpc W (list SumReadResult) :=
  r ← attempt (WriteRead GroupSumupReadEx2 count readLen writeData);
  match r with
  | inl resp =>
      _ ← SumReadCmdStore GroupSumupReadEx2;
      lift (parseSumReadResponse resp (Z.to_nat count) requests)
  | inr err =>
      if negb (isSumCommandUnsupportedError err) then lift (Err (EWrap "SumRead failed" err))
      else
        r ← attempt (WriteRead GroupSumupReadEx count readLen writeData);
        match r with
        | inl resp =>
            _ ← SumReadCmdStore GroupSumupReadEx;
            lift (parseSumReadResponse resp (Z.to_nat count) requests)
        | inr err =>
            if negb (isSumCommandUnsupportedError err) then lift (Err (EWrap "SumRead failed" err))
            else
              _ ← SumReadCmdStore 1;
              sumReadFallback requests
        end
  end.

Definition SumRead (requests : list SumReadRequest) : rpc W (list SumReadResult) :=
  match requests with
  | [] => mret []
  | _ =>
      cmd ← SumReadCmdLoad;
      if cmd =? 1 then sumReadFallback requests
      else
        let n := len requests in
        let writeData := sum_read_request requests in
        let total := sum_read_total requests in
        if MaxUint32 <? total then lift (Err (EMsg "SumRead total response size exceeds uint32 max"))
        else if negb (cmd =? 0) then sumReadExec cmd (u32 n) (u32 total) writeData requests
        else sumReadProbe (u32 n) (u32 total) writeData requests
  end.

(** ** SumWrite *)

Fixpoint sumWriteFallback (requests : list SumWriteRequest) : rpc W (list SumWriteResult) :=
  match requests with
  | [] => mret []
  | req :: requests =>
      r ← attempt (Write (wr_Group req) (wr_Offset req) (wr_Data req));
      rs ← sumWriteFallback requests;
      mret ({| ws_Error := match r with
                           | inl _ => ReturnCodeNoErrors
                           | inr err => fallback_code err
                           end |} :: rs)
  end.

(** [n] result codes, 4 bytes each. *)
Fixpoint parse_codes (resp : bytes) (i : Z) (n : nat) : res (list Z) :=
  match n with
  | O => Ok []
  | S n => code ← u32_at resp (i * 4); cs ← parse_codes resp (i + 1) n; Ok (code :: cs)
  end.

Definition SumWrite (requests : list SumWriteRequest) : rpc W (list SumWriteResult) :=
  match requests with
  | [] => mret []
  | _ =>
      st ← SumWriteStateLoad;
      if st =? 2 then sumWriteFallback requests
      else
        let n := len requests in
        let writeData := sum_write_request requests in
        r ← attempt (WriteRead GroupSumupWrite (u32 n) (u32 (n * 4)) writeData);
        match r with
        | inr err =>
            if isSumCommandUnsupportedError err then
              _ ← SumWriteStateCAS 0 2;
              sumWriteFallback requests
            else lift (Err (EWrap "SumWrite failed" err))
        | inl resp =>
            _ ← SumWriteStateCAS 0 1;
            if len resp <? n * 4 then lift (Err (EMsg "SumWrite response too short"))
            else
              codes ← lift (parse_codes resp 0 (length requests));
              mret (map Build_SumWriteResult codes)
        end
  end.

(** ** The generic executor

    [X] is what a fallback reports besides its results (the closure variable
    [fellBack] and the callbacks made by then); [None] when it did not run. *)
Record sumCmdSpec (Req Res X : Type) : Type := {
  stateLoad : rpc W Z;
  stateCASToSupported : rpc W bool;
  stateCASToUnsupported : rpc W bool;
  sc_group : Z;
  itemWriteSize : Z;
  itemReadSize : Z;
  sc_encode : Req -> res bytes;
  sc_decode : bytes -> nat -> res (list Res);
  sc_fallback : list Req -> rpc W (multi Res * X) }.
Arguments stateLoad {Req Res X}. Arguments stateCASToSupported {Req Res X}.
Arguments stateCASToUnsupported {Req Res X}. Arguments sc_group {Req Res X}.
Arguments itemWriteSize {Req Res X}. Arguments itemReadSize {Req Res X}.
Arguments sc_encode {Req Res X}. Arguments sc_decode {Req Res X}. Arguments sc_fallback {Req Res X}.

Definition executeSumCommand {Req Res X} (spec : sumCmdSpec Req Res X) (requests : list Req)
  : rpc W (multi Res * option X) :=
  match requests with
  | [] => mret (([], None), None)
  | _ =>
      st ← stateLoad spec;
      if st =? 2 then '(m, x) ← sc_fallback spec requests; mret (m, Some x)
      else
        let n := len requests in
        if MaxUint32 <? n * itemReadSize spec then
          mret (fail_multi (EMsg "sum command response size overflow"), None)
        else if MaxUint32 <? n * itemWriteSize spec then
          mret (fail_multi (EMsg "sum command request size overflow"), None)
        else
          match mapM_res (fun r => wrap_err "encode item" (sc_encode spec r)) requests with
          | Panic => lift Panic
          | Err e => mret (fail_multi e, None)
          | Ok items =>
              r ← attempt (WriteRead (sc_group spec) (u32 n) (u32 (n * itemReadSize spec))
                             (concat items));
              match r with
              | inr err =>
                  if isSumCommandUnsupportedError err then
                    _ ← stateCASToUnsupported spec;
                    '(m, x) ← sc_fallback spec requests; mret (m, Some x)
                  else mret (fail_multi (EWrap "sum command failed" err), None)
              | inl resp =>
                  _ ← stateCASToSupported spec;
                  if len resp <? n * itemReadSize spec then
                    mret (fail_multi (EMsg "sum command response too short"), None)
                  else
                    rs ← lift (sc_decode spec resp (length requests));
                    mret ((rs, None), None)
              end
          end
  end.

(** ** SumAddDeviceNotification *)

(** The per-item callback [onItem(index, result)], as the sequence of its calls. *)
Definition on_item_calls : Type := list (Z * SumNotificationResult).

Definition skipped_result (err : goerr) : SumNotificationResult :=
  {| ns_Handle := 0; ns_Error := 0; ns_Skipped := Some err |}.
Definition batch_aborted : goerr :=
  EWrap "batch aborted at item" (ESentinel ErrNotificationTransportFailure).

Fixpoint number_from {A} (i : Z) (l : list A) : list (Z * A) :=
  match l with [] => [] | a :: l => (i, a) :: number_from (i + 1) l end.

Fixpoint sumAddNotificationFallback (i : Z) (requests : list SumNotificationRequest)
  : rpc W (multi SumNotificationResult * on_item_calls) :=
  match requests with
  | [] => mret (([], None), [])
  | req :: rest =>
      let transMode := downgradeTransMode (nr_TransmissionMode req) in
      r ← attempt (AddDeviceNotification (nr_Group req) (nr_Offset req) (nr_Length req)
                     transMode (nr_MaxDelay req) (nr_CycleTime req));
      match r with
      | inr err =>
          match errors_as_code err with
          | None =>
              let results := skipped_result (EWrap2 (ESentinel ErrNotificationTransportFailure) err)
                             :: map (fun _ => skipped_result batch_aborted) rest in
              mret ((results, Some err), number_from i results)
          | Some rc =>
              let x := {| ns_Handle := 0; ns_Error := rc; ns_Skipped := None |} in
              '((rs, e), calls) ← sumAddNotificationFallback (i + 1) rest;
              mret ((x :: rs, e), (i, x) :: calls)
          end
      | inl h =>
          let x := {| ns_Handle := h; ns_Error := 0; ns_Skipped := None |} in
          '((rs, e), calls) ← sumAddNotificationFallback (i + 1) rest;
          mret ((x :: rs, e), (i, x) :: calls)
      end
  end.

Definition sum_add_encode (req : SumNotificationRequest) : res bytes :=
  maxDelayTicks ← durationToADSTicks (nr_MaxDelay req);
  cycleTimeTicks ← durationToADSTicks (nr_CycleTime req);
  Ok (put_u32 (nr_Group req) ++ put_u32 (nr_Offset req) ++ put_u32 (nr_Length req) ++
      put_u32 (nr_TransmissionMode req) ++ put_u32 maxDelayTicks ++ put_u32 cycleTimeTicks ++
      replicate 16 Byte.x00).

Fixpoint sum_add_decode (resp : bytes) (i : Z) (n : nat) : res (list SumNotificationResult) :=
  match n with
  | O => Ok []
  | S n =>
      err ← u32_at resp (i * 8);
      h ← u32_at resp (i * 8 + 4);
      rs ← sum_add_decode resp (i + 1) n;
      Ok ({| ns_Handle := h; ns_Error := err; ns_Skipped := None |} :: rs)
  end.

Definition sum_add_spec : sumCmdSpec SumNotificationRequest SumNotificationResult on_item_calls :=
  {| stateLoad := SumAddNotifStateLoad;
     stateCASToSupported := SumAddNotifStateCAS 0 1;
     stateCASToUnsupported := SumAddNotifStateCAS 0 2;
     sc_group := GroupSumupAddDeviceNotification;
     itemWriteSize := 40; itemReadSize := 8;
     sc_encode := sum_add_encode;
     sc_decode := fun resp n => sum_add_decode resp 0 n;
     sc_fallback := sumAddNotificationFallback 0 |}.

Definition sumAddDeviceNotificationFunc (requests : list SumNotificationRequest)
  : rpc W (multi SumNotificationResult * on_item_calls) :=
  '((results, err), fellBack) ← executeSumCommand sum_add_spec requests;
  match err, fellBack with
  | Some _, Some calls => mret ((results, err), calls)
  | Some _, None => mret ((results, err), [])
  | None, Some calls => mret ((results, err), calls)
  | None, None => mret ((results, None), number_from 0 results)
  end.

(** ** SumDeleteDeviceNotification *)

Fixpoint sumDeleteNotificationFallback (handles : list Z) : rpc W (multi Z) :=
  match handles with
  | [] => mret ([], None)
  | h :: rest =>
      r ← attempt (DeleteDeviceNotification h);
      match r with
      | inl _ =>
          '(codes, e) ← sumDeleteNotificationFallback rest;
          mret (ReturnCodeNoErrors :: codes, e)
      | inr err =>
          match errors_as_code err with
          | None => mret ([], Some (EWrap "sumDeleteNotificationFallback aborted" err))
          | Some rc =>
              '(codes, e) ← sumDeleteNotificationFallback rest;
              mret (rc :: codes, e)
          end
      end
  end.

Definition sum_delete_spec : sumCmdSpec Z Z () :=
  {| stateLoad := SumDeleteNotifStateLoad;
     stateCASToSupported := SumDeleteNotifStateCAS 0 1;
     stateCASToUnsupported := SumDeleteNotifStateCAS 0 2;
     sc_group := GroupSumupDeleteDeviceNotification;
     itemWriteSize := 4; itemReadSize := 4;
     sc_encode := fun h => Ok (put_u32 h);
     sc_decode := fun resp n => parse_codes resp 0 n;
     sc_fallback := fun hs => m ← sumDeleteNotificationFallback hs; mret (m, ()) |}.

Definition SumDeleteDeviceNotification (handles : list Z) : rpc W (multi Z) :=
  '(m, _) ← executeSumCommand sum_delete_spec handles; mret m.
End SumCommands.
