(* ===== verification/SumCmdFacts.v ===== *)
(** Properties of the batched sum commands (SumCmd.v): robustness of the reply
    parser, equivalence of the batched commands with the individual commands they
    replace, and the reporting contract of the fallbacks. *)
From S2P Require Import Prelude Wire Strconv Defs Ams Client SumCmd.

(** ** What a device answers *)

(** An item of a device's sum-read answer: its code and its data bytes. *)
Definition item_header (it : Z * bytes) : bytes := put_u32 it.1 ++ put_u32 (len it.2).
Definition encode_sum_read (items : list (Z * bytes)) : bytes :=
  concat (map item_header items) ++ concat (map snd items).

(** The result a caller is owed for an item. *)
Definition result_of (it : Z * bytes) : SumReadResult :=
  {| rs_Error := it.1; rs_Data := if it.1 =? ReturnCodeNoErrors then it.2 else [] |}.

(** An answer to one read: a code in range; on success exactly the bytes asked
    for, on failure at most as many. *)
Definition answers (it : Z * bytes) (req : SumReadRequest) : Prop :=
  in_u 32 it.1 /\ len it.2 <= rr_Length req /\ (it.1 = 0 -> len it.2 = rr_Length req).

Definition wf_request (r : SumReadRequest) : Prop :=
  in_u 32 (rr_Group r) /\ in_u 32 (rr_Offset r) /\ in_u 32 (rr_Length r).

Lemma len_item_headers items : len (concat (map item_header items)) = 8 * len items.
Proof.
  induction items as [|it items IH]; [done|]. cbn [map concat].
  rewrite len_app, IH, len_cons. unfold item_header. rewrite len_app, !len_le_put. lia.
Qed.

Lemma uint_at_app2 n pre a z post off :
  len pre + len a = off -> uint_at n (pre ++ a ++ le_put n z ++ post) off = Ok (z mod 2 ^ (8 * Z.of_nat n)).
Proof. intros <-. rewrite app_assoc. apply uint_at_app. apply len_app. Qed.

Lemma sum_read_headers_app items : forall pre post i,
  len pre = i * 8 ->
  Forall (fun it => in_u 32 it.1 /\ len it.2 < 2 ^ 32) items ->
  sum_read_headers (pre ++ concat (map item_header items) ++ post) i (length items)
  = Ok (map (fun it => (it.1, len it.2)) items).
Proof.
  induction items as [|[e d] items IH]; intros pre post i Hpre Hf; [done|].
  apply Forall_cons in Hf as [[He Hd] Hf]. cbn [fst snd] in *.
  cbn [map concat length sum_read_headers]. change (item_header (e, d)) with (put_u32 e ++ put_u32 (len d)).
  rewrite <- !app_assoc. rewrite (uint_at_app 4 pre e _ (i * 8)) by done. cbn [mbind res_bind].
  rewrite uint_at_app2 by (rewrite len_le_put; lia). cbn [mbind res_bind].
  rewrite (app_assoc (put_u32 e)), (app_assoc pre).
  rewrite IH; [|rewrite !len_app, !len_le_put; lia|done]. cbn [mbind res_bind].
  rewrite !Z.mod_small; [done| |exact He]. split; [apply len_nonneg|exact Hd].
Qed.

Lemma sum_read_items_app items reqs : forall pre post,
  Forall2 answers items reqs ->
  len (pre ++ concat (map snd items) ++ post) < 2 ^ 32 ->
  sum_read_items (pre ++ concat (map snd items) ++ post) (len pre)
    (map (fun it => (it.1, len it.2)) items) reqs
  = Ok (map result_of items).
Proof.
  intros pre post Hf. revert pre post.
  induction Hf as [|[e d] req items reqs (He & Hle & Heq) Hf IH]; intros pre post Hlen; [done|].
  cbn [fst snd map concat] in *. rewrite <- app_assoc in *.
  cbn [sum_read_items].
  assert (Hrem : u32 (len (pre ++ d ++ concat (map snd items) ++ post) - len pre)
                 = len (d ++ concat (map snd items) ++ post)).
  { rewrite len_app. unfold u32. rewrite wrap_u_small; [lia|].
    rewrite len_app in Hlen. pose proof (len_nonneg pre).
    pose proof (len_nonneg (d ++ concat (map snd items) ++ post)). unfold in_u. lia. }
  rewrite Hrem, (len_app d).
  assert (Hn : (len d + len (concat (map snd items) ++ post) <? len d) = false)
    by (apply Z.ltb_ge; pose proof (len_nonneg (concat (map snd items) ++ post)); lia).
  rewrite Hn. specialize (IH (pre ++ d) post). rewrite <- !app_assoc in IH.
  unfold result_of at 1. cbn [fst snd]. unfold ReturnCodeNoErrors.
  destruct (Z.eqb_spec e 0) as [->|Hne]; cbn [negb].
  - rewrite (Heq eq_refl), Z.ltb_irrefl. rewrite slice_mid by (done || lia).
    cbn [mbind res_bind]. rewrite <- (Heq eq_refl), <- len_app, IH by done. done.
  - rewrite <- len_app. cbn [tail]. rewrite IH by done. done.
Qed.

(** On a well-formed answer the parser returns, item by item, the device's code
    and exactly the bytes it sent for that item. *)
Theorem parseSumReadResponse_answer items reqs :
  Forall2 answers items reqs -> Forall wf_request reqs -> len (encode_sum_read items) < 2 ^ 32 ->
  parseSumReadResponse (encode_sum_read items) (length reqs) reqs = Ok (map result_of items).
Proof.
  intros Hf Hw Hlen. pose proof (Forall2_length _ _ _ Hf) as Hl.
  unfold parseSumReadResponse, encode_sum_read in *.
  rewrite (proj2 (Z.ltb_ge _ _)).
  2:{ rewrite len_app, len_item_headers. pose proof (len_nonneg (concat (map snd items))). unfold len. lia. }
  assert (Hi : Forall (fun it => in_u 32 it.1 /\ len it.2 < 2 ^ 32) items).
  { clear -Hf Hw. induction Hf as [|it req items reqs (H1 & H2 & _) _ IH]; [constructor|].
    apply Forall_cons in Hw as [(_ & _ & [_ Hr]) Hw]. constructor; [|auto]. split; [done|lia]. }
  pose proof (sum_read_headers_app items [] (concat (map snd items)) 0 eq_refl Hi) as Hh.
  cbn [app] in Hh. rewrite <- Hl, Hh. cbn [mbind res_bind].
  replace (Z.of_nat (length items) * 8) with (len (concat (map item_header items)))
    by (rewrite len_item_headers; unfold len; lia).
  rewrite <- (app_nil_r (concat (map snd items))) in Hlen |- *.
  by apply sum_read_items_app.
Qed.

(** ** Robustness against arbitrary replies *)

Lemma sum_read_headers_total resp : forall n i, 0 <= i -> (i + Z.of_nat n) * 8 <= len resp ->
  exists hs, sum_read_headers resp i n = Ok hs /\ length hs = n /\
    Forall (fun h => in_u 32 h.1 /\ in_u 32 h.2) hs.
Proof.
  induction n as [|n IH]; intros i Hi Hl; cbn [sum_read_headers]; [by exists []|].
  rewrite !uint_at_Ok by lia. cbn [mbind res_bind].
  destruct (IH (i + 1)) as (hs & -> & Hn & Hf); [lia..|]. cbn [mbind res_bind].
  eexists; split_and!; [done|by cbn; f_equal|]. constructor; [|done]. cbn.
  assert (Hr : forall off, in_u 32 (le_get (take 4 (drop off resp)))).
  { intros off. pose proof (le_get_bound (take 4 (drop off resp))) as Hb. unfold in_u.
    rewrite len_take in Hb. split; [lia|]. eapply Z.lt_le_trans; [apply Hb|].
    apply Z.pow_le_mono_r; lia. }
  split; apply Hr.
Qed.

(** What a caller may rely on for one item. *)
Definition sound_item (r : SumReadResult) (req : SumReadRequest) : Prop :=
  if rs_Error r =? ReturnCodeNoErrors then len (rs_Data r) = rr_Length req else rs_Data r = [].

Lemma cascade_sound hs (reqs : list SumReadRequest) : length hs = length reqs ->
  Forall2 sound_item (sum_read_cascade hs) reqs.
Proof.
  revert reqs. induction hs as [|h hs IH]; intros [|req reqs] Hl; try discriminate; constructor.
  - done.
  - apply IH. by injection Hl.
Qed.

Lemma sum_read_items_sound resp : forall hs reqs off,
  length hs = length reqs -> Forall (fun h => in_u 32 h.1 /\ in_u 32 h.2) hs ->
  0 <= off <= len resp -> len resp < 2 ^ 32 ->
  exists rs, sum_read_items resp off hs reqs = Ok rs /\ Forall2 sound_item rs reqs.
Proof.
  induction hs as [|[err ln] hs IH]; intros [|req reqs] off Hl Hf Ho Hr; try discriminate.
  { exists []. split; [done|constructor]. }
  apply Forall_cons in Hf as [[He Hn] Hf]. cbn [fst snd] in *. injection Hl as Hl.
  pose proof (cascade_sound ((err, ln) :: hs) (req :: reqs) ltac:(cbn; lia)) as Hc.
  cbn [sum_read_items].
  assert (Hrem : u32 (len resp - off) = len resp - off)
    by (unfold u32; apply wrap_u_small; unfold in_u; lia).
  rewrite Hrem. unfold in_u in *.
  destruct (Z.eqb_spec err ReturnCodeNoErrors) as [->|Hne]; cbn [negb].
  - destruct (Z.ltb_spec ln (rr_Length req)); [eauto|].
    destruct (Z.ltb_spec (rr_Length req) ln); [eauto|].
    destruct (Z.ltb_spec (len resp - off) ln); [eauto|].
    rewrite slice_Ok by lia. cbn [mbind res_bind].
    destruct (IH reqs (off + ln)) as (rs & -> & Hs); [done|done|lia|done|].
    cbn [mbind res_bind]. eexists; split; [done|]. constructor; [|done].
    unfold sound_item. cbn. rewrite len_take, len_drop. lia.
  - destruct (Z.ltb_spec (len resp - off) ln); [eauto|]. cbn [tail].
    destruct (IH reqs (off + ln)) as (rs & -> & Hs); [done|done|lia|done|].
    cbn [mbind res_bind]. eexists; split; [done|]. constructor; [|done].
    unfold sound_item. cbn [rs_Error rs_Data]. by rewrite (proj2 (Z.eqb_neq _ _)).
Qed.

(** Whatever bytes a device (or an attacker) sends, the parser never panics: it
    reports a short reply as an error, and otherwise returns one result per
    request in which a success carries exactly the requested number of bytes and
    a failure carries none. *)
Theorem parseSumReadResponse_safe resp reqs :
  len resp < 2 ^ 32 ->
  match parseSumReadResponse resp (length reqs) reqs with
  | Ok rs => Forall2 sound_item rs reqs
  | Err _ => len resp < 8 * len reqs
  | Panic => False
  end.
Proof.
  intros Hr. unfold parseSumReadResponse.
  destruct (Z.ltb_spec (len resp) (Z.of_nat (length reqs) * 8)) as [H|H]; [unfold len at 2; lia|].
  destruct (sum_read_headers_total resp (length reqs) 0) as (hs & -> & Hl & Hf); [lia..|].
  cbn [mbind res_bind].
  destruct (sum_read_items_sound resp hs reqs (Z.of_nat (length reqs) * 8)) as (rs & -> & Hs);
    [done|done|lia|done|done].
Qed.

(** ** Equivalence of the batched read with individual reads *)

Section ReadEquivalence.
Context {W : Type} `{Transport W}.
(** A device: the answer to a read of [length] bytes at [(group, offset)]. *)
Variable dev : Z -> Z -> Z -> Z * bytes.

Definition dev_item (r : SumReadRequest) : Z * bytes := dev (rr_Group r) (rr_Offset r) (rr_Length r).

(** What the individual reads need of the device. *)
Definition serves_single (target : AMSAddress) (w : W) : Prop :=
  forall r, wf_request r ->
    sendRequestTo_tx target CommandIDRead
      (read_packet (rr_Group r) (rr_Offset r) (rr_Length r)) w
    = (w, Ok (read_reply (dev_item r).1 (dev_item r).2)).

(** The documented behaviour of a device that serves both commands: a Read is
    answered with its code and data; a SumReadEx2 is answered with the answers
    of its items.  Reading does not change the transport. *)
Record serves_reads (target : AMSAddress) (w : W) : Prop := {
  sr_answers : forall r, wf_request r -> answers (dev_item r) r;
  sr_single : serves_single target w;
  sr_sum : forall rs readLen, Forall wf_request rs -> sum_read_total rs <= MaxUint32 ->
    sendRequestTo_tx target CommandIDReadWrite
      (writeread_packet GroupSumupReadEx2 (len rs) readLen (sum_read_request rs)) w
    = (w, Ok (read_reply 0 (encode_sum_read (map dev_item rs)))) }.

Lemma answers_all target w rs : serves_reads target w -> Forall wf_request rs ->
  Forall2 answers (map dev_item rs) rs.
Proof.
  intros Hs Hf. induction Hf; cbn; constructor; [|done]. by eapply sr_answers.
Qed.

Lemma encode_sum_read_bound items reqs : Forall2 answers items reqs ->
  len (encode_sum_read items) <= sum_read_total reqs.
Proof.
  intros Hf. unfold encode_sum_read, sum_read_total. rewrite len_app, len_item_headers.
  assert (len items = len reqs) as -> by (unfold len; by rewrite (Forall2_length _ _ _ Hf)).
  assert (len (concat (map snd items)) <= foldr (fun r acc => rr_Length r + acc) 0 reqs); [|lia].
  induction Hf as [|it req items reqs (_ & Hl & _) _ IH]; [done|].
  cbn [map concat foldr]. rewrite len_app. lia.
Qed.

Lemma u32_count rs : Forall wf_request rs -> sum_read_total rs <= MaxUint32 -> u32 (len rs) = len rs.
Proof.
  intros Hf Ht. unfold u32. apply wrap_u_small. split; [apply len_nonneg|].
  unfold sum_read_total in Ht.
  assert (0 <= foldr (fun r acc => rr_Length r + acc) 0 rs); [|lia].
  clear -Hf. induction Hf as [|r rs (_ & _ & [? _])]; cbn; lia.
Qed.

Lemma Read_serves c r : (forall r, wf_request r -> answers (dev_item r) r) ->
  serves_single (cl_target c) (cl_tx c) -> wf_request r ->
  attempt (Read (rr_Group r) (rr_Offset r) (rr_Length r)) c
  = (c, Ok (if (dev_item r).1 =? ReturnCodeNoErrors then inl (dev_item r).2
            else inr (EWrap "ADS error in Read" (ECode (dev_item r).1)))).
Proof.
  intros Ha Hs Hr. pose proof (Ha r Hr) as (H1 & H2 & H3).
  assert (Hd : len (dev_item r).2 < 2 ^ 32) by (destruct Hr as (_ & _ & [_ ?]); lia).
  unfold attempt, Read, sendRequest, sendRequestTo, lift, mbind, rpc_bind.
  rewrite (Hs r Hr). destruct c as [t k w]; cbn [cl_target cl_caps cl_tx] in *.
  rewrite <- (app_nil_r (read_reply _ _)). unfold ReturnCodeNoErrors.
  destruct (Z.eqb_spec (dev_item r).1 0) as [->|Hne].
  - by rewrite parse_read_reply_ok.
  - unfold in_u in H1. by rewrite parse_read_reply_code by lia.
Qed.

Lemma sumReadFallback_single c rs : (forall r, wf_request r -> answers (dev_item r) r) ->
  serves_single (cl_target c) (cl_tx c) -> Forall wf_request rs ->
  sumReadFallback rs c = (c, Ok (map result_of (map dev_item rs))).
Proof.
  intros Ha Hs Hf. induction Hf as [|r rs Hr Hf IH]; [done|].
  cbn [sumReadFallback map]. erewrite rpc_bind_Ok by (by apply Read_serves).
  erewrite rpc_bind_Ok by apply IH. unfold mret, rpc_ret. do 3 f_equal.
  unfold result_of. destruct (_ =? _) eqn:E; [|done]. zbool. by rewrite E.
Qed.

Lemma sumReadFallback_serves c rs : serves_reads (cl_target c) (cl_tx c) -> Forall wf_request rs ->
  sumReadFallback rs c = (c, Ok (map result_of (map dev_item rs))).
Proof. intros Hs. apply sumReadFallback_single; [apply (sr_answers _ _ Hs)|apply (sr_single _ _ Hs)]. Qed.

Lemma WriteRead_sum c rs : serves_reads (cl_target c) (cl_tx c) -> Forall wf_request rs ->
  sum_read_total rs <= MaxUint32 ->
  WriteRead GroupSumupReadEx2 (u32 (len rs)) (u32 (sum_read_total rs)) (sum_read_request rs) c
  = (c, Ok (encode_sum_read (map dev_item rs))).
Proof.
  intros Hs Hf Ht.
  pose proof (encode_sum_read_bound _ _ (answers_all _ _ _ Hs Hf)) as Hb.
  pose proof (u32_count rs Hf Ht) as Hn.
  unfold WriteRead, sendRequest, sendRequestTo, lift, mbind, rpc_bind. rewrite Hn.
  rewrite (sr_sum _ _ Hs rs _ Hf Ht). destruct c as [t k w]; cbn [cl_target cl_caps cl_tx].
  rewrite <- (app_nil_r (read_reply _ _)). by rewrite parse_read_reply_ok by lia.
Qed.

Lemma parse_served target w rs : serves_reads target w -> Forall wf_request rs ->
  sum_read_total rs <= MaxUint32 ->
  parseSumReadResponse (encode_sum_read (map dev_item rs)) (Z.to_nat (u32 (len rs))) rs
  = Ok (map result_of (map dev_item rs)).
Proof.
  intros Hs Hf Ht. pose proof (answers_all _ _ _ Hs Hf) as Ha.
  pose proof (encode_sum_read_bound _ _ Ha).
  rewrite u32_count by done. unfold len at 1. rewrite Nat2Z.id.
  apply parseSumReadResponse_answer; [done|done|lia].
Qed.

(** C1. The optimisation is transparent: on a device that serves both, a batched
    read returns exactly what reading every item individually returns, on the
    first (probing) call and on every later one, and the connection is left
    knowing that SumReadEx2 works. *)
Theorem SumRead_equals_individual_reads c rs :
  serves_reads (cl_target c) (cl_tx c) -> Forall wf_request rs -> rs <> [] ->
  sum_read_total rs <= MaxUint32 ->
  sumReadCmd (cl_caps c) = 0 \/ sumReadCmd (cl_caps c) = GroupSumupReadEx2 ->
  (SumRead rs c).2 = (sumReadFallback rs c).2 /\
  (SumRead rs c).2 = Ok (map result_of (map dev_item rs)) /\
  sumReadCmd (cl_caps (SumRead rs c).1) = GroupSumupReadEx2 /\
  cl_tx (SumRead rs c).1 = cl_tx c.
Proof.
  intros Hs Hf Hne Ht Hc. rewrite sumReadFallback_serves by done.
  pose proof (parse_served (cl_target c) (cl_tx c) rs Hs Hf Ht) as Hp.
  pose proof (WriteRead_sum c rs Hs Hf Ht) as Hw.
  assert (E : exists c', SumRead rs c = (c', Ok (map result_of (map dev_item rs))) /\
            sumReadCmd (cl_caps c') = GroupSumupReadEx2 /\ cl_tx c' = cl_tx c); [|by destruct E as (c' & -> & ? & ?)].
  unfold SumRead. destruct rs as [|r0 rs0] eqn:Ers; [done|]. rewrite <- Ers in *.
  erewrite rpc_bind_Ok by reflexivity. rewrite (proj2 (Z.ltb_ge MaxUint32 _)) by lia.
  destruct Hc as [Hc|Hc]; rewrite Hc.
  - change (0 =? 1) with false. change (negb (0 =? 0)) with false. cbv iota zeta. unfold sumReadProbe.
    erewrite rpc_bind_Ok by (by apply attempt_Ok). cbv iota beta.
    unfold mbind, rpc_bind, SumReadCmdStore, caps_get, caps_set, lift. cbn [cl_caps]. rewrite Hp.
    eexists; split; [done|]. done.
  - change (GroupSumupReadEx2 =? 1) with false. change (negb (GroupSumupReadEx2 =? 0)) with true.
    cbv iota zeta. unfold sumReadExec, wrap_rpc, lift, mbind, rpc_bind. rewrite Hw.
    cbn [wrap_err]. rewrite Hp. by exists c.
Qed.

(** A device without the sum commands answers each of them with a code that
    [isSumCommandUnsupportedError] recognises. *)
Definition rejects_sum (group : Z) (target : AMSAddress) (w : W) : Prop :=
  exists code, in_u 32 code /\ isSumCommandUnsupportedError (ECode code) = true /\
    forall n readLen d,
      sendRequestTo_tx target CommandIDReadWrite (writeread_packet group n readLen d) w
      = (w, Ok (read_reply code [])).

Lemma WriteRead_rejected group n readLen d c : rejects_sum group (cl_target c) (cl_tx c) ->
  exists e, WriteRead group n readLen d c = (c, Err e) /\ isSumCommandUnsupportedError e = true.
Proof.
  intros (code & Hr & Hu & Htx). unfold WriteRead, sendRequest, sendRequestTo, lift, mbind, rpc_bind.
  rewrite Htx. destruct c as [t k w]; cbn [cl_target cl_caps cl_tx].
  assert (code <> 0) by (intros ->; discriminate Hu). unfold in_u in Hr.
  rewrite <- (app_nil_r (read_reply _ _)), parse_read_reply_code by (try apply len_nonneg; cbn; lia).
  eexists; split; [done|]. unfold isSumCommandUnsupportedError in *. exact Hu.
Qed.

(** On a device that serves only individual reads, the first batched read
    probes both sum commands, falls back, and remembers: the answer is the one
    the individual reads give, and the connection never probes again. *)
Theorem SumRead_falls_back c rs :
  (forall r, wf_request r -> answers (dev_item r) r) ->
  serves_single (cl_target c) (cl_tx c) ->
  rejects_sum GroupSumupReadEx2 (cl_target c) (cl_tx c) ->
  rejects_sum GroupSumupReadEx (cl_target c) (cl_tx c) ->
  Forall wf_request rs -> rs <> [] -> sum_read_total rs <= MaxUint32 ->
  sumReadCmd (cl_caps c) = 0 ->
  (SumRead rs c).2 = (sumReadFallback rs c).2 /\
  sumReadCmd (cl_caps (SumRead rs c).1) = 1 /\
  forall rs', rs' <> [] -> SumRead rs' (SumRead rs c).1 = sumReadFallback rs' (SumRead rs c).1.
Proof.
  intros Ha Hs Hx2 Hx Hf Hne Ht Hc.
  set (c1 := {| cl_target := cl_target c; cl_caps :=
    {| sumReadCmd := 1; sumWriteState := sumWriteState (cl_caps c);
       sumAddNotifState := sumAddNotifState (cl_caps c);
       sumDeleteNotifState := sumDeleteNotifState (cl_caps c);
       chunkedDownloadSupported := chunkedDownloadSupported (cl_caps c);
       chunkedDownloadChecked := chunkedDownloadChecked (cl_caps c) |}; cl_tx := cl_tx c |}).
  assert (E : SumRead rs c = sumReadFallback rs c1).
  { unfold SumRead. destruct rs as [|r0 rs0] eqn:Ers; [done|]. rewrite <- Ers in *.
    erewrite rpc_bind_Ok by reflexivity. rewrite (proj2 (Z.ltb_ge MaxUint32 _)) by lia.
    rewrite Hc. change (0 =? 1) with false. change (negb (0 =? 0)) with false. cbv iota zeta.
    unfold sumReadProbe.
    destruct (WriteRead_rejected _ (u32 (len rs)) (u32 (sum_read_total rs)) (sum_read_request rs) _ Hx2)
      as (e & He & Hu). erewrite rpc_bind_Ok by (by apply attempt_Err). cbv beta iota. rewrite Hu. cbn [negb].
    destruct (WriteRead_rejected _ (u32 (len rs)) (u32 (sum_read_total rs)) (sum_read_request rs) _ Hx)
      as (e' & He' & Hu'). erewrite rpc_bind_Ok by (by apply attempt_Err). cbv beta iota. rewrite Hu'. done. }
  assert (Hfb : forall c', cl_target c' = cl_target c -> cl_tx c' = cl_tx c ->
    sumReadFallback rs c' = (c', Ok (map result_of (map dev_item rs)))).
  { intros c' Et Ew. apply sumReadFallback_single; [done|rewrite Et, Ew; done|done]. }
  rewrite E, !Hfb by done. split_and!; [done..|]. intros [|r' rs'] Hn; done.
Qed.
End ReadEquivalence.

(** ** Equivalence of the batched write with individual writes *)

Definition wf_write (r : SumWriteRequest) : Prop :=
  in_u 32 (wr_Group r) /\ in_u 32 (wr_Offset r) /\ len (wr_Data r) < 2 ^ 32.

Section WriteEquivalence.
Context {W : Type} `{Transport W}.
(** A device: the effect of a write on its state, and the code it answers. *)
Variable dev_write : SumWriteRequest -> W -> W * Z.

Fixpoint dev_writes (rs : list SumWriteRequest) (w : W) : W * list Z :=
  match rs with
  | [] => (w, [])
  | r :: rs => let '(w, code) := dev_write r w in
               let '(w, codes) := dev_writes rs w in (w, code :: codes)
  end.

(** The documented behaviour of a device that serves both write commands: the
    items of a SumWrite are written in order, each answered with its own code. *)
Record serves_writes (target : AMSAddress) : Prop := {
  sw_code : forall r w, wf_write r -> in_u 32 (dev_write r w).2;
  sw_single : forall r w, wf_write r ->
    sendRequestTo_tx target CommandIDWrite (write_packet (wr_Group r) (wr_Offset r) (wr_Data r)) w
    = ((dev_write r w).1, Ok (put_u32 (dev_write r w).2));
  sw_sum : forall rs w, Forall wf_write rs -> len (sum_write_request rs) < 2 ^ 32 ->
    sendRequestTo_tx target CommandIDReadWrite
      (writeread_packet GroupSumupWrite (len rs) (len rs * 4) (sum_write_request rs)) w
    = ((dev_writes rs w).1, Ok (read_reply 0 (concat (map put_u32 (dev_writes rs w).2)))) }.

Lemma dev_writes_codes target rs w : serves_writes target -> Forall wf_write rs ->
  Forall (in_u 32) (dev_writes rs w).2 /\ length (dev_writes rs w).2 = length rs.
Proof.
  intros Hs Hf. revert w. induction Hf as [|r rs Hr Hf IH]; intros w; [done|].
  cbn [dev_writes]. pose proof (sw_code _ Hs r w Hr).
  destruct (dev_write r w) as [w1 code]. destruct (IH w1) as [H1 H2].
  destruct (dev_writes rs w1) as [w2 codes]. cbn in *. split; [by constructor|by f_equal].
Qed.

Lemma parse_codes_app codes : forall pre i, len pre = i * 4 -> Forall (in_u 32) codes ->
  parse_codes (pre ++ concat (map put_u32 codes)) i (length codes) = Ok codes.
Proof.
  induction codes as [|c codes IH]; intros pre i Hp Hf; [done|].
  apply Forall_cons in Hf as [Hc Hf]. cbn [map concat length parse_codes].
  rewrite (uint_at_app 4 pre c _ (i * 4)) by done. cbn [mbind res_bind].
  rewrite app_assoc, IH by (try rewrite len_app, len_le_put; done || lia).
  cbn [mbind res_bind]. by rewrite Z.mod_small by exact Hc.
Qed.

Lemma len_codes (codes : list Z) : len (concat (map put_u32 codes)) = 4 * len codes.
Proof. induction codes as [|c codes IH]; [done|]. cbn [map concat]. rewrite len_app, IH, len_le_put, len_cons. lia. Qed.

Lemma len_sum_write rs : 12 * len rs <= len (sum_write_request rs).
Proof.
  unfold sum_write_request. rewrite len_app. pose proof (len_nonneg (concat (map wr_Data rs))).
  assert (len (concat (map sum_write_header rs)) = 12 * len rs); [|lia].
  clear. induction rs as [|r rs IH]; [done|]. cbn [map concat].
  rewrite len_app, IH, len_cons. unfold sum_write_header. rewrite !len_app, !len_le_put. lia.
Qed.

Definition with_tx (c : client W) (w : W) : client W :=
  {| cl_target := cl_target c; cl_caps := cl_caps c; cl_tx := w |}.

Lemma Write_serves r c : serves_writes (cl_target c) -> wf_write r ->
  exists res, attempt (Write (wr_Group r) (wr_Offset r) (wr_Data r)) c
    = (with_tx c (dev_write r (cl_tx c)).1, Ok res) /\
    match res with inl _ => ReturnCodeNoErrors | inr e => fallback_code e end
    = (dev_write r (cl_tx c)).2.
Proof.
  intros Hs Hr. pose proof (sw_code _ Hs r (cl_tx c) Hr) as Hc.
  unfold attempt, Write, sendRequest, sendRequestTo, lift, mbind, rpc_bind.
  rewrite (sw_single _ Hs r _ Hr). destruct (dev_write r (cl_tx c)) as [w code]. cbn [fst snd] in *.
  unfold parse_code_reply. rewrite <- (app_nil_r (put_u32 code)), read_uint_app.
  cbn [wrap_err mbind res_bind]. rewrite Z.mod_small by exact Hc. unfold in_u in Hc.
  destruct (Z.ltb_spec 0 code).
  - eexists; split; [done|]. done.
  - eexists; split; [done|]. cbv beta iota. unfold ReturnCodeNoErrors. lia.
Qed.

Lemma sumWriteFallback_serves rs c : serves_writes (cl_target c) -> Forall wf_write rs ->
  sumWriteFallback rs c
  = (with_tx c (dev_writes rs (cl_tx c)).1, Ok (map Build_SumWriteResult (dev_writes rs (cl_tx c)).2)).
Proof.
  intros Hs Hf. revert c Hs. induction Hf as [|r rs Hr Hf IH]; intros c Hs; [by destruct c|].
  cbn [sumWriteFallback dev_writes].
  destruct (Write_serves r c Hs Hr) as (res & E & Hres). erewrite rpc_bind_Ok by exact E.
  destruct (dev_write r (cl_tx c)) as [w1 code]. cbn [fst snd] in *.
  erewrite rpc_bind_Ok by (by apply IH). cbn [with_tx cl_tx].
  destruct (dev_writes rs w1) as [w2 codes]. cbn. unfold mret, rpc_ret. rewrite Hres. done.
Qed.

(** C13. The batched write is transparent: on a device that serves both commands it
    leaves the device in the same state and reports the same codes as writing
    the items one by one, and the connection is left knowing it is supported. *)
Theorem SumWrite_equals_individual_writes c rs :
  serves_writes (cl_target c) -> Forall wf_write rs -> rs <> [] ->
  len (sum_write_request rs) < 2 ^ 32 ->
  sumWriteState (cl_caps c) = 0 \/ sumWriteState (cl_caps c) = 1 ->
  (SumWrite rs c).2 = (sumWriteFallback rs c).2 /\
  cl_tx (SumWrite rs c).1 = cl_tx (sumWriteFallback rs c).1 /\
  sumWriteState (cl_caps (SumWrite rs c).1) = 1.
Proof.
  intros Hs Hf Hne Hl Hc. rewrite sumWriteFallback_serves by done.
  destruct (dev_writes_codes _ rs (cl_tx c) Hs Hf) as [Hcodes Hlen].
  pose proof (len_sum_write rs) as Hn. pose proof (len_nonneg rs).
  assert (Hu : forall z, 0 <= z <= 12 * len rs -> u32 z = z)
    by (intros z Hz; unfold u32; apply wrap_u_small; unfold in_u; lia).
  assert (Hw : WriteRead GroupSumupWrite (len rs) (len rs * 4) (sum_write_request rs) c
    = (with_tx c (dev_writes rs (cl_tx c)).1, Ok (concat (map put_u32 (dev_writes rs (cl_tx c)).2)))).
  { unfold WriteRead, sendRequest, sendRequestTo, lift, mbind, rpc_bind.
    rewrite (sw_sum _ Hs rs _ Hf Hl). destruct (dev_writes rs (cl_tx c)) as [w codes]. cbn [fst snd] in *.
    rewrite <- (app_nil_r (read_reply _ _)), parse_read_reply_ok; [done|].
    rewrite len_codes. unfold len in *. lia. }
  assert (Hp : len (concat (map put_u32 (dev_writes rs (cl_tx c)).2)) = len rs * 4)
    by (rewrite len_codes; unfold len; lia).
  pose proof (parse_codes_app _ [] 0 eq_refl Hcodes) as Hpc. rewrite Hlen in Hpc. cbn [app] in Hpc.
  assert (E : exists c', SumWrite rs c = (c', Ok (map Build_SumWriteResult (dev_writes rs (cl_tx c)).2)) /\
    cl_tx c' = (dev_writes rs (cl_tx c)).1 /\ sumWriteState (cl_caps c') = 1);
    [|by destruct E as (c' & -> & ? & ?)].
  unfold SumWrite. destruct rs as [|r0 rs0] eqn:Ers; [done|]. rewrite <- Ers in *.
  erewrite rpc_bind_Ok by reflexivity.
  destruct (Z.eqb_spec (sumWriteState (cl_caps c)) 2); [lia|]. cbv zeta. rewrite !Hu by lia.
  erewrite rpc_bind_Ok by (by apply attempt_Ok). cbv beta iota.
  unfold SumWriteStateCAS, caps_get, caps_set, lift, mbind, rpc_bind. cbn [with_tx cl_caps].
  rewrite Hp, Z.ltb_irrefl, Hpc. destruct Hc as [-> | Hc]; [by eexists|].
  rewrite Hc. by eexists.
Qed.
End WriteEquivalence.

(** ** Reporting contract of the fallbacks *)

(** A transport that reports its failures instead of panicking. *)
Definition tx_total {W} `{Transport W} : Prop :=
  forall t cmd d w, no_panic (sendRequestTo_tx t cmd d w).2.

Section Fallbacks.
Context {W : Type} `{Transport W}.
Hypothesis Htx : tx_total.

Lemma no_panic_code_reply what resp : no_panic (parse_code_reply what resp).
Proof.
  unfold parse_code_reply. apply no_panic_bind; [auto with ads|]. intros [code b] _. by case_if.
Qed.

Lemma no_panic_add_reply resp : no_panic (parse_add_notification_reply resp).
Proof.
  unfold parse_add_notification_reply.
  apply no_panic_bind; [auto with ads|]. intros [e b] _.
  apply no_panic_bind; [auto with ads|]. intros [h b'] _. by case_if.
Qed.

Lemma attempt_total {A} (m : rpc W A) c : no_panic (m c).2 ->
  exists c' r, attempt m c = (c', Ok r).
Proof. unfold attempt, no_panic. destruct (m c) as [c' [a|e|]]; cbn; naive_solver. Qed.

Lemma sendRequest_total cmd d (f : bytes -> res ()) c : (forall b, no_panic (f b)) ->
  no_panic ((resp ← sendRequest cmd d; lift (f resp)) c).2.
Proof.
  intros Hf. unfold sendRequest, sendRequestTo, lift, mbind, rpc_bind.
  pose proof (Htx (cl_target c) cmd d (cl_tx c)) as Hp.
  destruct (sendRequestTo_tx _ _ _ _) as [w [b|e|]]; cbn in *; try done; auto with ads.
Qed.

Lemma Delete_total h c : no_panic (DeleteDeviceNotification h c).2.
Proof. apply sendRequest_total. intros. apply no_panic_code_reply. Qed.

Lemma durationToADSTicks_total d : no_panic (durationToADSTicks d).
Proof. unfold durationToADSTicks. repeat case_if; done. Qed.

Lemma Add_total g o l m d t c : no_panic (AddDeviceNotification g o l m d t c).2.
Proof.
  unfold AddDeviceNotification, lift at 1 2, mbind, rpc_bind.
  pose proof (durationToADSTicks_total d). destruct (durationToADSTicks d); cbn; try done.
  pose proof (durationToADSTicks_total t). destruct (durationToADSTicks t); cbn; try done.
  unfold sendRequest, sendRequestTo, lift.
  match goal with |- context [sendRequestTo_tx ?x ?y ?z ?u] =>
    pose proof (Htx x y z u) as Hp; destruct (sendRequestTo_tx x y z u) as [w [b|e|]]; cbn in *; try done; auto with ads end.
  apply no_panic_add_reply.
Qed.

(** The outcome of a batch of Adds: everything was put to the device, or the
    transport failed at item [k] and exactly the items from [k] on are marked
    as never answered. *)
Definition add_outcome (n : nat) (rs : list SumNotificationResult) (e : option goerr) : Prop :=
  length rs = n /\
  match e with
  | None => Forall (fun r => ns_Skipped r = None) rs
  | Some err => errors_as_code err = None /\ exists k, (k < n)%nat /\
      Forall (fun r => ns_Skipped r = None) (take k rs) /\
      Forall (fun r => exists s, ns_Skipped r = Some s /\
                        errors_is ErrNotificationTransportFailure s = true) (drop k rs)
  end.

Lemma add_outcome_cons n x rs e : ns_Skipped x = None ->
  add_outcome n rs e -> add_outcome (S n) (x :: rs) e.
Proof.
  intros Hx [Hl He]. split; [by cbn; f_equal|]. destruct e as [err|]; [|by constructor].
  destruct He as (Hc & k & Hk & H1 & H2). split; [done|]. exists (S k).
  split; [lia|]. cbn. split; [by constructor|done].
Qed.

(** Adding one by one on a PLC without the sum command: every item gets a
    result and every result is reported once, in order; either all were put to
    the device, or the transport failed at some item and exactly the items from
    there on are marked as never answered. *)
Theorem sumAddNotificationFallback_reports reqs i c :
  exists c' rs e,
    sumAddNotificationFallback i reqs c = (c', Ok ((rs, e), number_from i rs)) /\
    add_outcome (length reqs) rs e.
Proof.
  revert i c. induction reqs as [|req reqs IH]; intros i c; cbn [sumAddNotificationFallback].
  { exists c, [], None. done. }
  destruct (attempt_total _ c (Add_total (nr_Group req) (nr_Offset req) (nr_Length req)
    (downgradeTransMode (nr_TransmissionMode req)) (nr_MaxDelay req) (nr_CycleTime req) c))
    as (c1 & [h|err] & E); erewrite rpc_bind_Ok by exact E.
  - destruct (IH (i + 1) c1) as (c2 & rs & e & E2 & Ho). erewrite rpc_bind_Ok by exact E2.
    eexists c2, (_ :: rs), e. split; [done|]. by apply add_outcome_cons.
  - cbv beta iota. destruct (errors_as_code err) as [rc|] eqn:Hc.
    + destruct (IH (i + 1) c1) as (c2 & rs & e & E2 & Ho). erewrite rpc_bind_Ok by exact E2.
      eexists c2, (_ :: rs), e. split; [done|]. by apply add_outcome_cons.
    + eexists c1, (_ :: _), (Some err). split; [done|]. split; [cbn; by rewrite length_map|].
      split; [done|]. exists 0%nat. split; [cbn; lia|]. split; [constructor|].
      rewrite drop_0. constructor; [by eexists|]. rewrite Forall_map. apply Forall_true. by eexists.
Qed.

Theorem sumDeleteNotificationFallback_partial hs c :
  exists c' codes e,
    sumDeleteNotificationFallback hs c = (c', Ok (codes, e)) /\
    match e with
    | None => length codes = length hs
    | Some err => (length codes < length hs)%nat /\ errors_as_code err = None
    end.
Proof.
  revert c. induction hs as [|h hs IH]; intros c; cbn [sumDeleteNotificationFallback].
  { by exists c, [], None. }
  destruct (attempt_total _ c (Delete_total h c)) as (c1 & [[]|err] & E);
    erewrite rpc_bind_Ok by exact E.
  2: cbv beta iota; destruct (errors_as_code err) as [rc|] eqn:Hc; [|by eexists c1, [], _; split; [done|cbn; split; [lia|]]].
  all: destruct (IH c1) as (c2 & codes & e & E2 & Ho); erewrite rpc_bind_Ok by exact E2;
    eexists c2, (_ :: codes), e; split; [done|]; destruct e; cbn; [split; [lia|tauto]|lia].
Qed.
End Fallbacks.
