(* ===== verification/SumPlc.v ===== *)
(** A small simulated device, used to instantiate the hypotheses of
    SumCmdFacts.v: it decodes the ADS packets the client sends, serves reads and
    writes of one memory area, and serves the sum commands or refuses them. *)
From S2P Require Import Prelude Wire Strconv Defs Ams Client SumCmd SumCmdFacts.

(** The device's state is its memory. *)
Definition plc_group : Z := 16416.

Definition plc_read (w : bytes) (g o n : Z) : Z * bytes :=
  if (g =? plc_group) && (o + n <=? len w)
  then (0, take (Z.to_nat n) (drop (Z.to_nat o) w))
  else (ReturnCodeDeviceInvalidOffset, []).

Definition plc_write (r : SumWriteRequest) (w : bytes) : bytes * Z :=
  let o := wr_Offset r in
  if (wr_Group r =? plc_group) && (o + len (wr_Data r) <=? len w)
  then (take (Z.to_nat o) w ++ wr_Data r ++ drop (Z.to_nat (o + len (wr_Data r))) w, 0)
  else (w, ReturnCodeDeviceInvalidOffset).

(** Decoding [n] items of a sum request. *)
Fixpoint plc_read_items (n : nat) (b : bytes) : res (list SumReadRequest) :=
  match n with
  | O => Ok []
  | S n =>
      '(g, b) ← read_u32 b; '(o, b) ← read_u32 b; '(l, b) ← read_u32 b;
      rs ← plc_read_items n b;
      Ok ({| rr_Group := g; rr_Offset := o; rr_Length := l |} :: rs)
  end.

Fixpoint plc_write_data (hs : list SumReadRequest) (b : bytes) : list SumWriteRequest :=
  match hs with
  | [] => []
  | h :: hs =>
      {| wr_Group := rr_Group h; wr_Offset := rr_Offset h; wr_Data := take (Z.to_nat (rr_Length h)) b |}
      :: plc_write_data hs (drop (Z.to_nat (rr_Length h)) b)
  end.

Definition plc_unsupported : bytes := read_reply ReturnCodeDeviceServiceNotSupported [].

(** What the device does with a ReadWrite packet; [sum] says whether it serves
    the sum commands. *)
Definition plc_readwrite (sum : bool) (w : bytes) (g o : Z) (d : bytes) : res (bytes * bytes) :=
  if negb sum then Ok (w, plc_unsupported)
  else if g =? GroupSumupReadEx2 then
    rs ← plc_read_items (Z.to_nat o) d;
    Ok (w, read_reply 0 (encode_sum_read (map (dev_item (plc_read w)) rs)))
  else if g =? GroupSumupWrite then
    hs ← plc_read_items (Z.to_nat o) d;
    let '(w, codes) := dev_writes plc_write (plc_write_data hs (drop (Z.to_nat (12 * o)) d)) w in
    Ok (w, read_reply 0 (concat (map put_u32 codes)))
  else Ok (w, plc_unsupported).

Definition plc_handle (sum : bool) (cmd : Z) (d : bytes) (w : bytes) : res (bytes * bytes) :=
  '(g, d) ← read_u32 d; '(o, d) ← read_u32 d; '(l, d) ← read_u32 d;
  if cmd =? CommandIDRead then Ok (w, let it := plc_read w g o l in read_reply it.1 it.2)
  else if cmd =? CommandIDWrite then
    let '(w, code) := plc_write {| wr_Group := g; wr_Offset := o; wr_Data := take (Z.to_nat l) d |} w in
    Ok (w, put_u32 code)
  else '(_, d) ← read_u32 d; plc_readwrite sum w g o d.

Definition plc_transport (sum : bool) : Transport bytes := fun _ cmd d w =>
  match plc_handle sum cmd d w with
  | Ok (w', b) => (w', Ok b)
  | _ => (w, Err (ESentinel ErrTransportClosed))
  end.

(** ** The simulated device meets the hypotheses *)

Lemma read_u32_put z rest : in_u 32 z -> read_u32 (put_u32 z ++ rest) = Ok (z, rest).
Proof. intros. rewrite read_uint_app. by rewrite Z.mod_small. Qed.

Lemma plc_read_items_app rs rest : Forall wf_request rs ->
  plc_read_items (length rs) (sum_read_request rs ++ rest) = Ok rs.
Proof.
  intros Hf. induction Hf as [|r rs (Hg & Ho & Hl) Hf IH]; [done|].
  unfold sum_read_request in *. cbn [length plc_read_items map concat]. unfold sum_read_item at 1.
  rewrite <- !app_assoc, !read_u32_put by done. cbn [mbind res_bind].
  rewrite !read_u32_put by done. cbn [mbind res_bind].
  rewrite !read_u32_put by done. cbn [mbind res_bind].
  rewrite IH. cbn. by destruct r.
Qed.

Definition header_of (r : SumWriteRequest) : SumReadRequest :=
  {| rr_Group := wr_Group r; rr_Offset := wr_Offset r; rr_Length := len (wr_Data r) |}.

Lemma sum_write_headers rs : Forall wf_write rs ->
  concat (map sum_write_header rs) = sum_read_request (map header_of rs).
Proof.
  intros Hf. induction Hf as [|r rs (Hg & Ho & Hl) Hf IH]; [done|].
  unfold sum_read_request in *. cbn [map concat]. rewrite IH. f_equal.
  unfold sum_write_header, sum_read_item. cbn. unfold u32.
  rewrite wrap_u_small; [done|]. split; [apply len_nonneg|done].
Qed.

Lemma plc_write_data_app rs : plc_write_data (map header_of rs) (concat (map wr_Data rs)) = rs.
Proof.
  induction rs as [|r rs IH]; [done|].
  cbn [map concat plc_write_data header_of rr_Length rr_Group rr_Offset]. unfold len. rewrite Nat2Z.id, take_app_len, drop_app_len by done.
  rewrite IH. by destruct r.
Qed.

Lemma len_sum_read rs : len (sum_read_request rs) = 12 * len rs.
Proof.
  unfold sum_read_request. induction rs as [|r rs IH]; [done|]. cbn [map concat].
  rewrite len_app, IH, len_cons. unfold sum_read_item. rewrite !len_app, !len_le_put. lia.
Qed.

Lemma plc_answers w r : wf_request r -> answers (dev_item (plc_read w) r) r.
Proof.
  intros (Hg & Ho & Hl). unfold dev_item, plc_read, answers, in_u in *.
  destruct ((_ =? _) && _) eqn:E; cbn [fst snd].
  - apply andb_prop in E as [_ E]. zbool. rewrite len_take, len_drop. lia.
  - unfold ReturnCodeDeviceInvalidOffset, len. cbn. lia.
Qed.

Ltac plc_reads := rewrite !read_u32_put by done; cbn [mbind res_bind].

Lemma plc_single sum t w : @serves_single _ (plc_transport sum) (plc_read w) t w.
Proof.
  intros r (Hg & Ho & Hl). unfold sendRequestTo_tx, plc_transport, plc_handle, read_packet.
  rewrite <- (app_nil_r (_ ++ _ ++ put_u32 (rr_Length r))), <- !app_assoc.
  do 3 plc_reads. done.
Qed.

Lemma total_count rs : Forall wf_request rs -> sum_read_total rs <= MaxUint32 -> in_u 32 (len rs).
Proof.
  intros Hf Ht. pose proof (u32_count rs Hf Ht) as <-. by apply wrap_u_range.
Qed.

Lemma plc_handle_readwrite sum g o l s w : in_u 32 g -> in_u 32 o ->
  plc_handle sum CommandIDReadWrite (writeread_packet g o l s) w = plc_readwrite sum w g o s.
Proof.
  intros Hg Ho. unfold plc_handle, writeread_packet. do 2 plc_reads.
  rewrite read_uint_app. cbn [mbind res_bind].
  change (CommandIDReadWrite =? CommandIDRead) with false.
  change (CommandIDReadWrite =? CommandIDWrite) with false. cbv iota.
  rewrite read_uint_app. done.
Qed.

Lemma plc_serves_reads t w : @serves_reads _ (plc_transport true) (plc_read w) t w.
Proof.
  split; [apply plc_answers|apply plc_single|]. intros rs readLen Hf Ht.
  unfold sendRequestTo_tx, plc_transport. rewrite plc_handle_readwrite.
  2: by vm_compute. 2: by apply total_count.
  unfold plc_readwrite. cbn [negb]. rewrite Z.eqb_refl. unfold len. rewrite Nat2Z.id.
  rewrite <- (app_nil_r (sum_read_request rs)), plc_read_items_app by done. done.
Qed.

Lemma plc_rejects g t w : in_u 32 g -> @rejects_sum _ (plc_transport false) g t w.
Proof.
  intros Hg. exists ReturnCodeDeviceServiceNotSupported. split; [by vm_compute|]. split; [done|].
  intros n readLen d. unfold sendRequestTo_tx, plc_transport, plc_handle, writeread_packet.
  plc_reads. rewrite !read_uint_app. cbn [mbind res_bind]. rewrite read_uint_app. cbn [mbind res_bind].
  change (CommandIDReadWrite =? CommandIDRead) with false.
  change (CommandIDReadWrite =? CommandIDWrite) with false. cbv iota.
  rewrite read_uint_app. done.
Qed.

Lemma plc_serves_writes t : @serves_writes _ (plc_transport true) plc_write t.
Proof.
  split.
  - intros r w _. unfold plc_write. case_if; vm_compute; done.
  - intros r w (Hg & Ho & Hl). unfold sendRequestTo_tx, plc_transport, plc_handle, write_packet.
    assert (in_u 32 (len (wr_Data r))) by (split; [apply len_nonneg|done]).
    do 3 plc_reads. change (CommandIDWrite =? CommandIDRead) with false. rewrite Z.eqb_refl. cbv iota.
    unfold len at 1. rewrite Nat2Z.id, firstn_all.
    destruct r as [g o d]. by destruct (plc_write _ w).
  - intros rs w Hf Hl. pose proof (len_sum_write rs). pose proof (len_nonneg rs).
    unfold sendRequestTo_tx, plc_transport. rewrite plc_handle_readwrite.
    2: by vm_compute. 2: unfold in_u; lia.
    unfold plc_readwrite. cbn [negb]. change (GroupSumupWrite =? GroupSumupReadEx2) with false.
    rewrite Z.eqb_refl. cbv iota. unfold sum_write_request. rewrite sum_write_headers by done.
    assert (Hr : Forall wf_request (map header_of rs)).
    { clear -Hf. induction Hf as [|r rs (Hg & Ho & Hl) Hf IH]; cbn; constructor; [|done].
      split_and!; [done..|]. split; [apply len_nonneg|done]. }
    assert (Hn : Z.to_nat (len rs) = length (map header_of rs)) by (rewrite length_map; unfold len; lia).
    rewrite Hn, plc_read_items_app by done. cbn [mbind res_bind].
    rewrite drop_app_len.
    2:{ pose proof (len_sum_read (map header_of rs)) as E. rewrite len_map in E. unfold len in *. lia. }
    rewrite plc_write_data_app. by destruct (dev_writes plc_write rs w).
Qed.

(** ** The theorems at a concrete device *)

Definition plc_address : AMSAddress := {| NetID := map byte_of_Z [192; 168; 0; 1; 1; 1]; Port := 851 |}.
Definition plc_client : client bytes :=
  {| cl_target := plc_address; cl_caps := fresh_capabilities;
     cl_tx := map byte_of_Z [1; 2; 3; 4; 5; 6; 7; 8] |}.
Definition plc_reqs : list SumReadRequest :=
  [{| rr_Group := plc_group; rr_Offset := 2; rr_Length := 3 |};
   {| rr_Group := plc_group; rr_Offset := 6; rr_Length := 9 |};
   {| rr_Group := plc_group; rr_Offset := 0; rr_Length := 1 |}].
Definition plc_wreqs : list SumWriteRequest :=
  [{| wr_Group := plc_group; wr_Offset := 2; wr_Data := map byte_of_Z [77; 78] |};
   {| wr_Group := 0; wr_Offset := 6; wr_Data := [] |};
   {| wr_Group := plc_group; wr_Offset := 3; wr_Data := map byte_of_Z [79] |}].

Lemma plc_reqs_wf : Forall wf_request plc_reqs.
Proof. repeat constructor; by vm_compute. Qed.
Lemma plc_wreqs_wf : Forall wf_write plc_wreqs.
Proof. repeat constructor; by vm_compute. Qed.

Lemma SumRead_equals_individual_reads_witness :
  (@SumRead _ (plc_transport true) plc_reqs plc_client).2
  = (@sumReadFallback _ (plc_transport true) plc_reqs plc_client).2.
Proof.
  refine (proj1 (@SumRead_equals_individual_reads _ (plc_transport true) (plc_read (cl_tx plc_client))
    plc_client plc_reqs (plc_serves_reads _ _) plc_reqs_wf _ _ (or_introl eq_refl))).
  - discriminate.
  - by vm_compute.
Defined.

Lemma SumRead_falls_back_witness :
  sumReadCmd (cl_caps (@SumRead _ (plc_transport false) plc_reqs plc_client).1) = 1.
Proof.
  refine (proj1 (proj2 (@SumRead_falls_back _ (plc_transport false) (plc_read (cl_tx plc_client))
    plc_client plc_reqs (plc_answers _) (plc_single false _ _) (plc_rejects _ _ _ _) (plc_rejects _ _ _ _)
    plc_reqs_wf _ _ eq_refl))).
  1,2: by vm_compute.
  - discriminate.
  - by vm_compute.
Defined.

Lemma SumWrite_equals_individual_writes_witness :
  cl_tx (@SumWrite _ (plc_transport true) plc_wreqs plc_client).1
  = cl_tx (@sumWriteFallback _ (plc_transport true) plc_wreqs plc_client).1.
Proof.
  refine (proj1 (proj2 (@SumWrite_equals_individual_writes _ (plc_transport true) plc_write
    plc_client plc_wreqs (plc_serves_writes _) plc_wreqs_wf _ _ (or_introl eq_refl)))).
  - discriminate.
  - by vm_compute.
Defined.

Lemma plc_tx_total sum : @tx_total _ (plc_transport sum).
Proof.
  intros t cmd d w. unfold sendRequestTo_tx, plc_transport.
  destruct (plc_handle sum cmd d w) as [[w' b]|e|]; discriminate.
Qed.

Lemma sumAddNotificationFallback_reports_witness : exists c' rs e,
  @sumAddNotificationFallback _ (plc_transport true) 0
    [{| nr_Group := 1; nr_Offset := 2; nr_Length := 3; nr_TransmissionMode := 4;
        nr_MaxDelay := 0; nr_CycleTime := 10000000 |}] plc_client
  = (c', Ok ((rs, e), number_from 0 rs)) /\ add_outcome 1 rs e.
Proof. apply (@sumAddNotificationFallback_reports _ (plc_transport true) (plc_tx_total true)). Defined.

Lemma sumDeleteNotificationFallback_partial_witness : exists c' codes e,
  @sumDeleteNotificationFallback _ (plc_transport true) [7; 8] plc_client = (c', Ok (codes, e)) /\
  match e with
  | None => length codes = 2%nat
  | Some err => (length codes < 2)%nat /\ errors_as_code err = None
  end.
Proof. apply (@sumDeleteNotificationFallback_partial _ (plc_transport true) (plc_tx_total true)). Defined.

(** The sum read at this device, evaluated. *)
Example plc_sum_read : (@SumRead _ (plc_transport true) plc_reqs plc_client).2
  = Ok [{| rs_Error := 0; rs_Data := map byte_of_Z [3; 4; 5] |};
        {| rs_Error := ReturnCodeDeviceInvalidOffset; rs_Data := [] |};
        {| rs_Error := 0; rs_Data := map byte_of_Z [1] |}].
Proof. by vm_compute. Qed.
