(* ===== verification/NotifStream.v ===== *)
(** client.go: the walk over a DeviceNotification payload
    ([decodeNotification]), the sharding of its samples ([notifWorker]) and the
    stream structs of defs.go it reads. *)
From S2P Require Import Prelude Wire Strconv.

(** defs.go: [NotificationStream], [StampHeader], [NotificationSample]. *)
Record NotificationStream : Type := { ns_Length : Z; ns_Stamps : Z }.
Record StampHeader : Type := { sh_Timestamp : Z; sh_Samples : Z }.
Record NotificationSample : Type := { nsm_Handle : Z; nsm_Size : Z }.

(** One call of [emit]: handle, timestamp, content. *)
Record notifSample : Type := { sm_handle : Z; sm_timestamp : Z; sm_content : bytes }.

#[export] Instance notifSample_eq_dec : EqDecision notifSample.
Proof. solve_decision. Defined.

(** What the walk did: the samples it emitted, in order, and its result. *)
Definition walk (A : Type) : Type := list notifSample * res A.

Definition read_stream (b : bytes) : res (NotificationStream * bytes) :=
  '(l, b) ← read_u32 b; '(s, b) ← read_u32 b; Ok ({| ns_Length := l; ns_Stamps := s |}, b).
Definition read_stamp (b : bytes) : res (StampHeader * bytes) :=
  '(t, b) ← read_u64 b; '(s, b) ← read_u32 b; Ok ({| sh_Timestamp := t; sh_Samples := s |}, b).
Definition read_sample (b : bytes) : res (NotificationSample * bytes) :=
  '(h, b) ← read_u32 b; '(s, b) ← read_u32 b; Ok ({| nsm_Handle := h; nsm_Size := s |}, b).

(** The inner loop: [left] samples to go.  Every iteration consumes at least the
    8-byte sample header, so the length of the buffer is fuel enough
    ([samples_loop_fuel]); running out would show as [Panic]. *)
Fixpoint samples_loop (fuel : nat) (left : Z) (ts : Z) (data : bytes) : walk bytes :=
  if left <=? 0 then ([], Ok data)
  else
    match fuel with
    | O => ([], Panic)
    | S fuel =>
        match read_sample data with
        | Err e => ([], Err (EWrap "error reading notification sample" e))
        | Panic => ([], Panic)
        | Ok (sample, data) =>
            if u32 (len data) <? nsm_Size sample
            then ([], Err (EMsg "notification sample size exceeds remaining data"))
            else
              let '(content, data) := buf_next (nsm_Size sample) data in
              if negb (len content =? nsm_Size sample)
              then ([], Err (EMsg "short read on notification content"))
              else
                let '(out, r) := samples_loop fuel (left - 1) ts data in
                ({| sm_handle := nsm_Handle sample; sm_timestamp := ts; sm_content := content |} :: out, r)
        end
    end.

Fixpoint stamps_loop (fuel : nat) (left : Z) (data : bytes) : walk () :=
  if left <=? 0 then ([], Ok ())
  else
    match fuel with
    | O => ([], Panic)
    | S fuel =>
        match read_stamp data with
        | Err e => ([], Err (EWrap "error reading stamp header" e))
        | Panic => ([], Panic)
        | Ok (header, data) =>
            match samples_loop (S (length data)) (sh_Samples header) (sh_Timestamp header) data with
            | (out, Ok data) =>
                let '(out', r) := stamps_loop fuel (left - 1) data in (out ++ out', r)
            | (out, Err e) => (out, Err e)
            | (out, Panic) => (out, Panic)
            end
        end
    end.

Definition decodeNotification (data : bytes) : walk () :=
  match read_stream data with
  | Err e => ([], Err (EWrap "unable to read notification" e))
  | Panic => ([], Panic)
  | Ok (stream, data) => stamps_loop (S (length data)) (ns_Stamps stream) data
  end.

(** notifWorker: what it does with one frame of [notifQueue]. *)
Definition notif_frame (data : bytes) : walk () :=
  if len data <? 32 then ([], Err (EMsg "malformed notification frame"))
  else
    match u32_at data 20 with
    | Ok n => if negb (n =? len data - 32) then ([], Err (EMsg "malformed notification frame"))
              else decodeNotification (drop 32 data)
    | _ => ([], Panic)
    end.

Definition notifShardCount : Z := 8.

(** The samples shard [k] is handed, in order, for a sequence of decoded samples. *)
Definition shard_of (smp : notifSample) : Z := sm_handle smp mod notifShardCount.
Definition shard (k : Z) (samples : list notifSample) : list notifSample :=
  filter (fun smp => shard_of smp = k) samples.

(** ** The encoding a device sends *)

Definition encode_sample (s : Z * bytes) : bytes := put_u32 s.1 ++ put_u32 (len s.2) ++ s.2.
Definition encode_stamp (st : Z * list (Z * bytes)) : bytes :=
  put_u64 st.1 ++ put_u32 (len st.2) ++ concat (map encode_sample st.2).
Definition encode_stream (length : Z) (stamps : list (Z * list (Z * bytes))) : bytes :=
  put_u32 length ++ put_u32 (len stamps) ++ concat (map encode_stamp stamps).

Definition stamp_samples (st : Z * list (Z * bytes)) : list notifSample :=
  map (fun s => {| sm_handle := s.1; sm_timestamp := st.1; sm_content := s.2 |}) st.2.

Definition wf_sample (s : Z * bytes) : Prop := in_u 32 s.1.
Definition wf_stamp (st : Z * list (Z * bytes)) : Prop := in_u 64 st.1 /\ Forall wf_sample st.2.

(** ** Proofs *)

Lemma read_sample_app h d rest : in_u 32 h -> len d < 2 ^ 32 ->
  read_sample (encode_sample (h, d) ++ rest)
  = Ok ({| nsm_Handle := h; nsm_Size := len d |}, d ++ rest).
Proof.
  intros Hh Hd. unfold read_sample, encode_sample. cbn [fst snd]. rewrite <- !app_assoc.
  rewrite read_uint_app. cbn [mbind res_bind]. rewrite read_uint_app. cbn [mbind res_bind].
  rewrite !Z.mod_small; [done| |exact Hh]. split; [apply len_nonneg|exact Hd].
Qed.

Lemma samples_loop_app samples : forall fuel ts rest,
  Forall wf_sample samples -> (length samples <= fuel)%nat ->
  len (concat (map encode_sample samples) ++ rest) < 2 ^ 32 ->
  samples_loop fuel (len samples) ts (concat (map encode_sample samples) ++ rest)
  = (stamp_samples (ts, samples), Ok rest).
Proof.
  induction samples as [|[h d] samples IH]; intros fuel ts rest Hf Hfuel Hl; [by destruct fuel|].
  apply Forall_cons in Hf as [Hh Hf]. destruct fuel as [|fuel]; [cbn in Hfuel; lia|].
  pose proof (len_nonneg samples). cbn [map concat] in *. rewrite <- app_assoc in *.
  cbn [samples_loop]. rewrite len_cons. rewrite (proj2 (Z.leb_gt _ _)) by lia.
  assert (Hd : len d + len (concat (map encode_sample samples) ++ rest) < 2 ^ 32).
  { rewrite len_app in Hl. unfold encode_sample at 1 in Hl. rewrite !len_app, !len_le_put in Hl.
    cbn [fst snd] in Hl. rewrite len_app. lia. }
  pose proof (len_nonneg (concat (map encode_sample samples) ++ rest)). pose proof (len_nonneg d).
  rewrite read_sample_app by (done || lia). cbn [nsm_Size].
  rewrite (len_app d). unfold u32. rewrite wrap_u_small by (unfold in_u; lia).
  rewrite (proj2 (Z.ltb_ge _ _)) by lia. rewrite buf_next_app. rewrite Z.eqb_refl. cbn [negb].
  replace (1 + len samples - 1) with (len samples) by lia.
  rewrite IH by (try done; cbn in Hfuel; lia). done.
Qed.

Lemma encode_sample_len s : 8 <= len (encode_sample s).
Proof. unfold encode_sample. rewrite !len_app, !len_le_put. pose proof (len_nonneg s.2). lia. Qed.

Lemma samples_count samples : len samples <= len (concat (map encode_sample samples)).
Proof.
  induction samples as [|s samples IH]; [done|]. cbn [map concat]. rewrite len_cons, len_app.
  pose proof (encode_sample_len s). lia.
Qed.

Lemma stamps_loop_app stamps : forall fuel,
  Forall wf_stamp stamps -> (length stamps <= fuel)%nat ->
  len (concat (map encode_stamp stamps)) < 2 ^ 32 ->
  stamps_loop fuel (len stamps) (concat (map encode_stamp stamps))
  = (concat (map stamp_samples stamps), Ok ()).
Proof.
  induction stamps as [|[ts ss] stamps IH]; intros fuel Hf Hfuel Hl; [by destruct fuel|].
  apply Forall_cons in Hf as [[Ht Hs] Hf]. destruct fuel as [|fuel]; [cbn in Hfuel; lia|].
  pose proof (len_nonneg stamps). cbn [map concat stamps_loop] in *. rewrite len_cons.
  rewrite (proj2 (Z.leb_gt _ _)) by lia.
  unfold encode_stamp at 1. unfold encode_stamp at 1 in Hl. cbn [fst snd] in *.
  rewrite !len_app, !len_le_put in Hl. rewrite <- !app_assoc.
  pose proof (len_nonneg (concat (map encode_stamp stamps))). pose proof (samples_count ss).
  pose proof (len_nonneg ss).
  unfold read_stamp. rewrite read_uint_app. cbn [mbind res_bind]. rewrite read_uint_app.
  cbn [mbind res_bind sh_Samples sh_Timestamp].
  rewrite (Z.mod_small ts) by exact Ht. rewrite (Z.mod_small (len ss)) by (change (8 * Z.of_nat 4) with 32; lia).
  rewrite samples_loop_app; [|done| |rewrite len_app; lia].
  2:{ rewrite length_app. unfold len in *. lia. }
  replace (1 + len stamps - 1) with (len stamps) by lia.
  rewrite IH by (done || (cbn in Hfuel; lia)). done.
Qed.

Lemma stamps_count stamps : len stamps <= len (concat (map encode_stamp stamps)).
Proof.
  induction stamps as [|s stamps IH]; [done|]. cbn [map concat]. rewrite len_cons, len_app.
  unfold encode_stamp at 1. rewrite !len_app, !len_le_put.
  pose proof (len_nonneg (concat (map encode_sample s.2))). lia.
Qed.

Lemma decodeNotification_encoded n stamps :
  Forall wf_stamp stamps -> len (encode_stream n stamps) < 2 ^ 32 ->
  decodeNotification (encode_stream n stamps) = (concat (map stamp_samples stamps), Ok ()).
Proof.
  intros Hf Hl. unfold decodeNotification, encode_stream in *. unfold read_stream.
  rewrite !len_app, !len_le_put in Hl. pose proof (stamps_count stamps). pose proof (len_nonneg stamps).
  rewrite read_uint_app. cbn [mbind res_bind]. rewrite read_uint_app. cbn [mbind res_bind ns_Stamps].
  rewrite (Z.mod_small (len stamps)) by (change (8 * Z.of_nat 4) with 32; lia).
  apply stamps_loop_app; [done| |lia]. unfold len in *. lia.
Qed.

(** Every sample of a well-formed notification payload is emitted once, in wire
    order, with its handle, its stamp's timestamp and exactly its bytes. *)
Theorem decodeNotification_roundtrip n stamps :
  Forall wf_stamp stamps -> len (encode_stream n stamps) < 2 ^ 32 ->
  decodeNotification (encode_stream n stamps) = (concat (map stamp_samples stamps), Ok ()).
Proof. apply decodeNotification_encoded. Qed.

Lemma decodeNotification_roundtrip_witness :
  decodeNotification (encode_stream 0 [(5, [(7, [Byte.x01; Byte.x02]); (8, [])]); (6, [(7, [Byte.x03])])])
  = ([{| sm_handle := 7; sm_timestamp := 5; sm_content := [Byte.x01; Byte.x02] |};
      {| sm_handle := 8; sm_timestamp := 5; sm_content := [] |};
      {| sm_handle := 7; sm_timestamp := 6; sm_content := [Byte.x03] |}], Ok ()).
Proof.
  apply (decodeNotification_roundtrip 0
    [(5, [(7, [Byte.x01; Byte.x02]); (8, [])]); (6, [(7, [Byte.x03])])]).
  - repeat constructor; by vm_compute.
  - by vm_compute.
Defined.

(** ** Robustness *)

Lemma read_sample_drop b s rest : read_sample b = Ok (s, rest) -> (length b = 8 + length rest)%nat.
Proof.
  unfold read_sample. intros H. res_inv. destruct x as [h b1]. res_inv. destruct x as [z b2].
  injection H as <- <-.
  repeat match goal with E : read_uint _ _ = Ok _ |- _ => apply read_uint_Ok in E as (? & -> & ? & _) end.
  rewrite !length_app. lia.
Qed.

Lemma read_stamp_drop b s rest : read_stamp b = Ok (s, rest) -> (length b = 12 + length rest)%nat.
Proof.
  unfold read_stamp. intros H. res_inv. destruct x as [h b1]. res_inv. destruct x as [z b2].
  injection H as <- <-.
  repeat match goal with E : read_uint _ _ = Ok _ |- _ => apply read_uint_Ok in E as (? & -> & ? & _) end.
  rewrite !length_app. lia.
Qed.

Lemma no_panic_read_sample b : no_panic (read_sample b).
Proof. unfold read_sample. repeat (apply no_panic_bind; [auto with ads|]; intros [? ?] _). auto with ads. Qed.
Lemma no_panic_read_stamp b : no_panic (read_stamp b).
Proof. unfold read_stamp. repeat (apply no_panic_bind; [auto with ads|]; intros [? ?] _). auto with ads. Qed.
Lemma no_panic_read_stream b : no_panic (read_stream b).
Proof. unfold read_stream. repeat (apply no_panic_bind; [auto with ads|]; intros [? ?] _). auto with ads. Qed.

Definition content_bytes (out : list notifSample) : Z :=
  foldr (fun s acc => len (sm_content s) + acc) 0 out.

Lemma content_bytes_app a b : content_bytes (a ++ b) = content_bytes a + content_bytes b.
Proof. induction a as [|x a IH]; [done|]. cbn [content_bytes foldr app]. unfold content_bytes in *. lia. Qed.

(** Neither loop runs out of fuel, and what is emitted came out of the buffer:
    8 header bytes and the content of each sample. *)
Lemma samples_loop_fuel fuel : forall left ts data, (length data < fuel)%nat ->
  match samples_loop fuel left ts data with
  | (out, Ok rest) => 8 * len out + content_bytes out + len rest <= len data
  | (out, Err _) => 8 * len out + content_bytes out <= len data
  | (_, Panic) => False
  end.
Proof.
  induction fuel as [|fuel IH]; intros left ts data Hl; [lia|]. cbn [samples_loop].
  pose proof (len_nonneg data). destruct (left <=? 0); [unfold len in *; cbn; lia|].
  pose proof (no_panic_read_sample data).
  destruct (read_sample data) as [[s d]| |] eqn:Es; [|unfold len in *; cbn; lia|done].
  apply read_sample_drop in Es. case_if; [unfold len in *; cbn; lia|]. unfold buf_next.
  case_if; [unfold len in *; cbn; lia|]. apply negb_false_iff in E0. zbool.
  specialize (IH (left - 1) ts (drop (Z.to_nat (nsm_Size s)) d)).
  destruct (samples_loop _ _ _ _) as [out r].
  assert (Hd : len d = len (take (Z.to_nat (nsm_Size s)) d) + len (drop (Z.to_nat (nsm_Size s)) d))
    by (rewrite <- len_app, take_drop; done).
  assert (len data = 8 + len d) by (unfold len; lia).
  assert (Hlt : (length (drop (Z.to_nat (nsm_Size s)) d) < fuel)%nat) by (rewrite length_drop; lia).
  specialize (IH Hlt). destruct r; [| |done]; cbn [content_bytes foldr sm_content]; rewrite len_cons;
    unfold content_bytes in *; lia.
Qed.

Lemma stamps_loop_fuel fuel : forall left data, (length data < fuel)%nat ->
  match stamps_loop fuel left data with
  | (out, Panic) => False
  | (out, _) => 8 * len out + content_bytes out <= len data
  end.
Proof.
  induction fuel as [|fuel IH]; intros left data Hl; [lia|]. cbn [stamps_loop].
  pose proof (len_nonneg data). destruct (left <=? 0); [unfold len in *; cbn; lia|].
  pose proof (no_panic_read_stamp data).
  destruct (read_stamp data) as [[s d]| |] eqn:Es; [|unfold len in *; cbn; lia|done].
  apply read_stamp_drop in Es. assert (len data = 12 + len d) by (unfold len; lia).
  pose proof (samples_loop_fuel (S (length d)) (sh_Samples s) (sh_Timestamp s) d ltac:(lia)) as Hs.
  destruct (samples_loop _ _ _ _) as [out [rest|e|]]; [|lia|done].
  assert (0 <= content_bytes out)
    by (clear; induction out as [|x out IH]; cbn; [lia|]; unfold content_bytes in *; pose proof (len_nonneg (sm_content x)); lia).
  pose proof (len_nonneg out).
  specialize (IH (left - 1) rest ltac:(unfold len in *; lia)).
  destruct (stamps_loop _ _ _) as [out' [|e|]]; [| |done]; rewrite len_app, content_bytes_app; lia.
Qed.

(** Whatever bytes arrive, decoding terminates without a panic, and it never
    hands out more samples or content than the payload holds: counts that a
    device announces do not make the client allocate. *)
Theorem decodeNotification_bounded data :
  (decodeNotification data).2 <> Panic /\
  8 * len (decodeNotification data).1 + content_bytes (decodeNotification data).1 <= len data.
Proof.
  unfold decodeNotification. pose proof (no_panic_read_stream data) as Hp. pose proof (len_nonneg data).
  destruct (read_stream data) as [[s d]| |] eqn:Es; [|split; [done|unfold len in *; cbn; lia]|done].
  unfold read_stream in Es. res_inv. destruct x as [a b1]. res_inv. destruct x as [z b2].
  injection Es as <- <-.
  repeat match goal with E : read_uint _ _ = Ok _ |- _ => apply read_uint_Ok in E as (? & -> & ? & _) end.
  pose proof (stamps_loop_fuel (S (length b2)) z b2 ltac:(lia)) as Hs.
  rewrite !len_app in *. pose proof (len_nonneg x). pose proof (len_nonneg x0). cbn [ns_Stamps].
  destruct (stamps_loop _ _ _) as [out [|e|]]; [split; [done|cbn [fst snd]; lia]..|done].
Qed.

(** A handle's samples are all handed to one shard, in the order decoded; the
    other shards get none of them. *)
Theorem shard_keeps_handle_order h samples :
  filter (fun s => sm_handle s = h) (shard (h mod notifShardCount) samples)
  = filter (fun s => sm_handle s = h) samples /\
  forall k, k <> h mod notifShardCount -> filter (fun s => sm_handle s = h) (shard k samples) = [].
Proof.
  unfold shard, shard_of. induction samples as [|s samples [IH1 IH2]]; [done|].
  split; [|intros k Hk; specialize (IH2 k Hk)]; rewrite !filter_cons;
    destruct (decide (sm_handle s = h)) as [E|E].
  - rewrite decide_True by (by rewrite E). rewrite filter_cons, decide_True by done. by f_equal.
  - case_decide; [|done]. by rewrite filter_cons, decide_False.
  - rewrite decide_False by congruence. done.
  - case_decide; [|done]. by rewrite filter_cons, decide_False.
Qed.
