(* ===== verification/Mux.v ===== *)
(** client.go and transport.go: AMS/TCP framing ([readFrames]), classification of
    frames ([isNotificationFrame], [handleReceive]) and the multiplexing of
    concurrent requests over one connection by InvokeID ([sendRequestTo],
    [recvWorker], [transmitWorker], [callOnDrop]) as a step system. *)
From S2P Require Import Prelude Wire Strconv Defs Ams NotifStream.

(** ** amsReply *)

Record amsReply : Type := { rp_data : bytes; rp_amsErr : Z }.

#[export] Instance amsReply_eq_dec : EqDecision amsReply.
Proof. solve_decision. Defined.

Definition payload (r : amsReply) : res bytes :=
  if negb (rp_amsErr r =? 0) then Err (EAMS (rp_amsErr r)) else Ok (rp_data r).

(** ** readFrames: the framing of the byte stream *)

Definition maxAMSPacket : Z := 4 * 1024 * 1024.

Inductive frame_kind : Type := FSystem | FNotification | FReply.

#[export] Instance frame_kind_eq_dec : EqDecision frame_kind.
Proof. solve_decision. Defined.

Definition isNotificationFrame (data : bytes) : res bool :=
  if len data <? 32 then Ok false
  else cmd ← u16_at data 16; Ok (cmd =? CommandIDDeviceNotification).

(** The queue a frame goes to. *)
Definition classify (system : Z) (data : bytes) : frame_kind :=
  if 0 <? system then FSystem
  else match isNotificationFrame data with Ok true => FNotification | _ => FReply end.

(** Why the loop ended: the stream ended in a frame header, in a body, or a
    declared length was out of bounds. *)
Inductive stream_end : Type := EndHeader (e : goerr) | EndBody (e : goerr) | EndOversize | EndFuel.

(** The loop over the bytes the connection delivers before it ends.  Each frame
    takes at least 6 bytes, so the stream's length is fuel enough. *)
Fixpoint readFrames (fuel : nat) (stream : bytes) : list (frame_kind * bytes) * stream_end :=
  match fuel with
  | O => ([], EndFuel)
  | S fuel =>
      match read_full 6 stream with
      | Err e => ([], EndHeader e)
      | Panic => ([], EndFuel)
      | Ok (hdrBytes, stream) =>
          match '(_, b) ← read_u8 hdrBytes; '(sys, b) ← read_u8 b; '(ln, _) ← read_u32 b; Ok (sys, ln) with
          | Err e => ([], EndHeader e)
          | Panic => ([], EndFuel)
          | Ok (system, length) =>
              if maxAMSPacket <? length then ([], EndOversize)
              else
                match read_full length stream with
                | Err e => ([], EndBody e)
                | Panic => ([], EndFuel)
                | Ok (data, stream) =>
                    let '(fs, e) := readFrames fuel stream in
                    ((classify system data, data) :: fs, e)
                end
          end
      end
  end.

Definition frames_of (stream : bytes) : list (frame_kind * bytes) * stream_end :=
  readFrames (S (length stream)) stream.

(** ** handleReceive *)

Inductive received : Type :=
| RcvIgnored
| RcvNotification (w : walk ())
| RcvReply (id : Z) (r : amsReply).

Definition handleReceive (data : bytes) : received :=
  if len data <? 32 then RcvIgnored
  else
    match read_header data with
    | Ok (header, _) =>
        let adsData := drop 32 data in
        if negb (len adsData =? Length header) then RcvIgnored
        else if Command header =? CommandIDDeviceNotification
        then RcvNotification (decodeNotification adsData)
        else RcvReply (InvokeID header) {| rp_data := adsData; rp_amsErr := ErrorCode header |}
    | _ => RcvIgnored
    end.

(** ** The step system *)

(** How far a [sendRequestTo] call is: offering its packet to the transmit
    worker, waiting for its reply, or returned. *)
Inductive phase : Type := Sending | Waiting | Returned (r : res bytes).

Record call : Type := { cl_id : Z; cl_pack : bytes; cl_phase : phase }.

Record mux : Type := {
  source : AMSAddress;
  currentRequest : Z;
  activeRequests : gmap Z nat;        (* InvokeID -> the call that owns the channel *)
  calls : gmap nat call;
  chans : gmap nat (list amsReply);   (* response channels, capacity 1 *)
  recvQueue : list bytes;
  notifQueue : list bytes;
  systemResponse : list bytes;        (* capacity 1 *)
  holding : list (nat * amsReply);    (* recvWorkers about to deliver *)
  disconnected : bool;
  dropped : bool;
  sent : list bytes;                  (* what transmitWorker wrote *)
  seen : list bytes }.                (* frames the recvWorkers took *)

Definition recvWorkerCount : nat := 16.
Definition recvQueueSize : nat := 256.
Definition notifQueueSize : nat := 1024.

Definition new_mux (src : AMSAddress) : mux :=
  {| source := src; currentRequest := 0; activeRequests := ∅; calls := ∅; chans := ∅;
     recvQueue := []; notifQueue := []; systemResponse := []; holding := [];
     disconnected := false; dropped := false; sent := []; seen := [] |}.

Inductive event : Type :=
| EvCall (t : nat) (target : AMSAddress) (command : Z) (data : bytes)  (* sendRequestTo is entered *)
| EvSend (t : nat)                    (* transmitWorker takes and writes the packet *)
| EvFrame (k : frame_kind) (data : bytes)  (* readFrames decoded a frame *)
| EvWork                              (* a recvWorker takes the next frame: handleReceive *)
| EvDeliver (i : nat)                 (* a recvWorker puts the reply on the response channel *)
| EvReply (t : nat)                   (* the call receives its reply *)
| EvTimeout (t : nat) (e : goerr)     (* its context is done *)
| EvDropped (t : nat)                 (* it observes the drop, and its grace ends *)
| EvDrop                              (* markDropped *)
| EvDisconnect.                       (* tx.disconnected.Store(true) *)

(** Functional updates. *)
Definition set_call (t : nat) (c : call) (s : mux) : mux :=
  {| source := source s; currentRequest := currentRequest s; activeRequests := activeRequests s;
     calls := <[t := c]> (calls s); chans := chans s; recvQueue := recvQueue s;
     notifQueue := notifQueue s; systemResponse := systemResponse s; holding := holding s;
     disconnected := disconnected s; dropped := dropped s; sent := sent s; seen := seen s |}.

(** The call returns: its deferred delete, then the result. *)
Definition return_call (t : nat) (c : call) (r : res bytes) (s : mux) : mux :=
  {| source := source s; currentRequest := currentRequest s;
     activeRequests := delete (cl_id c) (activeRequests s);
     calls := <[t := {| cl_id := cl_id c; cl_pack := cl_pack c; cl_phase := Returned r |}]> (calls s);
     chans := chans s; recvQueue := recvQueue s;
     notifQueue := notifQueue s; systemResponse := systemResponse s; holding := holding s;
     disconnected := disconnected s; dropped := dropped s; sent := sent s; seen := seen s |}.

Definition set_chan (t : nat) (l : list amsReply) (s : mux) : mux :=
  {| source := source s; currentRequest := currentRequest s; activeRequests := activeRequests s;
     calls := calls s; chans := <[t := l]> (chans s); recvQueue := recvQueue s;
     notifQueue := notifQueue s; systemResponse := systemResponse s; holding := holding s;
     disconnected := disconnected s; dropped := dropped s; sent := sent s; seen := seen s |}.

Definition set_holding (h : list (nat * amsReply)) (s : mux) : mux :=
  {| source := source s; currentRequest := currentRequest s; activeRequests := activeRequests s;
     calls := calls s; chans := chans s; recvQueue := recvQueue s;
     notifQueue := notifQueue s; systemResponse := systemResponse s; holding := h;
     disconnected := disconnected s; dropped := dropped s; sent := sent s; seen := seen s |}.

Definition set_queues (rq nq sy : list bytes) (s : mux) : mux :=
  {| source := source s; currentRequest := currentRequest s; activeRequests := activeRequests s;
     calls := calls s; chans := chans s; recvQueue := rq;
     notifQueue := nq; systemResponse := sy; holding := holding s;
     disconnected := disconnected s; dropped := dropped s; sent := sent s; seen := seen s |}.

(** sendRequestTo up to the first [select]. *)
Definition begin_call (t : nat) (target : AMSAddress) (command : Z) (data : bytes) (s : mux) : mux :=
  if disconnected s then
    set_call t {| cl_id := 0; cl_pack := []; cl_phase := Returned (Err (ESentinel ErrTransportClosed)) |} s
  else
    let id := u32 (currentRequest s + 1) in
    {| source := source s; currentRequest := id;
       activeRequests := <[id := t]> (activeRequests s);
       calls := <[t := {| cl_id := id; cl_pack := encodeTo target (source s) command data id;
                          cl_phase := Sending |}]> (calls s);
       chans := <[t := []]> (chans s); recvQueue := recvQueue s;
       notifQueue := notifQueue s; systemResponse := systemResponse s; holding := holding s;
       disconnected := disconnected s; dropped := dropped s; sent := sent s; seen := seen s |}.

(** transmitWorker: the packet is written and the call waits for its reply. *)
Definition transmit (t : nat) (c : call) (s : mux) : mux :=
  {| source := source s; currentRequest := currentRequest s; activeRequests := activeRequests s;
     calls := <[t := {| cl_id := cl_id c; cl_pack := cl_pack c; cl_phase := Waiting |}]> (calls s);
     chans := chans s; recvQueue := recvQueue s;
     notifQueue := notifQueue s; systemResponse := systemResponse s; holding := holding s;
     disconnected := disconnected s; dropped := dropped s; sent := sent s ++ [cl_pack c]; seen := seen s |}.

(** readFrames hands a frame to its queue; a full queue drops the frame, except
    the system channel, on which it blocks. *)
Definition enqueue (k : frame_kind) (data : bytes) (s : mux) : option mux :=
  match k with
  | FSystem =>
      if decide (length (systemResponse s) < 1)%nat
      then Some (set_queues (recvQueue s) (notifQueue s) (systemResponse s ++ [data]) s) else None
  | FNotification =>
      Some (if decide (length (notifQueue s) < notifQueueSize)%nat
            then set_queues (recvQueue s) (notifQueue s ++ [data]) (systemResponse s) s else s)
  | FReply =>
      Some (if decide (length (recvQueue s) < recvQueueSize)%nat
            then set_queues (recvQueue s ++ [data]) (notifQueue s) (systemResponse s) s else s)
  end.

(** A recvWorker takes a frame and looks its InvokeID up. *)
Definition work (data : bytes) (rest : list bytes) (s : mux) : mux :=
  let s' := {| source := source s; currentRequest := currentRequest s; activeRequests := activeRequests s;
     calls := calls s; chans := chans s; recvQueue := rest;
     notifQueue := notifQueue s; systemResponse := systemResponse s; holding := holding s;
     disconnected := disconnected s; dropped := dropped s; sent := sent s; seen := seen s ++ [data] |} in
  match handleReceive data with
  | RcvReply id r =>
      match activeRequests s !! id with
      | Some t => set_holding (holding s ++ [(t, r)]) s'
      | None => s'
      end
  | _ => s'
  end.

Definition set_flags (disc drp : bool) (s : mux) : mux :=
  {| source := source s; currentRequest := currentRequest s; activeRequests := activeRequests s;
     calls := calls s; chans := chans s; recvQueue := recvQueue s;
     notifQueue := notifQueue s; systemResponse := systemResponse s; holding := holding s;
     disconnected := disc; dropped := drp; sent := sent s; seen := seen s |}.

Definition step (e : event) (s : mux) : option mux :=
  match e with
  | EvCall t target command data =>
      match calls s !! t with Some _ => None | None => Some (begin_call t target command data s) end
  | EvSend t =>
      match calls s !! t with
      | Some c => match cl_phase c with Sending => Some (transmit t c s) | _ => None end
      | None => None
      end
  | EvFrame k data => enqueue k data s
  | EvWork =>
      if decide (length (holding s) < recvWorkerCount)%nat then
        match recvQueue s with data :: rest => Some (work data rest s) | [] => None end
      else None
  | EvDeliver i =>
      match holding s !! i with
      | Some (t, r) =>
          match chans s !! t with
          | Some [] => Some (set_holding (delete i (holding s)) (set_chan t [r] s))
          | _ => None
          end
      | None => None
      end
  | EvReply t =>
      match calls s !! t, chans s !! t with
      | Some c, Some (r :: l) =>
          match cl_phase c with
          | Waiting => Some (return_call t c (payload r) (set_chan t l s))
          | _ => None
          end
      | _, _ => None
      end
  | EvTimeout t e =>
      match calls s !! t with
      | Some c => match cl_phase c with Returned _ => None | _ => Some (return_call t c (Err e) s) end
      | None => None
      end
  | EvDropped t =>
      if dropped s then
        match calls s !! t with
        | Some c => match cl_phase c with
                    | Returned _ => None
                    | _ => Some (return_call t c (Err (ESentinel ErrTransportClosed)) s)
                    end
        | None => None
        end
      else None
  | EvDrop => Some (set_flags (disconnected s) true s)
  | EvDisconnect => Some (set_flags true (dropped s) s)
  end.

Fixpoint run (es : list event) (s : mux) : option mux :=
  match es with
  | [] => Some s
  | e :: es => match step e s with Some s => run es s | None => None end
  end.

Inductive reachable (src : AMSAddress) : mux -> Prop :=
| reach_init : reachable src (new_mux src)
| reach_step s e s' : reachable src s -> step e s = Some s' -> reachable src s'.

Definition in_flight (c : call) : bool :=
  match cl_phase c with Returned _ => false | _ => true end.
