(* ===== verification/MuxFacts.v ===== *)
(** Properties of the framing and of the request multiplexer (Mux.v). *)
From S2P Require Import Prelude Wire Strconv Defs Ams NotifStream Client Mux.

(** ** Framing *)

Definition frame_bytes (f : Z * bytes) : bytes := encode_tcp_header f.1 (len f.2) ++ f.2.
Definition wf_frame (f : Z * bytes) : Prop := in_u 8 f.1 /\ len f.2 <= maxAMSPacket.
Definition frame_view (f : Z * bytes) : frame_kind * bytes := (classify f.1 f.2, f.2).

Lemma len_tcp_header sys ln : len (encode_tcp_header sys ln) = 6.
Proof. unfold encode_tcp_header. rewrite !len_cons, len_le_put. done. Qed.

Lemma read_tcp_header sys ln : in_u 8 sys -> in_u 32 ln ->
  ('(_, b) ← read_u8 (encode_tcp_header sys ln); '(sys, b) ← read_u8 b; '(ln, _) ← read_u32 b; Ok (sys, ln))
  = Ok (sys, ln).
Proof.
  intros Hs Hl. unfold encode_tcp_header.
  change (byte_of_Z 0 :: byte_of_Z sys :: put_u32 ln) with (le_put 1 0 ++ le_put 1 sys ++ put_u32 ln).
  rewrite read_uint_app. cbn [mbind res_bind]. rewrite read_uint_app. cbn [mbind res_bind].
  rewrite <- (app_nil_r (put_u32 ln)), read_uint_app. cbn [mbind res_bind].
  rewrite !Z.mod_small; done.
Qed.

Lemma readFrames_step fuel s : readFrames (S fuel) s =
  match read_full 6 s with
  | Err e => ([], EndHeader e)
  | Panic => ([], EndFuel)
  | Ok (hdrBytes, stream) =>
      match '(_, b) ← read_u8 hdrBytes; '(sys, b) ← read_u8 b; '(ln, _) ← read_u32 b; Ok (sys, ln) with
      | Err e => ([], EndHeader e)
      | Panic => ([], EndFuel)
      | Ok (system, length) =>
          if maxAMSPacket <? length then ([], EndOversize)
          else
            match read_full length stream with
            | Err e => ([], EndBody e)
            | Panic => ([], EndFuel)
            | Ok (data, stream) =>
                let '(fs, e) := readFrames fuel stream in
                ((classify system data, data) :: fs, e)
            end
      end
  end.
Proof. done. Qed.

Lemma readFrames_app fs : forall fuel tail,
  Forall wf_frame fs -> (length fs <= fuel)%nat ->
  readFrames (S fuel) (concat (map frame_bytes fs) ++ tail)
  = let '(fs', e) := readFrames (S fuel - length fs) tail in (map frame_view fs ++ fs', e).
Proof.
  induction fs as [|[sys d] fs IH]; intros fuel tail Hf Hfuel.
  { cbn [length map concat app]. replace (S fuel - 0)%nat with (S fuel) by lia.
    by destruct (readFrames (S fuel) tail). }
  apply Forall_cons in Hf as [[Hs Hd] Hf]. destruct fuel as [|fuel]; [cbn in Hfuel; lia|].
  cbn [map concat length]. unfold frame_bytes at 1. cbn [fst snd] in *. rewrite <- !app_assoc.
  unfold maxAMSPacket in *. pose proof (len_nonneg d).
  rewrite readFrames_step.
  rewrite read_full_app by apply len_tcp_header.
  rewrite read_tcp_header by (done || (unfold in_u; lia)).
  rewrite (proj2 (Z.ltb_ge _ _)) by (unfold maxAMSPacket; lia).
  rewrite read_full_app by done. rewrite IH by (done || (cbn in Hfuel; lia)).
  replace (S (S fuel) - S (length fs))%nat with (S fuel - length fs)%nat by lia.
  by destruct (readFrames _ tail).
Qed.

Lemma frames_count fs : (6 * length fs <= length (concat (map frame_bytes fs)))%nat.
Proof.
  induction fs as [|f fs IH]; [done|]. cbn [map concat length]. rewrite length_app.
  unfold frame_bytes at 1. rewrite length_app. pose proof (len_tcp_header f.1 (len f.2)) as E.
  unfold len at 1 in E. lia.
Qed.


(** ** Truncation: a segment boundary never invents or reorders a frame *)

Lemma read_full_prefix n a b c r : read_full n a = Ok (c, r) -> 0 <= n ->
  read_full n (a ++ b) = Ok (c, r ++ b).
Proof.
  intros H Hn. apply read_full_Ok in H as [-> Hl]; [|done]. rewrite <- app_assoc.
  by apply read_full_app.
Qed.

Lemma read_u8_len b v r : read_uint 1 b = Ok (v, r) -> (length b = 1 + length r)%nat.
Proof. intros (x & -> & Hx & _)%read_uint_Ok. rewrite length_app. lia. Qed.

Lemma frame_length_nonneg h s l :
  ('(_, b) ← read_u8 h; '(sys, b) ← read_u8 b; '(ln, _) ← read_u32 b; Ok (sys, ln)) = Ok (s, l) -> 0 <= l.
Proof.
  intros H. res_inv. destruct x as [? b1]. res_inv. destruct x as [? b2]. res_inv. destruct x as [? b3].
  injection H as <- <-.
  match goal with E : read_u32 _ = Ok _ |- _ => apply read_uint_range in E as [? _] end. done.
Qed.

Lemma readFrames_fuel : forall f1 f2 s, (length s < f1)%nat -> (length s < f2)%nat ->
  readFrames f1 s = readFrames f2 s.
Proof.
  induction f1 as [|f1 IH]; intros f2 s H1 H2; [lia|]. destruct f2 as [|f2]; [lia|].
  rewrite !readFrames_step. destruct (read_full 6 s) as [[h r]| |] eqn:E; try done.
  apply read_full_Ok in E as [-> Hh]; [|lia]. rewrite length_app in *. unfold len in Hh.
  destruct (mbind _ (read_u8 h)) as [[sys ln]| |] eqn:Eh; try done. case_if; [done|].
  destruct (read_full ln r) as [[d r']| |] eqn:E'; try done.
  apply read_full_Ok in E' as [-> _]; [|by eapply frame_length_nonneg].
  rewrite length_app in *. by rewrite (IH f2) by lia.
Qed.

(** What has arrived so far determines a prefix of the frames: splitting the
    stream at any byte neither invents, loses nor reorders one. *)
Theorem frames_of_prefix s rest : (frames_of s).1 `prefix_of` (frames_of (s ++ rest)).1.
Proof.
  unfold frames_of. assert (H : forall n s, (length s < n)%nat ->
    (readFrames n s).1 `prefix_of` (readFrames (n + length rest) (s ++ rest)).1).
  { clear s. induction n as [|n IH]; intros s Hs; [lia|]. cbn [Nat.add]. rewrite !readFrames_step.
    destruct (read_full 6 s) as [[h r]| |] eqn:E; try apply prefix_nil.
    rewrite (read_full_prefix _ _ rest _ _ E) by lia.
    apply read_full_Ok in E as [-> Hh]; [|lia]. unfold len in Hh.
    destruct (mbind _ (read_u8 h)) as [[sys ln]| |] eqn:Eh; try apply prefix_nil.
    case_if; [apply prefix_nil|].
    destruct (read_full ln r) as [[d r']| |] eqn:E'; try apply prefix_nil.
    assert (0 <= ln) by (by eapply frame_length_nonneg).
    rewrite (read_full_prefix _ _ rest _ _ E') by done.
    apply read_full_Ok in E' as [-> _]; [|done]. rewrite !length_app in Hs.
    specialize (IH r' ltac:(lia)).
    destruct (readFrames n r') as [fs e], (readFrames (n + length rest) (r' ++ rest)) as [fs' e'].
    by apply prefix_cons. }
  specialize (H (S (length s)) s ltac:(lia)).
  by rewrite (readFrames_fuel (S (length (s ++ rest))) (S (length s) + length rest)) by (rewrite length_app; lia).
Qed.

(** ** The multiplexer: invariants *)

(** [r] came in a frame the recvWorkers took, addressed to call [t]'s InvokeID. *)
Definition answered (s : mux) (t : nat) (r : amsReply) : Prop :=
  exists c d, calls s !! t = Some c /\ d ∈ seen s /\ handleReceive d = RcvReply (cl_id c) r.

Record mux_inv (s : mux) : Prop := {
  inv_active : forall id t, activeRequests s !! id = Some t ->
    exists c, calls s !! t = Some c /\ cl_id c = id /\ in_flight c = true;
  inv_holding : forall t r, (t, r) ∈ holding s -> answered s t r;
  inv_chans : forall t l, chans s !! t = Some l -> (length l <= 1)%nat /\ Forall (answered s t) l;
  inv_chan_call : forall t l, chans s !! t = Some l -> is_Some (calls s !! t);
  inv_returned : forall t c b, calls s !! t = Some c -> cl_phase c = Returned (Ok b) ->
    exists r, answered s t r /\ payload r = Ok b }.

(** Steps keep every call's InvokeID and every frame seen. *)
Definition extends (s s' : mux) : Prop :=
  (forall t c, calls s !! t = Some c -> exists c', calls s' !! t = Some c' /\ cl_id c' = cl_id c) /\
  (forall d, d ∈ seen s -> d ∈ seen s').

Lemma answered_extends s s' t r : extends s s' -> answered s t r -> answered s' t r.
Proof.
  intros [Hc Hd] (c & d & H1 & H2 & H3). destruct (Hc _ _ H1) as (c' & H1' & E).
  exists c', d. rewrite E. eauto.
Qed.

Lemma set_call_extends (f : call) t c s s' : calls s !! t = Some c ->
  calls s' = <[t := f]> (calls s) -> cl_id f = cl_id c -> seen s' = seen s -> extends s s'.
Proof.
  intros Ht Ec Hf Es. split; [|by rewrite Es]. intros t' c' H. rewrite Ec.
  destruct (decide (t' = t)) as [->|Hn].
  - rewrite lookup_insert_eq. eexists; split; [done|]. congruence.
  - rewrite lookup_insert_ne by done. eauto.
Qed.

Lemma same_calls_extends s s' : calls s' = calls s -> seen s ⊆ seen s' -> extends s s'.
Proof. intros E Hs. split; [|exact Hs]. intros t c H. rewrite E. eauto. Qed.

(** States that differ in components the invariant does not read. *)
Lemma inv_frame s s' : mux_inv s -> activeRequests s' = activeRequests s -> calls s' = calls s ->
  chans s' = chans s -> holding s' = holding s -> seen s ⊆ seen s' -> mux_inv s'.
Proof.
  intros [H1 H2 H3 H4 H5] Ea Ec Eh Eo Es. pose proof (same_calls_extends s s' Ec Es) as Hx.
  split; rewrite ?Ea, ?Ec, ?Eh, ?Eo; eauto using answered_extends.
  - intros t l Hl. destruct (H3 _ _ Hl) as [? Hf]. split; [done|].
    eapply Forall_impl; [exact Hf|]. eauto using answered_extends.
  - intros t c b H6 H7. destruct (H5 _ _ _ H6 H7) as (r & ? & ?). eauto using answered_extends.
Qed.

Lemma inv_transport s s' : mux_inv s -> extends s s' ->
  (forall t r, (t, r) ∈ holding s -> answered s' t r) /\
  (forall t l, chans s !! t = Some l -> (length l <= 1)%nat /\ Forall (answered s' t) l).
Proof.
  intros [H1 H2 H3 H4 H5] Hx. split; [eauto using answered_extends|].
  intros t l Hl. destruct (H3 _ _ Hl) as [? Hf]. split; [done|].
  eapply Forall_impl; [exact Hf|]. eauto using answered_extends.
Qed.

Lemma return_call_inv t c r s : mux_inv s -> calls s !! t = Some c -> in_flight c = true ->
  (forall b, r = Ok b -> exists x, answered s t x /\ payload x = Ok b) -> mux_inv (return_call t c r s).
Proof.
  intros Hi Ht Hf Hr. pose proof Hi as [H1 H2 H3 H4 H5].
  assert (Hx : extends s (return_call t c r s)) by (by eapply set_call_extends; [exact Ht|reflexivity|reflexivity|reflexivity]).
  destruct (inv_transport _ _ Hi Hx) as [T1 T2].
  split; cbn [return_call activeRequests calls chans holding] in *; try done.
  - intros id t' H. apply lookup_delete_Some in H as [Hn H].
    destruct (H1 _ _ H) as (c' & E & Ei & Ef). exists c'.
    destruct (decide (t' = t)) as [->|Hn']; [congruence|]. by rewrite lookup_insert_ne.
  - intros t' l H. destruct (decide (t' = t)) as [->|Hn]; [by rewrite lookup_insert_eq|].
    rewrite lookup_insert_ne by done. eauto.
  - intros t' c' b H Hp. destruct (decide (t' = t)) as [->|Hn].
    + rewrite lookup_insert_eq in H. injection H as <-. injection Hp as ->.
      destruct (Hr b eq_refl) as (x & Ha & Hp). eauto using answered_extends.
    + rewrite lookup_insert_ne in H by done. destruct (H5 _ _ _ H Hp) as (x & Ha & ?).
      eauto using answered_extends.
Qed.

Lemma begin_call_inv t target cmd data s : mux_inv s -> calls s !! t = None ->
  mux_inv (begin_call t target cmd data s).
Proof.
  intros Hi Ht. pose proof Hi as [H1 H2 H3 H4 H5]. unfold begin_call.
  assert (Hx : forall c s', calls s' = <[t := c]> (calls s) -> seen s' = seen s -> extends s s').
  { intros c s' Ec Es. split; [|by rewrite Es]. intros t' c' H. rewrite Ec.
    rewrite lookup_insert_ne by congruence. eauto. }
  case_if.
  - match goal with |- mux_inv ?s' => pose proof (Hx _ s' eq_refl eq_refl) as Hx';
      destruct (inv_transport _ _ Hi Hx') as [T1 T2] end.
    split; cbn [set_call activeRequests calls chans holding] in *; try done.
    + intros id t' H. destruct (H1 _ _ H) as (c & Hc & ? & ?). exists c.
      by rewrite lookup_insert_ne by congruence.
    + intros t' l H. destruct (H4 _ _ H) as [c Hc]. rewrite lookup_insert_ne by congruence. by exists c.
    + intros t' c b H Hp. destruct (decide (t' = t)) as [->|Hn].
      * rewrite lookup_insert_eq in H. injection H as <-. discriminate.
      * rewrite lookup_insert_ne in H by done. destruct (H5 _ _ _ H Hp) as (x & ? & ?). eauto using answered_extends.
  - match goal with |- mux_inv ?s' => pose proof (Hx _ s' eq_refl eq_refl) as Hx';
      destruct (inv_transport _ _ Hi Hx') as [T1 T2] end.
    split; cbn [activeRequests calls chans holding] in *; try done.
    + intros id t' H. destruct (decide (id = u32 (currentRequest s + 1))) as [->|Hn].
      * rewrite lookup_insert_eq in H. injection H as <-. rewrite lookup_insert_eq. eauto.
      * rewrite lookup_insert_ne in H by done. destruct (H1 _ _ H) as (c & Hc & ? & ?). exists c.
        by rewrite lookup_insert_ne by congruence.
    + intros t' l H. destruct (decide (t' = t)) as [->|Hn].
      * rewrite lookup_insert_eq in H. injection H as <-. split; [cbn; lia|constructor].
      * rewrite lookup_insert_ne in H by done. eauto.
    + intros t' l H. destruct (decide (t' = t)) as [->|Hn]; [by rewrite lookup_insert_eq|].
      rewrite lookup_insert_ne in H by done. rewrite lookup_insert_ne by done. eauto.
    + intros t' c b H Hp. destruct (decide (t' = t)) as [->|Hn].
      * rewrite lookup_insert_eq in H. injection H as <-. discriminate.
      * rewrite lookup_insert_ne in H by done. destruct (H5 _ _ _ H Hp) as (x & ? & ?). eauto using answered_extends.
Qed.

Lemma transmit_inv t c s : mux_inv s -> calls s !! t = Some c -> cl_phase c = Sending ->
  mux_inv (transmit t c s).
Proof.
  intros Hi Ht Hs. pose proof Hi as [H1 H2 H3 H4 H5].
  assert (Hx : extends s (transmit t c s)) by (by eapply set_call_extends; [exact Ht|reflexivity|reflexivity|reflexivity]).
  destruct (inv_transport _ _ Hi Hx) as [T1 T2].
  split; cbn [transmit activeRequests calls chans holding] in *; try done.
  - intros id t' H. destruct (H1 _ _ H) as (c' & Hc & ? & ?).
    destruct (decide (t' = t)) as [->|Hn].
    + rewrite lookup_insert_eq. eexists; split; [done|]. cbn. split; [congruence|done].
    + rewrite lookup_insert_ne by done. eauto.
  - intros t' l H. destruct (decide (t' = t)) as [->|Hn]; [by rewrite lookup_insert_eq|].
    rewrite lookup_insert_ne by done. eauto.
  - intros t' c' b H Hp. destruct (decide (t' = t)) as [->|Hn].
    + rewrite lookup_insert_eq in H. injection H as <-. discriminate.
    + rewrite lookup_insert_ne in H by done. destruct (H5 _ _ _ H Hp) as (x & ? & ?). eauto using answered_extends.
Qed.

Lemma work_inv data rest s : mux_inv s -> mux_inv (work data rest s).
Proof.
  intros Hi. unfold work.
  match goal with |- context [set_holding _ ?x] => set (s1 := x) end.
  assert (Hs1 : mux_inv s1) by (apply (inv_frame s); [done..|]; intros d Hd; cbn; apply elem_of_app; by left).
  destruct (handleReceive data) as [| |id r] eqn:Eh; try done.
  destruct (activeRequests s !! id) as [t|] eqn:Ea; [|done].
  pose proof (inv_active _ Hi _ _ Ea) as (c & Hc & Hid & _).
  destruct Hs1 as [H1 H2 H3 H4 H5]. split; cbn [set_holding activeRequests calls chans holding] in *; try done.
  intros t' r' H. apply elem_of_app in H as [H|H]; [by apply H2|].
  apply list_elem_of_singleton in H. injection H as -> ->.
  exists c, data. split_and!; [done| |by rewrite Hid].
  cbn. apply elem_of_app. right. by apply list_elem_of_singleton.
Qed.

Lemma deliver_inv i t r s : mux_inv s -> holding s !! i = Some (t, r) -> chans s !! t = Some [] ->
  mux_inv (set_holding (delete i (holding s)) (set_chan t [r] s)).
Proof.
  intros [H1 H2 H3 H4 H5] Hh Hc.
  split; cbn [set_holding set_chan activeRequests calls chans holding] in *; try done.
  - intros t' r' H. apply H2. apply list_elem_of_lookup in H as [j H].
    rewrite list_lookup_delete in H. case_decide; by eapply list_elem_of_lookup_2.
  - intros t' l H. destruct (decide (t' = t)) as [->|Hn].
    + rewrite lookup_insert_eq in H. injection H as <-. split; [cbn; lia|]. constructor; [|constructor].
      apply H2. by eapply list_elem_of_lookup_2.
    + rewrite lookup_insert_ne in H by done. eauto.
  - intros t' l H. destruct (decide (t' = t)) as [->|Hn]; [eauto|].
    rewrite lookup_insert_ne in H by done. eauto.
Qed.

Lemma receive_inv t r l s : mux_inv s -> chans s !! t = Some (r :: l) -> mux_inv (set_chan t l s).
Proof.
  intros [H1 H2 H3 H4 H5] Hc. destruct (H3 _ _ Hc) as [Hl Hf]. apply Forall_cons in Hf as [_ Hf].
  split; cbn [set_chan activeRequests calls chans holding] in *; try done.
  - intros t' l' H. destruct (decide (t' = t)) as [->|Hn].
    + rewrite lookup_insert_eq in H. injection H as <-. split; [cbn in Hl; lia|done].
    + rewrite lookup_insert_ne in H by done. eauto.
  - intros t' l' H. destruct (decide (t' = t)) as [->|Hn]; [eauto|].
    rewrite lookup_insert_ne in H by done. eauto.
Qed.

Lemma step_inv e s s' : mux_inv s -> step e s = Some s' -> mux_inv s'.
Proof.
  intros Hi H. destruct e; cbn [step] in H.
  - destruct (calls s !! t) eqn:E; [done|]. injection H as <-. by apply begin_call_inv.
  - destruct (calls s !! t) as [c|] eqn:E; [|done]. destruct (cl_phase c) eqn:Ep; try done.
    injection H as <-. by apply transmit_inv.
  - destruct k; cbn [enqueue] in H; repeat case_decide; try done; injection H as <-; try done;
      by apply (inv_frame s).
  - case_decide; [|done]. destruct (recvQueue s); [done|]. injection H as <-. by apply work_inv.
  - destruct (holding s !! i) as [[t r]|] eqn:E; [|done].
    destruct (chans s !! t) as [[|]|] eqn:Ec; try done. injection H as <-. by apply deliver_inv.
  - destruct (calls s !! t) as [c|] eqn:E; [|done].
    destruct (chans s !! t) as [[|r l]|] eqn:Ec; try done. destruct (cl_phase c) eqn:Ep; try done.
    injection H as <-. apply return_call_inv; [by eapply receive_inv|done|by unfold in_flight; rewrite Ep|].
    intros b Hb. exists r. split; [|done]. pose proof (inv_chans _ Hi _ _ Ec) as [_ Hf].
    apply Forall_cons in Hf as [Ha _]. exact Ha.
  - destruct (calls s !! t) as [c|] eqn:E; [|done].
    destruct (cl_phase c) eqn:Ep; try done; injection H as <-;
      (apply return_call_inv; [done|done|by unfold in_flight; rewrite Ep|done]).
  - destruct (dropped s); [|done]. destruct (calls s !! t) as [c|] eqn:E; [|done].
    destruct (cl_phase c) eqn:Ep; try done; injection H as <-;
      (apply return_call_inv; [done|done|by unfold in_flight; rewrite Ep|done]).
  - injection H as <-. by apply (inv_frame s).
  - injection H as <-. by apply (inv_frame s).
Qed.

Lemma reachable_inv src s : reachable src s -> mux_inv s.
Proof.
  induction 1 as [|s e s' _ IH Hs]; [|by eapply step_inv].
  split; cbn; intros; try (rewrite lookup_empty in *; done). by apply elem_of_nil in H.
Qed.

(** ** Correctness of replies *)


(** The request table holds exactly calls that are still in flight, so it cannot
    leak: when every call has returned it is empty. *)
Theorem activeRequests_no_leak src s : reachable src s ->
  (forall id t, activeRequests s !! id = Some t ->
     exists c, calls s !! t = Some c /\ cl_id c = id /\ in_flight c = true) /\
  ((forall t c, calls s !! t = Some c -> in_flight c = false) -> activeRequests s = ∅).
Proof.
  intros Hr. pose proof (inv_active _ (reachable_inv _ _ Hr)) as H. split; [done|].
  intros Hall. apply map_empty. intros id. destruct (activeRequests s !! id) as [t|] eqn:E; [|done].
  destruct (H _ _ E) as (c & Hc & _ & Hf). by rewrite (Hall _ _ Hc) in Hf.
Qed.

(** ** InvokeIDs of concurrent requests *)

Record ids_inv (s : mux) : Prop := {
  ids_count : 0 <= currentRequest s <= Z.of_nat (size (calls s));
  ids_flight : forall t c, calls s !! t = Some c -> in_flight c = true ->
    1 <= cl_id c <= currentRequest s /\ activeRequests s !! cl_id c = Some t /\ is_Some (chans s !! t) }.

Definition few_calls (s : mux) : Prop := Z.of_nat (size (calls s)) < 2 ^ 32.

Lemma ids_return t c r s : calls s !! t = Some c -> ids_inv s -> in_flight c = true ->
  ids_inv (return_call t c r s).
Proof.
  intros Ht [H1 H2] Hf. split; cbn [return_call currentRequest calls activeRequests chans].
  - by rewrite map_size_insert_Some.
  - intros t' c' H Hf'. destruct (decide (t' = t)) as [->|Hn].
    + rewrite lookup_insert_eq in H. injection H as <-. done.
    + rewrite lookup_insert_ne in H by done. destruct (H2 _ _ H Hf') as (? & Ha & ?).
      split_and!; try done; [lia..|]. rewrite lookup_delete_ne; [done|].
      intros E. destruct (H2 _ _ Ht Hf) as (_ & Ha' & _). congruence.
Qed.

Lemma ids_other s s' : ids_inv s -> currentRequest s' = currentRequest s -> calls s' = calls s ->
  activeRequests s' = activeRequests s ->
  (forall t, is_Some (chans s !! t) -> is_Some (chans s' !! t)) -> ids_inv s'.
Proof.
  intros [H1 H2] E1 E2 E3 E4. split; rewrite ?E1, ?E2, ?E3; [done|].
  intros t c H Hf. destruct (H2 _ _ H Hf) as (? & ? & ?). auto.
Qed.

Lemma chan_kept t l s : forall t', is_Some (chans s !! t') -> is_Some (chans (set_chan t l s) !! t').
Proof.
  intros t' H. cbn. destruct (decide (t' = t)) as [->|Hn]; [by rewrite lookup_insert_eq|].
  by rewrite lookup_insert_ne.
Qed.

Lemma ids_step e s s' : ids_inv s -> step e s = Some s' -> few_calls s' ->
  ids_inv s' /\ (size (calls s) <= size (calls s'))%nat.
Proof.
  intros Hi H Hfew. pose proof Hi as [H1 H2]. destruct e; cbn [step] in H.
  - destruct (calls s !! t) eqn:E; [done|]. injection H as <-. unfold begin_call, few_calls in *.
    destruct (disconnected s); cbn [set_call calls] in *; rewrite map_size_insert_None in * by done.
    + split; [|lia]. split; cbn [set_call currentRequest calls activeRequests chans];
        [rewrite map_size_insert_None by done; lia|].
      intros t' c' H Hf. destruct (decide (t' = t)) as [->|Hn].
      * rewrite lookup_insert_eq in H. injection H as <-. done.
      * rewrite lookup_insert_ne in H by done. eauto.
    + assert (Hu : u32 (currentRequest s + 1) = currentRequest s + 1)
        by (unfold u32; apply wrap_u_small; unfold in_u; lia).
      split; [|lia]. split; cbn [currentRequest calls activeRequests chans]; rewrite Hu;
        [rewrite map_size_insert_None by done; lia|].
      intros t' c' H Hf. destruct (decide (t' = t)) as [->|Hn].
      * rewrite lookup_insert_eq in H. injection H as <-. cbn [cl_id].
        rewrite !lookup_insert_eq. split_and!; try lia; done.
      * rewrite lookup_insert_ne in H by done. destruct (H2 _ _ H Hf) as (? & ? & ?).
        rewrite !lookup_insert_ne by (done || lia). split_and!; try lia; done.
  - destruct (calls s !! t) as [c|] eqn:E; [|done]. destruct (cl_phase c) eqn:Ep; try done.
    injection H as <-. unfold transmit. cbn [calls]. rewrite map_size_insert_Some by done. split; [|lia].
    split; cbn [currentRequest calls activeRequests chans]; [by rewrite map_size_insert_Some|].
    intros t' c' H Hf. destruct (decide (t' = t)) as [->|Hn].
    + rewrite lookup_insert_eq in H. injection H as <-. apply (H2 _ _ E).
      unfold in_flight. by rewrite Ep.
    + rewrite lookup_insert_ne in H by done. eauto.
  - destruct k; cbn [enqueue] in H; repeat case_decide; try done; injection H as <-; try done;
      (split; [by apply (ids_other s)|done]).
  - case_decide; [|done]. destruct (recvQueue s); [done|]. injection H as <-. unfold work.
    destruct (handleReceive l); try destruct (activeRequests s !! id); split; try done;
      by apply (ids_other s).
  - destruct (holding s !! i) as [[t r]|] eqn:E; [|done].
    destruct (chans s !! t) as [[|]|] eqn:Ec; try done. injection H as <-. split; [|done].
    apply (ids_other s); try done. exact (chan_kept t [r] s).
  - destruct (calls s !! t) as [c|] eqn:E; [|done].
    destruct (chans s !! t) as [[|r l]|] eqn:Ec; try done. destruct (cl_phase c) eqn:Ep; try done.
    injection H as <-. split; [|cbn; by rewrite map_size_insert_Some].
    apply ids_return; [done| |by unfold in_flight; rewrite Ep].
    apply (ids_other s); try done. exact (chan_kept t l s).
  - destruct (calls s !! t) as [c|] eqn:E; [|done].
    destruct (cl_phase c) eqn:Ep; try done; injection H as <-;
      (split; [|cbn; by rewrite map_size_insert_Some]);
      (apply ids_return; [done|done|by unfold in_flight; rewrite Ep]).
  - destruct (dropped s); [|done]. destruct (calls s !! t) as [c|] eqn:E; [|done].
    destruct (cl_phase c) eqn:Ep; try done; injection H as <-;
      (split; [|cbn; by rewrite map_size_insert_Some]);
      (apply ids_return; [done|done|by unfold in_flight; rewrite Ep]).
  - injection H as <-. split; [by apply (ids_other s)|done].
  - injection H as <-. split; [by apply (ids_other s)|done].
Qed.

(** [size (calls s)] never shrinks, so a bound at the end holds throughout. *)
Lemma calls_grow e s s' : step e s = Some s' -> (size (calls s) <= size (calls s'))%nat.
Proof.
  intros H.
  assert (Hins : forall t c, (size (calls s) <= size (<[t := c]> (calls s)))%nat).
  { intros t c. destruct (calls s !! t) eqn:E; [rewrite map_size_insert_Some by eauto; done|].
    rewrite map_size_insert_None by done. lia. }
  destruct e; cbn [step] in H; try unfold enqueue in H;
    repeat first [case_decide | case_match]; simplify_eq; try done; try apply Hins.
  all: unfold begin_call, work; repeat case_match; try done; apply Hins.
Qed.

Lemma reachable_ids src s : reachable src s -> few_calls s -> ids_inv s.
Proof.
  induction 1 as [|s e s' Hr IH Hs]; intros Hf.
  - split; [cbn; rewrite map_size_empty; lia|]. cbn. intros t c H. by rewrite lookup_empty in H.
  - pose proof (calls_grow _ _ _ Hs). unfold few_calls in *. eapply ids_step; [apply IH; lia|done|done].
Qed.

(** Concurrent requests have distinct InvokeIDs, and each is registered under its
    own with a live response channel, for as long as fewer than 2^32 requests
    were made on the connection: no reply to a pending request is dropped as
    unknown. *)
Theorem pending_requests_registered src s t c :
  reachable src s -> few_calls s -> calls s !! t = Some c -> in_flight c = true ->
  activeRequests s !! cl_id c = Some t /\ is_Some (chans s !! t) /\
  forall t' c', calls s !! t' = Some c' -> in_flight c' = true -> cl_id c' = cl_id c -> t' = t.
Proof.
  intros Hr Hf Hc Hi. destruct (reachable_ids _ _ Hr Hf) as [_ H2].
  destruct (H2 _ _ Hc Hi) as (_ & Ha & Hch). split_and!; [done|done|].
  intros t' c' Hc' Hi' E. destruct (H2 _ _ Hc' Hi') as (_ & Ha' & _). congruence.
Qed.

(** Nothing waits for ever on a dead connection: once the drop is observed every
    call still in flight can return, and returns [ErrTransportClosed]; and a
    client known to be disconnected refuses at once. *)
Theorem drop_releases_requests s t c :
  dropped s = true -> calls s !! t = Some c -> in_flight c = true ->
  exists s', step (EvDropped t) s = Some s' /\
    calls s' !! t = Some {| cl_id := cl_id c; cl_pack := cl_pack c;
                            cl_phase := Returned (Err (ESentinel ErrTransportClosed)) |}.
Proof.
  intros Hd Hc Hi. cbn [step]. rewrite Hd, Hc. unfold in_flight in Hi.
  destruct (cl_phase c) eqn:Ep; try done; eexists; (split; [done|]); cbn; by rewrite lookup_insert_eq.
Qed.

(** The calls still under way. *)
Definition under_way (s : mux) : list nat := (map_to_list (filter (fun tc => in_flight tc.2 = true) (calls s))).*1.

Lemma elem_of_under_way s t : t ∈ under_way s <-> exists c, calls s !! t = Some c /\ in_flight c = true.
Proof.
  unfold under_way. rewrite list_elem_of_fmap. split.
  - intros ([t' c] & -> & Hin). apply elem_of_map_to_list, map_lookup_filter_Some in Hin. by exists c.
  - intros (c & Hc & Hf). exists (t, c). split; [done|]. by apply elem_of_map_to_list, map_lookup_filter_Some.
Qed.

Lemma drop_drains ts : forall s, dropped s = true -> NoDup ts ->
  (forall t, t ∈ ts <-> exists c, calls s !! t = Some c /\ in_flight c = true) ->
  exists s', run (map EvDropped ts) s = Some s' /\
    (forall t c, calls s' !! t = Some c -> in_flight c = false) /\
    (forall t c, calls s !! t = Some c -> in_flight c = false -> calls s' !! t = Some c).
Proof.
  induction ts as [|t ts IH]; intros s Hd Hnd Hts.
  { exists s. split_and!; [done| |done]. intros t c Hc. destruct (in_flight c) eqn:Hf; [|done].
    assert (t ∈ []) as []%elem_of_nil by (apply Hts; eauto). }
  apply NoDup_cons in Hnd as [Ht Hnd]. destruct (proj1 (Hts t) ltac:(by left)) as (c & Hc & Hf).
  assert (Hs : exists r, step (EvDropped t) s = Some (return_call t c r s)).
  { cbn [step]. rewrite Hd, Hc. unfold in_flight in Hf. destruct (cl_phase c); try done; by eexists. }
  destruct Hs as [r Hs]. cbn [map run]. rewrite Hs.
  destruct (IH (return_call t c r s)) as (s' & Hrun & H1 & H2); [done|done| |].
  { intros t'. cbn [return_call set_call calls]. destruct (decide (t' = t)) as [->|Hne].
    - rewrite lookup_insert_eq. split; [done|]. by intros (c' & [= <-] & Hf').
    - rewrite lookup_insert_ne by done. rewrite <- Hts, elem_of_cons. tauto. }
  exists s'. split_and!; [done|done|]. intros t' c' Hc' Hf'. apply H2; [|done].
  cbn [return_call set_call calls]. rewrite lookup_insert_ne; [done|]. intros ->. congruence.
Qed.

Lemma mux_run_reachable src es : forall s s', reachable src s -> run es s = Some s' -> reachable src s'.
Proof.
  induction es as [|e es IH]; cbn [run]; intros s s' Hr Hrun; [by injection Hrun as <-|].
  destruct (step e s) as [s1|] eqn:E; [|done]. eapply IH; [|done]. by eapply reach_step.
Qed.

(** Once the drop is observed - a lost link, a teardown, a Close - every request under
    way can return by one step of its own, whatever the other goroutines do not do; then
    the request table is empty and what had returned before stands. *)
Theorem drop_drains_the_connection src s : reachable src s -> dropped s = true ->
  exists s', run (map EvDropped (under_way s)) s = Some s' /\ activeRequests s' = ∅ /\
    (forall t c, calls s' !! t = Some c -> in_flight c = false) /\
    (forall t c, calls s !! t = Some c -> in_flight c = false -> calls s' !! t = Some c).
Proof.
  intros Hr Hd. destruct (drop_drains (under_way s) s Hd) as (s' & Hrun & H1 & H2).
  - apply NoDup_fst_map_to_list.
  - intros t. apply elem_of_under_way.
  - exists s'. split_and!; [done| |done|done]. apply (activeRequests_no_leak src); [|done].
    by eapply mux_run_reachable.
Qed.

(** ** A worker can be pinned *)

(** A recvWorker is about to deliver [r] to call [t], which has returned and whose
    channel is full. *)
Definition pinned (t : nat) (r : amsReply) (s : mux) : Prop :=
  (t, r) ∈ holding s /\ (exists x, chans s !! t = Some [x]) /\
  exists c, calls s !! t = Some c /\ in_flight c = false.

Lemma elem_of_delete_ne {A} (x y : A) (l : list A) (i : nat) : x ∈ l -> l !! i = Some y -> x <> y -> x ∈ delete i l.
Proof.
  intros Hx Hi Hn. apply list_elem_of_lookup in Hx as [j Hj]. apply list_elem_of_lookup.
  destruct (decide (j < i)%nat).
  - exists j. by rewrite list_lookup_delete_lt.
  - destruct (decide (j = i)) as [->|]; [congruence|]. exists (j - 1)%nat.
    rewrite list_lookup_delete_ge by lia. by replace (S (j - 1)) with j by lia.
Qed.

Lemma pinned_returned t r c c' s s' : pinned t r s ->
  holding s' = holding s -> chans s' = chans s -> calls s' = <[c := c']> (calls s) ->
  (c = t -> in_flight c' = false) -> pinned t r s'.
Proof.
  intros (Hh & [x Hx] & cc & Hc & Hf) E1 E2 E3 Hcc. unfold pinned. rewrite E1, E2, E3.
  split_and!; [done|eauto|]. destruct (decide (t = c)) as [->|Hn].
  - rewrite lookup_insert_eq. eauto.
  - rewrite lookup_insert_ne by done. eauto.
Qed.

Lemma pinned_step e t r s s' : pinned t r s -> step e s = Some s' -> pinned t r s'.
Proof.
  intros Hp H. pose proof Hp as (Hh & [x Hx] & c & Hc & Hf).
  destruct e as [t0| t0 | | |i| t0 | t0 | t0 | |]; cbn [step] in H.
  - destruct (calls s !! t0) eqn:E; [done|]. injection H as <-. unfold begin_call.
    assert (t0 <> t) by congruence. case_if; [by eapply pinned_returned|].
    unfold pinned. cbn. rewrite !lookup_insert_ne by done. eauto.
  - destruct (calls s !! t0) as [c0|] eqn:E; [|done]. destruct (cl_phase c0) eqn:Ep; try done.
    injection H as <-. eapply pinned_returned; try done. intros ->.
    unfold in_flight in Hf. replace c0 with c in Ep by congruence. by rewrite Ep in Hf.
  - unfold enqueue in H. destruct k; repeat case_decide; simplify_eq; exact Hp.
  - case_decide; [|done]. destruct (recvQueue s); [done|]. injection H as <-. unfold work.
    destruct (handleReceive l) as [| |id r']; [done..|]. destruct (activeRequests s !! id); [|done].
    split; [cbn; apply elem_of_app; by left|]. exact (conj (ex_intro _ x Hx) (ex_intro _ c (conj Hc Hf))).
  - destruct (holding s !! i) as [[t0 r0]|] eqn:E; [|done].
    destruct (chans s !! t0) as [[|]|] eqn:Ec; try done. injection H as <-.
    assert (t0 <> t) by congruence. unfold pinned. cbn. rewrite lookup_insert_ne by done.
    split; [|by eauto]. by eapply elem_of_delete_ne; [|exact E|congruence].
  - destruct (calls s !! t0) as [c0|] eqn:E; [|done].
    destruct (chans s !! t0) as [[|r1 l]|] eqn:Ec; try done. destruct (cl_phase c0) eqn:Ep; try done.
    injection H as <-. assert (t0 <> t).
    { intros ->. unfold in_flight in Hf. replace c0 with c in Ep by congruence. by rewrite Ep in Hf. }
    unfold pinned. cbn. rewrite !lookup_insert_ne by done. eauto.
  - destruct (calls s !! t0) as [c0|] eqn:E; [|done].
    destruct (cl_phase c0) eqn:Ep; try done; injection H as <-; by eapply pinned_returned.
  - destruct (dropped s); [|done]. destruct (calls s !! t0) as [c0|] eqn:E; [|done].
    destruct (cl_phase c0) eqn:Ep; try done; injection H as <-; by eapply pinned_returned.
  - by injection H as <-.
  - by injection H as <-.
Qed.

Lemma pinned_run es t r : forall s s', pinned t r s -> run es s = Some s' -> pinned t r s'.
Proof.
  induction es as [|e es IH]; cbn; intros s s' Hp H; [by injection H as <-|].
  destruct (step e s) eqn:E; [|done]. eapply IH; [|done]. by eapply pinned_step.
Qed.

(** A device that answers one request three times. *)
Definition dup_frame : bytes :=
  EncodeAMSHeader {| Target := sample_addr; Source := sample_addr; Command := CommandIDReadState;
    State := 5; Length := 0; ErrorCode := 0; InvokeID := 1 |}.
Definition dup_run : list event :=
  [EvCall 0 sample_addr CommandIDReadState []; EvSend 0;
   EvFrame FReply dup_frame; EvFrame FReply dup_frame; EvFrame FReply dup_frame;
   EvWork; EvWork; EvWork; EvDeliver 0; EvReply 0; EvDeliver 0].

(** [handleReceive] sends to a channel of capacity one that nobody drains once the
    request has returned: three replies to one request can leave a recvWorker
    blocked for the rest of the connection's life, whatever happens next (only
    [Close] cancels it).  Sixteen of them and no reply is delivered any more. *)
Theorem duplicate_replies_pin_a_worker :
  exists s t r, run dup_run (new_mux sample_addr) = Some s /\
    forall es s', run es s = Some s' -> (t, r) ∈ holding s'.
Proof.
  assert (H : exists s, run dup_run (new_mux sample_addr) = Some s /\
            holding s = [(0%nat, {| rp_data := []; rp_amsErr := 0 |})] /\
            chans s !! 0%nat = Some [{| rp_data := []; rp_amsErr := 0 |}] /\
            option_map in_flight (calls s !! 0%nat) = Some false).
  { eexists. split; [by vm_compute|]. split; [by vm_compute|]. split; by vm_compute. }
  destruct H as (s & Hr & Hh & Hc & Hf). exists s, 0%nat, {| rp_data := []; rp_amsErr := 0 |}.
  split; [done|]. intros es s' Hrun. eapply (pinned_run es 0%nat); [|done].
  split_and!; [rewrite Hh; by apply list_elem_of_singleton|eauto|].
  destruct (calls s !! 0%nat) as [c|]; [|done]. injection Hf as Hf. eauto.
Qed.

(** ** The multiplexer implements the transport interface *)

(** One exchange with a device [dev] that maps a request packet to the frame it
    answers with. *)
Definition mux_request (dev : bytes -> bytes) (t : nat) (target : AMSAddress) (cmd : Z) (data : bytes)
    (s : mux) : option mux :=
  match run [EvCall t target cmd data; EvSend t] s with
  | Some s1 =>
      let frame := dev (List.last (sent s1) []) in
      run [EvFrame (classify 0 frame) frame; EvWork; EvDeliver (length (holding s)); EvReply t] s1
  | None => None
  end.

Definition mux_transport (dev : bytes -> bytes) : Transport mux := fun target cmd data s =>
  let t := fresh (dom (calls s)) in
  match mux_request dev t target cmd data s with
  | Some s' =>
      match calls s' !! t with
      | Some {| cl_phase := Returned r |} => (s', r)
      | _ => (s', Panic)
      end
  | None => (s, Err (ESentinel ErrTransportClosed))
  end.

(** Ready for a request: nothing queued, not disconnected, fewer than 2^32 - 1
    requests so far. *)
Definition idle (s : mux) : Prop :=
  recvQueue s = [] /\ holding s = [] /\ disconnected s = false /\
  0 <= currentRequest s < 2 ^ 32 - 1 /\ wf_addr (source s).

(** A device's answer to a request: its header with the addresses swapped, the
    request's command and InvokeID, an AMS error code and a body. *)
Definition answer_frame (src target : AMSAddress) (cmd id code : Z) (body : bytes) : bytes :=
  EncodeAMSHeader {| Target := src; Source := target; Command := cmd; State := 5;
    Length := len body; ErrorCode := code; InvokeID := id |} ++ body.

Lemma handleReceive_answer src target cmd id code body :
  wf_addr src -> wf_addr target -> in_u 16 cmd -> cmd <> CommandIDDeviceNotification ->
  in_u 32 id -> in_u 32 code -> len body < 2 ^ 32 ->
  handleReceive (answer_frame src target cmd id code body)
  = RcvReply id {| rp_data := body; rp_amsErr := code |}.
Proof.
  intros Hs Ht Hc Hn Hi Hcode Hb. unfold answer_frame.
  set (h := {| Target := src |}).
  assert (Hw : wf_header h).
  { split_and!; try done. split; [apply len_nonneg|done]. }
  unfold handleReceive. pose proof (len_EncodeAMSHeader h Hw) as Hl. pose proof (len_nonneg body).
  rewrite (proj2 (Z.ltb_ge _ _)) by (rewrite len_app; lia).
  rewrite read_header_encode by done. cbv beta iota zeta.
  rewrite drop_app_len by (unfold len in Hl; lia). cbn [h Length Command InvokeID ErrorCode].
  rewrite Z.eqb_refl. cbn [negb]. by rewrite (proj2 (Z.eqb_neq _ _)).
Qed.

Lemma classify_answer src target cmd id code body :
  wf_addr src -> wf_addr target -> in_u 16 cmd -> cmd <> CommandIDDeviceNotification ->
  classify 0 (answer_frame src target cmd id code body) = FReply.
Proof.
  intros Hs Ht Hc Hn. unfold classify. change (0 <? 0) with false. cbv iota.
  unfold isNotificationFrame. case_if; [done|].
  unfold answer_frame, EncodeAMSHeader. cbn [Target Source Command State Length ErrorCode InvokeID].
  rewrite <- !app_assoc, (app_assoc (encode_addr src)).
  rewrite (uint_at_app 2) by (rewrite len_app, !len_encode_addr by done; lia).
  cbn [mbind res_bind]. rewrite Z.mod_small by done. by rewrite (proj2 (Z.eqb_neq _ _)).
Qed.

Ltac mux_red :=
  cbn [source currentRequest activeRequests calls chans recvQueue notifQueue systemResponse holding
       disconnected dropped sent seen set_call return_call set_chan set_holding set_queues set_flags
       cl_id cl_pack cl_phase app length].


(** ** Witnesses *)


(** Two overlapping requests answered in the opposite order. *)
Definition reply_frame (id : Z) (body : bytes) : bytes :=
  answer_frame sample_addr sample_addr CommandIDReadState id 0 body.
Definition overlap_run : list event :=
  [EvCall 0 sample_addr CommandIDReadState []; EvCall 1 sample_addr CommandIDReadState []; EvSend 1; EvSend 0;
   EvFrame FReply (reply_frame 2 [Byte.x02]); EvFrame FReply (reply_frame 1 [Byte.x01]);
   EvWork; EvWork; EvDeliver 1; EvReply 0].
Definition overlap_state : mux := default (new_mux sample_addr) (run overlap_run (new_mux sample_addr)).

Lemma overlap_reachable : reachable sample_addr overlap_state.
Proof.
  apply (mux_run_reachable _ overlap_run (new_mux sample_addr)); [constructor|]. by vm_compute.
Qed.


Lemma activeRequests_no_leak_witness : activeRequests overlap_state !! 2 = Some 1%nat /\
  exists c, calls overlap_state !! 1%nat = Some c /\ cl_id c = 2 /\ in_flight c = true.
Proof.
  assert (H : activeRequests overlap_state !! 2 = Some 1%nat) by (by vm_compute). split; [exact H|].
  exact (proj1 (activeRequests_no_leak sample_addr overlap_state overlap_reachable) 2 1%nat H).
Defined.

Lemma pending_requests_registered_witness :
  activeRequests overlap_state !! 2 = Some 1%nat.
Proof.
  refine (proj1 (pending_requests_registered sample_addr overlap_state 1%nat
    {| cl_id := 2; cl_pack := encodeTo sample_addr sample_addr CommandIDReadState [] 2;
       cl_phase := Waiting |} overlap_reachable _ _ _)).
  - by vm_compute.
  - by vm_compute.
  - done.
Defined.

Definition echo_device (pack : bytes) : bytes :=
  match read_header (drop 6 pack) with
  | Ok (h, body) => answer_frame (Source h) (Target h) (Command h) (InvokeID h) 0 body
  | _ => []
  end.

