(* ===== verification/Route.v ===== *)
(** route.go: the UDP route-registration service - host and port notation,
    request packet, ownership and verdict of a response, the retransmission loop
    of [addRemoteRouteFrom] - and the [routeManager] policy. *)
From S2P Require Import Prelude Wire Strconv Ams.
From Stdlib Require Import Ascii.

Definition routePort : Z := 48899.
Definition routeCookie : Z := 1903261187. (* 0x71146603 *)
Definition routeServiceAdd : Z := 6.
Definition tagPassword : Z := 2.
Definition tagComputerName : Z := 5.
Definition tagNetID : Z := 7.
Definition tagRouteName : Z := 12.
Definition tagUsername : Z := 13.
Definition tagResponseError : Z := 1.
Definition responseFlag : Z := 2147483648. (* 0x80000000 *)

(** ** host or host:port *)

(** [strings.LastIndexByte] / [IndexByte], on the characters of a string. *)
Fixpoint index_char (c : ascii) (s : list ascii) : option nat :=
  match s with
  | [] => None
  | x :: s => if Ascii.eqb x c then Some O else S <$> index_char c s
  end.
Fixpoint last_index_char (c : ascii) (s : list ascii) : option nat :=
  match s with
  | [] => None
  | x :: s => match last_index_char c s with
              | Some i => Some (S i)
              | None => if Ascii.eqb x c then Some O else None
              end
  end.

(** [net.SplitHostPort] of the Go standard library. *)
Definition SplitHostPort (hostport : list ascii) : res (list ascii * list ascii) :=
  match last_index_char ":" hostport with
  | None => Err (EMsg "missing port in address")
  | Some i =>
      '(host, j, k) ←
        match hostport with
        | c :: _ =>
            if Ascii.eqb c "[" then
              match index_char "]" hostport with
              | None => Err (EMsg "missing ']' in address")
              | Some e =>
                  if decide (S e = length hostport) then Err (EMsg "missing port in address")
                  else if decide (S e = i) then Ok (take (e - 1) (drop 1 hostport), 1%nat, S e)
                  else match hostport !! S e with
                       | Some c => if Ascii.eqb c ":" then Err (EMsg "too many colons in address")
                                   else Err (EMsg "missing port in address")
                       | None => Panic
                       end
              end
            else
              let host := take i hostport in
              match index_char ":" host with
              | Some _ => Err (EMsg "too many colons in address")
              | None => Ok (host, 0%nat, 0%nat)
              end
        | [] => Panic
        end;
      if index_char "[" (drop j hostport) then Err (EMsg "unexpected '[' in address")
      else if index_char "]" (drop k hostport) then Err (EMsg "unexpected ']' in address")
      else Ok (host, drop (S i) hostport)
  end.

Definition splitHostRouterPort (host : string) : res (string * Z) :=
  match SplitHostPort (list_ascii_of_string host) with
  | Panic => Panic
  | Err _ => Ok (host, routePort)
  | Ok (h, portStr) =>
      match parse_int 64 (string_of_list_ascii portStr) with
      | Panic => Panic
      | Err _ => Err (EMsg "router port is not a number")
      | Ok port =>
          if (port <=? 0) || (65535 <? port) then Err (EMsg "router port is out of range")
          else Ok (string_of_list_ascii h, port)
      end
  end.

(** ** The request packet *)

Definition buildTag (tagID : Z) (data : bytes) : bytes :=
  put_u16 tagID ++ put_u16 (u16 (len data)) ++ data.
Definition appendNull (data : bytes) : bytes := data ++ [Byte.x00].

Definition route_tags (localNetID : bytes) (routeName computerName username password : bytes)
  : list (Z * bytes) :=
  [(tagNetID, localNetID); (tagPassword, appendNull password); (tagComputerName, appendNull computerName);
   (tagRouteName, appendNull routeName); (tagUsername, appendNull username)].

Definition buildRoutePacket (localNetID : bytes) (routeName computerName username password : bytes)
    (invokeID : Z) : bytes :=
  let tags := route_tags localNetID routeName computerName username password in
  put_u32 routeCookie ++ put_u32 invokeID ++ put_u32 routeServiceAdd ++
  localNetID ++ put_u16 0 ++ put_u32 (len tags) ++
  concat (map (fun t => buildTag t.1 t.2) tags).

(** ** Responses *)

Definition routeResponseIsOurs (data : bytes) (invokeID : Z) : res bool :=
  if len data <? 12 then Ok false
  else
    cookie ← u32_at data 0;
    if negb (cookie =? routeCookie) then Ok false
    else
      id ← u32_at data 4;
      if negb (id =? invokeID) then Ok false
      else service ← u32_at data 8; Ok (service =? Z.lor responseFlag routeServiceAdd).

(** The walk over the tags; each takes at least 4 bytes, so the length of the
    response is fuel enough. *)
Fixpoint route_tag_loop (fuel : nat) (i tagCount offset : Z) (data : bytes) : res () :=
  if tagCount <=? i then Err (EMsg "route registration response had no error tag")
  else
    match fuel with
    | O => Panic
    | S fuel =>
        if len data <? offset + 4 then Err (EMsg "route response truncated: incomplete tag header")
        else
          tid ← u16_at data offset;
          tlen ← u16_at data (offset + 2);
          let offset := offset + 4 in
          if len data <? offset + tlen then Err (EMsg "route response truncated: tag data exceeds response")
          else if (tid =? tagResponseError) && (4 <=? tlen) then
            errCode ← u32_at data offset;
            if negb (errCode =? 0) then Err (EMsg "route registration failed with error code") else Ok ()
          else route_tag_loop fuel (i + 1) tagCount (offset + tlen) data
    end.

Definition parseRouteResponse (data : bytes) (expectedInvokeID : Z) : res () :=
  if len data <? 24 then Err (EMsg "route response too short")
  else
    cookie ← u32_at data 0;
    if negb (cookie =? routeCookie) then Err (EMsg "unexpected route response cookie")
    else
      gotInvokeID ← u32_at data 4;
      if negb (gotInvokeID =? expectedInvokeID) then Err (EMsg "route response invokeID mismatch")
      else
        serviceId ← u32_at data 8;
        if negb (serviceId =? Z.lor responseFlag routeServiceAdd)
        then Err (EMsg "unexpected route response serviceId")
        else
          tagCount ← u32_at data 20;
          route_tag_loop (length data) 0 tagCount 24 data.

(** ** addRemoteRouteFrom: the retransmission loop

    What happens on the socket after the first packet was written: a datagram is
    read; the read fails; or the window expires, with the budget then left and,
    when there is some, the outcome of writing the packet again. *)
Inductive read_event : Type :=
| Datagram (d : bytes)
| ReadError (e : goerr)
| WindowExpired (remaining : Z) (write : option goerr).

Definition routeRegisterAttempts : Z := 3.
Definition routeReadBuf : Z := 2048.

(** The number of packets sent, and the outcome. *)
Fixpoint register_loop (invokeID attempt : Z) (script : list read_event) : Z * res () :=
  match script with
  | [] => (attempt, Err (EMsg "no usable answer"))
  | Datagram d :: script =>
      if len d =? routeReadBuf then (attempt, Err (EMsg "route response filled the read buffer"))
      else
        match routeResponseIsOurs d invokeID with
        | Ok true => (attempt, parseRouteResponse d invokeID)
        | Ok false => register_loop invokeID attempt script
        | Err e => (attempt, Err e)
        | Panic => (attempt, Panic)
        end
  | ReadError e :: _ => (attempt, Err (EWrap "route registration" e))
  | WindowExpired remaining write :: script =>
      if routeRegisterAttempts <=? attempt then (attempt, Err (EMsg "no usable answer"))
      else if remaining <=? 0 then (attempt, Err (EMsg "no usable answer"))
      else match write with
           | Some e => (attempt, Err (EWrap "failed to send route request" e))
           | None => register_loop invokeID (attempt + 1) script
           end
  end.

(** ** routeManager *)

Record routeManager : Type := {
  rm_name : string; rm_username : string; rm_password : string;
  forceRouteRegistration : bool; activationTimeout : Z; skipRegistration : bool;
  routeProbeFailures : Z; registered : bool }.

Definition set_registered (b : bool) (r : routeManager) : routeManager :=
  {| rm_name := rm_name r; rm_username := rm_username r; rm_password := rm_password r;
     forceRouteRegistration := forceRouteRegistration r; activationTimeout := activationTimeout r;
     skipRegistration := skipRegistration r; routeProbeFailures := routeProbeFailures r;
     registered := b |}.

Definition mayRegister (r : routeManager) : bool := negb (registered r).
Definition markRegistered (r : routeManager) : routeManager := set_registered true r.
Definition allowHealingRegistration (r : routeManager) : routeManager := set_registered false r.
Definition shouldSkip (r : routeManager) : bool :=
  skipRegistration r || String.eqb (rm_name r) "".
