(* ===== verification/RouteFacts.v ===== *)
(** Properties of the route-registration service (Route.v). *)
From S2P Require Import Prelude Wire Strconv Ams Route.
From Stdlib Require Import Ascii.

(** ** host:port *)

Lemma index_char_None c s : index_char c s = None <-> c ∉ s.
Proof.
  induction s as [|x s IH]; cbn; [split; [by intros _ ?%elem_of_nil|done]|].
  destruct (Ascii.eqb_spec x c) as [->|Hn].
  - split; [done|]. intros H. exfalso. apply H. constructor.
  - destruct (index_char c s); cbn; rewrite elem_of_cons.
    + split; [done|]. intros H. exfalso. apply H. right. destruct (decide (c ∈ s)) as [|n']; [done|].
      by apply IH in n'.
    + split; [|done]. intros _ [->|Hin]; [done|]. by apply IH in Hin.
Qed.

Lemma last_index_char_app c a b : c ∉ b -> last_index_char c (a ++ c :: b) = Some (length a).
Proof.
  intros Hb. induction a as [|x a IH]; cbn; [|by rewrite IH].
  assert (E : last_index_char c b = None).
  { clear -Hb. induction b as [|y b IH]; [done|]. cbn. rewrite elem_of_cons in Hb.
    rewrite IH by tauto. destruct (Ascii.eqb_spec y c) as [->|]; [tauto|done]. }
  rewrite E. by rewrite Ascii.eqb_refl.
Qed.

Lemma last_index_char_none c s : c ∉ s -> last_index_char c s = None.
Proof.
  induction s as [|y s IH]; [done|]. cbn. rewrite elem_of_cons. intros H.
  rewrite IH by tauto. destruct (Ascii.eqb_spec y c) as [->|]; [tauto|done].
Qed.

Lemma format_uint_chars z c : 0 <= z -> char_digit c = None ->
  c ∉ list_ascii_of_string (format_uint z).
Proof. intros. by apply format_uint_no_sep. Qed.

Definition plain_host (h : string) : Prop :=
  (":"%char ∉ list_ascii_of_string h) /\ ("["%char ∉ list_ascii_of_string h) /\
  ("]"%char ∉ list_ascii_of_string h).

Lemma SplitHostPort_plain h p : plain_host h -> 0 <= p ->
  SplitHostPort (list_ascii_of_string (h ++ ":" ++ format_uint p)%string)
  = Ok (list_ascii_of_string h, list_ascii_of_string (format_uint p)).
Proof.
  intros (H1 & H2 & H3) Hp. rewrite !list_ascii_app. change (list_ascii_of_string ":") with [":"%char]. cbn [app].
  set (a := list_ascii_of_string h) in *. set (b := list_ascii_of_string (format_uint p)).
  assert (Hb : forall c, char_digit c = None -> c ∉ b) by (intros; by apply format_uint_chars).
  unfold SplitHostPort. rewrite last_index_char_app by (by apply Hb).
  assert (Hin : forall c, c ∉ a -> c <> ":"%char -> char_digit c = None -> c ∉ a ++ ":"%char :: b).
  { intros c ? ? ?. rewrite elem_of_app, elem_of_cons. specialize (Hb c ltac:(done)). tauto. }
  assert (E : forall X : Type, forall x : X, forall f : ascii -> X,
     match a ++ ":"%char :: b with [] => x | c :: _ => f c end
     = f (match a with [] => ":"%char | c :: _ => c end)) by (by destruct a).
  rewrite E. replace (Ascii.eqb _ "[") with false.
  2:{ symmetry. apply Ascii.eqb_neq. destruct a; [done|]. intros ->. apply H2. constructor. }
  rewrite take_app_len by done. rewrite (proj2 (index_char_None ":" a)) by done.
  cbn [mbind res_bind]. rewrite drop_0.
  rewrite (proj2 (index_char_None "[" _)) by (apply Hin; done).
  rewrite (proj2 (index_char_None "]" _)) by (apply Hin; done).
  replace (S (length a)) with (length (a ++ [":"%char])) by (rewrite length_app; cbn; lia).
  change (a ++ ":"%char :: b) with (a ++ ([":"%char] ++ b)).
  rewrite (app_assoc a [":"%char] b). by rewrite drop_app_len.
Qed.

(** Accepted hosts: a bare host gets the protocol's port; [host:port] with a port
    in range is split; a port that is a number out of range is refused, never
    folded back into the host or defaulted. *)
Theorem splitHostRouterPort_spec h p :
  plain_host h -> 0 <= p < 2 ^ 63 ->
  splitHostRouterPort h = Ok (h, routePort) /\
  splitHostRouterPort (h ++ ":" ++ format_uint p)
  = if (1 <=? p) && (p <=? 65535) then Ok (h, p) else Err (EMsg "router port is out of range").
Proof.
  intros Hh Hp. split.
  - unfold splitHostRouterPort, SplitHostPort. destruct Hh as (H1 & _).
    by rewrite last_index_char_none.
  - unfold splitHostRouterPort. rewrite SplitHostPort_plain by (done || lia).
    rewrite !string_of_list_ascii_of_string.
    assert (Hf : parse_int 64 (format_uint p) = Ok p).
    { replace (format_uint p) with (format_int p) by (unfold format_int; by rewrite (proj2 (Z.ltb_ge _ _)) by lia).
      apply parse_int_format. unfold in_s. change (64 - 1) with 63. lia. }
    rewrite Hf. destruct (Z.leb_spec p 0), (Z.ltb_spec 65535 p), (Z.leb_spec 1 p), (Z.leb_spec p 65535);
      cbn; done || lia.
Qed.

Lemma splitHostRouterPort_spec_witness :
  splitHostRouterPort "10.0.0.5" = Ok ("10.0.0.5"%string, 48899) /\
  splitHostRouterPort "10.0.0.5:6499" = Ok ("10.0.0.5"%string, 6499).
Proof.
  apply (splitHostRouterPort_spec "10.0.0.5" 6499); [|lia].
  unfold plain_host. cbn. split_and!; rewrite !elem_of_cons, elem_of_nil; intuition discriminate.
Defined.

(** Whatever string is given, a port that is returned is a usable UDP port. *)
Lemma splitHostRouterPort_range s h p : splitHostRouterPort s = Ok (h, p) -> 1 <= p <= 65535.
Proof.
  unfold splitHostRouterPort, routePort. destruct (SplitHostPort _) as [[a b]| |]; [|intros [= <- <-]; lia|done].
  destruct (parse_int _ _) as [v| |]; [|done..].
  destruct (Z.leb_spec v 0), (Z.ltb_spec 65535 v); cbn; try done. intros [= <- <-]. lia.
Qed.

(** ** Tags *)

Definition wf_tag (t : Z * bytes) : Prop := in_u 16 t.1 /\ len t.2 < 2 ^ 16.
Definition encode_tags (tags : list (Z * bytes)) : bytes := concat (map (fun t => buildTag t.1 t.2) tags).

Lemma len_buildTag t : len (buildTag t.1 t.2) = 4 + len t.2.
Proof. unfold buildTag. rewrite !len_app, !len_le_put. lia. Qed.

Lemma u16_len (d : bytes) : len d < 2 ^ 16 -> u16 (len d) = len d.
Proof. intros. unfold u16. apply wrap_u_small. split; [apply len_nonneg|done]. Qed.

(** The header of a tag within a packet. *)
Lemma tag_at pre t post : wf_tag t ->
  u16_at (pre ++ buildTag t.1 t.2 ++ post) (len pre) = Ok t.1 /\
  u16_at (pre ++ buildTag t.1 t.2 ++ post) (len pre + 2) = Ok (len t.2) /\
  pre ++ buildTag t.1 t.2 ++ post = (pre ++ put_u16 t.1 ++ put_u16 (len t.2)) ++ t.2 ++ post /\
  len (pre ++ put_u16 t.1 ++ put_u16 (len t.2)) = len pre + 4.
Proof.
  intros [Hi Hl]. unfold buildTag. rewrite u16_len by done. rewrite <- !app_assoc. split_and!.
  - rewrite (uint_at_app 2) by done. by rewrite Z.mod_small.
  - rewrite (app_assoc pre), (uint_at_app 2) by (by rewrite len_app, len_le_put).
    rewrite Z.mod_small; [done|]. split; [apply len_nonneg|done].
  - done.
  - rewrite !len_app, !len_le_put. lia.
Qed.

(** ** The verdict of a response *)

(** What the first error tag of at least four bytes says. *)
Fixpoint route_verdict (tags : list (Z * bytes)) : res () :=
  match tags with
  | [] => Err (EMsg "route registration response had no error tag")
  | (tid, d) :: tags =>
      if (tid =? tagResponseError) && (4 <=? len d) then
        if le_get (take 4 d) =? 0 then Ok () else Err (EMsg "route registration failed with error code")
      else route_verdict tags
  end.

Definition encode_route_response (invokeID : Z) (addr : bytes) (tags : list (Z * bytes)) : bytes :=
  put_u32 routeCookie ++ put_u32 invokeID ++ put_u32 (responseFlag + routeServiceAdd) ++ addr ++
  put_u32 (len tags) ++ encode_tags tags.

Lemma route_tag_loop_app tags : forall fuel i n pre,
  Forall wf_tag tags -> (length tags <= fuel)%nat -> n = i + len tags ->
  route_tag_loop fuel i n (len pre) (pre ++ encode_tags tags) = route_verdict tags.
Proof.
  induction tags as [|[tid d] tags IH]; intros fuel i n pre Hf Hfuel ->.
  { cbn [route_verdict]. rewrite len_nil, Z.add_0_r. by destruct fuel; cbn; rewrite Z.leb_refl. }
  apply Forall_cons in Hf as [Ht Hf]. destruct fuel as [|fuel]; [cbn in Hfuel; lia|].
  pose proof (len_nonneg tags). pose proof (len_nonneg d). pose proof (len_nonneg (encode_tags tags)).
  cbn [route_tag_loop route_verdict]. rewrite len_cons.
  rewrite (proj2 (Z.leb_gt _ _)) by lia. unfold encode_tags. cbn [map concat].
  fold (encode_tags tags). cbn [fst snd].
  destruct (tag_at pre (tid, d) (encode_tags tags) Ht) as (E1 & E2 & E3 & E4). cbn [fst snd] in *.
  assert (Hlen : len (pre ++ buildTag tid d ++ encode_tags tags) = len pre + (4 + len d + len (encode_tags tags))).
  { rewrite !len_app. pose proof (len_buildTag (tid, d)) as Hb. cbn [fst snd] in Hb. lia. }
  rewrite (proj2 (Z.ltb_ge _ _)) by lia. rewrite E1. cbn [mbind res_bind]. rewrite E2. cbn [mbind res_bind].
  rewrite (proj2 (Z.ltb_ge _ _)) by lia.
  set (P := pre ++ put_u16 tid ++ put_u16 (len d)) in *. rewrite E3.
  assert (Hskip : route_tag_loop fuel (i + 1) (i + (1 + len tags)) (len pre + 4 + len d)
                    (P ++ d ++ encode_tags tags) = route_verdict tags).
  { replace (len pre + 4 + len d) with (len (P ++ d)) by (rewrite len_app; lia).
    rewrite (app_assoc P d). apply IH; [done|cbn in Hfuel; lia|lia]. }
  destruct (tid =? tagResponseError) eqn:Etid; cbn [andb]; [|exact Hskip].
  destruct (Z.leb_spec 4 (len d)); [|exact Hskip].
  rewrite <- E4. rewrite uint_at_Ok by (rewrite ?(len_app P), ?(len_app d); pose proof (len_nonneg P); lia).
  unfold len at 1. rewrite Nat2Z.id, drop_app_len by done. cbn [mbind res_bind].
  rewrite take_app_le by (unfold len in *; lia). by destruct (_ =? 0).
Qed.

Lemma len_encode_tags tags : 4 * len tags <= len (encode_tags tags).
Proof.
  unfold encode_tags. induction tags as [|t tags IH]; [done|]. cbn [map concat].
  rewrite len_app, len_cons, len_buildTag. pose proof (len_nonneg t.2). lia.
Qed.

Lemma response_header invokeID addr n post : in_u 32 invokeID -> length addr = 8%nat -> in_u 32 n ->
  let data := put_u32 routeCookie ++ put_u32 invokeID ++ put_u32 (responseFlag + routeServiceAdd) ++ addr ++
              put_u32 n ++ post in
  u32_at data 0 = Ok routeCookie /\ u32_at data 4 = Ok invokeID /\
  u32_at data 8 = Ok (Z.lor responseFlag routeServiceAdd) /\ u32_at data 20 = Ok n /\
  len data = 24 + len post.
Proof.
  intros Hi Ha Hn data. assert (Hal : len addr = 8) by (unfold len; lia).
  assert (Hat : forall pre z rest off, in_u 32 z -> data = pre ++ put_u32 z ++ rest -> len pre = off ->
    u32_at data off = Ok z).
  { intros pre z rest off Hz -> Hp. rewrite (uint_at_app 4) by done. by rewrite Z.mod_small. }
  subst data. split_and!.
  - by eapply (Hat []).
  - by eapply (Hat (put_u32 routeCookie)).
  - eapply (Hat (put_u32 routeCookie ++ put_u32 invokeID) (responseFlag + routeServiceAdd));
      [by vm_compute|by rewrite <- !app_assoc|by rewrite len_app, !len_le_put].
  - eapply (Hat (put_u32 routeCookie ++ put_u32 invokeID ++ put_u32 (responseFlag + routeServiceAdd) ++ addr));
      [done|by rewrite <- !app_assoc|by rewrite !len_app, !len_le_put, Hal].
  - rewrite !len_app, !len_le_put, Hal. lia.
Qed.

(** A response to this request is judged by its first error tag: success only if
    it carries code zero; a missing tag is a failure. *)
Theorem parseRouteResponse_verdict invokeID addr tags :
  in_u 32 invokeID -> length addr = 8%nat -> Forall wf_tag tags -> len tags < 2 ^ 32 ->
  parseRouteResponse (encode_route_response invokeID addr tags) invokeID = route_verdict tags.
Proof.
  intros Hi Ha Hf Hn. pose proof (len_nonneg tags). pose proof (len_encode_tags tags).
  destruct (response_header invokeID addr (len tags) (encode_tags tags)) as (E1 & E2 & E3 & E4 & E5);
    [done|done|unfold in_u; lia|].
  unfold parseRouteResponse, encode_route_response.
  rewrite (proj2 (Z.ltb_ge _ _)) by (pose proof (len_nonneg (encode_tags tags)); lia).
  rewrite E1. cbn [mbind res_bind]. rewrite Z.eqb_refl. cbn [negb]. rewrite E2. cbn [mbind res_bind].
  rewrite Z.eqb_refl. cbn [negb]. rewrite E3. cbn [mbind res_bind]. rewrite Z.eqb_refl. cbn [negb].
  rewrite E4. cbn [mbind res_bind].
  rewrite !app_assoc. rewrite !app_assoc in E5.
  match goal with |- context [route_tag_loop _ _ _ 24 (?p ++ _)] =>
    assert (Hp : len p = 24) by (rewrite len_app in E5; lia) end.
  rewrite <- Hp at 1. rewrite <- Hp in *.
  apply route_tag_loop_app; [done| |lia].
  rewrite length_app. unfold len in *. lia.
Qed.

Lemma parseRouteResponse_verdict_witness :
  parseRouteResponse (encode_route_response 77 (replicate 8 Byte.x00) [(5, [Byte.x41]); (1, put_u32 0)]) 77 = Ok () /\
  parseRouteResponse (encode_route_response 77 (replicate 8 Byte.x00) [(1, put_u32 1796)]) 77
  = Err (EMsg "route registration failed with error code").
Proof.
  split.
  - apply (parseRouteResponse_verdict 77 (replicate 8 Byte.x00) [(5, [Byte.x41]); (1, put_u32 0)]);
      [by vm_compute|done|repeat constructor; by vm_compute|by vm_compute].
  - apply (parseRouteResponse_verdict 77 (replicate 8 Byte.x00) [(1, put_u32 1796)]);
      [by vm_compute|done|repeat constructor; by vm_compute|by vm_compute].
Defined.

(** ** Robustness against arbitrary datagrams *)

Lemma le_get_nonneg b : 0 <= le_get b.
Proof. apply le_get_bound. Qed.

Lemma route_tag_loop_total data : forall fuel i n offset,
  0 <= offset <= len data -> len data - offset < Z.of_nat fuel \/ n <= i ->
  no_panic (route_tag_loop fuel i n offset data).
Proof.
  induction fuel as [|fuel IH]; intros i n offset Ho Hf; cbn [route_tag_loop];
    destruct (Z.leb_spec n i); try done; [lia|].
  destruct (Z.ltb_spec (len data) (offset + 4)); [done|].
  rewrite (uint_at_Ok 2 data offset) by lia. cbn [mbind res_bind].
  rewrite (uint_at_Ok 2 data (offset + 2)) by lia. cbn [mbind res_bind].
  set (tlen := le_get (take 2 (drop (Z.to_nat (offset + 2)) data))). assert (0 <= tlen) by apply le_get_nonneg.
  destruct (Z.ltb_spec (len data) (offset + 4 + tlen)); [done|].
  destruct (_ =? tagResponseError); cbn [andb]; [|apply IH; lia].
  destruct (Z.leb_spec 4 tlen); [|apply IH; lia].
  rewrite (uint_at_Ok 4) by lia. cbn [mbind res_bind]. by case_if.
Qed.

Lemma parseRouteResponse_total d id : no_panic (parseRouteResponse d id).
Proof.
  unfold parseRouteResponse. destruct (Z.ltb_spec (len d) 24); [done|].
  rewrite (uint_at_Ok 4 d 0) by lia. cbn [mbind res_bind]. case_if; [done|].
  rewrite (uint_at_Ok 4 d 4) by lia. cbn [mbind res_bind]. case_if; [done|].
  rewrite (uint_at_Ok 4 d 8) by lia. cbn [mbind res_bind]. case_if; [done|].
  rewrite (uint_at_Ok 4 d 20) by lia. cbn [mbind res_bind]. apply route_tag_loop_total; [lia|].
  unfold len. lia.
Qed.

Lemma routeResponseIsOurs_total d id : exists b, routeResponseIsOurs d id = Ok b.
Proof.
  unfold routeResponseIsOurs. destruct (Z.ltb_spec (len d) 12); [eauto|].
  rewrite (uint_at_Ok 4 d 0) by lia. cbn [mbind res_bind]. case_if; [eauto|].
  rewrite (uint_at_Ok 4 d 4) by lia. cbn [mbind res_bind]. case_if; [eauto|].
  rewrite (uint_at_Ok 4 d 8) by lia. cbn [mbind res_bind]. eauto.
Qed.

(** A datagram that is somebody else's. *)
Definition stranger (id : Z) (e : read_event) : bool :=
  match e with
  | Datagram d => negb (len d =? routeReadBuf) &&
                  match routeResponseIsOurs d id with Ok b => negb b | _ => false end
  | _ => false
  end.

Lemma register_loop_skip id attempt e script : stranger id e = true ->
  register_loop id attempt (e :: script) = register_loop id attempt script.
Proof.
  destruct e as [d| |]; try done. cbn [stranger register_loop]. intros H.
  apply andb_prop in H as [H1 H2]. apply negb_true_iff in H1. rewrite H1.
  destruct (routeResponseIsOurs d id) as [[]| |]; done.
Qed.

Lemma register_loop_bounds id script : forall attempt, 1 <= attempt <= 3 ->
  attempt <= (register_loop id attempt script).1 <= 3 /\ no_panic (register_loop id attempt script).2 /\
  ((register_loop id attempt script).2 = Ok () ->
     exists d, Datagram d ∈ script /\ routeResponseIsOurs d id = Ok true /\ parseRouteResponse d id = Ok ()).
Proof.
  induction script as [|[d|e|left w] script IH]; intros attempt Ha; cbn [register_loop].
  - split_and!; cbn; (lia || done).
  - destruct (len d =? routeReadBuf); [split_and!; cbn; (lia || done)|].
    destruct (routeResponseIsOurs_total d id) as [b E]. rewrite E. destruct b.
    + split_and!; cbn; try lia; [apply parseRouteResponse_total|].
      intros Hok. exists d. split_and!; [constructor|done|done].
    + destruct (IH attempt Ha) as (? & ? & Hok). split_and!; [lia|lia|done|].
      intros (d' & ? & ?)%Hok. exists d'. split; [by constructor|done].
  - split_and!; cbn; (lia || done).
  - unfold routeRegisterAttempts. destruct (Z.leb_spec 3 attempt); [split_and!; cbn; (lia || done)|].
    destruct (left <=? 0); [split_and!; cbn; (lia || done)|].
    destruct w as [e|]; [split_and!; cbn; (lia || done)|].
    destruct (IH (attempt + 1)) as (? & ? & Hok); [lia|]. split_and!; [lia|lia|done|].
    intros (d' & ? & ?)%Hok. exists d'. split; [by constructor|done].
Qed.

(** Registration over UDP: at most three transmissions whatever arrives, no
    panic, datagrams that are not the answer to this request (another service,
    another requester's invokeID, spoofed guesses) never change the outcome, and
    success is reported only for a datagram carrying this request's random
    invokeID and an error code of zero. *)
Theorem register_loop_contract id script :
  1 <= (register_loop id 1 script).1 <= 3 /\
  no_panic (register_loop id 1 script).2 /\
  register_loop id 1 script = register_loop id 1 (filter (fun e => stranger id e = false) script) /\
  ((register_loop id 1 script).2 = Ok () ->
     exists d, Datagram d ∈ script /\ routeResponseIsOurs d id = Ok true /\ parseRouteResponse d id = Ok ()).
Proof.
  destruct (register_loop_bounds id script 1) as (? & ? & ?); [lia|]. split_and!; try (done || lia).
  clear. generalize 1. induction script as [|e script IH]; intros attempt; [done|].
  rewrite filter_cons. destruct (stranger id e) eqn:E.
  - rewrite decide_False by done. by rewrite register_loop_skip.
  - rewrite decide_True by done. destruct e as [d|e|left [e|]]; cbn [register_loop]; try done.
    + destruct (len d =? routeReadBuf); [done|]. destruct (routeResponseIsOurs d id) as [[]| |]; done.
    + repeat case_if; done.
Qed.

(** An answer that says no is final: it is not sent for again. *)
Theorem refusal_is_final id pre d post :
  forallb (stranger id) pre = true -> len d <> routeReadBuf -> routeResponseIsOurs d id = Ok true ->
  register_loop id 1 (pre ++ Datagram d :: post) = (1, parseRouteResponse d id).
Proof.
  intros Hp Hn Ho. induction pre as [|e pre IH]; cbn [app forallb] in *.
  - cbn [register_loop]. rewrite (proj2 (Z.eqb_neq _ _)) by done. by rewrite Ho.
  - apply andb_prop in Hp as [He Hp]. rewrite register_loop_skip by done. by apply IH.
Qed.

Lemma refusal_is_final_witness :
  let refusal := encode_route_response 77 (replicate 8 Byte.x00) [(1, put_u32 1796)] in
  register_loop 77 1 [Datagram []; Datagram (encode_route_response 78 (replicate 8 Byte.x00) [(1, put_u32 0)]);
                      Datagram refusal; WindowExpired 5 None; WindowExpired 5 None]
  = (1, Err (EMsg "route registration failed with error code")).
Proof.
  intros refusal.
  apply (refusal_is_final 77
    [Datagram []; Datagram (encode_route_response 78 (replicate 8 Byte.x00) [(1, put_u32 0)])] refusal
    [WindowExpired 5 None; WindowExpired 5 None]); by vm_compute.
Defined.

(** ** The request *)

(** A reader of [n] tags. *)
Fixpoint read_tags (n : nat) (b : bytes) : res (list (Z * bytes) * bytes) :=
  match n with
  | O => Ok ([], b)
  | S n =>
      '(tid, b) ← read_u16 b; '(ln, b) ← read_u16 b; '(d, b) ← read_full ln b;
      '(ts, b) ← read_tags n b; Ok ((tid, d) :: ts, b)
  end.

Lemma read_tags_encode tags rest : Forall wf_tag tags ->
  read_tags (length tags) (encode_tags tags ++ rest) = Ok (tags, rest).
Proof.
  intros Hf. induction Hf as [|[tid d] tags [Ht Hd] Hf IH]; [done|].
  unfold encode_tags in *. cbn [length read_tags map concat fst snd] in *. unfold buildTag at 1.
  rewrite u16_len by done. rewrite <- !app_assoc.
  rewrite read_uint_app. cbn [mbind res_bind]. rewrite read_uint_app. cbn [mbind res_bind].
  rewrite (Z.mod_small (len d)) by (split; [apply len_nonneg|done]).
  rewrite read_full_app by done. cbn [mbind res_bind]. rewrite IH. cbn [mbind res_bind].
  by rewrite Z.mod_small.
Qed.

(** The registration request reads back as what was to be said: 24 header bytes
    with this call's invokeID and our NetID, then the five tags in order, for
    fields that fit a tag. *)
Theorem buildRoutePacket_reads netID rn cn un pw invokeID :
  length netID = 6%nat -> in_u 32 invokeID ->
  len rn < 65535 -> len cn < 65535 -> len un < 65535 -> len pw < 65535 ->
  let p := buildRoutePacket netID rn cn un pw invokeID in
  u32_at p 0 = Ok routeCookie /\ u32_at p 4 = Ok invokeID /\ u32_at p 8 = Ok routeServiceAdd /\
  slice p 12 18 = Ok netID /\ u32_at p 20 = Ok 5 /\
  read_tags 5 (drop 24 p) = Ok (route_tags netID rn cn un pw, []).
Proof.
  intros Hl Hi Hr Hc Hu Hp p. assert (Hnl : len netID = 6) by (unfold len; lia).
  set (tags := route_tags netID rn cn un pw).
  assert (Hw : Forall wf_tag tags).
  { assert (Ha : forall d, len d < 65535 -> len (appendNull d) < 2 ^ 16)
      by (intros d Hd; unfold appendNull; rewrite len_app, len_cons, len_nil; lia).
    repeat (apply Forall_cons; split); [..|apply Forall_nil; done]; (split; [by vm_compute|]); cbn [snd];
      first [by apply Ha|by rewrite Hnl]. }
  assert (Hat : forall pre z rest off, in_u 32 z -> p = pre ++ put_u32 z ++ rest -> len pre = off ->
    u32_at p off = Ok z).
  { intros pre z rest off Hz -> Hpre. rewrite (uint_at_app 4) by done. by rewrite Z.mod_small. }
  split_and!.
  - by eapply (Hat []).
  - by eapply (Hat (put_u32 routeCookie)).
  - by eapply (Hat (put_u32 routeCookie ++ put_u32 invokeID) routeServiceAdd);
      [|unfold p, buildRoutePacket; by rewrite <- !app_assoc|].
  - unfold p, buildRoutePacket. rewrite (app_assoc (put_u32 routeCookie)), (app_assoc (put_u32 routeCookie ++ _)).
    apply slice_mid; [by rewrite !len_app, !len_le_put|lia].
  - eapply (Hat (put_u32 routeCookie ++ put_u32 invokeID ++ put_u32 routeServiceAdd ++ netID ++ put_u16 0));
      [by vm_compute|unfold p, buildRoutePacket; by rewrite <- !app_assoc|].
    by rewrite !len_app, !len_le_put, Hnl.
  - unfold p, buildRoutePacket. cbv zeta. fold tags. rewrite !app_assoc.
    rewrite drop_app_len by (rewrite !length_app, !length_le_put; lia).
    change (concat _) with (encode_tags tags). rewrite <- (app_nil_r (encode_tags tags)).
    by apply (read_tags_encode tags []).
Qed.

Lemma buildRoutePacket_reads_witness :
  let p := buildRoutePacket (map byte_of_Z [10; 0; 0; 1; 1; 1]) (bytes_of_string "go") (bytes_of_string "10.0.0.1")
             (bytes_of_string "Administrator") (bytes_of_string "1") 77 in
  u32_at p 4 = Ok 77.
Proof.
  refine (proj1 (proj2 (buildRoutePacket_reads (map byte_of_Z [10; 0; 0; 1; 1; 1]) (bytes_of_string "go")
    (bytes_of_string "10.0.0.1") (bytes_of_string "Administrator") (bytes_of_string "1") 77 _ _ _ _ _ _)));
    by vm_compute.
Defined.
