(* ===== verification/Identify.v ===== *)
(** identify.go: target discovery over the router's UDP service - the request,
    the ownership test and decoding of a response, the retransmission loop of
    [identifyRemoteFrom] - and its properties. *)
From S2P Require Import Prelude Wire Strconv Ams Route RouteFacts.
From Stdlib Require Import Ascii.

Definition routeServiceIdentify : Z := 1.
Definition tagSystemVersion : Z := 3.
Definition identifyAttempts : Z := 3.
Definition identifyReadBuf : Z := 64 * 1024.
Definition PortR0PlcRts1 : Z := 801.
Definition PortR0PlcTc3 : Z := 851.

Record RemoteIdentity : Type := {
  AMS : AMSAddress; HostName : bytes; Major : Z; Minor : Z; Build : Z; Tags : gmap Z bytes }.

(** ["%d.%d.%d"] *)
Definition Version (id : RemoteIdentity) : string :=
  (format_uint (Major id) ++ "." ++ format_uint (Minor id) ++ "." ++ format_uint (Build id))%string.

Definition RuntimePort (id : RemoteIdentity) : Z :=
  if Major id =? 2 then PortR0PlcRts1 else PortR0PlcTc3.

Definition identifyResponseIsOurs (data : bytes) (invokeID : Z) : res bool :=
  if len data <? 24 then Ok false
  else
    cookie ← u32_at data 0;
    if negb (cookie =? routeCookie) then Ok false
    else
      id ← u32_at data 4;
      if negb (id =? invokeID) then Ok false
      else svc ← u32_at data 8; Ok (svc =? Z.lor responseFlag routeServiceIdentify).

Definition buildIdentifyPacket (invokeID : Z) : bytes :=
  put_u32 routeCookie ++ put_u32 invokeID ++ put_u32 routeServiceIdentify ++ replicate 12 Byte.x00.

Definition trimCString (b : bytes) : bytes := until_nul b.

(** What one tag sets. *)
Definition identify_tag (tid : Z) (value : bytes) (id : RemoteIdentity) : res RemoteIdentity :=
  let tags := <[tid := value]> (Tags id) in
  if tid =? tagComputerName then
    Ok {| AMS := AMS id; HostName := trimCString value; Major := Major id; Minor := Minor id;
          Build := Build id; Tags := tags |}
  else if (tid =? tagSystemVersion) && (4 <=? len value) then
    ma ← index value 0; mi ← index value 1; b ← u16_at value 2;
    Ok {| AMS := AMS id; HostName := HostName id; Major := Z_of_byte ma; Minor := Z_of_byte mi;
          Build := b; Tags := tags |}
  else Ok {| AMS := AMS id; HostName := HostName id; Major := Major id; Minor := Minor id;
             Build := Build id; Tags := tags |}.

Fixpoint identify_tag_loop (fuel : nat) (i tagCount offset : Z) (data : bytes) (id : RemoteIdentity)
  : res RemoteIdentity :=
  if tagCount <=? i then Ok id
  else
    match fuel with
    | O => Panic
    | S fuel =>
        if len data <? offset + 4 then Err (EMsg "identify response truncated: incomplete tag header")
        else
          tid ← u16_at data offset;
          tlen ← u16_at data (offset + 2);
          let offset := offset + 4 in
          if len data <? offset + tlen then Err (EMsg "identify response truncated: tag data exceeds response")
          else
            value ← slice data offset (offset + tlen);
            id ← identify_tag tid value id;
            identify_tag_loop fuel (i + 1) tagCount (offset + tlen) data id
    end.

Definition parseIdentifyResponse (data : bytes) (expectedInvokeID : Z) : res RemoteIdentity :=
  if len data <? 24 then Err (EMsg "identify response too short")
  else
    cookie ← u32_at data 0;
    if negb (cookie =? routeCookie) then Err (EMsg "unexpected identify response cookie")
    else
      got ← u32_at data 4;
      if negb (got =? expectedInvokeID) then Err (EMsg "identify response invokeID mismatch")
      else
        svc ← u32_at data 8;
        if negb (svc =? Z.lor responseFlag routeServiceIdentify)
        then Err (EMsg "unexpected identify response serviceId")
        else
          netID ← slice data 12 18;
          port ← u16_at data 18;
          if bool_decide (netID = replicate 6 Byte.x00)
          then Err (EMsg "identify response reported a zero NetID")
          else
            tagCount ← u32_at data 20;
            identify_tag_loop (length data) 0 tagCount 24 data
              {| AMS := {| NetID := netID; Port := port |}; HostName := []; Major := 0; Minor := 0;
                 Build := 0; Tags := ∅ |}.

(** identifyRemoteFrom: the retransmission loop.  What happens on the socket after
    the first packet was written: a datagram is read, or the read fails (the
    window expired, usually) and the next attempt finds its context done or not,
    some of the budget left, and a write that succeeds or not. *)
Inductive identify_event : Type :=
| IDatagram (d : bytes)
| IReadFailed (ctx : option goerr) (remaining : Z) (write : option goerr).

Fixpoint identify_loop (invokeID attempt : Z) (script : list identify_event) : Z * res RemoteIdentity :=
  match script with
  | [] => (attempt, Err (EMsg "no answer"))
  | IDatagram d :: script =>
      if len d =? identifyReadBuf then (attempt, Err (EMsg "response filled the read buffer"))
      else
        match identifyResponseIsOurs d invokeID with
        | Ok true => (attempt, wrap_err "identify" (parseIdentifyResponse d invokeID))
        | Ok false => identify_loop invokeID attempt script
        | Err e => (attempt, Err e)
        | Panic => (attempt, Panic)
        end
  | IReadFailed ctx remaining write :: script =>
      if identifyAttempts <=? attempt then (attempt, Err (EMsg "no answer"))
      else
        match ctx with
        | Some e => (attempt, Err (EWrap "identify" e))
        | None =>
            if remaining <=? 0 then (attempt, Err (EMsg "no answer"))
            else match write with
                 | Some e => (attempt, Err (EWrap "send" e))
                 | None => identify_loop invokeID (attempt + 1) script
                 end
        end
  end.

(** ** What a response means *)

(** The identity a device reports with an address and tags: every tag is kept,
    the last computer name and the last version tag are interpreted. *)
Definition identity_of_tag (id : RemoteIdentity) (t : Z * bytes) : RemoteIdentity :=
  let '(tid, v) := t in
  {| AMS := AMS id;
     HostName := if tid =? tagComputerName then until_nul v else HostName id;
     Major := if (tid =? tagSystemVersion) && (4 <=? len v) then le_get (take 1 v) else Major id;
     Minor := if (tid =? tagSystemVersion) && (4 <=? len v) then le_get (take 1 (drop 1 v)) else Minor id;
     Build := if (tid =? tagSystemVersion) && (4 <=? len v) then le_get (take 2 (drop 2 v)) else Build id;
     Tags := <[tid := v]> (Tags id) |}.

Definition identity_of (a : AMSAddress) (tags : list (Z * bytes)) : RemoteIdentity :=
  fold_left identity_of_tag tags
    {| AMS := a; HostName := []; Major := 0; Minor := 0; Build := 0; Tags := ∅ |}.

Definition encode_identify_response (invokeID : Z) (a : AMSAddress) (tags : list (Z * bytes)) : bytes :=
  put_u32 routeCookie ++ put_u32 invokeID ++ put_u32 (responseFlag + routeServiceIdentify) ++
  encode_addr a ++ put_u32 (len tags) ++ encode_tags tags.

(** ** Proofs *)

Lemma identify_tag_spec tid v id : identify_tag tid v id = Ok (identity_of_tag id (tid, v)).
Proof.
  unfold identify_tag, identity_of_tag. destruct (Z.eqb_spec tid tagComputerName) as [->|Hn].
  - change (tagComputerName =? tagSystemVersion) with false. done.
  - destruct ((tid =? tagSystemVersion) && (4 <=? len v)) eqn:E; [|done].
    apply andb_prop in E as [_ E]. zbool. destruct v as [|a [|b v]]; try (unfold len in E; cbn in E; lia).
    unfold index. cbn [Z.ltb Z.compare lookup list_lookup mbind res_bind].
    rewrite uint_at_Ok by (unfold len in *; cbn in *; lia). cbn. by rewrite !Z.add_0_r.
Qed.

Lemma identify_tag_loop_app tags : forall fuel i n pre id,
  Forall wf_tag tags -> (length tags <= fuel)%nat -> n = i + len tags ->
  identify_tag_loop fuel i n (len pre) (pre ++ encode_tags tags) id = Ok (fold_left identity_of_tag tags id).
Proof.
  induction tags as [|[tid d] tags IH]; intros fuel i n pre id Hf Hfuel ->.
  { rewrite len_nil, Z.add_0_r. by destruct fuel; cbn; rewrite Z.leb_refl. }
  apply Forall_cons in Hf as [Ht Hf]. destruct fuel as [|fuel]; [cbn in Hfuel; lia|].
  pose proof (len_nonneg tags). pose proof (len_nonneg d). pose proof (len_nonneg (encode_tags tags)).
  cbn [identify_tag_loop fold_left]. rewrite len_cons.
  rewrite (proj2 (Z.leb_gt _ _)) by lia. unfold encode_tags. cbn [map concat].
  fold (encode_tags tags). cbn [fst snd].
  destruct (tag_at pre (tid, d) (encode_tags tags) Ht) as (E1 & E2 & E3 & E4). cbn [fst snd] in *.
  assert (Hlen : len (pre ++ buildTag tid d ++ encode_tags tags) = len pre + (4 + len d + len (encode_tags tags))).
  { rewrite !len_app. pose proof (len_buildTag (tid, d)) as Hb. cbn [fst snd] in Hb. lia. }
  rewrite (proj2 (Z.ltb_ge _ _)) by lia. rewrite E1. cbn [mbind res_bind]. rewrite E2. cbn [mbind res_bind].
  rewrite (proj2 (Z.ltb_ge _ _)) by lia.
  set (P := pre ++ put_u16 tid ++ put_u16 (len d)) in *. rewrite E3, <- E4.
  rewrite slice_mid by done. cbn [mbind res_bind]. rewrite identify_tag_spec. cbn [mbind res_bind].
  rewrite <- len_app, (app_assoc P d). apply IH; [done|cbn in Hfuel; lia|lia].
Qed.

(** Identification decodes what the device said: its own address, its name up to
    the first NUL, the TwinCAT version, and every tag byte for byte. *)
Theorem parseIdentifyResponse_roundtrip invokeID a tags :
  in_u 32 invokeID -> wf_addr a -> NetID a <> replicate 6 Byte.x00 ->
  Forall wf_tag tags -> len tags < 2 ^ 32 ->
  let data := encode_identify_response invokeID a tags in
  identifyResponseIsOurs data invokeID = Ok true /\
  parseIdentifyResponse data invokeID = Ok (identity_of a tags).
Proof.
  intros Hi [Hal Hp] Hz Hf Hn data. pose proof (len_nonneg tags). pose proof (len_encode_tags tags).
  pose proof (len_nonneg (encode_tags tags)).
  assert (Hnl : len (NetID a) = 6) by (unfold len; lia).
  assert (Hat : forall pre z rest off, in_u 32 z -> data = pre ++ put_u32 z ++ rest -> len pre = off ->
    u32_at data off = Ok z).
  { intros pre z rest off Hz' -> Hpre. rewrite (uint_at_app 4) by done. by rewrite Z.mod_small. }
  set (h12 := put_u32 routeCookie ++ put_u32 invokeID ++ put_u32 (responseFlag + routeServiceIdentify)).
  assert (H12 : len h12 = 12) by done.
  assert (E1 : u32_at data 0 = Ok routeCookie) by (by eapply (Hat [])).
  assert (E2 : u32_at data 4 = Ok invokeID) by (by eapply (Hat (put_u32 routeCookie))).
  assert (E3 : u32_at data 8 = Ok (Z.lor responseFlag routeServiceIdentify)).
  { eapply (Hat (put_u32 routeCookie ++ put_u32 invokeID) (responseFlag + routeServiceIdentify));
      [by vm_compute|unfold data, encode_identify_response; by rewrite <- !app_assoc|done]. }
  assert (Ed : data = h12 ++ NetID a ++ put_u16 (Port a) ++ put_u32 (len tags) ++ encode_tags tags).
  { unfold data, encode_identify_response, h12, encode_addr. by rewrite <- !app_assoc. }
  assert (E4 : slice data 12 18 = Ok (NetID a)) by (rewrite Ed; apply slice_mid; lia).
  assert (E5 : u16_at data 18 = Ok (Port a)).
  { rewrite Ed, app_assoc, (uint_at_app 2) by (rewrite len_app; lia). by rewrite Z.mod_small. }
  assert (E6 : u32_at data 20 = Ok (len tags)).
  { eapply (Hat (h12 ++ NetID a ++ put_u16 (Port a)));
      [unfold in_u; lia|rewrite Ed; by rewrite <- !app_assoc|by rewrite !len_app, len_le_put, H12, Hnl]. }
  assert (Hlen : len data = 24 + len (encode_tags tags))
    by (rewrite Ed, !len_app, !len_le_put, H12, Hnl; lia).
  unfold identifyResponseIsOurs, parseIdentifyResponse. rewrite (proj2 (Z.ltb_ge _ _)) by lia.
  rewrite E1. cbn [mbind res_bind]. rewrite Z.eqb_refl. cbn [negb]. rewrite E2. cbn [mbind res_bind].
  rewrite Z.eqb_refl. cbn [negb]. rewrite E3. cbn [mbind res_bind]. rewrite Z.eqb_refl. cbn [negb].
  split; [done|]. rewrite E4. cbn [mbind res_bind]. rewrite E5. cbn [mbind res_bind].
  rewrite bool_decide_eq_false_2 by done. rewrite E6. cbn [mbind res_bind].
  assert (Ef : (length tags <= length data)%nat) by (unfold len in *; lia).
  revert Ef. generalize (length data). intros fuel Ef.
  rewrite Ed, !app_assoc.
  match goal with |- context [identify_tag_loop _ _ _ 24 (?p ++ _)] =>
    assert (Hp24 : len p = 24) by (rewrite !len_app, !len_le_put, H12, Hnl; done) end.
  rewrite <- Hp24 at 1. destruct a. apply identify_tag_loop_app; [done|done|lia].
Qed.

Definition sample_tags : list (Z * bytes) :=
  [(5, bytes_of_string "CX-4285CB" ++ [Byte.x00; Byte.x00]); (3, map byte_of_Z [3; 1; 184; 15]); (4, [])].

Lemma parseIdentifyResponse_roundtrip_witness :
  parseIdentifyResponse (encode_identify_response 9 sample_addr sample_tags) 9
  = Ok {| AMS := sample_addr; HostName := bytes_of_string "CX-4285CB"; Major := 3; Minor := 1; Build := 4024;
          Tags := list_to_map (rev sample_tags) |}.
Proof.
  refine (proj2 (parseIdentifyResponse_roundtrip 9 sample_addr sample_tags _ _ _ _ _)).
  - by vm_compute.
  - apply wf_sample_addr.
  - by vm_compute.
  - repeat constructor; by vm_compute.
  - by vm_compute.
Defined.

(** ** Robustness *)

Lemma identify_tag_loop_total data : forall fuel i n offset id,
  0 <= offset <= len data -> len data - offset < Z.of_nat fuel \/ n <= i ->
  no_panic (identify_tag_loop fuel i n offset data id).
Proof.
  induction fuel as [|fuel IH]; intros i n offset id Ho Hf; cbn [identify_tag_loop];
    destruct (Z.leb_spec n i); try done; [lia|].
  destruct (Z.ltb_spec (len data) (offset + 4)); [done|].
  rewrite (uint_at_Ok 2 data offset) by lia. cbn [mbind res_bind].
  rewrite (uint_at_Ok 2 data (offset + 2)) by lia. cbn [mbind res_bind].
  set (tlen := le_get (take 2 (drop (Z.to_nat (offset + 2)) data))).
  assert (0 <= tlen) by apply le_get_nonneg.
  destruct (Z.ltb_spec (len data) (offset + 4 + tlen)); [done|].
  rewrite slice_Ok by lia. cbn [mbind res_bind]. rewrite identify_tag_spec. cbn [mbind res_bind].
  apply IH; lia.
Qed.

Lemma parseIdentifyResponse_total d id : no_panic (parseIdentifyResponse d id).
Proof.
  unfold parseIdentifyResponse. destruct (Z.ltb_spec (len d) 24); [done|].
  rewrite (uint_at_Ok 4 d 0) by lia. cbn [mbind res_bind]. case_if; [done|].
  rewrite (uint_at_Ok 4 d 4) by lia. cbn [mbind res_bind]. case_if; [done|].
  rewrite (uint_at_Ok 4 d 8) by lia. cbn [mbind res_bind]. case_if; [done|].
  rewrite slice_Ok by lia. cbn [mbind res_bind]. rewrite (uint_at_Ok 2 d 18) by lia. cbn [mbind res_bind].
  case_if; [done|]. rewrite (uint_at_Ok 4 d 20) by lia. cbn [mbind res_bind].
  apply identify_tag_loop_total; [lia|]. unfold len. lia.
Qed.

Lemma identifyResponseIsOurs_total d id : exists b, identifyResponseIsOurs d id = Ok b.
Proof.
  unfold identifyResponseIsOurs. destruct (Z.ltb_spec (len d) 24); [eauto|].
  rewrite (uint_at_Ok 4 d 0) by lia. cbn [mbind res_bind]. case_if; [eauto|].
  rewrite (uint_at_Ok 4 d 4) by lia. cbn [mbind res_bind]. case_if; [eauto|].
  rewrite (uint_at_Ok 4 d 8) by lia. cbn [mbind res_bind]. eauto.
Qed.

(** Discovery sends at most three packets whatever arrives, never panics on a
    datagram, and reports an identity only from a datagram that carries this
    request's invokeID. *)
Theorem identify_loop_contract id script : forall attempt, 1 <= attempt <= 3 ->
  attempt <= (identify_loop id attempt script).1 <= 3 /\ no_panic (identify_loop id attempt script).2 /\
  (forall x, (identify_loop id attempt script).2 = Ok x ->
     exists d, IDatagram d ∈ script /\ identifyResponseIsOurs d id = Ok true /\ parseIdentifyResponse d id = Ok x).
Proof.
  induction script as [|[d|ctx left w] script IH]; intros attempt Ha; cbn [identify_loop].
  - split_and!; cbn; (lia || done).
  - destruct (len d =? identifyReadBuf); [split_and!; cbn; (lia || done)|].
    destruct (identifyResponseIsOurs_total d id) as [b E]. rewrite E. destruct b.
    + split_and!; cbn; try lia; [apply no_panic_wrap, parseIdentifyResponse_total|].
      intros x Hok. exists d. destruct (parseIdentifyResponse d id); try done.
      split_and!; [constructor|done|done].
    + destruct (IH attempt Ha) as (? & ? & Hok). split_and!; [lia|lia|done|].
      intros x (d' & ? & ?)%Hok. exists d'. split; [by constructor|done].
  - unfold identifyAttempts. destruct (Z.leb_spec 3 attempt); [split_and!; cbn; (lia || done)|].
    destruct ctx; [split_and!; cbn; (lia || done)|].
    destruct (left <=? 0); [split_and!; cbn; (lia || done)|].
    destruct w as [e|]; [split_and!; cbn; (lia || done)|].
    destruct (IH (attempt + 1)) as (? & ? & Hok); [lia|]. split_and!; [lia|lia|done|].
    intros x (d' & ? & ?)%Hok. exists d'. split; [by constructor|done].
Qed.

Lemma identify_loop_contract_witness :
  1 <= (identify_loop 9 1 [IDatagram []; IReadFailed None 1 None; IReadFailed None 1 None; IReadFailed None 1 None]).1 <= 3.
Proof.
  refine (proj1 (identify_loop_contract 9
    [IDatagram []; IReadFailed None 1 None; IReadFailed None 1 None; IReadFailed None 1 None] 1 _)). lia.
Defined.
