(* ===== verification/NetIP.v ===== *)
(** [net.ParseIP] and [IP.To4] of the Go standard library, as the session uses them on
    the addresses its options carry: dotted IPv4 without leading zeros, and IPv6 with
    one [::] and an IPv4 tail, into 16 bytes. *)
From S2P Require Import Prelude Wire Strconv.
From Stdlib Require Import Ascii.

(** ** IPv4 *)

(** The scan of [parseIPv4Fields]: the octets so far, the current one and its digits. *)
Fixpoint parseIPv4Fields (s : list ascii) (fields : list Z) (val digLen : Z) : option (list Z) :=
  match s with
  | [] => if decide (length fields = 3%nat) then Some (fields ++ [val]) else None
  | c :: s =>
      match char_digit c with
      | Some d =>
          if (digLen =? 1) && (val =? 0) then None
          else if 255 <? val * 10 + d then None
          else parseIPv4Fields s fields (val * 10 + d) (digLen + 1)
      | None =>
          if Ascii.eqb c "." then
            if (digLen =? 0) || bool_decide (s = []) then None
            else if decide (length fields = 3%nat) then None
            else parseIPv4Fields s (fields ++ [val]) 0 0
          else None
      end
  end.

(** The 16-byte form of an IPv4 address. *)
Definition v4InV6Prefix : bytes := replicate 10 Byte.x00 ++ replicate 2 Byte.xff.
Definition parseIPv4 (s : list ascii) : option bytes :=
  (fun fields => v4InV6Prefix ++ map byte_of_Z fields) <$> parseIPv4Fields s [] 0 0.

(** ** IPv6 *)

Definition hex_value (c : ascii) : option Z :=
  let n := char_Z c in
  if (48 <=? n) && (n <=? 57) then Some (n - 48)
  else if (97 <=? n) && (n <=? 102) then Some (n - 87)
  else if (65 <=? n) && (n <=? 70) then Some (n - 55)
  else None.

(** One group: its value, its length and what follows; more than four digits fail. *)
Fixpoint hex_group (s : list ascii) (acc off : Z) : option (Z * Z * list ascii) :=
  match s with
  | [] => Some (acc, off, [])
  | c :: s' =>
      match hex_value c with
      | Some d => if 3 <? off then None else hex_group s' (acc * 16 + d) (off + 1)
      | None => Some (acc, off, s)
      end
  end.

(** The groups, two bytes each, with the place of the ellipsis and what is left of the
    string; a run takes at most 8 groups. *)
Fixpoint parseIPv6_loop (fuel : nat) (s : list ascii) (ip : list Z) (ellipsis : option nat)
  : option (list Z * option nat * list ascii) :=
  match fuel with
  | O => Some (ip, ellipsis, s)
  | S fuel =>
      '(acc, off, rest) ← hex_group s 0 0;
      if off =? 0 then None
      else
        match rest with
        | c :: _ =>
            if Ascii.eqb c "." then
              if negb (is_Some_b ellipsis) && negb (bool_decide (length ip = 12%nat)) then None
              else if decide (16 < length ip + 4)%nat then None
              else
                fields ← parseIPv4Fields s [] 0 0;
                Some (ip ++ fields, ellipsis, [])
            else if negb (Ascii.eqb c ":") then None
            else
              let ip := ip ++ [acc / 256; acc mod 256] in
              match rest with
              | _ :: c2 :: rest =>
                  if Ascii.eqb c2 ":" then
                    if is_Some_b ellipsis then None
                    else if decide (rest = []) then Some (ip, Some (length ip), [])
                    else parseIPv6_loop fuel rest ip (Some (length ip))
                  else parseIPv6_loop fuel (c2 :: rest) ip ellipsis
              | _ => None
              end
        | [] => Some (ip ++ [acc / 256; acc mod 256], ellipsis, [])
        end
  end.

Definition expand_ellipsis (ip : list Z) (ellipsis : option nat) : option (list Z) :=
  match ellipsis with
  | None => if decide (length ip < 16)%nat then None else Some ip
  | Some e => if decide (length ip < 16)%nat
              then Some (take e ip ++ replicate (16 - length ip) 0 ++ drop e ip) else None
  end.

Definition parseIPv6 (s : list ascii) : option bytes :=
  match s with
  | [":"%char; ":"%char] => Some (replicate 16 Byte.x00)
  | _ =>
      let '(s, ellipsis) :=
        match s with
        | c1 :: c2 :: s' => if Ascii.eqb c1 ":" && Ascii.eqb c2 ":" then (s', Some O) else (s, None)
        | _ => (s, None)
        end in
      '(ip, ellipsis, rest) ← parseIPv6_loop 8 s [] ellipsis;
      if decide (rest = []) then map byte_of_Z <$> expand_ellipsis ip ellipsis else None
  end.

(** ** ParseIP *)

(** The first of '.', ':' and '%' decides; an address with a zone is refused, so a '%'
    anywhere is. *)
Fixpoint ParseAddr_scan (s all : list ascii) : option bytes :=
  match s with
  | [] => None
  | c :: s =>
      if Ascii.eqb c "." then parseIPv4 all
      else if Ascii.eqb c ":" then parseIPv6 all
      else if Ascii.eqb c "%" then None
      else ParseAddr_scan s all
  end.

Definition ParseIP (s : string) : option bytes :=
  ParseAddr_scan (list_ascii_of_string s) (list_ascii_of_string s).

(** [IP.To4]; a nil address has none. *)
Definition To4 (ip : option bytes) : option bytes :=
  b ← ip;
  if decide (length b = 4%nat) then Some b
  else if decide (take 12 b = v4InV6Prefix /\ length b = 16%nat) then Some (drop 12 b) else None.

(** ["%d.%d.%d.%d"] on the first four bytes of a NetID. *)
Definition dotted (ip : bytes) : string := join "." (map (fun b => format_uint (Z_of_byte b)) ip).

Example parse_v4 : To4 (ParseIP "10.0.0.255") = Some (map byte_of_Z [10; 0; 0; 255]).
Proof. vm_compute. reflexivity. Qed.
Example parse_v4_bad : (ParseIP "10.0.0.256", ParseIP "10.0.0", ParseIP "10.0.00.1", ParseIP "1.2.3.4.5", ParseIP "1..2.3", ParseIP "fe80::1%eth0") = (None, None, None, None, None, None).
Proof. vm_compute. reflexivity. Qed.
Example parse_v6 : ParseIP "::ffff:1.2.3.4" = ParseIP "1.2.3.4" /\ ParseIP "fe80::1" = Some (map byte_of_Z [254; 128; 0; 0; 0; 0; 0; 0; 0; 0; 0; 0; 0; 0; 0; 1])
  /\ ParseIP "1:2:3:4:5:6:7::" = Some (map byte_of_Z [0;1;0;2;0;3;0;4;0;5;0;6;0;7;0;0]) /\ ParseIP "1:2:3:4:5:6:7:8:9" = None
  /\ ParseIP "1:2:3:4:5:6:7:8::" = None /\ ParseIP "::" = Some (replicate 16 Byte.x00) /\ ParseIP "12345::" = None /\ ParseIP ":1" = None.
Proof. vm_compute. repeat split. Qed.

(** ** What is printed is parsed back *)

Lemma fields_octet b rest fields : exists n, 0 < n /\
  parseIPv4Fields (list_ascii_of_string (format_uint (Z_of_byte b)) ++ rest) fields 0 0 =
  parseIPv4Fields rest fields (Z_of_byte b) n.
Proof.
  exists (len (list_ascii_of_string (format_uint (Z_of_byte b)))).
  destruct b; (split; [by vm_compute|reflexivity]).
Qed.

Lemma fields_dot rest fields val n : 0 < n -> rest <> [] -> (length fields < 3)%nat ->
  parseIPv4Fields ("."%char :: rest) fields val n = parseIPv4Fields rest (fields ++ [val]) 0 0.
Proof.
  intros Hn Hr Hf. cbn. rewrite bool_decide_eq_false_2 by done. rewrite (proj2 (Z.eqb_neq n 0)) by lia.
  cbn. by rewrite decide_False by lia.
Qed.

Lemma octet_nonempty b : list_ascii_of_string (format_uint (Z_of_byte b)) <> [].
Proof. destruct b; (done || reflexivity). Qed.

(** Scanning a decimal octet finds no separator. *)
Lemma scan_octet b rest all :
  ParseAddr_scan (list_ascii_of_string (format_uint (Z_of_byte b)) ++ rest) all = ParseAddr_scan rest all.
Proof. destruct b; (done || reflexivity). Qed.

Theorem ParseIP_dotted ip : length ip = 4%nat -> To4 (ParseIP (dotted ip)) = Some ip.
Proof.
  destruct ip as [|a [|b [|c [|d [|]]]]]; try done. intros _.
  unfold dotted, ParseIP, join. cbn [map join_chars]. rewrite !list_ascii_of_string_of_list_ascii.
  rewrite scan_octet. cbn [ParseAddr_scan]. change (Ascii.eqb "." ".") with true. cbv iota. unfold parseIPv4.
  destruct (fields_octet a ("."%char :: list_ascii_of_string (format_uint (Z_of_byte b)) ++ "."%char :: list_ascii_of_string (format_uint (Z_of_byte c)) ++ "."%char :: list_ascii_of_string (format_uint (Z_of_byte d))) []) as (n1 & H1 & E1).
  assert (Hne : forall x r, list_ascii_of_string (format_uint (Z_of_byte x)) ++ r <> []).
  { intros x r H. apply app_eq_nil in H as [H _]. by apply (octet_nonempty x). }
  rewrite E1, fields_dot by (auto; cbn; lia).
  destruct (fields_octet b ("."%char :: list_ascii_of_string (format_uint (Z_of_byte c)) ++ "."%char :: list_ascii_of_string (format_uint (Z_of_byte d))) [Z_of_byte a]) as (n2 & H2 & E2).
  cbn [app]. rewrite E2, fields_dot by (auto; cbn; lia).
  destruct (fields_octet c ("."%char :: list_ascii_of_string (format_uint (Z_of_byte d))) [Z_of_byte a; Z_of_byte b]) as (n3 & H3 & E3).
  cbn [app]. rewrite E3, fields_dot by (auto using octet_nonempty; cbn; lia). cbn [app].
  destruct (fields_octet d [] [Z_of_byte a; Z_of_byte b; Z_of_byte c]) as (n4 & H4 & E4).
  rewrite app_nil_r in E4. rewrite E4. cbn [parseIPv4Fields length app]. rewrite decide_True by done.
  cbn [fmap option_fmap option_map map]. rewrite !byte_of_Z_of_byte. reflexivity.
Qed.
