(* ===== verification/Udp.v ===== *)
(** identify.go, route.go and session.go: the calls that reach the router's UDP service
    from the outside in - host and port, name resolution, the socket, the random invoke
    ID, the retransmission loop - and [Session.AddRoute], which runs one beside its
    caller's context. *)
From S2P Require Import Prelude Wire Strconv Ams Route RouteFacts Identify NetIP.

(** ** What the network answers to one call

    The caller's context when the call starts; the addresses a name resolves to; whether
    a socket from the local address to the remote one could be opened; the random bytes;
    whether the deadline had passed before the first packet, and the outcome of writing
    it; what the socket showed after that. *)
Record udp_call (E : Type) : Type := {
  uc_ctx : option goerr; uc_lookup : string -> res (list bytes);
  uc_dial : option bytes -> bytes -> Z -> option goerr; uc_rand : res Z;
  uc_expired : bool; uc_write : option goerr; uc_script : list E }.
Arguments uc_ctx {E}. Arguments uc_lookup {E}. Arguments uc_dial {E}. Arguments uc_rand {E}.
Arguments uc_expired {E}. Arguments uc_write {E}. Arguments uc_script {E}.

(** The first of [ips] that is an IPv4 address. *)
Fixpoint first_v4 (ips : list bytes) : option bytes :=
  match ips with
  | [] => None
  | ip :: ips => match To4 (Some ip) with Some v4 => Some v4 | None => first_v4 ips end
  end.

Definition no_error (err : option goerr) (msg : string) : res () :=
  match err with Some e => Err (EWrap msg e) | None => Ok tt end.

(** ** identifyRemoteFrom *)

Definition identifyRemoteFrom (net : udp_call identify_event) (localIP : option bytes) (host : string) (port : Z)
  : res RemoteIdentity :=
  if String.eqb host "" then Err (EMsg "identify: host must be set")
  else
    _ ← no_error (uc_ctx net) "identify";
    ips ← wrap_err "identify: resolve" (uc_lookup net host);
    match first_v4 ips with
    | None => Err (EMsg "identify: no IPv4 address (the AMS router protocol is IPv4-only)")
    | Some addr =>
        _ ← no_error (uc_dial net localIP addr port) "identify: dial UDP";
        invokeID ← wrap_err "identify: generate invokeID" (uc_rand net);
        if uc_expired net then Err (EMsg "identify: no answer")
        else
          _ ← no_error (uc_write net) "identify: send";
          (identify_loop invokeID 1 (uc_script net)).2
    end.

Definition IdentifyRemoteWithLogger (net : udp_call identify_event) (host : string) : res RemoteIdentity :=
  '(h, port) ← wrap_err "identify" (splitHostRouterPort host);
  identifyRemoteFrom net None h port.

(** ** addRemoteRouteFrom *)

(** [net.ResolveUDPAddr("udp4", ...)] keeps an IPv4 address only.  The outcome comes with
    the packet put on the wire and how often. *)
Definition addRemoteRouteFrom (net : udp_call read_event) (localIP : option bytes) (remoteHost : string) (port : Z)
    (localNetID routeName computerName username password : bytes) : res (bytes * Z * res ()) :=
  let port := if port <=? 0 then routePort else port in
  ips ← wrap_err "failed to resolve remote host" (uc_lookup net remoteHost);
  match first_v4 ips with
  | None => Err (EMsg "failed to resolve remote host")
  | Some addr =>
      _ ← no_error (uc_dial net localIP addr port) "failed to dial UDP";
      invokeID ← wrap_err "generate invokeID" (uc_rand net);
      let packet := buildRoutePacket localNetID routeName computerName username password invokeID in
      if uc_expired net then Err (EMsg "route registration got no usable answer")
      else
        _ ← no_error (uc_write net) "failed to send route request";
        let '(n, r) := register_loop invokeID 1 (uc_script net) in
        Ok (packet, n, r)
  end.

Definition AddRemoteRouteWithLogger (net : udp_call read_event) (remoteHost : string)
    (localNetID routeName computerName username password : bytes) : res (bytes * Z * res ()) :=
  '(host, port) ← wrap_err "add route" (splitHostRouterPort remoteHost);
  addRemoteRouteFrom net None host port localNetID routeName computerName username password.

(** The error of a registration, its traffic forgotten. *)
Definition registration_error (r : res (bytes * Z * res ())) : res () := '(_, _, v) ← r; v.

(** ** An answer among strangers *)

(** Datagrams that are not the answer to [invokeID], all read. *)
Definition foreign (invokeID : Z) (e : identify_event) : bool :=
  match e with
  | IDatagram d => negb (len d =? identifyReadBuf) && match identifyResponseIsOurs d invokeID with Ok b => negb b | _ => false end
  | IReadFailed _ _ _ => false
  end.

Lemma identify_loop_foreign id attempt e script : foreign id e = true ->
  identify_loop id attempt (e :: script) = identify_loop id attempt script.
Proof.
  destruct e as [d|]; [|done]. cbn [foreign identify_loop]. intros [H1 H2]%andb_prop.
  destruct (len d =? identifyReadBuf); [done|]. by destruct (identifyResponseIsOurs d id) as [[]| |].
Qed.

Lemma identify_loop_answer id attempt pre d rest : Forall (fun e => foreign id e = true) pre ->
  len d <> identifyReadBuf -> identifyResponseIsOurs d id = Ok true ->
  identify_loop id attempt (pre ++ IDatagram d :: rest) = (attempt, wrap_err "identify" (parseIdentifyResponse d id)).
Proof.
  intros Hp Hl Ho. induction Hp as [|e pre He _ IH]; cbn [app].
  - cbn [identify_loop]. by rewrite (proj2 (Z.eqb_neq _ _)), Ho by done.
  - by rewrite identify_loop_foreign.
Qed.

(** An unresponsive or unreachable device is an error, an identity is the device's. *)
Lemma identifyRemoteFrom_ok net localIP host port x : identifyRemoteFrom net localIP host port = Ok x ->
  host <> ""%string /\ exists ips addr id, uc_lookup net host = Ok ips /\ first_v4 ips = Some addr
    /\ uc_dial net localIP addr port = None /\ uc_rand net = Ok id
    /\ (identify_loop id 1 (uc_script net)).2 = Ok x.
Proof.
  unfold identifyRemoteFrom. destruct (String.eqb_spec host "") as [|Hh]; [done|]. intros E. split; [done|]. revert E.
  unfold no_error, wrap_err. destruct (uc_ctx net); [done|]. cbn. destruct (uc_lookup net host) as [ips|e|]; try done.
  cbn. destruct (first_v4 ips) as [addr|] eqn:Ea; [|done]. destruct (uc_dial net localIP addr port) eqn:Ed; [done|].
  cbn. destruct (uc_rand net) as [id|e|]; try done. cbn. destruct (uc_expired net); [done|].
  destruct (uc_write net); [done|]. cbn. intros E. by exists ips, addr, id.
Qed.

(** A network without faults between us and the one address [h] stands for. *)
Record reachable {E} (net : udp_call E) (localIP : option bytes) (h : string) (port id : Z) : Prop := {
  rc_host : h <> ""%string; rc_ctx : uc_ctx net = None;
  rc_lookup : exists ips addr, uc_lookup net h = Ok ips /\ first_v4 ips = Some addr /\ uc_dial net localIP addr port = None;
  rc_rand : uc_rand net = Ok id; rc_time : uc_expired net = false; rc_write : uc_write net = None }.

Lemma identifyRemoteFrom_reachable net localIP h port id : reachable net localIP h port id ->
  identifyRemoteFrom net localIP h port = (identify_loop id 1 (uc_script net)).2.
Proof.
  intros [Hh Hc (ips & addr & Hl & Ha & Hd) Hr Ht Hw]. unfold identifyRemoteFrom.
  destruct (String.eqb_spec h ""); [done|]. by rewrite Hc, Hl; cbn; rewrite Ha, Hd; cbn; rewrite Hr; cbn; rewrite Ht, Hw.
Qed.

(** Identification from the outside: asked at "host" or "host:port", on a network without
    faults, a device is identified by its own answer, decoded, whatever other datagrams
    come in first and whatever follows. *)
Theorem IdentifyRemote_finds_the_device net h p id pre a tags rest :
  plain_host h -> 1 <= p <= 65535 -> in_u 32 id -> wf_addr a -> NetID a <> replicate 6 Byte.x00 ->
  Forall wf_tag tags -> len tags < 2 ^ 32 -> len (encode_identify_response id a tags) <> identifyReadBuf ->
  Forall (fun e => foreign id e = true) pre ->
  uc_script net = pre ++ IDatagram (encode_identify_response id a tags) :: rest ->
  (reachable net None h routePort id -> IdentifyRemoteWithLogger net h = Ok (identity_of a tags)) /\
  (reachable net None h p id -> IdentifyRemoteWithLogger net (h ++ ":" ++ format_uint p) = Ok (identity_of a tags)).
Proof.
  intros Hh Hp Hi Ha Hz Ht Hn Hl Hf Hs. destruct (splitHostRouterPort_spec h p Hh ltac:(lia)) as [E1 E2].
  destruct (parseIdentifyResponse_roundtrip id a tags Hi Ha Hz Ht Hn) as [Ho Hr].
  unfold IdentifyRemoteWithLogger. rewrite E1, E2, (proj2 (Z.leb_le 1 p)), (proj2 (Z.leb_le p 65535)) by lia.
  split; intros Hreach; cbn; rewrite (identifyRemoteFrom_reachable _ _ _ _ _ Hreach), Hs, identify_loop_answer by done; cbn [snd]; by rewrite Hr.
Qed.

Definition sample_net (script : list identify_event) : udp_call identify_event :=
  {| uc_ctx := None; uc_lookup := fun _ => Ok [replicate 16 Byte.x00; map byte_of_Z [10; 0; 0; 5]];
     uc_dial := fun _ _ _ => None; uc_rand := Ok 9; uc_expired := false; uc_write := None; uc_script := script |}.

Lemma sample_reachable script h p : h <> ""%string -> reachable (sample_net script) None h p 9.
Proof. intros Hh. split; try done. eexists _, (map byte_of_Z [10; 0; 0; 5]). by vm_compute. Qed.

Lemma IdentifyRemote_finds_the_device_witness :
  IdentifyRemoteWithLogger (sample_net [IDatagram []; IDatagram (encode_identify_response 9 sample_addr sample_tags)]) "10.0.0.5:6499"
  = Ok (identity_of sample_addr sample_tags).
Proof.
  refine (proj2 (IdentifyRemote_finds_the_device (sample_net [IDatagram []; IDatagram (encode_identify_response 9 sample_addr sample_tags)])
    "10.0.0.5" 6499 9 [IDatagram []] sample_addr sample_tags [] _ _ _ _ _ _ _ _ _ _) _).
  - unfold plain_host. cbn. split_and!; rewrite !elem_of_cons, elem_of_nil; intuition discriminate.
  - lia.
  - by vm_compute.
  - apply wf_sample_addr.
  - by vm_compute.
  - repeat constructor; by vm_compute.
  - by vm_compute.
  - by vm_compute.
  - repeat constructor; by vm_compute.
  - done.
  - by apply sample_reachable.
Defined.
