(* ===== verification/SymbolTable.v ===== *)
(** symbols.go: the symbol and datatype tables a PLC uploads - names, the two
    binary formats, array element generation, expansion of datatypes into symbol
    trees, and the JSON view of a symbol.

    A Go map from strings that is only looked up is a [gmap]; a map that is also
    iterated ([Children]) is an association list without duplicate keys, whose
    order stands for one iteration order: theorems hold for every order. *)
From S2P Require Import Prelude Wire Strconv Defs.
From Stdlib Require Import Ascii.

(** ** Association lists *)

Fixpoint amap_lookup {A} (k : string) (m : list (string * A)) : option A :=
  match m with
  | [] => None
  | (k', a) :: m => if String.eqb k' k then Some a else amap_lookup k m
  end.

(** [m[k] = a]. *)
Fixpoint amap_insert {A} (k : string) (a : A) (m : list (string * A)) : list (string * A) :=
  match m with
  | [] => [(k, a)]
  | (k', a') :: m => if String.eqb k' k then (k, a) :: m else (k', a') :: amap_insert k a m
  end.

(** ** Names *)

Definition symbolKey (name : string) : string := to_lower name.

Definition cString (b : bytes) : string := string_of_bytes (until_nul b).

Definition has_prefix (p s : string) : bool := String.prefix p s.

Definition normalizeStringDataType (dt : string) : string :=
  if has_prefix "WSTRING" dt then "WSTRING"
  else if has_prefix "STRING" dt then "STRING"
  else dt.

(** [symbol_codec.go]: the type names [parse] and [writeToNode] know. *)
Definition parseableTypes : list string :=
  ["BOOL"; "BYTE"; "USINT"; "UINT"; "UINT16"; "WORD"; "UDINT"; "DWORD"; "SINT"; "INT"; "INT16";
   "DINT"; "REAL"; "LREAL"; "STRING"; "WSTRING"; "TIME"; "TOD"; "TIME_OF_DAY"; "DATE"; "DT";
   "DATE_AND_TIME"; "LINT"; "ULINT"; "LWORD"]%string.

Definition str_in (s : string) (l : list string) : bool := existsb (String.eqb s) l.
Definition parseable (dt : string) : bool := str_in dt parseableTypes.

(** ** Data *)

Record datatypeEntry : Type := {
  de_EntryLength : Z; de_Version : Z; de_HashValue : Z; de_TypeHashValue : Z; de_Size : Z;
  de_Offs : Z; de_DataType : Z; de_Flags : Z; de_NameLength : Z; de_TypeLength : Z;
  de_CommentLength : Z; de_ArrayDim : Z; de_SubItems : Z }.

Definition zero_entry : datatypeEntry :=
  {| de_EntryLength := 0; de_Version := 0; de_HashValue := 0; de_TypeHashValue := 0; de_Size := 0;
     de_Offs := 0; de_DataType := 0; de_Flags := 0; de_NameLength := 0; de_TypeLength := 0;
     de_CommentLength := 0; de_ArrayDim := 0; de_SubItems := 0 |}.

Record datatypeArrayInfo : Type := { LBound : Z; Elements : Z }.

Inductive SymbolUploadDataType : Type :=
| MkDataType (DatatypeEntry : datatypeEntry) (Name DataType Comment : string)
             (Children : list (string * SymbolUploadDataType)).

Definition dt_entry (d : SymbolUploadDataType) : datatypeEntry := let '(MkDataType e _ _ _ _) := d in e.
Definition dt_name (d : SymbolUploadDataType) : string := let '(MkDataType _ n _ _ _) := d in n.
Definition dt_type (d : SymbolUploadDataType) : string := let '(MkDataType _ _ t _ _) := d in t.
Definition dt_comment (d : SymbolUploadDataType) : string := let '(MkDataType _ _ _ c _) := d in c.
Definition dt_children (d : SymbolUploadDataType) : list (string * SymbolUploadDataType) :=
  let '(MkDataType _ _ _ _ ch) := d in ch.

Record symbolEntry : Type := {
  se_EntryLength : Z; se_IGroup : Z; se_IOffs : Z; se_Size : Z; se_DataType : Z; se_Flags : Z;
  se_NameLength : Z; se_TypeLength : Z; se_CommentLength : Z }.

(** The metadata and cached value of a [symbol]; [Parent] is kept as the parent's
    full name. *)
Record symbolData : Type := {
  sy_Name : string; sy_FullName : string; sy_DataType : string; sy_Comment : string;
  sy_Handle : Z; sy_Group : Z; sy_Offset : Z; sy_Length : Z; sy_BaseType : Z; sy_Flags : Z;
  sy_ContextMask : Z; sy_Value : string; sy_Valid : bool; sy_ValueParsed : bool;
  sy_Parent : option string }.

Inductive symbol : Type := MkSymbol (d : symbolData) (Children : list (string * symbol)).

Definition sy_data (s : symbol) : symbolData := let '(MkSymbol d _) := s in d.
Definition sy_children (s : symbol) : list (string * symbol) := let '(MkSymbol _ c) := s in c.

Abbreviation datatypes := (gmap string SymbolUploadDataType).
Abbreviation symbols := (gmap string symbol).

(** ** The datatype table *)

Definition read_datatypeEntry (b : bytes) : res (datatypeEntry * bytes) :=
  '(el, b) ← read_u32 b; '(ve, b) ← read_u32 b; '(ha, b) ← read_u32 b; '(th, b) ← read_u32 b;
  '(sz, b) ← read_u32 b; '(off, b) ← read_u32 b; '(ty, b) ← read_u32 b; '(fl, b) ← read_u32 b;
  '(nl, b) ← read_u16 b; '(tl, b) ← read_u16 b; '(cl, b) ← read_u16 b; '(ad, b) ← read_u16 b;
  '(si, b) ← read_u16 b;
  Ok ({| de_EntryLength := el; de_Version := ve; de_HashValue := ha; de_TypeHashValue := th;
         de_Size := sz; de_Offs := off; de_DataType := ty; de_Flags := fl; de_NameLength := nl;
         de_TypeLength := tl; de_CommentLength := cl; de_ArrayDim := ad; de_SubItems := si |}, b).

Fixpoint read_array_infos (n : nat) (b : bytes) : res (list datatypeArrayInfo) :=
  match n with
  | O => Ok []
  | S n =>
      '(lb, b) ← read_u32 b; '(el, b) ← read_u32 b;
      infos ← read_array_infos n b;
      Ok ({| LBound := lb; Elements := el |} :: infos)
  end.

Definition maxArrayElements : Z := 1000000.

(** The bounds checks over the dimensions: the element count, or [None] when the
    array is refused. *)
Fixpoint check_levels (total : Z) (levels : list datatypeArrayInfo) : option Z :=
  match levels with
  | [] => Some total
  | level :: levels =>
      if Elements level =? 0 then None
      else if MaxInt32 <? i32 (LBound level) + Elements level - 1 then None
      else
        let total := u64 (total * Elements level) in
        if maxArrayElements <? total then None else check_levels total levels
  end.

(** The odometer step, on the dimensions last to first: bump the last index, and
    carry while one runs over. *)
Fixpoint bump (levels : list datatypeArrayInfo) (idx : list Z) : list Z :=
  match levels, idx with
  | level :: levels, i :: idx =>
      if i + 1 <? i32 (LBound level) + Elements level then (i + 1) :: idx
      else i32 (LBound level) :: bump levels idx
  | _, _ => idx
  end.

(** [[i,j]] *)
Definition index_name (idx : list Z) : string := ("[" ++ join "," (map format_int idx) ++ "]")%string.

Definition array_element (name dt : string) (elemSize n : Z) : SymbolUploadDataType :=
  MkDataType {| de_EntryLength := 0; de_Version := 0; de_HashValue := 0; de_TypeHashValue := 0;
                de_Size := elemSize; de_Offs := u32 (n * elemSize); de_DataType := 0; de_Flags := 0;
                de_NameLength := 0; de_TypeLength := 0; de_CommentLength := 0; de_ArrayDim := 0;
                de_SubItems := 0 |} name dt "" [].

(** The generation loop; [idx] is the index vector, last dimension first. *)
Fixpoint array_elements (fuel : nat) (levels : list datatypeArrayInfo) (dt : string) (elemSize n : Z)
    (idx : list Z) (children : list (string * SymbolUploadDataType)) : list (string * SymbolUploadDataType) :=
  match fuel with
  | O => children
  | S fuel =>
      let name := index_name (rev idx) in
      array_elements fuel levels dt elemSize (n + 1) (bump (rev levels) idx)
        (amap_insert name (array_element name dt elemSize n) children)
  end.

Definition makeArrayChildren (levels : list datatypeArrayInfo) (dt : string) (size : Z)
  : list (string * SymbolUploadDataType) :=
  match levels with
  | [] => []
  | _ =>
      match check_levels 1 levels with
      | None => []
      | Some total =>
          array_elements (Z.to_nat total) levels dt (size / u32 total) 0
            (rev (map (fun l => i32 (LBound l)) levels)) []
      end
  end.

(** [j < SubItems] sub items, each decoded by [dec], into the map of children. *)
Fixpoint decode_subitems (dec : bytes -> res (SymbolUploadDataType * bytes)) (n : nat) (b : bytes)
    (children : list (string * SymbolUploadDataType)) : res (list (string * SymbolUploadDataType)) :=
  match n with
  | O => Ok children
  | S n =>
      '(child, b) ← wrap_err "reading subitem" (dec b);
      decode_subitems dec n b (amap_insert (dt_name child) child children)
  end.

(** One entry.  A nested entry is decoded from the bytes left after at least 42
    of its parent's, so the length of the data is fuel enough. *)
Fixpoint decodeSymbolUploadDataType (fuel : nat) (data : bytes) : res (SymbolUploadDataType * bytes) :=
  match fuel with
  | O => Panic
  | S fuel =>
      let totalSize := len data in
      if totalSize <? 48 then Err (EMsg "wrong size < 48 bytes")
      else
        '(result, data) ← read_datatypeEntry data;
        '(name, data) ← read_full (de_NameLength result) data;
        let '(_, data) := buf_next 1 data in
        '(dt, data) ← read_full (de_TypeLength result) data;
        let '(_, data) := buf_next 1 data in
        '(comment, data) ← read_full (de_CommentLength result) data;
        let '(_, data) := buf_next 1 data in
        let nm := cString name in
        let ty := normalizeStringDataType (cString dt) in
        let childLen := de_EntryLength result - (totalSize - len data) in
        if childLen <=? 0 then Ok (MkDataType result nm ty (cString comment) [], data)
        else if len data <? childLen then Err (EMsg "childLen exceeds remaining data")
        else
          let '(childData, data) := buf_next childLen data in
          children ←
            (if 0 <? de_ArrayDim result then
               levels ← wrap_err "reading array info" (read_array_infos (Z.to_nat (de_ArrayDim result)) childData);
               Ok (makeArrayChildren levels ty (de_Size result))
             else
               decode_subitems (decodeSymbolUploadDataType fuel) (Z.to_nat (de_SubItems result)) childData []);
          Ok (MkDataType result nm ty (cString comment) children, data)
  end.

Fixpoint datatypes_loop (fuel : nat) (data : bytes) (dts : datatypes) : res datatypes :=
  match data with
  | [] => Ok dts
  | _ =>
      match fuel with
      | O => Panic
      | S fuel =>
          '(header, data) ← wrap_err "parsing datatype entry"
                               (decodeSymbolUploadDataType (S (length data)) data);
          datatypes_loop fuel data (<[dt_name header := header]> dts)
      end
  end.

Definition parseUploadSymbolInfoDataTypes (data : bytes) : res datatypes :=
  datatypes_loop (length data) data ∅.

(** ** Expansion of a datatype into a symbol tree *)

Definition isEnumDataType (dt : SymbolUploadDataType) : bool :=
  (0 <? len (dt_children dt)) && (de_ArrayDim (dt_entry dt) =? 0) && parseable (dt_type dt).

Definition member_path (parent name : string) : string :=
  if has_prefix "[" name then (parent ++ name)%string else (parent ++ "." ++ name)%string.

Definition addOffsetMaxDepth : nat := 256.

Definition member_data (parent : string) (group : Z) (segment : SymbolUploadDataType) : symbolData :=
  {| sy_Name := dt_name segment; sy_FullName := member_path parent (dt_name segment);
     sy_DataType := dt_type segment; sy_Comment := dt_comment segment; sy_Handle := 0;
     sy_Group := group; sy_Offset := de_Offs (dt_entry segment); sy_Length := de_Size (dt_entry segment);
     sy_BaseType := de_DataType (dt_entry segment); sy_Flags := 0; sy_ContextMask := 0;
     sy_Value := ""; sy_Valid := false; sy_ValueParsed := false; sy_Parent := Some parent |}.

(** [levels] is what is left of [addOffsetMaxDepth]. *)
Fixpoint addOffsetDepth (levels : nat) (dts : datatypes) (parent : string) (group : Z)
    (data : SymbolUploadDataType) : list (string * symbol) :=
  match levels with
  | O => []
  | S levels =>
      omap (fun '(key, segment) =>
        if String.eqb (dt_name segment) "" then None
        else
          let d := member_data parent group segment in
          Some (key, MkSymbol d
            match dts !! dt_type segment with
            | Some dt => if isEnumDataType dt then []
                         else addOffsetDepth levels dts (sy_FullName d) group dt
            | None => []
            end)) (dt_children data)
  end.

Definition addOffset (dts : datatypes) (parent : string) (group : Z) (data : SymbolUploadDataType)
  : list (string * symbol) := addOffsetDepth addOffsetMaxDepth dts parent group data.

(** ** The symbol table *)

Definition read_symbolEntry (b : bytes) : res (symbolEntry * bytes) :=
  '(el, b) ← read_u32 b; '(ig, b) ← read_u32 b; '(io, b) ← read_u32 b; '(sz, b) ← read_u32 b;
  '(ty, b) ← read_u32 b; '(fl, b) ← read_u32 b; '(nl, b) ← read_u16 b; '(tl, b) ← read_u16 b;
  '(cl, b) ← read_u16 b;
  Ok ({| se_EntryLength := el; se_IGroup := ig; se_IOffs := io; se_Size := sz; se_DataType := ty;
         se_Flags := fl; se_NameLength := nl; se_TypeLength := tl; se_CommentLength := cl |}, b).

Record symbolUploadSymbol : Type := {
  us_entry : symbolEntry; us_name : string; us_type : string; us_comment : string }.

Definition root_data (u : symbolUploadSymbol) : symbolData :=
  {| sy_Name := us_name u; sy_FullName := us_name u; sy_DataType := us_type u; sy_Comment := us_comment u;
     sy_Handle := 0; sy_Group := se_IGroup (us_entry u); sy_Offset := se_IOffs (us_entry u);
     sy_Length := se_Size (us_entry u); sy_BaseType := se_DataType (us_entry u);
     sy_Flags := se_Flags (us_entry u); sy_ContextMask := SymbolFlag_ContextMask (se_Flags (us_entry u));
     sy_Value := ""; sy_Valid := false; sy_ValueParsed := false; sy_Parent := None |}.

Definition addSymbol (dts : datatypes) (u : symbolUploadSymbol) : symbol :=
  MkSymbol (root_data u)
    match dts !! us_type u with
    | Some dt => addOffset dts (us_name u) (se_IGroup (us_entry u)) dt
    | None => []
    end.

(** The members of a symbol, and theirs, each under its own key unless the key is
    taken. *)
Fixpoint addChildren (s : symbol) (m : symbols) : symbols :=
  let '(MkSymbol _ children) := s in
  (fix go (cs : list (string * symbol)) (m : symbols) : symbols :=
     match cs with
     | [] => m
     | (_, child) :: cs =>
         go cs (let key := symbolKey (sy_FullName (sy_data child)) in
                match m !! key with
                | Some _ => m
                | None => addChildren child (<[key := child]> m)
                end)
     end) children m.

(** One entry of the table. *)
Definition decode_symbol (data : bytes) : res (symbolUploadSymbol * bytes) :=
  let begBuff := len data in
  '(result, data) ← wrap_err "reading symbol entry" (read_symbolEntry data);
  '(name, data) ← wrap_err "reading symbol name" (read_full (se_NameLength result) data);
  let '(_, data) := buf_next 1 data in
  '(dt, data) ← wrap_err "reading symbol type" (read_full (se_TypeLength result) data);
  let '(_, data) := buf_next 1 data in
  '(comment, data) ← wrap_err "reading symbol comment" (read_full (se_CommentLength result) data);
  let '(_, data) := buf_next 1 data in
  let item := {| us_entry := result; us_name := cString name;
                 us_type := normalizeStringDataType (cString dt); us_comment := cString comment |} in
  let skip := se_EntryLength result - (begBuff - len data) in
  if skip <? 0 then Err (EMsg "EntryLength is smaller than bytes consumed")
  else Ok (item, (buf_next skip data).2).

Fixpoint symbols_loop (fuel : nat) (dts : datatypes) (data : bytes) (m : symbols) : res symbols :=
  match data with
  | [] => Ok m
  | _ =>
      match fuel with
      | O => Panic
      | S fuel =>
          '(item, data) ← decode_symbol data;
          let s := addSymbol dts item in
          symbols_loop fuel dts data (addChildren s (<[symbolKey (us_name item) := s]> m))
      end
  end.

Definition parseUploadSymbolInfoSymbols (data : bytes) (dts : datatypes) : res symbols :=
  symbols_loop (length data) dts data ∅.

(** ** Snapshots of a subtree *)

Definition collectSubtreeMaxDepth : nat := 256.

Fixpoint collectSubtreeDepth (levels : nat) (s : symbol) : list symbolData :=
  match levels with
  | O => []
  | S levels =>
      flat_map (fun '(_, c) => sy_data c :: collectSubtreeDepth levels c) (sy_children s)
  end.

Definition collectSubtree (s : symbol) : list symbolData := collectSubtreeDepth collectSubtreeMaxDepth s.

(** [jsonKey]: array indices keep literal quotes. *)
Fixpoint replace_char (c : ascii) (by_ : string) (s : string) : string :=
  match s with
  | EmptyString => EmptyString
  | String x s => if Ascii.eqb x c then (by_ ++ replace_char c by_ s)%string else String x (replace_char c by_ s)
  end.

Definition quote : string := String (ascii_of_nat 34) "".
Definition jsonKey (name : string) : string :=
  replace_char "]" ("]" ++ quote)%string (replace_char "[" (quote ++ "[")%string name).
