(* ===== verification/SymbolTableFacts.v ===== *)
(** Properties of the symbol and datatype tables (SymbolTable.v). *)
From S2P Require Import Prelude Wire Strconv Defs SymbolTable.
From Stdlib Require Import Ascii.

(** ** Association lists *)

Lemma amap_insert_new {A} k (a : A) m : k ∉ map fst m -> amap_insert k a m = m ++ [(k, a)].
Proof.
  induction m as [|[k' a'] m IH]; cbn; [done|]. rewrite elem_of_cons. intros H.
  destruct (String.eqb_spec k' k) as [->|]; [tauto|]. f_equal. apply IH. tauto.
Qed.

Lemma amap_lookup_In {A} k (a : A) m : NoDup (map fst m) -> (k, a) ∈ m -> amap_lookup k m = Some a.
Proof.
  induction m as [|[k' a'] m IH]; cbn; [by intros _ ?%elem_of_nil|].
  intros [Hn Hnd]%NoDup_cons [[= -> ->]|H]%elem_of_cons; [by rewrite String.eqb_refl|].
  destruct (String.eqb_spec k' k) as [->|]; [|by apply IH].
  exfalso. apply Hn. apply list_elem_of_fmap. by exists (k, a).
Qed.

(** ** Array elements *)

(** The [n]-th index vector, last dimension first: the mixed-radix digits of [n]. *)
Fixpoint index_vec (levels : list datatypeArrayInfo) (n : Z) : list Z :=
  match levels with
  | [] => []
  | l :: levels => (i32 (LBound l) + n mod Elements l) :: index_vec levels (n / Elements l)
  end.

Definition wf_levels (levels : list datatypeArrayInfo) : Prop := Forall (fun l => in_u 32 (Elements l)) levels.
Definition count (levels : list datatypeArrayInfo) : Z := foldr (fun l acc => Elements l * acc) 1 levels.

Lemma bump_index_vec levels : Forall (fun l => 0 < Elements l) levels -> forall n, 0 <= n ->
  bump levels (index_vec levels n) = index_vec levels (n + 1).
Proof.
  intros Hf. induction Hf as [|l levels Hl Hf IH]; intros n Hn; [done|]. cbn [index_vec bump].
  pose proof (Z.mod_pos_bound n (Elements l) Hl). pose proof (Z.div_mod n (Elements l) ltac:(lia)) as Hdm.
  destruct (Z.ltb_spec (i32 (LBound l) + n mod Elements l + 1) (i32 (LBound l) + Elements l)).
  - assert (Hm : (n + 1) mod Elements l = n mod Elements l + 1)
      by (symmetry; apply Z.mod_unique_pos with (q := n / Elements l); lia).
    assert (Hd : (n + 1) / Elements l = n / Elements l)
      by (symmetry; apply Z.div_unique_pos with (r := n mod Elements l + 1); lia).
    rewrite Hm, Hd. f_equal. lia.
  - assert (Hm : (n + 1) mod Elements l = 0)
      by (symmetry; apply Z.mod_unique_pos with (q := n / Elements l + 1); lia).
    assert (Hd : (n + 1) / Elements l = n / Elements l + 1)
      by (symmetry; apply Z.div_unique_pos with (r := 0); lia).
    rewrite Hm, Hd, Z.add_0_r. f_equal. apply IH. apply Z.div_pos; lia.
Qed.

Lemma index_vec_inj levels : Forall (fun l => 0 < Elements l) levels -> forall a b,
  0 <= a < count levels -> 0 <= b < count levels -> index_vec levels a = index_vec levels b -> a = b.
Proof.
  intros Hf. induction Hf as [|l levels Hl Hf IH]; intros a b Ha Hb E; [cbn in *; lia|].
  change (count (l :: levels)) with (Elements l * count levels) in *. cbn [index_vec] in E.
  injection E as Em Ed. pose proof (Z.div_mod a (Elements l) ltac:(lia)).
  pose proof (Z.div_mod b (Elements l) ltac:(lia)).
  assert (a / Elements l = b / Elements l); [|nia].
  apply IH; [| |done]; split; try (apply Z.div_pos; lia); apply Z.div_lt_upper_bound; lia.
Qed.

Lemma count_app a b : count (a ++ b) = count a * count b.
Proof. unfold count. induction a as [|l a IH]; cbn [foldr app]; [lia|]. rewrite IH. ring. Qed.
Lemma count_rev levels : count (rev levels) = count levels.
Proof.
  induction levels as [|l levels IH]; [done|]. cbn [rev]. rewrite count_app, IH.
  unfold count. cbn [foldr]. lia.
Qed.

Lemma check_levels_Some levels : forall total n, wf_levels levels -> 1 <= total <= maxArrayElements ->
  check_levels total levels = Some n ->
  n = total * count levels /\ n <= maxArrayElements /\ total <= n /\
  Forall (fun l => 0 < Elements l /\ i32 (LBound l) + Elements l - 1 <= MaxInt32) levels.
Proof.
  unfold maxArrayElements in *.
  induction levels as [|l levels IH]; intros total n Hw Ht; cbn [check_levels].
  { intros [= <-]. cbn. split_and!; [lia|lia|lia|constructor]. }
  apply Forall_cons in Hw as [Hl Hw]. unfold in_u in Hl.
  destruct (Z.eqb_spec (Elements l) 0); [done|].
  destruct (Z.ltb_spec MaxInt32 (i32 (LBound l) + Elements l - 1)); [done|].
  assert (Hu : u64 (total * Elements l) = total * Elements l)
    by (unfold u64; apply wrap_u_small; unfold in_u; nia).
  rewrite Hu. unfold maxArrayElements. destruct (Z.ltb_spec 1000000 (total * Elements l)); [done|].
  intros (-> & ? & ? & ?)%IH; [|done|nia]. change (count (l :: levels)) with (Elements l * count levels).
  split_and!; [ring|lia|nia|].
  constructor; [lia|done].
Qed.

Lemma join_inj a b : a <> [] -> b <> [] -> Forall (fun p => ","%char ∉ list_ascii_of_string p) a ->
  Forall (fun p => ","%char ∉ list_ascii_of_string p) b -> join "," a = join "," b -> a = b.
Proof. intros ? ? ? ? E. rewrite <- (split_join "," a), <- (split_join "," b) by done. by rewrite E. Qed.

Lemma format_int_no_comma z : ","%char ∉ list_ascii_of_string (format_int z).
Proof.
  unfold format_int. case_if; zbool.
  - cbn. rewrite elem_of_cons. intros [?|H]; [done|]. revert H. apply format_uint_no_sep; [lia|done].
  - apply format_uint_no_sep; [lia|done].
Qed.

Lemma format_int_inj a b : in_s 64 a -> in_s 64 b -> format_int a = format_int b -> a = b.
Proof.
  intros Ha Hb E. pose proof (parse_int_format 64 a Ha) as H1. rewrite E in H1.
  rewrite (parse_int_format 64 b Hb) in H1. by injection H1.
Qed.

Lemma index_name_inj a b : a <> [] -> b <> [] -> Forall (in_s 64) a -> Forall (in_s 64) b ->
  index_name a = index_name b -> a = b.
Proof.
  intros Ha Hb Fa Fb E. unfold index_name in E.
  apply (f_equal list_ascii_of_string) in E. rewrite !list_ascii_app in E. apply app_inv_head in E.
  apply app_inv_tail in E. apply (f_equal string_of_list_ascii) in E.
  rewrite !string_of_list_ascii_of_string in E. apply join_inj in E.
  - clear Ha Hb. revert b Fb E. induction Fa as [|x a Hx Fa IH]; intros [|y b] Fb E; try done.
    apply Forall_cons in Fb as [Hy Fb]. injection E as E1 E2. f_equal; [by apply format_int_inj|by apply IH].
  - by destruct a.
  - by destruct b.
  - rewrite Forall_map. apply Forall_true. apply format_int_no_comma.
  - rewrite Forall_map. apply Forall_true. apply format_int_no_comma.
Qed.

(** The name of element [n]: its indices, first dimension first. *)
Definition element_name (levels : list datatypeArrayInfo) (n : Z) : string :=
  index_name (rev (index_vec (rev levels) n)).

Lemma index_vec_range levels n : 0 <= n ->
  Forall (fun l => 0 < Elements l /\ i32 (LBound l) + Elements l - 1 <= MaxInt32) levels ->
  Forall (in_s 64) (index_vec levels n).
Proof.
  intros Hn Hf. revert n Hn. induction Hf as [|l levels [Hl Hb] Hf IH]; intros n Hn; cbn; constructor.
  - pose proof (Z.mod_pos_bound n (Elements l) Hl). pose proof (wrap_s_range 32 (LBound l) ltac:(lia)) as Hr.
    unfold i32 in *. unfold in_s in *. lia.
  - apply IH. by apply Z.div_pos.
Qed.

Lemma length_index_vec levels n : length (index_vec levels n) = length levels.
Proof. revert n. induction levels; intros; cbn; auto. Qed.

Lemma element_name_inj levels a b : levels <> [] ->
  Forall (fun l => 0 < Elements l /\ i32 (LBound l) + Elements l - 1 <= MaxInt32) levels ->
  0 <= a < count levels -> 0 <= b < count levels -> element_name levels a = element_name levels b -> a = b.
Proof.
  intros Hne Hf Ha Hb E. assert (Hfr := Hf). apply Forall_rev in Hfr.
  assert (Hl : forall n, rev (index_vec (rev levels) n) <> []).
  { intros n E'. apply (f_equal length) in E'. rewrite length_rev, length_index_vec, length_rev in E'.
    by destruct levels. }
  apply index_name_inj in E; try apply Hl; try (apply Forall_rev, index_vec_range; [lia|done]).
  apply (f_equal (@rev Z)) in E. rewrite !rev_involutive in E.
  eapply index_vec_inj; [|rewrite count_rev..|exact E]; try done.
  eapply Forall_impl; [exact Hfr|]. by intros l [? _].
Qed.

Lemma array_elements_spec fuel levels dt es : forall n done_,
  Forall (fun l => 0 < Elements l) levels -> 0 <= n ->
  NoDup (map fst done_ ++ map (element_name levels) (map (fun i => n + Z.of_nat i) (seq 0 fuel))) ->
  array_elements fuel levels dt es n (index_vec (rev levels) n) done_
  = done_ ++ map (fun k => (element_name levels k, array_element (element_name levels k) dt es k))
                 (map (fun i => n + Z.of_nat i) (seq 0 fuel)).
Proof.
  induction fuel as [|fuel IH]; intros n d Hf Hn Hnd; cbn [array_elements]; [by rewrite app_nil_r|].
  assert (Hseq : map (fun i => n + Z.of_nat i) (seq 0 (S fuel))
                 = n :: map (fun i => n + 1 + Z.of_nat i) (seq 0 fuel)).
  { cbn [seq map]. f_equal; [lia|]. rewrite <- seq_shift, map_map. apply map_ext. intros; lia. }
  rewrite Hseq in *. cbn [map] in *. fold (element_name levels n).
  apply NoDup_app in Hnd as Hnd'. destruct Hnd' as (_ & Hdis & _).
  rewrite amap_insert_new by (intros Hin; by eapply Hdis; [exact Hin|left]).
  rewrite bump_index_vec by (try lia; by apply Forall_rev).
  rewrite IH; [by rewrite <- app_assoc|done|lia|].
  rewrite map_app. cbn [map fst]. by rewrite <- app_assoc.
Qed.

Lemma makeArrayChildren_eq levels dt size total : wf_levels levels -> levels <> [] ->
  check_levels 1 levels = Some total ->
  makeArrayChildren levels dt size
  = map (fun k => (element_name levels k, array_element (element_name levels k) dt (size / total) k))
        (map Z.of_nat (seq 0 (Z.to_nat total))) /\
  NoDup (map (element_name levels) (map Z.of_nat (seq 0 (Z.to_nat total)))).
Proof.
  intros Hw Hne Hc. pose proof (check_levels_Some levels 1 total Hw ltac:(unfold maxArrayElements; lia) Hc)
    as (Ht & Hmax & Hmin & Hf). unfold maxArrayElements in *.
  assert (Hnd : NoDup (map (element_name levels) (map Z.of_nat (seq 0 (Z.to_nat total))))).
  { apply NoDup_fmap_2_strong; [|apply NoDup_fmap_2; [intros ? ?; lia|apply NoDup_seq]].
    intros a b (i & -> & Hi)%list_elem_of_fmap (j & -> & Hj)%list_elem_of_fmap E.
    apply elem_of_seq in Hi, Hj. eapply element_name_inj; [exact Hne|exact Hf|lia|lia|exact E]. }
  split; [|done]. unfold makeArrayChildren. destruct levels as [|l0 ls] eqn:El; [done|]. rewrite <- El in *.
  rewrite Hc. assert (Hu : u32 total = total) by (unfold u32; apply wrap_u_small; unfold in_u; lia).
  rewrite Hu.
  assert (H0 : rev (map (fun l => i32 (LBound l)) levels) = index_vec (rev levels) 0).
  { rewrite <- map_rev. clear. induction (rev levels) as [|l ls IH]; [done|]. cbn [map index_vec].
    rewrite Zmod_0_l, Zdiv_0_l, Z.add_0_r, IH. done. }
  rewrite H0, array_elements_spec; [done| |lia|exact Hnd].
  eapply Forall_impl; [exact Hf|]. by intros l [? _].
Qed.

(** The elements generated for an array are exactly its index tuples, in row-major
    order: element number [k] is found under the name of the [k]-th index vector
    (last index fastest, each index counted from its own lower bound), lies at
    [k] times the element size, and stays inside the array. *)
Theorem makeArrayChildren_elements levels dt size total :
  wf_levels levels -> levels <> [] -> check_levels 1 levels = Some total -> in_u 32 size ->
  len (makeArrayChildren levels dt size) = total /\ total = count levels /\
  forall k, 0 <= k < total ->
    exists e, amap_lookup (element_name levels k) (makeArrayChildren levels dt size) = Some e /\
      dt_type e = dt /\ dt_name e = element_name levels k /\
      de_Offs (dt_entry e) = k * (size / total) /\
      de_Offs (dt_entry e) + de_Size (dt_entry e) <= size.
Proof.
  intros Hw Hne Hc Hs. destruct (makeArrayChildren_eq levels dt size total Hw Hne Hc) as [-> Hnd].
  pose proof (check_levels_Some levels 1 total Hw ltac:(unfold maxArrayElements; lia) Hc) as (Ht & Hmax & Hmin & _).
  unfold in_u in Hs. split_and!; [rewrite !len_map; unfold len; rewrite length_seq; lia|lia|].
  intros k Hk. exists (array_element (element_name levels k) dt (size / total) k).
  assert (Hsz : (k + 1) * (size / total) <= size).
  { pose proof (Z.mul_div_le size total ltac:(lia)). pose proof (Z.div_pos size total ltac:(lia) ltac:(lia)). nia. }
  pose proof (Z.div_pos size total ltac:(lia) ltac:(lia)).
  assert (Ho : u32 (k * (size / total)) = k * (size / total)) by (unfold u32; apply wrap_u_small; unfold in_u; nia).
  split_and!; [|done|done|exact Ho|cbn [dt_entry array_element de_Offs de_Size]; rewrite Ho; lia].
  apply amap_lookup_In.
  - rewrite map_map. exact Hnd.
  - apply list_elem_of_fmap. exists k. split; [done|]. apply list_elem_of_fmap. exists (Z.to_nat k).
    split; [lia|]. apply elem_of_seq. lia.
Qed.

Definition sample_levels : list datatypeArrayInfo :=
  [{| LBound := 4294967295; Elements := 2 |}; {| LBound := 1; Elements := 3 |}].

Lemma makeArrayChildren_elements_witness :
  element_name sample_levels 4 = "[0,2]"%string /\
  exists e, amap_lookup "[0,2]" (makeArrayChildren sample_levels "INT" 12) = Some e /\
      dt_type e = "INT"%string /\ dt_name e = "[0,2]"%string /\ de_Offs (dt_entry e) = 8 /\
      de_Offs (dt_entry e) + de_Size (dt_entry e) <= 12.
Proof.
  split; [by vm_compute|].
  refine (proj2 (proj2 (makeArrayChildren_elements sample_levels "INT" 12 6 _ _ _ _)) 4 _).
  - repeat constructor; by vm_compute.
  - discriminate.
  - by vm_compute.
  - by vm_compute.
  - by vm_compute.
Defined.

(** ** The symbol table *)

(** The wire form of one entry, with [pad] bytes after its strings. *)
Record wire_symbol : Type := {
  ws_entry : symbolEntry; ws_name : bytes; ws_type : bytes; ws_comment : bytes; ws_pad : bytes }.

Definition encode_symbolEntry (e : symbolEntry) : bytes :=
  put_u32 (se_EntryLength e) ++ put_u32 (se_IGroup e) ++ put_u32 (se_IOffs e) ++ put_u32 (se_Size e) ++
  put_u32 (se_DataType e) ++ put_u32 (se_Flags e) ++ put_u16 (se_NameLength e) ++
  put_u16 (se_TypeLength e) ++ put_u16 (se_CommentLength e).

Definition encode_symbol (w : wire_symbol) : bytes :=
  encode_symbolEntry (ws_entry w) ++ ws_name w ++ Byte.x00 :: ws_type w ++ Byte.x00 :: ws_comment w ++
  Byte.x00 :: ws_pad w.

Definition wf_entry (e : symbolEntry) : Prop :=
  in_u 32 (se_EntryLength e) /\ in_u 32 (se_IGroup e) /\ in_u 32 (se_IOffs e) /\ in_u 32 (se_Size e) /\
  in_u 32 (se_DataType e) /\ in_u 32 (se_Flags e) /\ in_u 16 (se_NameLength e) /\
  in_u 16 (se_TypeLength e) /\ in_u 16 (se_CommentLength e).

(** The declared lengths are the real ones. *)
Definition wf_wire (w : wire_symbol) : Prop :=
  wf_entry (ws_entry w) /\ se_NameLength (ws_entry w) = len (ws_name w) /\
  se_TypeLength (ws_entry w) = len (ws_type w) /\ se_CommentLength (ws_entry w) = len (ws_comment w) /\
  se_EntryLength (ws_entry w) = len (encode_symbol w).

Definition item_of (w : wire_symbol) : symbolUploadSymbol :=
  {| us_entry := ws_entry w; us_name := cString (ws_name w);
     us_type := normalizeStringDataType (cString (ws_type w)); us_comment := cString (ws_comment w) |}.

(** What loading one entry does to the table. *)
Definition add_entry (dts : datatypes) (m : symbols) (u : symbolUploadSymbol) : symbols :=
  addChildren (addSymbol dts u) (<[symbolKey (us_name u) := addSymbol dts u]> m).

Lemma read_symbolEntry_app e rest : wf_entry e ->
  read_symbolEntry (encode_symbolEntry e ++ rest) = Ok (e, rest).
Proof.
  intros (H1 & H2 & H3 & H4 & H5 & H6 & H7 & H8 & H9). unfold read_symbolEntry, encode_symbolEntry.
  rewrite <- !app_assoc. do 9 (rewrite read_uint_app; cbn [mbind res_bind]).
  rewrite !Z.mod_small by done. by destruct e.
Qed.

Lemma len_symbolEntry e : len (encode_symbolEntry e) = 30.
Proof. unfold encode_symbolEntry. rewrite !len_app, !len_le_put. done. Qed.

Lemma next1 b rest : buf_next 1 (b :: rest) = ([b], rest).
Proof. done. Qed.

Lemma decode_symbol_app w rest : wf_wire w ->
  decode_symbol (encode_symbol w ++ rest) = Ok (item_of w, rest).
Proof.
  intros (He & Hn & Ht & Hc & Hl). unfold decode_symbol, encode_symbol.
  rewrite <- app_assoc, read_symbolEntry_app by done. cbn [wrap_err mbind res_bind].
  rewrite <- app_assoc, read_full_app by done. cbn [wrap_err mbind res_bind].
  rewrite <- app_comm_cons, next1, <- app_assoc, read_full_app by done. cbn [wrap_err mbind res_bind].
  rewrite <- app_comm_cons, next1, <- app_assoc, read_full_app by done. cbn [wrap_err mbind res_bind].
  rewrite <- app_comm_cons, next1.
  assert (E : se_EntryLength (ws_entry w) -
    (len (encode_symbolEntry (ws_entry w) ++
     (ws_name w ++ Byte.x00 :: (ws_type w ++ Byte.x00 :: (ws_comment w ++ Byte.x00 :: (ws_pad w ++ rest))))) -
       len (ws_pad w ++ rest)) = len (ws_pad w)).
  { rewrite Hl. unfold encode_symbol. repeat first [rewrite len_app | rewrite len_cons]. lia. }
  rewrite E. rewrite (proj2 (Z.ltb_ge _ _)) by apply len_nonneg.
  by rewrite buf_next_app.
Qed.

Lemma symbols_loop_cons fuel dts b data m : symbols_loop (S fuel) dts (b :: data) m
  = ('(item, data) ← decode_symbol (b :: data);
     symbols_loop fuel dts data (addChildren (addSymbol dts item) (<[symbolKey (us_name item) := addSymbol dts item]> m))).
Proof. done. Qed.

Lemma encode_symbol_cons w : exists b rest, encode_symbol w = b :: rest.
Proof.
  unfold encode_symbol, encode_symbolEntry. cbn [le_put app]. eauto.
Qed.

Lemma symbols_loop_app dts ws : forall fuel m,
  Forall wf_wire ws -> (length (concat (map encode_symbol ws)) <= fuel)%nat ->
  symbols_loop fuel dts (concat (map encode_symbol ws)) m
  = Ok (fold_left (add_entry dts) (map item_of ws) m).
Proof.
  induction ws as [|w ws IH]; intros fuel m Hf Hfuel; [by destruct fuel|].
  apply Forall_cons in Hf as [Hw Hf]. cbn [map concat fold_left] in *.
  pose proof (decode_symbol_app w (concat (map encode_symbol ws)) Hw) as Hd.
  destruct (encode_symbol_cons w) as (b & r & E). rewrite E in *.
  rewrite <- app_comm_cons in *. cbn [length] in Hfuel. destruct fuel as [|fuel]; [lia|].
  rewrite symbols_loop_cons, Hd. cbn [mbind res_bind].
  rewrite IH; [done|done|]. rewrite length_app in Hfuel. lia.
Qed.

(** C21. Loading a symbol table as the PLC sends it: every entry, in order, becomes a
    root symbol under the case-folded name it carries, with its group, offset,
    size and type exactly as sent and its members expanded from the datatype
    table; bytes a newer firmware appends to an entry are skipped. *)
Theorem parseUploadSymbolInfoSymbols_roundtrip dts ws :
  Forall wf_wire ws ->
  parseUploadSymbolInfoSymbols (concat (map encode_symbol ws)) dts
  = Ok (fold_left (add_entry dts) (map item_of ws) ∅).
Proof. intros Hf. unfold parseUploadSymbolInfoSymbols. by apply symbols_loop_app. Qed.

(** *** Members *)

(** The symbols of a subtree, in the order [addChildren] visits them. *)
Fixpoint subtree (s : symbol) : list symbol :=
  let '(MkSymbol _ children) := s in
  (fix go (cs : list (string * symbol)) : list symbol :=
     match cs with [] => [] | (_, c) :: cs => c :: subtree c ++ go cs end) children.

Fixpoint subtree_list (cs : list (string * symbol)) : list symbol :=
  match cs with [] => [] | (_, c) :: cs => c :: subtree c ++ subtree_list cs end.
Fixpoint add_list (cs : list (string * symbol)) (m : symbols) : symbols :=
  match cs with
  | [] => m
  | (_, child) :: cs =>
      add_list cs (let key := symbolKey (sy_FullName (sy_data child)) in
                   match m !! key with Some _ => m | None => addChildren child (<[key := child]> m) end)
  end.

Lemma addChildren_eq d cs m : addChildren (MkSymbol d cs) m = add_list cs m.
Proof. cbn. revert m. induction cs as [|[k c] cs IH]; intros m; [done|]. apply IH. Qed.
Lemma subtree_eq d cs : subtree (MkSymbol d cs) = subtree_list cs.
Proof. cbn. induction cs as [|[k c] cs IH]; [done|]. cbn. by rewrite IH. Qed.

(** Induction over symbol trees. *)
Fixpoint symbol_tree_ind (P : symbol -> Prop)
    (H : forall d cs, Forall (fun kc => P kc.2) cs -> P (MkSymbol d cs)) (s : symbol) : P s :=
  match s with
  | MkSymbol d cs =>
      H d cs ((fix go (cs : list (string * symbol)) : Forall (fun kc => P kc.2) cs :=
                 match cs with
                 | [] => Forall_nil_2 _
                 | kc :: cs => Forall_cons_2 _ kc cs (symbol_tree_ind P H kc.2) (go cs)
                 end) cs)
  end.

Definition full_key (s : symbol) : string := symbolKey (sy_FullName (sy_data s)).

Lemma addChildren_extends s : forall m k x, m !! k = Some x -> addChildren s m !! k = Some x.
Proof.
  induction s as [d cs IH] using symbol_tree_ind. intros m k x. rewrite addChildren_eq.
  revert m. induction IH as [|[key c] cs Hc Hcs IH']; intros m Hm; [done|]. cbn [add_list].
  apply IH'. cbv zeta. destruct (m !! symbolKey (sy_FullName (sy_data c))) eqn:E; [done|]. apply Hc.
  rewrite lookup_insert_ne; [done|]. intros Hk. rewrite Hk in E. congruence.
Qed.

(** Expanding a root never overwrites a symbol that is already in the table, and
    when the names of its members are new and distinct - up to case, as TwinCAT
    compares them - every member at every depth is found under its own full name. *)
Theorem addChildren_binds s m :
  (forall k x, m !! k = Some x -> addChildren s m !! k = Some x) /\
  (NoDup (map full_key (subtree s)) -> (forall c, c ∈ subtree s -> m !! full_key c = None) ->
   forall c, c ∈ subtree s -> addChildren s m !! full_key c = Some c).
Proof.
  split; [apply addChildren_extends|].
  assert (G : NoDup (map full_key (subtree s)) -> (forall c, c ∈ subtree s -> m !! full_key c = None) ->
    (forall c, c ∈ subtree s -> addChildren s m !! full_key c = Some c) /\
    forall k, k ∉ map full_key (subtree s) -> addChildren s m !! k = m !! k);
    [|intros; by apply G].
  revert m. induction s as [d cs IH] using symbol_tree_ind. intros m. rewrite addChildren_eq, subtree_eq.
  revert m. induction IH as [|[key c] cs Hc Hcs IH']; intros m Hnd Hfresh.
  { split; [|done]. by intros c ?%elem_of_nil. }
  cbn [subtree_list add_list map snd] in *. fold (full_key c).
  rewrite map_app in Hnd. apply NoDup_cons in Hnd as [Hn (Hnd1 & Hdis & Hnd2)%NoDup_app].
  rewrite (Hfresh c) by left. rewrite elem_of_app in Hn.
  destruct (Hc (<[full_key c := c]> m)) as [Hb1 Hb2]; [done| |].
  { intros x Hx. rewrite lookup_insert_ne.
    - apply Hfresh. right. apply elem_of_app. by left.
    - intros E. apply Hn. left. rewrite E. by apply list_elem_of_fmap_2. }
  destruct (IH' (addChildren c (<[full_key c := c]> m))) as [Ha1 Ha2]; [done| |].
  { intros x Hx. assert (full_key x ∈ map full_key (subtree_list cs)) by (by apply list_elem_of_fmap_2).
    rewrite Hb2.
    - rewrite lookup_insert_ne; [|by intros E; apply Hn; right; rewrite E].
      apply Hfresh. right. apply elem_of_app. by right.
    - intros Hin. by eapply Hdis. }
  split.
  - intros x [->|[Hx|Hx]%elem_of_app]%elem_of_cons; [| |by apply Ha1].
    + rewrite Ha2 by tauto. rewrite Hb2 by tauto. by rewrite lookup_insert_eq.
    + rewrite Ha2; [by apply Hb1|]. intros Hin. eapply Hdis; [|exact Hin]. by apply list_elem_of_fmap_2.
  - intros k Hk. rewrite elem_of_cons, map_app, elem_of_app in Hk.
    rewrite Ha2, Hb2 by tauto. rewrite lookup_insert_ne by (intros E; rewrite <- E in Hk; tauto). done.
Qed.

(** ** The datatype table *)

Definition encode_datatypeEntry (e : datatypeEntry) : bytes :=
  put_u32 (de_EntryLength e) ++ put_u32 (de_Version e) ++ put_u32 (de_HashValue e) ++
  put_u32 (de_TypeHashValue e) ++ put_u32 (de_Size e) ++ put_u32 (de_Offs e) ++ put_u32 (de_DataType e) ++
  put_u32 (de_Flags e) ++ put_u16 (de_NameLength e) ++ put_u16 (de_TypeLength e) ++
  put_u16 (de_CommentLength e) ++ put_u16 (de_ArrayDim e) ++ put_u16 (de_SubItems e).

Fixpoint encode_datatype (d : SymbolUploadDataType) : bytes :=
  let '(MkDataType e n t c ch) := d in
  encode_datatypeEntry e ++ bytes_of_string n ++ Byte.x00 :: bytes_of_string t ++ Byte.x00 ::
  bytes_of_string c ++ Byte.x00 ::
  (fix go (ch : list (string * SymbolUploadDataType)) : bytes :=
     match ch with [] => [] | (_, d) :: ch => encode_datatype d ++ go ch end) ch.

Fixpoint encode_children (ch : list (string * SymbolUploadDataType)) : bytes :=
  match ch with [] => [] | (_, d) :: ch => encode_datatype d ++ encode_children ch end.

Lemma encode_datatype_eq e n t c ch : encode_datatype (MkDataType e n t c ch)
  = encode_datatypeEntry e ++ bytes_of_string n ++ Byte.x00 :: bytes_of_string t ++ Byte.x00 ::
    bytes_of_string c ++ Byte.x00 :: encode_children ch.
Proof. done. Qed.

Definition wf_dt_entry (e : datatypeEntry) : Prop :=
  in_u 32 (de_EntryLength e) /\ in_u 32 (de_Version e) /\ in_u 32 (de_HashValue e) /\
  in_u 32 (de_TypeHashValue e) /\ in_u 32 (de_Size e) /\ in_u 32 (de_Offs e) /\
  in_u 32 (de_DataType e) /\ in_u 32 (de_Flags e) /\ in_u 16 (de_NameLength e) /\
  in_u 16 (de_TypeLength e) /\ in_u 16 (de_CommentLength e) /\ in_u 16 (de_ArrayDim e) /\
  in_u 16 (de_SubItems e).

Definition no_nul (s : string) : Prop := Byte.x00 ∉ bytes_of_string s.

(** A structured type as a device describes it: declared lengths are the real
    ones, the members are its sub items under their own, distinct names. *)
Inductive wf_dt : SymbolUploadDataType -> Prop :=
| wf_MkDataType e n t c ch :
    wf_dt_entry e -> de_ArrayDim e = 0 -> de_SubItems e = len ch ->
    de_NameLength e = len (bytes_of_string n) -> de_TypeLength e = len (bytes_of_string t) ->
    de_CommentLength e = len (bytes_of_string c) ->
    de_EntryLength e = len (encode_datatype (MkDataType e n t c ch)) -> 48 <= de_EntryLength e ->
    no_nul n -> no_nul t -> no_nul c -> normalizeStringDataType t = t ->
    NoDup (map fst ch) -> Forall (fun kd => kd.1 = dt_name kd.2) ch -> Forall (fun kd => wf_dt kd.2) ch ->
    wf_dt (MkDataType e n t c ch).

Lemma read_datatypeEntry_app e rest : wf_dt_entry e ->
  read_datatypeEntry (encode_datatypeEntry e ++ rest) = Ok (e, rest).
Proof.
  intros (H1 & H2 & H3 & H4 & H5 & H6 & H7 & H8 & H9 & H10 & H11 & H12 & H13).
  unfold read_datatypeEntry, encode_datatypeEntry.
  rewrite <- !app_assoc. do 13 (rewrite read_uint_app; cbn [mbind res_bind]).
  rewrite !Z.mod_small by done. by destruct e.
Qed.

Lemma len_datatypeEntry e : len (encode_datatypeEntry e) = 42.
Proof. unfold encode_datatypeEntry. rewrite !len_app, !len_le_put. done. Qed.

Lemma cString_bytes s : no_nul s -> cString (bytes_of_string s) = s.
Proof. intros H. unfold cString. rewrite until_nul_no_nul by done. apply string_of_bytes_of_string. Qed.

Lemma decode_subitems_app dec ch : forall rest acc,
  Forall (fun kd => kd.1 = dt_name kd.2 /\
                    forall r, dec (encode_datatype kd.2 ++ r) = Ok (kd.2, r)) ch ->
  NoDup (map fst (acc ++ ch)) ->
  decode_subitems dec (length ch) (encode_children ch ++ rest) acc = Ok (acc ++ ch).
Proof.
  induction ch as [|[k d] ch IH]; intros rest acc Hf Hnd; [by rewrite app_nil_r|].
  apply Forall_cons in Hf as [[Hk Hd] Hf]. cbn [fst snd] in *. subst k.
  cbn [length decode_subitems encode_children]. rewrite <- app_assoc, Hd. cbn [wrap_err mbind res_bind].
  rewrite map_app in Hnd. apply NoDup_app in Hnd as Hnd'. destruct Hnd' as (_ & Hdis & _).
  rewrite amap_insert_new by (intros Hin; eapply Hdis; [exact Hin|left]).
  rewrite IH; [by rewrite <- app_assoc|done|]. rewrite <- app_assoc, map_app. exact Hnd.
Qed.

Lemma decode_unfold fuel data : decodeSymbolUploadDataType (S fuel) data =
  (let totalSize := len data in
   if totalSize <? 48 then Err (EMsg "wrong size < 48 bytes")
   else
     '(result, data) ← read_datatypeEntry data;
     '(name, data) ← read_full (de_NameLength result) data;
     let '(_, data) := buf_next 1 data in
     '(dt, data) ← read_full (de_TypeLength result) data;
     let '(_, data) := buf_next 1 data in
     '(comment, data) ← read_full (de_CommentLength result) data;
     let '(_, data) := buf_next 1 data in
     let nm := cString name in
     let ty := normalizeStringDataType (cString dt) in
     let childLen := de_EntryLength result - (totalSize - len data) in
     if childLen <=? 0 then Ok (MkDataType result nm ty (cString comment) [], data)
     else if len data <? childLen then Err (EMsg "childLen exceeds remaining data")
     else
       let '(childData, data) := buf_next childLen data in
       children ←
         (if 0 <? de_ArrayDim result then
            levels ← wrap_err "reading array info" (read_array_infos (Z.to_nat (de_ArrayDim result)) childData);
            Ok (makeArrayChildren levels ty (de_Size result))
          else
            decode_subitems (decodeSymbolUploadDataType fuel) (Z.to_nat (de_SubItems result)) childData []);
       Ok (MkDataType result nm ty (cString comment) children, data)).
Proof. done. Qed.

Lemma decode_datatype_app : forall fuel d rest, wf_dt d -> (length (encode_datatype d) <= fuel)%nat ->
  decodeSymbolUploadDataType (S fuel) (encode_datatype d ++ rest) = Ok (d, rest).
Proof.
  induction fuel as [|fuel IH]; intros d rest Hw Hfuel.
  { destruct Hw as [e n t c ch _ _ _ _ _ _ HL H48]. unfold len in HL. lia. }
  destruct Hw as [e n t c ch He Had Hsi Hn Ht Hc HL H48 Nn Nt Nc Hnorm Hnd Hkeys Hch].
  rewrite decode_unfold. cbv zeta.
  rewrite (proj2 (Z.ltb_ge _ _)) by (rewrite len_app; pose proof (len_nonneg rest); lia).
  rewrite encode_datatype_eq in *.
  set (E := encode_datatypeEntry e) in *. set (N := bytes_of_string n) in *. set (T := bytes_of_string t) in *.
  set (C := bytes_of_string c) in *. set (X := encode_children ch) in *.
  replace ((E ++ N ++ Byte.x00 :: T ++ Byte.x00 :: C ++ Byte.x00 :: X) ++ rest)
    with (E ++ N ++ Byte.x00 :: T ++ Byte.x00 :: C ++ Byte.x00 :: X ++ rest)
    by (repeat first [rewrite <- app_assoc | rewrite <- app_comm_cons]; done).
  assert (HE : forall r, read_datatypeEntry (E ++ r) = Ok (e, r)) by (intros; by apply read_datatypeEntry_app).
  rewrite HE. cbn [mbind res_bind].
  rewrite read_full_app by done. cbn [mbind res_bind]. rewrite next1.
  rewrite read_full_app by done. cbn [mbind res_bind]. rewrite next1.
  rewrite read_full_app by done. cbn [mbind res_bind]. rewrite next1. rewrite HL, Had.
  assert (Hcl : len (E ++ N ++ Byte.x00 :: T ++ Byte.x00 :: C ++ Byte.x00 :: X) -
     (len (E ++ N ++ Byte.x00 :: T ++ Byte.x00 :: C ++ Byte.x00 :: X ++ rest) - len (X ++ rest)) = len X).
  { repeat first [rewrite len_app | rewrite len_cons]. lia. }
  rewrite Hcl, Hsi. unfold N, T, C. rewrite !cString_bytes by done. rewrite Hnorm.
  change (0 <? 0) with false. cbv iota.
  destruct (Z.leb_spec (len X) 0) as [Hx|Hx].
  - assert (HX : X = []) by (destruct X; [done|rewrite len_cons in Hx; pose proof (len_nonneg X); lia]).
    rewrite HX. cbn [app]. assert (ch = []) as ->; [|done].
    destruct ch as [|[k d] ch]; [done|]. unfold X in HX. cbn [encode_children] in HX.
    destruct d. rewrite encode_datatype_eq in HX. unfold encode_datatypeEntry in HX. cbn in HX. discriminate.
  - rewrite (proj2 (Z.ltb_ge _ _)) by (rewrite len_app; pose proof (len_nonneg rest); lia).
    rewrite buf_next_app. unfold len at 1. rewrite Nat2Z.id.
    rewrite <- (app_nil_r X) at 1. unfold X. rewrite decode_subitems_app; [done| |exact Hnd].
    apply Forall_forall. intros [k d] Hin. rewrite Forall_forall in Hkeys, Hch.
    split; [by apply (Hkeys (k, d))|]. intros r. apply IH; [by apply (Hch (k, d))|].
    assert (Hle : (length (encode_datatype d) <= length X)%nat).
    { unfold X. clear -Hin. induction ch as [|[k' d'] ch IH]; [by apply elem_of_nil in Hin|].
      cbn [encode_children]. rewrite length_app. apply elem_of_cons in Hin as [[= -> ->]|Hin]; [lia|].
      specialize (IH Hin). lia. }
    clearbody X. cbn [snd]. revert Hfuel. repeat (rewrite length_app; cbn [length]).
    pose proof (len_datatypeEntry e) as H42. unfold len in H42. unfold E. lia.
Qed.

(** A structured datatype, with members nested to any depth, is decoded from the
    bytes that describe it, and decoding stops exactly where its entry ends. *)
Theorem decodeSymbolUploadDataType_roundtrip d rest :
  wf_dt d ->
  decodeSymbolUploadDataType (S (length (encode_datatype d ++ rest))) (encode_datatype d ++ rest) = Ok (d, rest).
Proof. intros Hw. apply decode_datatype_app; [done|]. rewrite length_app. lia. Qed.

(** ** Robustness against arbitrary uploads *)

Lemma read_uint_rest n b z r : read_uint n b = Ok (z, r) -> (length b = n + length r)%nat.
Proof. intros (x & -> & <- & _)%read_uint_Ok. by rewrite length_app. Qed.

Lemma read_full_rest n b x r : 0 <= n -> read_full n b = Ok (x, r) -> (length r <= length b)%nat.
Proof. intros Hn H. apply read_full_Ok in H as [-> _]; [|done]. rewrite length_app. lia. Qed.

Ltac reads := repeat (apply no_panic_bind; [solve [auto with ads]|]; intros [? ?] ?).

Lemma read_datatypeEntry_rest b : no_panic (read_datatypeEntry b) /\
  forall e r, read_datatypeEntry b = Ok (e, r) ->
    (length b = 42 + length r)%nat /\ 0 <= de_NameLength e /\ 0 <= de_TypeLength e /\ 0 <= de_CommentLength e.
Proof.
  split; [unfold read_datatypeEntry; reads; auto with ads|].
  unfold read_datatypeEntry. intros e r H.
  repeat match goal with H : (_ ≫= _) = Ok _ |- _ => apply bind_Ok in H as ([? ?] & ? & H) end.
  injection H as <- <-. cbn.
  repeat match goal with E : read_uint _ _ = Ok _ |- _ =>
    let E' := fresh in pose proof (read_uint_range _ _ _ _ E) as E'; unfold in_u in E';
    apply read_uint_rest in E end.
  split_and!; lia.
Qed.

Lemma read_array_infos_total n : forall b, no_panic (read_array_infos n b).
Proof.
  induction n as [|n IH]; intros b; cbn [read_array_infos]; [done|]. reads.
  apply no_panic_bind; [apply IH|]. intros. auto with ads.
Qed.

Lemma next1_length b : (length (buf_next 1 b).2 <= length b)%nat.
Proof. cbn. rewrite length_drop. lia. Qed.

Lemma decode_subitems_total dec N : (forall b, (length b <= N)%nat -> no_panic (dec b) /\
    forall d r, dec b = Ok (d, r) -> (length r <= length b)%nat) ->
  forall n b acc, (length b <= N)%nat -> no_panic (decode_subitems dec n b acc).
Proof.
  intros Hdec. induction n as [|n IH]; intros b acc Hb; cbn [decode_subitems]; [done|].
  destruct (Hdec b Hb) as [Hp Hr]. apply no_panic_bind; [by apply no_panic_wrap|].
  intros [d r] E. apply IH. destruct (dec b) as [[d' r']| |] eqn:Ed; try done.
  cbn in E. injection E as <- <-. specialize (Hr _ _ eq_refl). lia.
Qed.

Lemma decode_datatype_total : forall fuel b, (length b < fuel)%nat ->
  no_panic (decodeSymbolUploadDataType fuel b) /\
  forall d r, decodeSymbolUploadDataType fuel b = Ok (d, r) -> (length r + 42 <= length b)%nat.
Proof.
  induction fuel as [|fuel IH]; intros b Hb; [lia|]. rewrite decode_unfold. cbv zeta.
  case_if; [done|]. destruct (read_datatypeEntry_rest b) as [Hp Hr].
  destruct (read_datatypeEntry b) as [[e b1]| |] eqn:E1; try done. destruct (Hr _ _ eq_refl) as (L1 & N1 & N2 & N3).
  cbn [mbind res_bind]. pose proof (no_panic_read_full (de_NameLength e) b1).
  destruct (read_full (de_NameLength e) b1) as [[x2 b2]| |] eqn:E2; try done. cbn [mbind res_bind].
  apply read_full_rest in E2; [|done]. pose proof (next1_length b2). destruct (buf_next 1 b2) as [? b3].
  pose proof (no_panic_read_full (de_TypeLength e) b3).
  destruct (read_full (de_TypeLength e) b3) as [[x4 b4]| |] eqn:E4; try done. cbn [mbind res_bind].
  apply read_full_rest in E4; [|done]. pose proof (next1_length b4). destruct (buf_next 1 b4) as [? b5].
  pose proof (no_panic_read_full (de_CommentLength e) b5).
  destruct (read_full (de_CommentLength e) b5) as [[x6 b6]| |] eqn:E6; try done. cbn [mbind res_bind].
  apply read_full_rest in E6; [|done]. pose proof (next1_length b6). destruct (buf_next 1 b6) as [? b7].
  cbn [snd] in *. case_if; [split; [done|]; intros d r [= <- <-]; lia|]. case_if; [done|].
  set (cl := de_EntryLength e - (len b - len b7)) in *. unfold buf_next.
  set (Children := if 0 <? de_ArrayDim e then _ else _).
  assert (Hc : no_panic Children).
  { unfold Children. case_if.
    - apply no_panic_bind; [apply no_panic_wrap, read_array_infos_total|]. intros. auto with ads.
    - apply (decode_subitems_total _ (length b7)).
      + intros b' Hb'. destruct (IH b') as [Hp' Hr']; [lia|]. split; [done|].
        intros d r Hd. apply Hr' in Hd. lia.
      + rewrite length_take. lia. }
  destruct Children as [ch| |]; try done. cbn [mbind res_bind]. split; [done|].
  intros d r [= <- <-]. rewrite length_drop. lia.
Qed.

Lemma datatypes_loop_total : forall fuel b dts, (length b <= fuel)%nat -> no_panic (datatypes_loop fuel b dts).
Proof.
  induction fuel as [|fuel IH]; intros b dts Hb; destruct b as [|x b]; try done; [cbn in Hb; lia|].
  cbn [datatypes_loop]. destruct (decode_datatype_total (S (length (x :: b))) (x :: b)) as [Hp Hr]; [lia|].
  apply no_panic_bind; [by apply no_panic_wrap|]. intros [d r] E.
  destruct (decodeSymbolUploadDataType _ _) as [[d' r']| |] eqn:Ed; try done. cbn in E. injection E as <- <-.
  specialize (Hr _ _ eq_refl). apply IH. cbn in *. lia.
Qed.

Lemma decode_symbol_total b : no_panic (decode_symbol b) /\
  forall u r, decode_symbol b = Ok (u, r) -> (length r + 30 <= length b)%nat.
Proof.
  unfold decode_symbol.
  assert (Hp : no_panic (read_symbolEntry b)) by (unfold read_symbolEntry; reads; auto with ads).
  destruct (read_symbolEntry b) as [[e b1]| |] eqn:E1; try done. cbn [wrap_err mbind res_bind].
  assert (L1 : (length b = 30 + length b1)%nat /\ 0 <= se_NameLength e /\ 0 <= se_TypeLength e /\ 0 <= se_CommentLength e).
  { unfold read_symbolEntry in E1.
    repeat match goal with H : (_ ≫= _) = Ok _ |- _ => apply bind_Ok in H as ([? ?] & ? & H) end.
    injection E1 as <- <-. cbn.
    repeat match goal with E : read_uint _ _ = Ok _ |- _ =>
      let E' := fresh in pose proof (read_uint_range _ _ _ _ E) as E'; unfold in_u in E';
      apply read_uint_rest in E end.
    split_and!; lia. }
  destruct L1 as (L1 & N1 & N2 & N3).
  pose proof (no_panic_read_full (se_NameLength e) b1).
  destruct (read_full (se_NameLength e) b1) as [[x2 b2]| |] eqn:E2; try done. cbn [wrap_err mbind res_bind].
  apply read_full_rest in E2; [|done]. pose proof (next1_length b2). destruct (buf_next 1 b2) as [? b3].
  pose proof (no_panic_read_full (se_TypeLength e) b3).
  destruct (read_full (se_TypeLength e) b3) as [[x4 b4]| |] eqn:E4; try done. cbn [wrap_err mbind res_bind].
  apply read_full_rest in E4; [|done]. pose proof (next1_length b4). destruct (buf_next 1 b4) as [? b5].
  pose proof (no_panic_read_full (se_CommentLength e) b5).
  destruct (read_full (se_CommentLength e) b5) as [[x6 b6]| |] eqn:E6; try done. cbn [wrap_err mbind res_bind].
  apply read_full_rest in E6; [|done]. pose proof (next1_length b6). destruct (buf_next 1 b6) as [? b7].
  cbn [snd] in *. case_if; [done|]. split; [done|]. intros u r [= <- <-]. rewrite length_drop. lia.
Qed.

Lemma symbols_loop_total dts : forall fuel b m, (length b <= fuel)%nat -> no_panic (symbols_loop fuel dts b m).
Proof.
  induction fuel as [|fuel IH]; intros b m Hb; destruct b as [|x b]; try done; [cbn in Hb; lia|].
  cbn [symbols_loop]. destruct (decode_symbol_total (x :: b)) as [Hp Hr].
  apply no_panic_bind; [done|]. intros [u r] E. apply IH. specialize (Hr _ _ E). cbn in *. lia.
Qed.

(** Whatever a device uploads as its symbol and datatype tables, parsing
    terminates and never panics: it returns a table or an error. *)
Theorem uploads_never_panic data dts :
  no_panic (parseUploadSymbolInfoDataTypes data) /\ no_panic (parseUploadSymbolInfoSymbols data dts).
Proof.
  split; [by apply datatypes_loop_total|by apply symbols_loop_total].
Qed.

(** ** The depth cap does not bound the work *)

(** A datatype whose two members have its own type. *)
Definition cyc_member (n : string) : SymbolUploadDataType := MkDataType zero_entry n "T" "" [].
Definition cyc_type : SymbolUploadDataType :=
  MkDataType zero_entry "T" "" "" [("a"%string, cyc_member "a"); ("b"%string, cyc_member "b")].
Definition cyc_table : datatypes := {["T"%string := cyc_type]}.

Lemma cyc_size levels : forall parent group,
  len (subtree_list (addOffsetDepth levels cyc_table parent group cyc_type)) = 2 ^ (Z.of_nat levels + 1) - 2.
Proof.
  induction levels as [|levels IH]; intros parent group; [done|].
  assert (E : forall p, addOffsetDepth (S levels) cyc_table p group cyc_type =
    [("a"%string, MkSymbol (member_data p group (cyc_member "a"))
        (addOffsetDepth levels cyc_table (sy_FullName (member_data p group (cyc_member "a"))) group cyc_type));
     ("b"%string, MkSymbol (member_data p group (cyc_member "b"))
        (addOffsetDepth levels cyc_table (sy_FullName (member_data p group (cyc_member "b"))) group cyc_type))])
    by done.
  rewrite E. cbn [subtree_list]. rewrite !subtree_eq.
  repeat first [rewrite len_cons | rewrite len_app]. rewrite !IH, len_nil.
  replace (Z.of_nat (S levels) + 1) with (Z.succ (Z.of_nat levels + 1)) by lia.
  rewrite Z.pow_succ_r by lia. lia.
Qed.

(** [addOffsetMaxDepth] is there to defend against a datatype table that contains
    itself; it bounds the depth but not the work: a type with two members of its
    own type expands to 2^257 - 2 symbols before the cap is reached. *)
Theorem addOffset_self_cycle_blowup parent group :
  len (subtree_list (addOffset cyc_table parent group cyc_type)) = 2 ^ 257 - 2.
Proof. unfold addOffset, addOffsetMaxDepth. by rewrite cyc_size. Qed.

(** ** Witnesses *)

Definition sample_dt_entry (el size offs ty nl tl cl si : Z) : datatypeEntry :=
  {| de_EntryLength := el; de_Version := 1; de_HashValue := 7; de_TypeHashValue := 8; de_Size := size;
     de_Offs := offs; de_DataType := ty; de_Flags := 5; de_NameLength := nl; de_TypeLength := tl;
     de_CommentLength := cl; de_ArrayDim := 0; de_SubItems := si |}.
Definition point_x : SymbolUploadDataType := MkDataType (sample_dt_entry 50 2 0 2 1 3 1 0) "x" "INT" "m" [].
Definition point_y : SymbolUploadDataType := MkDataType (sample_dt_entry 50 4 4 4 1 4 0 0) "y" "REAL" "" [].
Definition point_type : SymbolUploadDataType :=
  MkDataType (sample_dt_entry 153 8 0 65 8 0 0 2) "ST_Point" "" "" [("x"%string, point_x); ("y"%string, point_y)].

Lemma point_wf : wf_dt point_type.
Proof.
  assert (Hn : forall s, bool_decide (Byte.x00 ∈ bytes_of_string s) = false -> no_nul s)
    by (intros s H; by apply bool_decide_eq_false_1 in H).
  assert (He : forall el size offs ty nl tl cl si,
    Forall (fun z => 0 <= z < 65536) [el; size; offs; ty; nl; tl; cl; si] ->
    wf_dt_entry (sample_dt_entry el size offs ty nl tl cl si)).
  { intros * H. unfold wf_dt_entry, in_u. cbn. repeat (apply Forall_cons in H as [? H]). lia. }
  assert (Hb : forall l : list Z, forallb (fun z => (0 <=? z) && (z <? 65536)) l = true -> Forall (fun z => 0 <= z < 65536) l).
  { intros l H. rewrite Forall_forall. intros z Hz. rewrite forallb_forall in H.
    apply list_elem_of_In in Hz. specialize (H z Hz). apply andb_prop in H as [? ?]. zbool. lia. }
  constructor; try (by vm_compute); try (by apply He, Hb); try (by apply Hn).
  - by apply (bool_decide_unpack _).
  - repeat constructor.
  - constructor; [|constructor; [|constructor]]; cbn [snd];
      (constructor; try (by vm_compute); try (by apply He, Hb); try (by apply Hn); constructor).
Qed.

Lemma decodeSymbolUploadDataType_roundtrip_witness :
  decodeSymbolUploadDataType (S (length (encode_datatype point_type ++ [Byte.x01]))) (encode_datatype point_type ++ [Byte.x01])
  = Ok (point_type, [Byte.x01]).
Proof. apply (decodeSymbolUploadDataType_roundtrip point_type [Byte.x01] point_wf). Defined.

Definition sample_symbol : wire_symbol :=
  {| ws_entry := {| se_EntryLength := 59; se_IGroup := 16448; se_IOffs := 100; se_Size := 8; se_DataType := 65;
                    se_Flags := 0; se_NameLength := 8; se_TypeLength := 8; se_CommentLength := 0 |};
     ws_name := bytes_of_string "MAIN.pos"; ws_type := bytes_of_string "ST_Point"; ws_comment := [];
     ws_pad := replicate 10 Byte.xff |}.

Definition sample_datatypes : datatypes := {["ST_Point"%string := point_type]}.

Lemma parseUploadSymbolInfoSymbols_roundtrip_witness :
  parseUploadSymbolInfoSymbols (encode_symbol sample_symbol ++ []) sample_datatypes
  = Ok (add_entry sample_datatypes ∅ (item_of sample_symbol)).
Proof.
  apply (parseUploadSymbolInfoSymbols_roundtrip sample_datatypes [sample_symbol]).
  repeat constructor; by vm_compute.
Defined.

(** The keys of that table: the root and its two members, case-folded. *)
Example sample_table_keys :
  (fun m : symbols => map (fun k => bool_decide (is_Some (m !! k))) ["main.pos"; "main.pos.x"; "main.pos.y"; "MAIN.pos"]%string)
    <$> match parseUploadSymbolInfoSymbols (encode_symbol sample_symbol) sample_datatypes with
        | Ok m => Some m | _ => None end
  = Some [true; true; true; false].
Proof. by vm_compute. Qed.

Definition sample_root : symbol :=
  MkSymbol (root_data (item_of sample_symbol)) (addOffset sample_datatypes "MAIN.pos" 16448 point_type).

Lemma addChildren_binds_witness :
  Forall (fun c => addChildren sample_root ∅ !! full_key c = Some c) (subtree sample_root) /\
  length (subtree sample_root) = 2%nat.
Proof.
  split; [|reflexivity]. apply Forall_forall. refine (proj2 (addChildren_binds sample_root ∅) _ _).
  - by apply (bool_decide_unpack _).
  - intros c _. apply lookup_empty.
Defined.
