(* ===== verification/GoTime.v ===== *)
(** What symbol_codec.go uses of Go's [time] package: the UTC calendar, the four
    layouts it formats with and the [time.Parse] of those layouts, with the
    leniencies of the real parser (one-digit hours, an optional fraction after
    the seconds, repeated spaces). *)
From S2P Require Import Prelude Wire Strconv.
From Stdlib Require Import Ascii.

(** ** Calendar *)

(** Days since 1970-01-01 of a civil date, and back (proleptic Gregorian). *)
Definition days_from_civil (y m d : Z) : Z :=
  let y := if m <=? 2 then y - 1 else y in
  let era := y / 400 in
  let yoe := y - era * 400 in
  let doy := (153 * (m + (if 2 <? m then -3 else 9)) + 2) / 5 + d - 1 in
  let doe := yoe * 365 + yoe / 4 - yoe / 100 + doy in
  era * 146097 + doe - 719468.

Definition civil_from_days (z : Z) : Z * Z * Z :=
  let z := z + 719468 in
  let era := z / 146097 in
  let doe := z - era * 146097 in
  let yoe := (doe - doe / 1460 + doe / 36524 - doe / 146096) / 365 in
  let doy := doe - (365 * yoe + yoe / 4 - yoe / 100) in
  let mp := (5 * doy + 2) / 153 in
  let d := doy - (153 * mp + 2) / 5 + 1 in
  let m := if mp <? 10 then mp + 3 else mp - 9 in
  ((yoe + era * 400 + (if m <=? 2 then 1 else 0)), m, d).

Definition is_leap (y : Z) : bool := (y mod 4 =? 0) && (negb (y mod 100 =? 0) || (y mod 400 =? 0)).
Definition daysIn (m y : Z) : Z :=
  if m =? 2 then (if is_leap y then 29 else 28)
  else if (m =? 4) || (m =? 6) || (m =? 9) || (m =? 11) then 30 else 31.

(** ** Formatting *)

Definition pad2 (z : Z) : string := if z <? 10 then ("0" ++ format_uint z)%string else format_uint z.
Definition pad4 (z : Z) : string :=
  if z <? 10 then ("000" ++ format_uint z)%string
  else if z <? 100 then ("00" ++ format_uint z)%string
  else if z <? 1000 then ("0" ++ format_uint z)%string else format_uint z.

(** ["15:04"] of a time of day in seconds. *)
Definition format_hm (sod : Z) : string :=
  (pad2 (sod / 3600) ++ ":" ++ pad2 (sod / 60 mod 60))%string.
(** ["15:04:05"] *)
Definition format_hms (sod : Z) : string := (format_hm sod ++ ":" ++ pad2 (sod mod 60))%string.

(** [".999999999"] of a whole number of milliseconds: up to three digits, no
    trailing zeros, nothing at all for zero. *)
Definition format_millis (ms : Z) : string :=
  if ms =? 0 then ""
  else if ms mod 100 =? 0 then ("." ++ format_uint (ms / 100))%string
  else if ms mod 10 =? 0 then ("." ++ pad2 (ms / 10))%string
  else ("." ++ (if (ms <? 100)%Z then "0" ++ pad2 ms else format_uint ms))%string.

(** ["2006-01-02"] *)
Definition format_date (days : Z) : string :=
  let '(y, m, d) := civil_from_days days in
  (pad4 y ++ "-" ++ pad2 m ++ "-" ++ pad2 d)%string.

(** [t.Format("15:04:05.999999999")] for [ms] milliseconds since the epoch, and
    the other three layouts. *)
Definition format_TIME (ms : Z) : string :=
  (format_hms (ms / 1000 mod 86400) ++ format_millis (ms mod 1000))%string.
Definition format_TOD (ms : Z) : string := format_hm (ms / 1000 mod 86400).
Definition format_DATE (secs : Z) : string := format_date (secs / 86400).
Definition format_DT (secs : Z) : string :=
  (format_date (secs / 86400) ++ " " ++ format_hms (secs mod 86400))%string.

(** ** Parsing *)

Abbreviation chars := (list ascii).
Definition parse_error : goerr := EMsg "parsing time".

(** [getnum(s, fixed)]: one or two digits, exactly two if [fixed]. *)
Definition getnum (fixed : bool) (s : chars) : res (Z * chars) :=
  match s with
  | [] => Err parse_error
  | a :: s' =>
      match char_digit a with
      | None => Err parse_error
      | Some d =>
          match match s' with b :: _ => char_digit b | [] => None end with
          | Some e => Ok (10 * d + e, tail s')
          | None => if fixed then Err parse_error else Ok (d, s')
          end
      end
  end.

Definition expect (c : ascii) (s : chars) : res chars :=
  match s with x :: s => if Ascii.eqb x c then Ok s else Err parse_error | [] => Err parse_error end.

(** The blank of a layout: any number of blanks, but not something else. *)
Fixpoint cutspace (s : chars) : chars :=
  match s with x :: s' => if Ascii.eqb x " " then cutspace s' else s | [] => [] end.
Definition expect_space (s : chars) : res chars :=
  match s with x :: _ => if Ascii.eqb x " " then Ok (cutspace s) else Err parse_error | [] => Ok [] end.

Definition ranged (lo hi : Z) (r : res (Z * chars)) : res (Z * chars) :=
  '(v, s) ← r; if (v <? lo) || (hi <? v) then Err parse_error else Ok (v, s).

Definition hour (s : chars) : res (Z * chars) := ranged 0 23 (getnum false s).
Definition sixty (s : chars) : res (Z * chars) := ranged 0 59 (getnum true s).

(** Digits, and what follows them. *)
Fixpoint span_digits (s : chars) : list Z * chars :=
  match s with
  | c :: s' => match char_digit c with
               | Some d => let '(ds, r) := span_digits s' in (d :: ds, r)
               | None => ([], s)
               end
  | [] => ([], [])
  end.

(** [parseNanoseconds]: the first nine digits, scaled. *)
Definition nanos (ds : list Z) : Z :=
  let ds := take 9 ds in
  foldl (fun acc d => 10 * acc + d) 0 ds * 10 ^ (9 - len ds).

(** An optional fraction: a period or comma followed by a digit. *)
Definition fraction (s : chars) : Z * chars :=
  match s with
  | c :: s' =>
      if Ascii.eqb c "." || Ascii.eqb c "," then
        match span_digits s' with
        | ([], _) => (0, s)
        | (ds, r) => (nanos ds, r)
        end
      else (0, s)
  | [] => (0, s)
  end.

Definition finish {A} (a : A) (s : chars) : res A := match s with [] => Ok a | _ => Err parse_error end.

(** Seconds of the day, nanoseconds. *)
Definition parse_clock (s : chars) : res (Z * Z * chars) :=
  '(h, s) ← hour s; s ← expect ":" s; '(m, s) ← sixty s; s ← expect ":" s; '(sec, s) ← sixty s;
  let '(ns, s) := fraction s in Ok (h * 3600 + m * 60 + sec, ns, s).

(** Layouts ["15:04:05.999999999"] and ["15:04:05"]: after the seconds the parser
    takes a fraction whether or not the layout shows one. *)
Definition parse_hms (s : string) : res (Z * Z) :=
  '(sod, ns, s) ← parse_clock (list_ascii_of_string s); finish (sod, ns) s.

(** Layout ["15:04"]. *)
Definition parse_hm (s : string) : res Z :=
  '(h, s) ← hour (list_ascii_of_string s); s ← expect ":" s; '(m, s) ← sixty s; finish (h * 3600 + m * 60) s.

(** The four digits of a year. *)
Definition parse_year (s : chars) : res (Z * chars) :=
  match s with
  | a :: b :: c :: d :: s =>
      match char_digit a, char_digit b, char_digit c, char_digit d with
      | Some a, Some b, Some c, Some d => Ok (1000 * a + 100 * b + 10 * c + d, s)
      | _, _, _, _ => Err parse_error
      end
  | _ => Err parse_error
  end.

Definition parse_ymd (s : chars) : res (Z * Z * Z * chars) :=
  '(y, s) ← parse_year s; s ← expect "-" s; '(m, s) ← ranged 1 12 (getnum true s); s ← expect "-" s;
  '(d, s) ← getnum true s; Ok (y, m, d, s).

(** The day is checked against its month last. *)
Definition civil_days (y m d : Z) : res Z :=
  if (d <? 1) || (daysIn m y <? d) then Err parse_error else Ok (days_from_civil y m d).

(** Layout ["2006-01-02"], as days since the epoch. *)
Definition parse_date (s : string) : res Z :=
  '(y, m, d, s) ← parse_ymd (list_ascii_of_string s); _ ← finish tt s; civil_days y m d.

(** Layout ["2006-01-02 15:04:05"], as seconds since the epoch; a fraction is
    accepted and dropped by the caller. *)
Definition parse_datetime (s : string) : res Z :=
  '(y, m, d, s) ← parse_ymd (list_ascii_of_string s);
  s ← expect_space s;
  '(sod, _, s) ← parse_clock s; _ ← finish tt s;
  days ← civil_days y m d; Ok (days * 86400 + sod).

(** ** Round trips *)

Lemma expect_cons c s : expect c (c :: s) = Ok s.
Proof. cbn. by rewrite Ascii.eqb_refl. Qed.

Lemma pad2_digits z : 0 <= z < 100 ->
  list_ascii_of_string (pad2 z) = [digit_char (z / 10); digit_char (z mod 10)].
Proof.
  intros Hz. assert (H : forallb (fun n => bool_decide (list_ascii_of_string (pad2 (Z.of_nat n))
     = [digit_char (Z.of_nat n / 10); digit_char (Z.of_nat n mod 10)])) (seq 0 100) = true) by (by vm_compute).
  rewrite forallb_forall in H. specialize (H (Z.to_nat z)).
  rewrite Z2Nat.id in H by lia. eapply bool_decide_unpack. apply Is_true_true. apply H.
  apply in_seq. lia.
Qed.

Lemma getnum_pad2 fixed z rest : 0 <= z < 100 ->
  getnum fixed (list_ascii_of_string (pad2 z) ++ rest) = Ok (z, rest).
Proof.
  intros Hz. rewrite pad2_digits by done. cbn [app getnum].
  pose proof (Z.mod_pos_bound z 10 ltac:(lia)). pose proof (Z.div_mod z 10 ltac:(lia)).
  rewrite !char_digit_char by lia. cbn [tail]. do 2 f_equal. lia.
Qed.

Lemma sixty_pad2 z rest : 0 <= z < 60 -> sixty (list_ascii_of_string (pad2 z) ++ rest) = Ok (z, rest).
Proof.
  intros Hz. unfold sixty, ranged. rewrite getnum_pad2 by lia. cbn.
  by rewrite (proj2 (Z.ltb_ge z 0)), (proj2 (Z.ltb_ge 59 z)) by lia.
Qed.
Lemma hour_pad2 z rest : 0 <= z < 24 -> hour (list_ascii_of_string (pad2 z) ++ rest) = Ok (z, rest).
Proof.
  intros Hz. unfold hour, ranged. rewrite getnum_pad2 by lia. cbn.
  by rewrite (proj2 (Z.ltb_ge z 0)), (proj2 (Z.ltb_ge 23 z)) by lia.
Qed.

Definition no_fraction (rest : chars) : Prop := fraction rest = (0, rest).

Lemma parse_clock_format sod rest ns rest' : 0 <= sod < 86400 -> fraction rest = (ns, rest') ->
  parse_clock (list_ascii_of_string (format_hms sod) ++ rest) = Ok (sod, ns, rest').
Proof.
  intros Hs Hr. unfold format_hms, format_hm, parse_clock.
  rewrite !list_ascii_app, <- !app_assoc. change (list_ascii_of_string ":") with [":"%char].
  assert (H1 : 0 <= sod / 3600 < 24) by (split; [apply Z.div_pos; lia|apply Z.div_lt_upper_bound; lia]).
  assert (H2 : 0 <= sod / 60 mod 60 < 60) by (apply Z.mod_pos_bound; lia).
  assert (H3 : 0 <= sod mod 60 < 60) by (apply Z.mod_pos_bound; lia).
  rewrite hour_pad2 by done. cbn [mbind res_bind app]. rewrite expect_cons. cbn [mbind res_bind].
  rewrite sixty_pad2 by done. cbn [mbind res_bind app]. rewrite expect_cons. cbn [mbind res_bind].
  rewrite sixty_pad2 by done. cbn [mbind res_bind]. rewrite Hr. do 3 f_equal.
  pose proof (Z.div_mod sod 60 ltac:(lia)). pose proof (Z.div_mod (sod / 60) 60 ltac:(lia)).
  rewrite Z.div_div in * by lia. change (60 * 60) with 3600 in *. lia.
Qed.

Lemma millis_roundtrip ms : 0 <= ms < 1000 ->
  fraction (list_ascii_of_string (format_millis ms)) = (ms * 1000000, []).
Proof.
  intros Hz. assert (H : forallb (fun n => bool_decide (fraction (list_ascii_of_string (format_millis (Z.of_nat n)))
     = (Z.of_nat n * 1000000, []))) (seq 0 1000) = true) by (by vm_compute).
  rewrite forallb_forall in H. specialize (H (Z.to_nat ms)).
  rewrite Z2Nat.id in H by lia. eapply bool_decide_unpack. apply Is_true_true. apply H.
  apply in_seq. lia.
Qed.

(** The calendar, checked on every day a 32-bit count of seconds can reach. *)
Definition max_day : nat := 49711.

Definition day_ok (z : Z) : bool :=
  let '(y, m, d) := civil_from_days z in
  (days_from_civil y m d =? z) && (1970 <=? y) && (y <? 10000) && (1 <=? m) && (m <=? 12) &&
  (1 <=? d) && (d <=? daysIn m y).

Fixpoint days_check (n : nat) (z : Z) : bool :=
  match n with O => true | S n => day_ok z && days_check n (z + 1) end.

Lemma days_ok : days_check max_day 0 = true.
Proof. by vm_compute. Qed.

Lemma days_check_spec n : forall z k, days_check n z = true -> 0 <= k < Z.of_nat n -> day_ok (z + k) = true.
Proof.
  induction n as [|n IH]; intros z k H Hk; [lia|]. cbn [days_check] in H. apply andb_prop in H as [H1 H2].
  destruct (Z.eq_dec k 0) as [->|]; [by rewrite Z.add_0_r|].
  replace (z + k) with (z + 1 + (k - 1)) by lia. apply IH; [done|lia].
Qed.

Lemma daysIn_31 m y : daysIn m y <= 31.
Proof. unfold daysIn. repeat case_if; lia. Qed.

Lemma day_spec z : 0 <= z < Z.of_nat max_day -> exists y m d, civil_from_days z = (y, m, d) /\
  days_from_civil y m d = z /\ 1970 <= y < 10000 /\ 1 <= m <= 12 /\ 1 <= d <= daysIn m y /\ d <= 31.
Proof.
  intros Hz. pose proof (days_check_spec max_day 0 z days_ok Hz) as H. rewrite Z.add_0_l in H.
  unfold day_ok in H. destruct (civil_from_days z) as [[y m] d]. exists y, m, d.
  repeat (apply andb_prop in H as [H ?]). zbool. pose proof (daysIn_31 m y).
  split_and!; (done || lia).
Qed.

Lemma year_digits y rest : 1000 <= y < 10000 ->
  parse_year (list_ascii_of_string (pad4 y) ++ rest) = Ok (y, rest).
Proof.
  intros Hy. unfold pad4. rewrite !(proj2 (Z.ltb_ge _ _)) by lia.
  unfold format_uint. rewrite list_ascii_of_string_of_list_ascii.
  assert (Hd : dec_digits (dec_fuel y) y = [y mod 10; y / 10 mod 10; y / 100 mod 10; y / 1000]).
  { assert (Hf : exists k, dec_fuel y = S (S (S (S k)))).
    { unfold dec_fuel. assert (8 <= Z.log2 y) by (apply Z.log2_le_pow2; lia).
      exists (Z.to_nat (Z.log2 y) - 3)%nat. lia. }
    destruct Hf as [k ->]. cbn [dec_digits]. rewrite (proj2 (Z.ltb_ge y 10)) by lia.
    assert (100 <= y / 10 < 1000) by (split; [apply Z.div_le_lower_bound; lia|apply Z.div_lt_upper_bound; lia]).
    rewrite (proj2 (Z.ltb_ge (y / 10) 10)) by lia. rewrite !Z.div_div by lia.
    change (10 * 10) with 100. change (100 * 10) with 1000.
    assert (10 <= y / 100 < 100) by (split; [apply Z.div_le_lower_bound; lia|apply Z.div_lt_upper_bound; lia]).
    rewrite (proj2 (Z.ltb_ge (y / 100) 10)) by lia.
    assert (1 <= y / 1000 < 10) by (split; [apply Z.div_le_lower_bound; lia|apply Z.div_lt_upper_bound; lia]).
    by rewrite (proj2 (Z.ltb_lt (y / 1000) 10)) by lia. }
  rewrite Hd. cbn [map rev app parse_year].
  assert (0 <= y / 1000 < 10) by (split; [apply Z.div_pos; lia|apply Z.div_lt_upper_bound; lia]).
  rewrite !char_digit_char by (done || apply Z.mod_pos_bound; lia).
  do 2 f_equal.
  pose proof (Z.div_mod y 10 ltac:(lia)). pose proof (Z.div_mod (y / 10) 10 ltac:(lia)).
  pose proof (Z.div_mod (y / 100) 10 ltac:(lia)). rewrite !Z.div_div in * by lia.
  change (10 * 10) with 100 in *. change (100 * 10) with 1000 in *. lia.
Qed.

Lemma parse_ymd_format z rest : 0 <= z < Z.of_nat max_day ->
  exists y m d, parse_ymd (list_ascii_of_string (format_date z) ++ rest) = Ok (y, m, d, rest) /\
    civil_days y m d = Ok z.
Proof.
  intros Hz. destruct (day_spec z Hz) as (y & m & d & E & Hd & Hy & Hm & Hday & H31).
  exists y, m, d. unfold format_date. rewrite E. unfold parse_ymd. rewrite !list_ascii_app, <- !app_assoc.
  change (list_ascii_of_string "-") with ["-"%char].
  rewrite year_digits by lia. cbn [mbind res_bind app]. rewrite expect_cons. cbn [mbind res_bind].
  unfold ranged. rewrite getnum_pad2 by lia. cbn [mbind res_bind].
  rewrite (proj2 (Z.ltb_ge m 1)), (proj2 (Z.ltb_ge 12 m)) by lia. cbn [orb mbind res_bind app].
  rewrite expect_cons. cbn [mbind res_bind]. rewrite getnum_pad2 by lia. split; [done|].
  unfold civil_days. rewrite (proj2 (Z.ltb_ge d 1)), (proj2 (Z.ltb_ge _ d)) by lia. cbn. by rewrite Hd.
Qed.

Lemma seconds_day secs : in_u 32 secs -> 0 <= secs / 86400 < Z.of_nat max_day.
Proof.
  intros [H1 H2]. assert (E : Z.of_nat max_day = 49711) by (by vm_compute). rewrite E.
  split; [apply Z.div_pos; lia|]. apply Z.div_lt_upper_bound; lia.
Qed.

Lemma parse_hms_TIME ms : 0 <= ms ->
  parse_hms (format_TIME ms) = Ok (ms / 1000 mod 86400, ms mod 1000 * 1000000).
Proof.
  intros H. unfold parse_hms, format_TIME. rewrite list_ascii_app.
  rewrite (parse_clock_format _ _ (ms mod 1000 * 1000000) []); [done|apply Z.mod_pos_bound; lia|].
  apply millis_roundtrip. apply Z.mod_pos_bound. lia.
Qed.

Lemma parse_hm_TOD ms : 0 <= ms -> parse_hm (format_TOD ms) = Ok (ms / 60000 mod 1440 * 60).
Proof.
  intros H. unfold parse_hm, format_TOD, format_hm. set (sod := ms / 1000 mod 86400).
  assert (Hs : 0 <= sod < 86400) by (apply Z.mod_pos_bound; lia).
  rewrite !list_ascii_app, <- (app_nil_r (list_ascii_of_string (pad2 (sod / 60 mod 60)))).
  change (list_ascii_of_string ":") with [":"%char].
  rewrite hour_pad2 by (split; [apply Z.div_pos; lia|apply Z.div_lt_upper_bound; lia]).
  cbn [mbind res_bind app]. rewrite expect_cons. cbn [mbind res_bind].
  rewrite sixty_pad2 by (apply Z.mod_pos_bound; lia). cbn [mbind res_bind finish]. f_equal.
  assert (Hq : ms / 60000 mod 1440 = sod / 60).
  { unfold sod. change 86400 with (60 * 1440). rewrite Z.rem_mul_r by lia.
    rewrite Z.div_div by lia. change (1000 * 60) with 60000.
    rewrite (Z.mul_comm 60), Z.div_add by lia.
    rewrite (Z.div_small (_ mod 60)) by (apply Z.mod_pos_bound; lia). lia. }
  rewrite Hq. pose proof (Z.div_mod (sod / 60) 60 ltac:(lia)). rewrite Z.div_div in * by lia.
  change (60 * 60) with 3600 in *. lia.
Qed.

Lemma parse_date_DATE secs : in_u 32 secs -> parse_date (format_DATE secs) = Ok (secs / 86400).
Proof.
  intros H. unfold parse_date, format_DATE. rewrite <- (app_nil_r (list_ascii_of_string _)).
  destruct (parse_ymd_format (secs / 86400) [] (seconds_day _ H)) as (y & m & d & -> & Hc).
  cbn [mbind res_bind finish]. exact Hc.
Qed.

Lemma parse_datetime_DT secs : in_u 32 secs -> parse_datetime (format_DT secs) = Ok secs.
Proof.
  intros H. unfold parse_datetime, format_DT. rewrite !list_ascii_app.
  destruct (parse_ymd_format (secs / 86400) (list_ascii_of_string " " ++ list_ascii_of_string (format_hms (secs mod 86400)))
     (seconds_day _ H)) as (y & m & d & -> & Hc).
  assert (Hm : 0 <= secs mod 86400 < 86400) by (apply Z.mod_pos_bound; lia).
  cbn [mbind res_bind]. change (list_ascii_of_string " ") with [" "%char]. cbn [app].
  assert (Hes : forall l, expect_space (" "%char :: l) = Ok (cutspace l)) by done.
  rewrite Hes. cbn [mbind res_bind]. rewrite <- (app_nil_r (list_ascii_of_string (format_hms _))).
  assert (Hcut : forall l, cutspace (list_ascii_of_string (format_hms (secs mod 86400)) ++ l)
                 = list_ascii_of_string (format_hms (secs mod 86400)) ++ l).
  { intros l. unfold format_hms, format_hm. rewrite !list_ascii_app, <- !app_assoc.
    rewrite pad2_digits by (split; [apply Z.div_pos; lia|apply Z.div_lt_upper_bound; lia]).
    cbn [app cutspace]. replace (Ascii.eqb _ " ") with false; [done|].
    symmetry. apply Ascii.eqb_neq. intros E. apply (f_equal char_digit) in E.
    rewrite char_digit_char in E; [done|]. rewrite Z.div_div by lia.
    split; [apply Z.div_pos; lia|apply Z.div_lt_upper_bound; lia]. }
  rewrite Hcut. erewrite (parse_clock_format _ [] 0 []) by done.
  cbn [mbind res_bind finish]. rewrite Hc. cbn [mbind res_bind]. f_equal.
  pose proof (Z.div_mod secs 86400 ltac:(lia)). lia.
Qed.
