(* ===== verification/Utf.v ===== *)
(** What symbol_codec.go uses of Go's strings and [unicode/utf16] for WSTRING
    values: UTF-8 conversion between strings and runes, UTF-16 code units. *)
From S2P Require Import Prelude Wire.

Definition replacementChar : Z := 65533.
Definition maxRune : Z := 1114111.
Definition is_surrogate (r : Z) : bool := (55296 <=? r) && (r <=? 57343).
Definition valid_rune (r : Z) : Prop := (0 <= r < 55296) \/ (57344 <= r <= maxRune).

(** ** UTF-8 *)

Definition utf8_encode_rune (r : Z) : bytes :=
  let r := if (r <? 0) || (maxRune <? r) || is_surrogate r then replacementChar else r in
  map byte_of_Z
    (if r <? 128 then [r]
     else if r <? 2048 then [192 + r / 64; 128 + r mod 64]
     else if r <? 65536 then [224 + r / 4096; 128 + r / 64 mod 64; 128 + r mod 64]
     else [240 + r / 262144; 128 + r / 4096 mod 64; 128 + r / 64 mod 64; 128 + r mod 64]).

(** [string(runes)]. *)
Definition utf8_encode (rs : list Z) : bytes := concat (map utf8_encode_rune rs).

Definition in_range (lo hi : Z) (b : byte) : bool := (lo <=? Z_of_byte b) && (Z_of_byte b <=? hi).
Definition cont (b : byte) : bool := in_range 128 191 b.

(** One step of [range s]: the rune, and the rest; an invalid byte is one
    replacement character. *)
Definition utf8_decode_rune (x0 : byte) (t : bytes) : Z * bytes :=
  let c0 := Z_of_byte x0 in
  let bad := (replacementChar, t) in
  if c0 <? 128 then (c0, t)
  else if (194 <=? c0) && (c0 <=? 223) then
    match t with
    | x1 :: t1 => if cont x1 then ((c0 - 192) * 64 + (Z_of_byte x1 - 128), t1) else bad
    | [] => bad
    end
  else if (224 <=? c0) && (c0 <=? 239) then
    match t with
    | x1 :: x2 :: t2 =>
        if in_range (if c0 =? 224 then 160 else 128) (if c0 =? 237 then 159 else 191) x1 && cont x2
        then ((c0 - 224) * 4096 + (Z_of_byte x1 - 128) * 64 + (Z_of_byte x2 - 128), t2) else bad
    | _ => bad
    end
  else if (240 <=? c0) && (c0 <=? 244) then
    match t with
    | x1 :: x2 :: x3 :: t3 =>
        if in_range (if c0 =? 240 then 144 else 128) (if c0 =? 244 then 143 else 191) x1 && cont x2 && cont x3
        then ((c0 - 240) * 262144 + (Z_of_byte x1 - 128) * 4096 + (Z_of_byte x2 - 128) * 64 + (Z_of_byte x3 - 128), t3)
        else bad
    | _ => bad
    end
  else bad.

(** [[]rune(s)]; every step takes a byte. *)
Fixpoint utf8_decode_fuel (fuel : nat) (b : bytes) : list Z :=
  match fuel, b with
  | S fuel, x :: t => let '(r, t) := utf8_decode_rune x t in r :: utf8_decode_fuel fuel t
  | _, _ => []
  end.
Definition utf8_decode (b : bytes) : list Z := utf8_decode_fuel (length b) b.

(** ** UTF-16 *)

Definition utf16_encode_rune (r : Z) : list Z :=
  if ((0 <=? r) && (r <? 55296)) || ((57344 <=? r) && (r <? 65536)) then [r]
  else if (65536 <=? r) && (r <=? maxRune)
  then [55296 + (r - 65536) / 1024; 56320 + (r - 65536) mod 1024]
  else [replacementChar].
Definition utf16_encode (rs : list Z) : list Z := concat (map utf16_encode_rune rs).

Fixpoint utf16_decode (us : list Z) : list Z :=
  match us with
  | [] => []
  | u :: us' =>
      if (55296 <=? u) && (u <? 56320) then
        match us' with
        | v :: us'' =>
            if (56320 <=? v) && (v <? 57344)
            then ((u - 55296) * 1024 + (v - 56320) + 65536) :: utf16_decode us''
            else replacementChar :: utf16_decode us'
        | [] => [replacementChar]
        end
      else if (56320 <=? u) && (u <? 57344) then replacementChar :: utf16_decode us'
      else u :: utf16_decode us'
  end.

(** ** Round trips *)

Ltac zcmp :=
  repeat match goal with
  | |- context [?a <? ?b] => first [rewrite (proj2 (Z.ltb_lt a b)) by lia | rewrite (proj2 (Z.ltb_ge a b)) by lia]
  | |- context [?a <=? ?b] => first [rewrite (proj2 (Z.leb_le a b)) by lia | rewrite (proj2 (Z.leb_gt a b)) by lia]
  | |- context [?a =? ?b] => first [rewrite (proj2 (Z.eqb_eq a b)) by lia | rewrite (proj2 (Z.eqb_neq a b)) by lia]
  end; cbn [andb orb].

Lemma byte_Z z : 0 <= z < 256 -> Z_of_byte (byte_of_Z z) = z.
Proof. intros. rewrite Z_of_byte_of_Z. by apply Z.mod_small. Qed.

Lemma utf8_rune_roundtrip r rest : valid_rune r ->
  exists x t, utf8_encode_rune r = x :: t /\ utf8_decode_rune x (t ++ rest) = (r, rest).
Proof.
  intros Hr. unfold valid_rune, maxRune in Hr. unfold utf8_encode_rune, is_surrogate, maxRune.
  assert (Hv : (r <? 0) || (1114111 <? r) || ((55296 <=? r) && (r <=? 57343)) = false).
  { destruct Hr; zcmp; done. }
  rewrite Hv. cbv zeta.
  pose proof (Z.div_mod r 64 ltac:(lia)). pose proof (Z.mod_pos_bound r 64 ltac:(lia)).
  pose proof (Z.div_mod (r / 64) 64 ltac:(lia)). pose proof (Z.mod_pos_bound (r / 64) 64 ltac:(lia)).
  pose proof (Z.div_mod (r / 4096) 64 ltac:(lia)). pose proof (Z.mod_pos_bound (r / 4096) 64 ltac:(lia)).
  rewrite !Z.div_div in * by lia. change (64 * 64) with 4096 in *. change (4096 * 64) with 262144 in *.
  destruct (Z.ltb_spec r 128); [|destruct (Z.ltb_spec r 2048); [|destruct (Z.ltb_spec r 65536)]];
    cbn [map]; eexists _, _; (split; [done|]); unfold utf8_decode_rune, cont, in_range; cbn [app];
    rewrite !byte_Z by lia.
  - zcmp. done.
  - zcmp. f_equal. lia.
  - assert (224 + r / 4096 = 224 -> 160 <= 128 + r / 64 mod 64) by lia.
    assert (224 + r / 4096 = 237 -> 128 + r / 64 mod 64 <= 159) by lia.
    destruct (Z.eqb_spec (224 + r / 4096) 224), (Z.eqb_spec (224 + r / 4096) 237); zcmp; f_equal; lia.
  - assert (240 + r / 262144 = 240 -> 144 <= 128 + r / 4096 mod 64) by lia.
    assert (240 + r / 262144 = 244 -> 128 + r / 4096 mod 64 <= 143) by lia.
    destruct (Z.eqb_spec (240 + r / 262144) 240), (Z.eqb_spec (240 + r / 262144) 244); zcmp; f_equal; lia.
Qed.

Lemma utf8_decode_fuel_encode rs : Forall valid_rune rs -> forall fuel,
  (length (utf8_encode rs) <= fuel)%nat -> utf8_decode_fuel fuel (utf8_encode rs) = rs.
Proof.
  intros Hf. induction Hf as [|r rs Hr Hf IH]; intros fuel Hl; [by destruct fuel|].
  unfold utf8_encode in *. cbn [map concat] in *.
  destruct (utf8_rune_roundtrip r (concat (map utf8_encode_rune rs)) Hr) as (x & t & E & Hd).
  rewrite E in *. cbn [app length] in *. destruct fuel as [|fuel]; [lia|]. cbn [utf8_decode_fuel].
  rewrite Hd. f_equal. apply IH. rewrite length_app in Hl. lia.
Qed.

Lemma utf8_roundtrip rs : Forall valid_rune rs -> utf8_decode (utf8_encode rs) = rs.
Proof. intros. by apply utf8_decode_fuel_encode. Qed.

Lemma utf16_roundtrip rs : Forall valid_rune rs -> utf16_decode (utf16_encode rs) = rs.
Proof.
  intros Hf. induction Hf as [|r rs Hr Hf IH]; [done|]. unfold utf16_encode in *. cbn [map concat].
  unfold valid_rune, maxRune in Hr. unfold utf16_encode_rune at 1, maxRune.
  destruct (Z.ltb_spec r 65536).
  - replace (_ || _) with true by (destruct Hr; zcmp; done). cbn [app utf16_decode].
    destruct Hr; zcmp; by rewrite IH.
  - assert (E : ((0 <=? r) && (r <? 55296)) || ((57344 <=? r) && false) = false) by (zcmp; done).
    rewrite E. zcmp.
    pose proof (Z.div_mod (r - 65536) 1024 ltac:(lia)). pose proof (Z.mod_pos_bound (r - 65536) 1024 ltac:(lia)).
    cbn [app utf16_decode]. zcmp. rewrite IH. f_equal. lia.
Qed.

Lemma utf16_units rs : Forall valid_rune rs -> Forall (in_u 16) (utf16_encode rs).
Proof.
  intros Hf. unfold utf16_encode. rewrite Forall_concat, Forall_map.
  eapply Forall_impl; [exact Hf|]. intros r Hr. unfold valid_rune, maxRune in Hr. unfold utf16_encode_rune, in_u, maxRune.
  pose proof (Z.div_mod (r - 65536) 1024 ltac:(lia)). pose proof (Z.mod_pos_bound (r - 65536) 1024 ltac:(lia)).
  repeat case_if; rewrite ?orb_true_iff, ?andb_true_iff in *; zbool; repeat constructor; unfold replacementChar; lia.
Qed.

(** No code unit is zero unless a rune is. *)
Lemma utf16_nonzero rs : Forall valid_rune rs -> 0 ∉ rs -> 0 ∉ utf16_encode rs.
Proof.
  intros Hf. induction Hf as [|r rs Hr Hf IH]; [intros _; apply not_elem_of_nil|].
  intros Hn. unfold utf16_encode in *. cbn [map concat]. rewrite elem_of_app.
  rewrite elem_of_cons in Hn. intros [H|H]; [|apply IH; tauto].
  unfold valid_rune, maxRune in Hr. unfold utf16_encode_rune, maxRune, replacementChar in H.
  pose proof (Z.div_mod (r - 65536) 1024 ltac:(lia)). pose proof (Z.mod_pos_bound (r - 65536) 1024 ltac:(lia)).
  repeat case_match; rewrite ?elem_of_cons, ?elem_of_nil in H; lia.
Qed.
