(* ===== verification/Codec.v ===== *)
(** symbol_codec.go and the JSON view of symbols.go: decoding PLC bytes to the
    text a symbol caches ([parse]), encoding text to PLC bytes ([writeToNode]),
    type resolution, single bits.

    The text of a floating-point number and of a JSON document is the business of
    Go's [strconv] and [encoding/json]: it enters through the interfaces
    [FloatText] and [JsonText]. *)
From S2P Require Import Prelude Wire Strconv Defs SymbolTable GoTime Utf.
From Stdlib Require Import Ascii.

(** [strconv.FormatFloat(f, 'f', -1, bits)] and [strconv.ParseFloat(s, bits)], on
    IEEE-754 bit patterns; [ParseFloat64] also returns the value that goes with an
    error. *)
Class FloatText : Type := {
  FormatFloat32 : Z -> string; FormatFloat64 : Z -> string;
  ParseFloat32 : string -> res Z; ParseFloat64 : string -> Z * option goerr }.

Inductive jvalue : Type :=
| JBool (b : bool) | JString (s : string) | JInt (z : Z) | JUint (z : Z) | JFloat (bits : Z)
| JObject (fields : list (string * jvalue)).

(** [json.Marshal] of a tree; [json.Unmarshal] into a map of raw messages, and of
    a quoted string. *)
Class JsonText : Type := {
  Marshal : jvalue -> res string;
  Unmarshal : string -> res (list (string * string));
  UnmarshalString : string -> res string }.

(** [strconv.ParseBool]. *)
Definition ParseBool (s : string) : res bool :=
  if str_in s ["1"; "t"; "T"; "TRUE"; "true"; "True"]%string then Ok true
  else if str_in s ["0"; "f"; "F"; "FALSE"; "false"; "False"]%string then Ok false
  else Err (EMsg "strconv.ParseBool: invalid syntax").

(** ** parseTree *)

Definition stringsList : list string :=
  ["STRING"; "WSTRING"; "TIME"; "TOD"; "TIME_OF_DAY"; "DATE"; "DT"; "DATE_AND_TIME"]%string.
Definition signedIntTypes : list string := ["SINT"; "INT"; "DINT"; "LINT"]%string.
Definition unsignedIntTypes : list string :=
  ["USINT"; "UINT"; "UDINT"; "ULINT"; "BYTE"; "WORD"; "DWORD"; "LWORD"]%string.
Definition floatTypes : list string := ["REAL"; "LREAL"]%string.

(** The value that accompanies the error of [ParseInt] / [ParseUint]: the nearest
    representable one when out of range, zero on bad syntax. *)
Definition ParseInt64_value (s : string) : Z :=
  match parse_int 64 s with
  | Ok v => v
  | Err (EMsg m) => if String.eqb m "strconv.ParseInt: value out of range"
                    then (if has_prefix "-" s then - 2 ^ 63 else 2 ^ 63 - 1) else 0
  | _ => 0
  end.
Definition ParseUint64_value (s : string) : Z :=
  match parse_uint 64 s with
  | Ok v => v
  | Err (EMsg m) => if String.eqb m "strconv.ParseUint: value out of range" then 2 ^ 64 - 1 else 0
  | _ => 0
  end.

Section Codec.
Context `{FloatText} `{JsonText}.

Fixpoint parseTree (s : symbol) : jvalue :=
  let '(MkSymbol d children) := s in
  match children with
  | [] =>
      if String.eqb (sy_DataType d) "BOOL" then
        JBool (match ParseBool (sy_Value d) with Ok b => b | _ => false end)
      else if str_in (sy_DataType d) stringsList then JString (sy_Value d)
      else if str_in (sy_DataType d) signedIntTypes then JInt (ParseInt64_value (sy_Value d))
      else if str_in (sy_DataType d) unsignedIntTypes then JUint (ParseUint64_value (sy_Value d))
      else JFloat (ParseFloat64 (sy_Value d)).1
  | _ =>
      JObject ((fix go (cs : list (string * symbol)) (acc : list (string * jvalue)) :=
                  match cs with
                  | [] => acc
                  | (_, c) :: cs => go cs (amap_insert (jsonKey (sy_Name (sy_data c))) (parseTree c) acc)
                  end) children [])
  end.

Definition getJSON (s : symbol) : string :=
  match Marshal (parseTree s) with Ok t => t | _ => "" end.

(** ** parse *)

Definition width_check (n : Z) (want : Z) (r : res string) : res string :=
  if negb (n =? want) then Err (EMsg "Size Wrong") else r.

Fixpoint wstring_len (raw : bytes) : nat :=
  match raw with
  | a :: b :: raw => if (Z_of_byte a =? 0) && (Z_of_byte b =? 0) then 0 else S (wstring_len raw)
  | _ => 0
  end.
(** The first [n] UTF-16LE code units. *)
Fixpoint units (n : nat) (raw : bytes) : list Z :=
  match n, raw with
  | S n, a :: b :: raw => le_get [a; b] :: units n raw
  | _, _ => []
  end.

(** The cases of the [switch] on the type name; [None] is the [default]. *)
Definition parse_known (dt : string) (data : bytes) (start stop : Z) : option (res string) :=
  let n := stop - start in
  let raw := slice data start stop in
  if String.eqb dt "BOOL" then
    Some (width_check n 1 (r ← raw; b ← index r 0; Ok (if 0 <? Z_of_byte b then "true"%string else "false"%string)))
  else if str_in dt ["BYTE"; "USINT"]%string then
    Some (width_check n 1 (b ← index data start; Ok (format_uint (Z_of_byte b))))
  else if String.eqb dt "SINT" then
    Some (width_check n 1 (b ← index data start; Ok (format_int (i8 (Z_of_byte b)))))
  else if str_in dt ["UINT"; "WORD"; "UINT16"]%string then
    Some (width_check n 2 (r ← raw; i ← le_uint 2 r; Ok (format_uint i)))
  else if str_in dt ["UDINT"; "DWORD"]%string then
    Some (width_check n 4 (r ← raw; i ← le_uint 4 r; Ok (format_uint i)))
  else if str_in dt ["INT"; "INT16"]%string then
    Some (width_check n 2 (r ← raw; i ← le_uint 2 r; Ok (format_int (i16 i))))
  else if String.eqb dt "DINT" then
    Some (width_check n 4 (r ← raw; i ← le_uint 4 r; Ok (format_int (i32 i))))
  else if String.eqb dt "REAL" then
    Some (width_check n 4 (r ← raw; i ← le_uint 4 r; Ok (FormatFloat32 i)))
  else if String.eqb dt "LREAL" then
    Some (width_check n 8 (r ← raw; i ← le_uint 8 r; Ok (FormatFloat64 i)))
  else if String.eqb dt "LINT" then
    Some (width_check n 8 (r ← raw; i ← le_uint 8 r; Ok (format_int (i64 i))))
  else if str_in dt ["ULINT"; "LWORD"]%string then
    Some (width_check n 8 (r ← raw; i ← le_uint 8 r; Ok (format_uint i)))
  else if String.eqb dt "STRING" then
    Some (r ← raw; Ok (string_of_bytes (until_nul r)))
  else if String.eqb dt "WSTRING" then
    Some (r ← raw; Ok (string_of_bytes (utf8_encode (utf16_decode (units (wstring_len r) r)))))
  else if String.eqb dt "TIME" then
    Some (width_check n 4 (r ← raw; i ← le_uint 4 r; Ok (format_TIME i)))
  else if str_in dt ["TOD"; "TIME_OF_DAY"]%string then
    Some (width_check n 4 (r ← raw; i ← le_uint 4 r; Ok (format_TOD i)))
  else if String.eqb dt "DATE" then
    Some (width_check n 4 (r ← raw; i ← le_uint 4 r; Ok (format_DATE i)))
  else if str_in dt ["DT"; "DATE_AND_TIME"]%string then
    Some (width_check n 4 (r ← raw; i ← le_uint 4 r; Ok (format_DT i)))
  else None.

Definition inferBaseType (size baseType : Z) : string :=
  if size =? 1 then "SINT" else if size =? 2 then "INT" else "".

(** The parseable type a name stands for in the datatype table, if loaded. *)
Definition table_type (dts : option datatypes) (dt : string) : option string :=
  match dts with
  | Some m => match m !! dt with
              | Some t => if parseable (dt_type t) then Some (dt_type t) else None
              | None => None
              end
  | None => None
  end.

Definition with_type (d : symbolData) (dt : string) : symbolData :=
  {| sy_Name := sy_Name d; sy_FullName := sy_FullName d; sy_DataType := dt; sy_Comment := sy_Comment d;
     sy_Handle := sy_Handle d; sy_Group := sy_Group d; sy_Offset := sy_Offset d; sy_Length := sy_Length d;
     sy_BaseType := sy_BaseType d; sy_Flags := sy_Flags d; sy_ContextMask := sy_ContextMask d;
     sy_Value := sy_Value d; sy_Valid := sy_Valid d; sy_ValueParsed := sy_ValueParsed d; sy_Parent := sy_Parent d |}.

(** [updateValue]. *)
Definition updateValue (v : string) (d : symbolData) : symbolData :=
  {| sy_Name := sy_Name d; sy_FullName := sy_FullName d; sy_DataType := sy_DataType d; sy_Comment := sy_Comment d;
     sy_Handle := sy_Handle d; sy_Group := sy_Group d; sy_Offset := sy_Offset d; sy_Length := sy_Length d;
     sy_BaseType := sy_BaseType d; sy_Flags := sy_Flags d; sy_ContextMask := sy_ContextMask d;
     sy_Value := v; sy_Valid := true; sy_ValueParsed := true; sy_Parent := sy_Parent d |}.

(** A symbol without members.  Resolving an alias parses again under the
    resolved name, which the [switch] knows: two rounds are enough
    ([parse_leaf_fuel]). *)
Fixpoint parse_leaf (fuel : nat) (d : symbolData) (data : bytes) (start : Z) (dts : option datatypes)
  : res string :=
  match fuel with
  | O => Panic
  | S fuel =>
      if len data <? start + sy_Length d then Err (EMsg "data too short")
      else
        match parse_known (sy_DataType d) data start (start + sy_Length d) with
        | Some r => r
        | None =>
            match table_type dts (sy_DataType d) with
            | Some ty => parse_leaf fuel (with_type d ty) data start None
            | None =>
                let resolved := adsTypeToString (sy_BaseType d) in
                if negb (String.eqb resolved "") then
                  let w := adsTypeWidth (sy_BaseType d) in
                  if (0 <? w) && negb (w =? sy_Length d)
                  then Err (EMsg "cannot parse: this looks like an array or struct, which needs the datatype table")
                  else parse_leaf fuel (with_type d resolved) data start None
                else
                  let inferred := inferBaseType (sy_Length d) (sy_BaseType d) in
                  if negb (String.eqb inferred "") then parse_leaf fuel (with_type d inferred) data start None
                  else Err (EMsg "unknown format cannot parse")
            end
        end
  end.

Fixpoint parse (s : symbol) (data : bytes) (offset : Z) (dts : option datatypes) : res (symbol * string) :=
  let '(MkSymbol d children) := s in
  if len data <? sy_Length d then Err (EMsg "s.Length exceeds data buffer size")
  else
    let stop := if len data <? offset + sy_Length d then len data else offset + sy_Length d in
    match children with
    | [] =>
        v ← parse_leaf 2 d data offset dts;
        Ok (MkSymbol (updateValue v d) [], v)
    | _ =>
        children' ←
          (fix go (cs : list (string * symbol)) : res (list (string * symbol)) :=
             match cs with
             | [] => Ok []
             | (k, c) :: cs =>
                 seg ← slice data offset stop;
                 '(c', _) ← wrap_err "parsing child" (parse c seg (sy_Offset (sy_data c)) dts);
                 cs' ← go cs;
                 Ok ((k, c') :: cs')
             end) children;
        let v := getJSON (MkSymbol d children') in
        Ok (MkSymbol (updateValue v d) children', v)
    end.

(** What an attempt to decode leaves behind, whether or not it succeeds: members are
    refreshed in place, one after the other, so those before the member that failed
    keep their new values, while the composite above keeps its old one. *)
Fixpoint parse_left (s : symbol) (data : bytes) (offset : Z) (dts : option datatypes) : symbol :=
  let '(MkSymbol d children) := s in
  match parse s data offset dts with
  | Ok (s', _) => s'
  | _ =>
      if len data <? sy_Length d then s
      else
        let stop := if len data <? offset + sy_Length d then len data else offset + sy_Length d in
        MkSymbol d ((fix go (cs : list (string * symbol)) : list (string * symbol) :=
                       match cs with
                       | [] => []
                       | (k, c) :: cs =>
                           match slice data offset stop with
                           | Ok seg =>
                               (k, parse_left c seg (sy_Offset (sy_data c)) dts)
                                 :: (if is_ok (parse c seg (sy_Offset (sy_data c)) dts) then go cs else cs)
                           | _ => (k, c) :: cs
                           end
                       end) children)
  end.

(** ** writeToNode *)

(** The type name a value is written as. *)
Definition write_type (d : symbolData) (dts : option datatypes) : res string :=
  if parseable (sy_DataType d) then Ok (sy_DataType d)
  else
    match table_type dts (sy_DataType d) with
    | Some ty => Ok ty
    | None =>
        let inferred := inferBaseType (sy_Length d) (sy_BaseType d) in
        if negb (String.eqb inferred "") then Ok inferred
        else Err (EMsg "data type not parseable and size not inferable")
    end.

(** [copy] into a zeroed buffer of [n] bytes. *)
Definition padded (n : Z) (src : bytes) : bytes :=
  take (Z.to_nat n) src ++ replicate (Z.to_nat n - length src) Byte.x00.

(** The code units written, and the surrogate rule of a truncated text. *)
Definition truncate_units (maxChars : nat) (encoded : list Z) : list Z :=
  if (maxChars <? length encoded)%nat then
    let e := take maxChars encoded in
    match last e with
    | Some u => if (55296 <=? u) && (u <=? 56319) then take (length e - 1) e else e
    | None => e
    end
  else encoded.

Definition write_known (dt : string) (length_ : Z) (value : string) : res bytes :=
  if String.eqb dt "BOOL" then v ← ParseBool value; Ok [if v : bool then Byte.x01 else Byte.x00]
  else if str_in dt ["BYTE"; "USINT"]%string then v ← parse_uint 8 value; Ok [byte_of_Z v]
  else if str_in dt ["UINT"; "WORD"; "UINT16"]%string then v ← parse_uint 16 value; Ok (put_u16 v)
  else if str_in dt ["UDINT"; "DWORD"]%string then v ← parse_uint 32 value; Ok (put_u32 v)
  else if String.eqb dt "SINT" then v ← parse_int 8 value; Ok [byte_of_Z v]
  else if str_in dt ["INT"; "INT16"]%string then v ← parse_int 16 value; Ok (put_u16 v)
  else if String.eqb dt "DINT" then v ← parse_int 32 value; Ok (put_u32 v)
  else if String.eqb dt "REAL" then v ← ParseFloat32 value; Ok (put_u32 v)
  else if String.eqb dt "LREAL" then
    match ParseFloat64 value with (v, None) => Ok (put_u64 v) | (_, Some e) => Err e end
  else if String.eqb dt "LINT" then v ← parse_int 64 value; Ok (put_u64 v)
  else if str_in dt ["ULINT"; "LWORD"]%string then v ← parse_uint 64 value; Ok (put_u64 v)
  else if String.eqb dt "TIME" then
    '(sod, ns) ← match parse_hms value with
                 | Ok r => Ok r
                 | _ => wrap_err "TIME: expected format 15:04:05 or 15:04:05.999999999" (parse_hms value)
                 end;
    Ok (put_u32 (u32 (sod * 1000 + ns / 1000000)))
  else if str_in dt ["TOD"; "TIME_OF_DAY"]%string then
    sod ← wrap_err "TOD: expected format 15:04" (parse_hm value); Ok (put_u32 (u32 (sod * 1000)))
  else if String.eqb dt "DATE" then
    days ← wrap_err "DATE: expected format 2006-01-02" (parse_date value); Ok (put_u32 (u32 (days * 86400)))
  else if str_in dt ["DT"; "DATE_AND_TIME"]%string then
    secs ← wrap_err "DT: expected format 2006-01-02 15:04:05" (parse_datetime value); Ok (put_u32 (u32 secs))
  else if String.eqb dt "STRING" then
    if length_ <? 1 then Err (EMsg "STRING write requires s.Length >= 1")
    else
      let maxLen := length_ - 1 in
      let src := bytes_of_string value in
      let src := if maxLen <? len src then take (Z.to_nat maxLen) src else src in
      Ok (padded length_ src)
  else if String.eqb dt "WSTRING" then
    if length_ <? 2 then Err (EMsg "WSTRING write requires s.Length >= 2")
    else
      let encoded := utf16_encode (utf8_decode (bytes_of_string value)) in
      let encoded := truncate_units (Z.to_nat ((length_ - 2) / 2)) encoded in
      Ok (padded length_ (concat (map put_u16 encoded)))
  else Err (EMsg "datatype write is not implemented yet").

(** [copy(buf[off:end_], src)]. *)
Definition splice (buf : bytes) (off end_ : Z) (src : bytes) : bytes :=
  let src := take (Z.to_nat (end_ - off)) src in
  take (Z.to_nat off) buf ++ src ++ drop (Z.to_nat off + length src) buf.

Definition starts_with_quote (raw : string) : bool :=
  match raw with String c _ => Ascii.eqb c (ascii_of_nat 34) | EmptyString => false end.

Definition field_lookup (name : string) (fields : list (string * string)) : option string :=
  match amap_lookup name fields with
  | Some raw => Some raw
  | None => amap_lookup (jsonKey name) fields
  end.

Fixpoint writeToNode (s : symbol) (value : string) (dts : option datatypes) : res bytes :=
  let '(MkSymbol d children) := s in
  match children with
  | [] => dt ← write_type d dts; write_known dt (sy_Length d) value
  | _ =>
      fields ← wrap_err "struct write requires JSON input" (Unmarshal value);
      (fix go (cs : list (string * symbol)) (buf : bytes) : res bytes :=
         match cs with
         | [] => Ok buf
         | (name, child) :: cs =>
             match field_lookup name fields with
             | None => go cs buf
             | Some raw =>
                 childValue ← (if starts_with_quote raw
                               then wrap_err "field: invalid JSON string" (UnmarshalString raw) else Ok raw);
                 childBytes ← wrap_err "field" (writeToNode child childValue dts);
                 let off := sy_Offset (sy_data child) in
                 let end64 := off + sy_Length (sy_data child) in
                 if len buf <? end64 then Err (EMsg "field: offset+length exceeds struct size")
                 else go cs (splice buf off end64 childBytes)
             end
         end) children (replicate (Z.to_nat (sy_Length d)) Byte.x00)
  end.
End Codec.

(** ** Bits *)

Definition ReadBit (data : bytes) (bitIndex : Z) : res bool :=
  let byteIdx := Z.quot bitIndex 8 in
  if (bitIndex <? 0) || (len data <=? byteIdx) then Ok false
  else
    let bitIdx := Z.rem bitIndex 8 in
    b ← index data byteIdx;
    Ok (negb (Z.land (Z_of_byte b) (Z.shiftl 1 bitIdx) =? 0)).

Definition WriteBit (data : bytes) (bitIndex : Z) (value : bool) : res bytes :=
  let byteIdx := Z.quot bitIndex 8 in
  if (bitIndex <? 0) || (len data <=? byteIdx) then Ok data
  else
    let bitIdx := Z.rem bitIndex 8 in
    b ← index data byteIdx;
    let b' := if value then Z.lor (Z_of_byte b) (Z.shiftl 1 bitIdx)
              else Z.ldiff (Z_of_byte b) (Z.shiftl 1 bitIdx) in
    Ok (<[Z.to_nat byteIdx := byte_of_Z b']> data).
