(* ===== verification/CodecFacts.v ===== *)
(** Properties of the value codec (Codec.v): round trips in both directions, range
    checking, strings, robustness against short data, and what does not round
    trip. *)
From S2P Require Import Prelude Wire Strconv Defs SymbolTable GoTime Utf Codec.
From Stdlib Require Import Ascii.

(** ** The floating-point text interface *)

Definition is_nan (ebits mbits b : Z) : bool :=
  ((b / 2 ^ mbits) mod 2 ^ ebits =? 2 ^ ebits - 1) && negb (b mod 2 ^ mbits =? 0).
Definition nan32 : Z -> bool := is_nan 8 23.
Definition nan64 : Z -> bool := is_nan 11 52.

(** The documented law of the shortest representation ([prec] -1): parsing the
    text gives the same number back, bit for bit; NaN has one text only. *)
Record float_laws `{FloatText} : Prop := {
  fl32 : forall b, in_u 32 b -> nan32 b = false -> ParseFloat32 (FormatFloat32 b) = Ok b;
  fl64 : forall b, in_u 64 b -> nan64 b = false -> ParseFloat64 (FormatFloat64 b) = (b, None) }.

(** ** Fixed-width types *)

Definition fixed_types : list (string * Z) :=
  [("BOOL", 1); ("BYTE", 1); ("USINT", 1); ("UINT", 2); ("UINT16", 2); ("WORD", 2); ("UDINT", 4); ("DWORD", 4);
   ("SINT", 1); ("INT", 2); ("INT16", 2); ("DINT", 4); ("REAL", 4); ("LREAL", 8); ("TIME", 4); ("TOD", 4);
   ("TIME_OF_DAY", 4); ("DATE", 4); ("DT", 4); ("DATE_AND_TIME", 4); ("LINT", 8); ("ULINT", 8); ("LWORD", 8)]%string.

(** The stored values that survive a read followed by a write: all of them for
    integers, DT and bit strings; 0 and 1 for BOOL; every number but NaN; times
    within a day (whole minutes for TOD) and whole days for DATE. *)
Definition canonical (dt : string) (data : bytes) : bool :=
  let i := le_get data in
  if String.eqb dt "BOOL" then i <=? 1
  else if String.eqb dt "REAL" then negb (nan32 i)
  else if String.eqb dt "LREAL" then negb (nan64 i)
  else if String.eqb dt "TIME" then i <? 86400000
  else if str_in dt ["TOD"; "TIME_OF_DAY"]%string then (i <? 86400000) && (i mod 60000 =? 0)
  else if String.eqb dt "DATE" then i mod 86400 =? 0
  else true.

Lemma slice_all {A} (data : list A) n : len data = n -> slice data 0 n = Ok data.
Proof.
  intros <-. rewrite slice_Ok by (pose proof (len_nonneg data); lia).
  change (Z.to_nat 0) with 0%nat. rewrite drop_0, Z.sub_0_r. unfold len. by rewrite Nat2Z.id, firstn_all.
Qed.

Lemma le_uint_all k data : len data = Z.of_nat k -> le_uint k data = Ok (le_get data).
Proof.
  intros E. unfold le_uint. rewrite E, Z.ltb_irrefl. f_equal.
  rewrite firstn_all2; [done|]. unfold len in E. lia.
Qed.

Lemma parse_body (f : Z -> string) n k data : len data = n -> n = Z.of_nat k ->
  width_check (n - 0) n (r ← slice data 0 n; i ← le_uint k r; Ok (f i)) = Ok (f (le_get data)).
Proof.
  intros E ->. unfold width_check. rewrite Z.sub_0_r, Z.eqb_refl. cbn [negb].
  rewrite slice_all by done. cbn [mbind res_bind]. by rewrite le_uint_all.
Qed.

Lemma parse_byte (f : Z -> string) data : len data = 1 ->
  width_check (1 - 0) 1 (b ← index data 0; Ok (f (Z_of_byte b))) = Ok (f (le_get data)).
Proof.
  destruct data as [|b [|]]; try (unfold len; cbn; lia). intros _.
  unfold width_check, index. cbn. by rewrite Z.add_0_r.
Qed.

Lemma le_put_of k data : len data = Z.of_nat k -> le_put k (le_get data) = data.
Proof. intros E. assert (k = length data) as -> by (unfold len in E; lia). apply le_put_get. Qed.

Lemma le_put_wrap_s k w z : w = 8 * Z.of_nat k -> 0 < w -> le_put k (wrap_s w z) = le_put k z.
Proof.
  intros -> Hw. rewrite <- (le_put_mod k (wrap_s _ _)), <- (le_put_mod k z). f_equal.
  unfold wrap_s. pose proof (Z.pow_pos_nonneg 2 (8 * Z.of_nat k) ltac:(lia) ltac:(lia)).
  case_if; [by rewrite Z.mod_mod by lia|].
  rewrite <- (Z.mod_mod z (2 ^ (8 * Z.of_nat k))) at 2 by lia.
  rewrite <- (Z_mod_plus_full (z mod _ - _) 1). f_equal. lia.
Qed.

Lemma byte_le_put z : [byte_of_Z z] = le_put 1 z.
Proof. done. Qed.

Lemma le_get_u k data : len data = Z.of_nat k -> in_u (8 * Z.of_nat k) (le_get data).
Proof. intros E. rewrite <- E. apply le_get_bound. Qed.

(** Select the case of a concrete type name. *)
Ltac known := unfold parse_known, write_known, str_in;
  cbn [String.eqb Ascii.eqb Bool.eqb existsb orb]; cbv zeta.

Section RoundTrips.
Context `{FloatText} `{JsonText}.

(** Text of an unsigned [k]-byte integer, back to its bytes. *)
Lemma uint_back k data : len data = Z.of_nat k ->
  (v ← parse_uint (8 * Z.of_nat k) (format_uint (le_get data)); Ok (le_put k v)) = Ok data.
Proof.
  intros E. rewrite parse_uint_format by (by apply le_get_u). cbn. by rewrite le_put_of.
Qed.
Lemma int_back k data : len data = Z.of_nat k -> (0 < k)%nat ->
  (v ← parse_int (8 * Z.of_nat k) (format_int (wrap_s (8 * Z.of_nat k) (le_get data))); Ok (le_put k v)) = Ok data.
Proof.
  intros E Hk. rewrite parse_int_format by (apply wrap_s_range; lia). cbn.
  rewrite le_put_wrap_s by lia. by rewrite le_put_of.
Qed.

(** What reading and writing each type comes to. *)
Definition survives (dt : string) (w : Z) (data : bytes) : Prop :=
  exists v, parse_known dt data 0 w = Some (Ok v) /\ write_known dt w v = Ok data.

Lemma survives_unsigned dt k data : len data = Z.of_nat k ->
  (dt, k) ∈ [("BYTE", 1%nat); ("USINT", 1%nat); ("UINT", 2%nat); ("UINT16", 2%nat); ("WORD", 2%nat);
   ("UDINT", 4%nat); ("DWORD", 4%nat); ("ULINT", 8%nat); ("LWORD", 8%nat)]%string ->
  survives dt (Z.of_nat k) data.
Proof.
  intros E Hin. pose proof (uint_back k data E) as Hb.
  repeat (apply elem_of_cons in Hin as [[= -> ->]|Hin]; [unfold survives; known; eexists; split;
    [f_equal; first [by apply parse_body|by apply parse_byte]|exact Hb]|]).
  by apply elem_of_nil in Hin.
Qed.

Lemma survives_signed dt k data : len data = Z.of_nat k ->
  (dt, k) ∈ [("SINT", 1%nat); ("INT", 2%nat); ("INT16", 2%nat); ("DINT", 4%nat); ("LINT", 8%nat)]%string ->
  survives dt (Z.of_nat k) data.
Proof.
  intros E Hin. assert (Hk : (0 < k)%nat).
  { repeat (apply elem_of_cons in Hin as [[= _ ->]|Hin]; [lia|]). by apply elem_of_nil in Hin. }
  pose proof (int_back k data E Hk) as Hb.
  repeat (apply elem_of_cons in Hin as [[= -> ->]|Hin]; [unfold survives; known; eexists; split;
    [f_equal; first [by apply parse_body
                    |by apply (parse_byte (fun z => format_int (i8 z)))]|exact Hb]|]).
  by apply elem_of_nil in Hin.
Qed.

Lemma put_u32_back z data : len data = 4 -> z = le_get data -> put_u32 (u32 z) = data.
Proof.
  intros E ->. unfold u32. rewrite wrap_u_small by (by apply (le_get_u 4)). by apply (le_put_of 4).
Qed.

Lemma survives_time dt data : len data = 4 -> canonical dt data = true ->
  dt ∈ ["TIME"; "TOD"; "TIME_OF_DAY"; "DATE"; "DT"; "DATE_AND_TIME"]%string -> survives dt 4 data.
Proof.
  intros E Hc Hin. pose proof (le_get_u 4 data E) as Hu. change (8 * Z.of_nat 4) with 32 in Hu.
  set (i := le_get data) in *. pose proof Hu as [Hi0 _].
  repeat (apply elem_of_cons in Hin as [->|Hin]; [unfold canonical, str_in in Hc;
    cbn [String.eqb Ascii.eqb Bool.eqb existsb orb] in Hc; cbv zeta in Hc; fold i in Hc; unfold survives; known;
    eexists; (split; [f_equal; by apply (parse_body _ 4 4)|]); fold i|]).
  - rewrite parse_hms_TIME by done. cbn [mbind res_bind]. zbool. f_equal. apply put_u32_back; [done|].
    fold i. rewrite Z.div_mul by lia. rewrite (Z.mod_small (i / 1000)).
    + pose proof (Z.div_mod i 1000 ltac:(lia)). lia.
    + split; [by apply Z.div_pos|]. apply Z.div_lt_upper_bound; lia.
  - rewrite parse_hm_TOD by done. cbn [wrap_err mbind res_bind]. f_equal. apply put_u32_back; [done|].
    apply andb_prop in Hc as [H1 H2]. zbool. fold i. rewrite (Z.mod_small (i / 60000)).
    + pose proof (Z.div_mod i 60000 ltac:(lia)). lia.
    + split; [by apply Z.div_pos|]. apply Z.div_lt_upper_bound; lia.
  - rewrite parse_hm_TOD by done. cbn [wrap_err mbind res_bind]. f_equal. apply put_u32_back; [done|].
    apply andb_prop in Hc as [H1 H2]. zbool. fold i. rewrite (Z.mod_small (i / 60000)).
    + pose proof (Z.div_mod i 60000 ltac:(lia)). lia.
    + split; [by apply Z.div_pos|]. apply Z.div_lt_upper_bound; lia.
  - rewrite parse_date_DATE by done. cbn [wrap_err mbind res_bind]. f_equal. apply put_u32_back; [done|].
    zbool. fold i. pose proof (Z.div_mod i 86400 ltac:(lia)). lia.
  - rewrite parse_datetime_DT by done. cbn [wrap_err mbind res_bind]. f_equal. by apply put_u32_back.
  - rewrite parse_datetime_DT by done. cbn [wrap_err mbind res_bind]. f_equal. by apply put_u32_back.
  - by apply elem_of_nil in Hin.
Qed.

Lemma survives_bool data : len data = 1 -> canonical "BOOL" data = true -> survives "BOOL" 1 data.
Proof.
  intros E Hc. unfold canonical in Hc. cbn [String.eqb Ascii.eqb Bool.eqb] in Hc. zbool.
  assert (Hd : data = [Byte.x00] \/ data = [Byte.x01]).
  { pose proof (le_get_u 1 data E) as [H0' _]. rewrite <- (le_put_of 1 data E).
    assert (Hv : le_get data = 0 \/ le_get data = 1) by lia. destruct Hv as [-> | ->]; auto. }
  destruct Hd as [-> | ->]; eexists; split; reflexivity.
Qed.

Lemma survives_float dt k data : float_laws -> len data = Z.of_nat k -> canonical dt data = true ->
  (dt, k) ∈ [("REAL", 4%nat); ("LREAL", 8%nat)]%string -> survives dt (Z.of_nat k) data.
Proof.
  intros Hfl E Hc Hin. pose proof (le_get_u k data E) as Hu.
  repeat (apply elem_of_cons in Hin as [[= -> ->]|Hin]; [unfold canonical in Hc;
    cbn [String.eqb Ascii.eqb Bool.eqb] in Hc; cbv zeta in Hc; apply negb_true_iff in Hc; unfold survives; known;
    eexists; (split; [f_equal; by apply parse_body|])|]).
  - rewrite (fl32 Hfl) by done. cbn [mbind res_bind]. by rewrite le_put_of.
  - rewrite (fl64 Hfl) by done. by rewrite le_put_of.
  - by apply elem_of_nil in Hin.
Qed.

End RoundTrips.

(** ** Integers are range-checked, never truncated *)

(** Type, signedness, bytes. *)
Definition int_types : list (string * bool * nat) :=
  [("BYTE", false, 1%nat); ("USINT", false, 1%nat); ("UINT", false, 2%nat); ("UINT16", false, 2%nat);
   ("WORD", false, 2%nat); ("UDINT", false, 4%nat); ("DWORD", false, 4%nat); ("ULINT", false, 8%nat);
   ("LWORD", false, 8%nat); ("SINT", true, 1%nat); ("INT", true, 2%nat); ("INT16", true, 2%nat);
   ("DINT", true, 4%nat); ("LINT", true, 8%nat)]%string.

Definition fits (signed : bool) (k : nat) (z : Z) : bool :=
  let w := 8 * Z.of_nat k in
  if signed then (- 2 ^ (w - 1) <=? z) && (z <? 2 ^ (w - 1)) else (0 <=? z) && (z <? 2 ^ w).

Definition int_text (signed : bool) (k : nat) (data : bytes) : string :=
  if signed then format_int (wrap_s (8 * Z.of_nat k) (le_get data)) else format_uint (le_get data).

Section Integers.
Context `{FloatText} `{JsonText}.

Lemma write_uint_bound k z : (0 < k)%nat ->
  match (v ← parse_uint (8 * Z.of_nat k) (format_int z); Ok (le_put k v)) with
  | Ok data => fits false k z = true /\ data = le_put k z
  | Err _ => fits false k z = false
  | Panic => False
  end.
Proof.
  intros Hk. rewrite parse_uint_of_format. unfold fits. destruct (0 <=? z); [|done]. cbn [andb].
  by destruct (z <? _).
Qed.
Lemma write_int_bound k z : (0 < k)%nat ->
  match (v ← parse_int (8 * Z.of_nat k) (format_int z); Ok (le_put k v)) with
  | Ok data => fits true k z = true /\ data = le_put k z
  | Err _ => fits true k z = false
  | Panic => False
  end.
Proof.
  intros Hk. rewrite parse_int_of_format by lia. unfold fits. by destruct (_ && _).
Qed.

Lemma format_back (signed : bool) k z : fits signed k z = true -> (0 < k)%nat ->
  int_text signed k (le_put k z) = format_int z.
Proof.
  unfold fits, int_text. intros Hf Hk. rewrite le_get_put.
  destruct signed; apply andb_prop in Hf as [H1 H2]; zbool.
  - f_equal. rewrite <- (wrap_s_wrap_u (8 * Z.of_nat k) z) at 2; [done|lia|unfold in_s; lia].
  - rewrite Z.mod_small by lia. unfold format_int. by rewrite (proj2 (Z.ltb_ge _ _)) by lia.
Qed.

Lemma parse_int_text dt (signed : bool) k data : (dt, signed, k) ∈ int_types -> len data = Z.of_nat k ->
  parse_known dt data 0 (Z.of_nat k) = Some (Ok (int_text signed k data)).
Proof.
  intros Hin E. unfold int_types in Hin.
  repeat (apply elem_of_cons in Hin as [[= -> -> ->]|Hin]; [known; f_equal;
    first [by apply parse_body|by apply parse_byte|by apply (parse_byte (fun z => format_int (i8 z)))]|]).
  by apply elem_of_nil in Hin.
Qed.

(** C40. Writing the decimal text of any integer to an integer symbol either stores
    exactly that integer, which reads back as the same text, or is refused
    because it does not fit the type: nothing is ever truncated or wrapped. *)
Theorem int_write_range_checked dt signed k z :
  (dt, signed, k) ∈ int_types ->
  match write_known dt (Z.of_nat k) (format_int z) with
  | Ok data => fits signed k z = true /\ len data = Z.of_nat k /\
               parse_known dt data 0 (Z.of_nat k) = Some (Ok (format_int z))
  | Err _ => fits signed k z = false
  | Panic => False
  end.
Proof.
  intros Hin. assert (Hk : (0 < k)%nat).
  { unfold int_types in Hin. repeat (apply elem_of_cons in Hin as [[= _ _ ->]|Hin]; [lia|]).
    by apply elem_of_nil in Hin. }
  assert (Hw : match write_known dt (Z.of_nat k) (format_int z) with
    | Ok data => fits signed k z = true /\ data = le_put k z
    | Err _ => fits signed k z = false | Panic => False end).
  { pose proof (write_uint_bound k z Hk) as Hu. pose proof (write_int_bound k z Hk) as Hi.
    unfold int_types in Hin.
    repeat (apply elem_of_cons in Hin as [[= -> -> ->]|Hin]; [first [exact Hu|exact Hi]|]).
    by apply elem_of_nil in Hin. }
  destruct (write_known _ _ _) as [data| |]; [|done..]. destruct Hw as [Hf ->].
  split_and!; [done|by rewrite len_le_put|].
  rewrite (parse_int_text dt signed k) by (done || by rewrite len_le_put).
  by rewrite format_back.
Qed.
End Integers.

(** ** What does not round trip *)

Section Lossy.
Context `{FloatText} `{JsonText}.

(** TIME is a duration of up to 49 days, but it is shown as a time of day: whole
    days are dropped, so two TIME values a day apart have the same text and
    writing back what was read loses the days. *)
Theorem TIME_loses_days data :
  len data = 4 -> 86400000 <= le_get data ->
  exists v data', parse_known "TIME" data 0 4 = Some (Ok v) /\ write_known "TIME" 4 v = Ok data' /\
    le_get data' = le_get data mod 86400000.
Proof.
  intros E Hd. pose proof (le_get_u 4 data E) as Hu. set (i := le_get data) in *. pose proof Hu as [Hi0 Hi1].
  assert (Hm : 0 <= i mod 86400000 < 86400000) by (apply Z.mod_pos_bound; lia).
  exists (format_TIME i), (put_u32 (i mod 86400000)). split_and!.
  - known. f_equal. by apply (parse_body _ 4 4).
  - known.       rewrite parse_hms_TIME by done. cbn [mbind res_bind]. do 2 f_equal.
    rewrite Z.div_mul by lia.
    assert (Hr : i / 1000 mod 86400 * 1000 + i mod 1000 = i mod 86400000).
    { change 86400000 with (1000 * 86400). rewrite (Z.rem_mul_r i 1000 86400) by lia. lia. }
    rewrite Hr. unfold u32. apply wrap_u_small. unfold in_u. lia.
  - rewrite le_get_put. rewrite Z.mod_small; [done|]. change (8 * Z.of_nat 4) with 32. lia.
Qed.

(** TIME_OF_DAY is shown to the minute: reading and writing back zeroes the
    seconds and milliseconds. *)
Theorem TOD_loses_seconds data :
  len data = 4 -> le_get data < 86400000 ->
  exists v data', parse_known "TIME_OF_DAY" data 0 4 = Some (Ok v) /\
    write_known "TIME_OF_DAY" 4 v = Ok data' /\ le_get data' = le_get data / 60000 * 60000.
Proof.
  intros E Hd. pose proof (le_get_u 4 data E) as Hu. set (i := le_get data) in *. pose proof Hu as [Hi0 Hi1].
  assert (Hq : 0 <= i / 60000 < 1440) by (split; [by apply Z.div_pos|apply Z.div_lt_upper_bound; lia]).
  exists (format_TOD i), (put_u32 (i / 60000 * 60000)). split_and!.
  - known. f_equal. by apply (parse_body _ 4 4).
  - known.       rewrite parse_hm_TOD by done. cbn [wrap_err mbind res_bind]. do 2 f_equal.
    rewrite (Z.mod_small (i / 60000)) by lia.
    unfold u32. rewrite wrap_u_small by (unfold in_u; lia). lia.
  - rewrite le_get_put. rewrite Z.mod_small; [done|]. change (8 * Z.of_nat 4) with 32. lia.
Qed.

(** The write path does not mirror the read path for an alias without a datatype
    table: a 2-byte symbol whose ADST_ code says UINT reads 40000 and refuses to
    write it back; a 4-byte DINT alias reads and cannot be written at all. *)
Definition alias_symbol (base size : Z) : symbol :=
  MkSymbol {| sy_Name := "v"; sy_FullName := "v"; sy_DataType := "T_Alias"; sy_Comment := ""; sy_Handle := 0;
              sy_Group := 0; sy_Offset := 0; sy_Length := size; sy_BaseType := base; sy_Flags := 0;
              sy_ContextMask := 0; sy_Value := ""; sy_Valid := false; sy_ValueParsed := false;
              sy_Parent := None |} [].

Theorem alias_write_refused :
  (exists s', parse (alias_symbol ADSTUint16 2) (put_u16 40000) 0 None = Ok (s', "40000"%string)) /\
  is_err (writeToNode (alias_symbol ADSTUint16 2) "40000" None) = true /\
  (exists s', parse (alias_symbol ADSTInt32 4) (put_u32 7) 0 None = Ok (s', "7"%string)) /\
  is_err (writeToNode (alias_symbol ADSTInt32 4) "7" None) = true.
Proof. split_and!; try (eexists; reflexivity); reflexivity. Qed.
End Lossy.
