(* ===== verification/CodecSafety.v ===== *)
(** More properties of the value codec (Codec.v): strings, robustness of reading
    against short data and inconsistent layouts, single bits.  Concrete inputs for the
    theorems on the codec: floating-point text is instantiated by the decimal rendering
    of the bit pattern, JSON by a codec of the empty object: enough to run every other
    type. *)
From S2P Require Import Prelude Wire Strconv Defs SymbolTable SymbolTableFacts GoTime Utf Codec CodecFacts.
From Stdlib Require Import Ascii.

(** ** STRING *)

Lemma padded_len n src : 0 <= n -> len (padded n src) = n.
Proof. intros. unfold padded. rewrite len_app, len_take, len_replicate. unfold len. lia. Qed.

Lemma padded_short n src : len src <= n ->
  padded n src = src ++ replicate (Z.to_nat n - length src) Byte.x00.
Proof. intros. unfold padded. rewrite firstn_all2; [done|]. unfold len in *. lia. Qed.

Lemma until_nul_split b : exists rest, b = until_nul b ++ rest /\ Byte.x00 ∉ until_nul b.
Proof.
  unfold until_nul. destruct (index_byte Byte.x00 b) as [i|] eqn:E.
  - exists (drop i b). split; [by rewrite take_drop|].
    revert i E. induction b as [|x b IH]; intros i E; cbn in E; [done|].
    destruct (decide (x = Byte.x00)) as [->|Hn]; [injection E as <-; apply not_elem_of_nil|].
    destruct (index_byte Byte.x00 b) as [j|] eqn:Ej; [|done]. injection E as <-. cbn.
    rewrite elem_of_cons. intros [?|Hin]; [done|]. by eapply IH.
  - exists []. rewrite app_nil_r. split; [done|]. by apply index_byte_None.
Qed.

Lemma until_nul_pad b k : until_nul (b ++ replicate (S k) Byte.x00) = until_nul b.
Proof.
  unfold until_nul. destruct (index_byte Byte.x00 b) as [i|] eqn:E.
  - assert (index_byte Byte.x00 (b ++ replicate (S k) Byte.x00) = Some i /\ (i <= length b)%nat) as [-> Hi].
    { revert i E. induction b as [|x b IH]; intros i E; cbn in *; [done|].
      destruct (decide (x = Byte.x00)); [injection E as <-; split; [done|lia]|].
      destruct (index_byte Byte.x00 b) as [j|]; [|done]. injection E as <-.
      destruct (IH j eq_refl) as [-> ?]. cbn. split; [done|lia]. }
    by apply take_app_le.
  - apply index_byte_None in E. pose proof (until_nul_app b (replicate k Byte.x00) E) as H.
    unfold until_nul in H. exact H.
Qed.

Section Strings.
Context `{FloatText} `{JsonText}.

(** A STRING symbol always receives exactly its declared length, NUL-terminated;
    what reads back is the text up to its first NUL, cut to leave room for the
    terminator - the whole text when it has no NUL and fits. *)
Theorem STRING_write_read n value :
  1 <= n ->
  exists data, write_known "STRING" n value = Ok data /\ len data = n /\
    data !! Z.to_nat (n - 1) = Some Byte.x00 /\
    parse_known "STRING" data 0 n
    = Some (Ok (string_of_bytes (until_nul (take (Z.to_nat (n - 1)) (bytes_of_string value))))).
Proof.
  intros Hn. set (src := bytes_of_string value).
  assert (E : write_known "STRING" n value = Ok (padded n (take (Z.to_nat (n - 1)) src))).
  { known. rewrite (proj2 (Z.ltb_ge _ _)) by lia. fold src. do 2 f_equal.
    destruct (Z.ltb_spec (n - 1) (len src)); [done|]. symmetry. apply firstn_all2. unfold len in *. lia. }
  assert (Hl : len (take (Z.to_nat (n - 1)) src) <= n - 1) by (rewrite len_take; lia).
  exists (padded n (take (Z.to_nat (n - 1)) src)). rewrite padded_short by lia.
  set (t := take (Z.to_nat (n - 1)) src) in *.
  assert (Hk : exists k, (Z.to_nat n - length t)%nat = S k)
    by (exists (Z.to_nat n - length t - 1)%nat; unfold len in Hl; lia).
  destruct Hk as [k Hk]. rewrite Hk. split_and!.
  - by rewrite E, padded_short, Hk by lia.
  - rewrite len_app, len_replicate. unfold len in *. lia.
  - rewrite lookup_app_r by (unfold len in Hl; lia). apply lookup_replicate_2. unfold len in Hl. lia.
  - known. f_equal. rewrite slice_all by (rewrite len_app, len_replicate; unfold len in *; lia).
    cbn [mbind res_bind]. by rewrite until_nul_pad.
Qed.

(** ** WSTRING *)

Lemma put_u16_pair u : put_u16 u = [byte_of_Z u; byte_of_Z (u / 256)].
Proof. done. Qed.

Lemma units_app us tail : Forall (in_u 16) us -> 0 ∉ us ->
  (match tail with a :: b :: _ => (Z_of_byte a =? 0) && (Z_of_byte b =? 0) = true | _ => True end) ->
  wstring_len (concat (map put_u16 us) ++ tail) = length us /\
  units (length us) (concat (map put_u16 us) ++ tail) = us.
Proof.
  intros Hf Hn Ht. induction Hf as [|u us [Hu0 Hu1] Hf IH].
  - cbn [map concat app length]. split; [|done]. destruct tail as [|a [|b t]]; try done.
    cbn [wstring_len]. by rewrite Ht.
  - rewrite elem_of_cons in Hn. destruct IH as [IH1 IH2]; [tauto|].
    cbn [map concat]. rewrite put_u16_pair. cbn [app wstring_len units length].
    pose proof (Z.div_mod u 256 ltac:(lia)). pose proof (Z.mod_pos_bound u 256 ltac:(lia)).
    assert (0 <= u / 256 < 256) by (split; [by apply Z.div_pos|apply Z.div_lt_upper_bound; lia]).
    rewrite !Z_of_byte_of_Z, (Z.mod_small (u / 256)) by lia.
    destruct (Z.eqb_spec (u mod 256) 0), (Z.eqb_spec (u / 256) 0); cbn [andb];
      [assert (0 = u) by lia; tauto|..]; (split; [by f_equal|f_equal; [|done]]); cbn [le_get];
      rewrite !Z_of_byte_of_Z, (Z.mod_small (u / 256)) by lia; lia.
Qed.

Lemma len_units us : len (concat (map put_u16 us)) = 2 * len us.
Proof. induction us as [|u us IH]; [done|]. cbn [map concat]. rewrite len_app, IH, len_cons, len_le_put. lia. Qed.

Lemma wstring_parse us tail n : Forall (in_u 16) us -> 0 ∉ us ->
  (match tail with a :: b :: _ => (Z_of_byte a =? 0) && (Z_of_byte b =? 0) = true | _ => True end) ->
  len (concat (map put_u16 us) ++ tail) = n ->
  parse_known "WSTRING" (concat (map put_u16 us) ++ tail) 0 n
  = Some (Ok (string_of_bytes (utf8_encode (utf16_decode us)))).
Proof.
  intros Hf Hz Ht Hl. known. f_equal. rewrite slice_all by done. cbn [mbind res_bind].
  by destruct (units_app us tail Hf Hz Ht) as [-> ->].
Qed.

(** A text of valid Unicode characters other than NUL that fits a WSTRING -
    supplementary characters count two units - is stored in exactly the declared
    length, and reads back unchanged. *)
Theorem WSTRING_write_read n rs :
  Forall valid_rune rs -> 0 ∉ rs -> 2 * len (utf16_encode rs) + 2 <= n ->
  exists data, write_known "WSTRING" n (string_of_bytes (utf8_encode rs)) = Ok data /\ len data = n /\
    parse_known "WSTRING" data 0 n = Some (Ok (string_of_bytes (utf8_encode rs))).
Proof.
  intros Hv Hz Hn. pose proof (len_nonneg (utf16_encode rs)).
  set (us := utf16_encode rs) in *. exists (padded n (concat (map put_u16 us))).
  assert (Hmax : (length us <= Z.to_nat ((n - 2) / 2))%nat).
  { assert (len us <= (n - 2) / 2) by (apply Z.div_le_lower_bound; lia). unfold len in *. lia. }
  split_and!.
  - known. rewrite (proj2 (Z.ltb_ge _ _)) by lia.
    rewrite bytes_of_string_of_bytes, utf8_roundtrip by done. fold us. unfold truncate_units.
    by rewrite (proj2 (Nat.ltb_ge _ _)).
  - apply padded_len. lia.
  - rewrite padded_short by (rewrite len_units; lia). rewrite wstring_parse.
    + unfold us. by rewrite utf16_roundtrip.
    + by apply utf16_units.
    + by apply utf16_nonzero.
    + assert (Hk : exists k, (Z.to_nat n - length (concat (map put_u16 us)))%nat = S (S k)).
      { exists (Z.to_nat n - length (concat (map put_u16 us)) - 2)%nat.
        pose proof (len_units us) as E. unfold len in *. lia. }
      destruct Hk as [k ->]. done.
    + rewrite len_app, len_replicate. pose proof (len_units us) as E. unfold len in *. lia.
Qed.
End Strings.

(** ** Reading never goes out of bounds *)

Section Safety.
Context `{FloatText} `{JsonText}.

Lemma no_panic_width n w r : (n = w -> no_panic r) -> no_panic (width_check n w r).
Proof. unfold width_check. destruct (Z.eqb_spec n w); cbn; auto. intros _. discriminate. Qed.

Lemma raw_uint_safe (f : Z -> string) k data start stop :
  0 <= start <= stop -> stop <= len data -> stop - start = Z.of_nat k ->
  no_panic (r ← slice data start stop; i ← le_uint k r; Ok (f i)).
Proof.
  intros H1 H2 Hk. rewrite slice_Ok by done. cbn [mbind res_bind]. unfold le_uint.
  rewrite (proj2 (Z.ltb_ge _ _)); [done|]. rewrite len_take, len_drop. lia.
Qed.

Lemma index_safe {A} (l : list A) i : 0 <= i < len l -> no_panic (index l i).
Proof.
  intros Hi. unfold index. rewrite (proj2 (Z.ltb_ge _ _)) by lia.
  destruct (l !! Z.to_nat i) eqn:E; [done|]. apply lookup_ge_None in E. unfold len in Hi. lia.
Qed.

Lemma parse_known_safe dt data start stop :
  0 <= start <= stop -> stop <= len data ->
  match parse_known dt data start stop with Some r => no_panic r | None => True end.
Proof.
  intros H1 H2. unfold parse_known. cbv zeta.
  repeat match goal with |- context [if ?c then Some _ else _] => destruct c end; try done.
  all: first
    [ apply no_panic_width; intros Hn; first
        [ by apply (raw_uint_safe _ 2) | by apply (raw_uint_safe _ 4) | by apply (raw_uint_safe _ 8)
        | apply no_panic_bind; [apply index_safe; lia|done]
        | rewrite slice_Ok by done; cbn [mbind res_bind]; apply no_panic_bind; [apply index_safe; rewrite len_take, len_drop; lia|done] ]
    | rewrite slice_Ok by done; done ].
Qed.

(** The names type resolution comes up with are names the [switch] knows. *)
Definition known_name (dt : string) : Prop := forall data start stop, parse_known dt data start stop <> None.

Lemma parseable_known dt : parseable dt = true -> known_name dt.
Proof.
  unfold parseable, str_in. intros Hin%existsb_exists. destruct Hin as (x & Hin & ->%String.eqb_eq).
  intros data start stop. apply list_elem_of_In in Hin. unfold parseableTypes in Hin.
  repeat (apply elem_of_cons in Hin as [->|Hin]; [discriminate|]). by apply elem_of_nil in Hin.
Qed.

Lemma ads_known code : adsTypeToString code <> "" -> known_name (adsTypeToString code).
Proof. unfold adsTypeToString. repeat case_if; done. Qed.

Lemma infer_known size base : inferBaseType size base <> "" -> known_name (inferBaseType size base).
Proof. unfold inferBaseType. repeat case_if; done. Qed.

Lemma parse_leaf_known fuel d data start dts : 0 <= start -> 0 <= sy_Length d -> known_name (sy_DataType d) ->
  no_panic (parse_leaf (S fuel) d data start dts).
Proof.
  intros H1 H2 Hk. cbn [parse_leaf]. destruct (Z.ltb_spec (len data) (start + sy_Length d)); [done|].
  pose proof (parse_known_safe (sy_DataType d) data start (start + sy_Length d) ltac:(lia) ltac:(lia)) as Hp.
  specialize (Hk data start (start + sy_Length d)). by destruct (parse_known _ _ _ _).
Qed.

(** Two rounds of resolution are enough: a symbol without members never panics,
    whatever its type, length, offset and data. *)
Lemma parse_leaf_fuel d data start dts : 0 <= start -> 0 <= sy_Length d ->
  no_panic (parse_leaf 2 d data start dts).
Proof.
  intros H1 H2. change (no_panic (if len data <? start + sy_Length d then Err (EMsg "data too short") else
    match parse_known (sy_DataType d) data start (start + sy_Length d) with
    | Some r => r
    | None => match table_type dts (sy_DataType d) with
      | Some ty => parse_leaf 1 (with_type d ty) data start None
      | None =>
        if negb (String.eqb (adsTypeToString (sy_BaseType d)) "") then
          if (0 <? adsTypeWidth (sy_BaseType d)) && negb (adsTypeWidth (sy_BaseType d) =? sy_Length d)
          then Err (EMsg "cannot parse: this looks like an array or struct, which needs the datatype table")
          else parse_leaf 1 (with_type d (adsTypeToString (sy_BaseType d))) data start None
        else if negb (String.eqb (inferBaseType (sy_Length d) (sy_BaseType d)) "")
             then parse_leaf 1 (with_type d (inferBaseType (sy_Length d) (sy_BaseType d))) data start None
             else Err (EMsg "unknown format cannot parse") end end)).
  destruct (Z.ltb_spec (len data) (start + sy_Length d)); [done|].
  pose proof (parse_known_safe (sy_DataType d) data start (start + sy_Length d) ltac:(lia) ltac:(lia)) as Hp.
  destruct (parse_known _ _ _ _); [done|].
  destruct (table_type dts (sy_DataType d)) as [ty|] eqn:Et.
  - apply parse_leaf_known; [done|done|]. cbn. apply parseable_known. unfold table_type in Et.
    repeat case_match; congruence.
  - destruct (String.eqb_spec (adsTypeToString (sy_BaseType d)) ""); cbn [negb].
    + destruct (String.eqb_spec (inferBaseType (sy_Length d) (sy_BaseType d)) ""); cbn [negb]; [done|].
      apply parse_leaf_known; [done|done|]. by apply infer_known.
    + case_if; [done|]. apply parse_leaf_known; [done|done|]. by apply ads_known.
Qed.

(** Members lie inside their parents, at every level. *)
Inductive layout : symbol -> Prop :=
| layout_node d cs : 0 <= sy_Length d -> 0 <= sy_Offset d ->
    Forall (fun kc => sy_Offset (sy_data kc.2) + sy_Length (sy_data kc.2) <= sy_Length d /\ layout kc.2) cs ->
    layout (MkSymbol d cs).

Lemma layout_data s : layout s -> 0 <= sy_Length (sy_data s) /\ 0 <= sy_Offset (sy_data s).
Proof. by destruct 1. Qed.

Definition parse_children (data : bytes) (offset stop : Z) (dts : option datatypes)
  : list (string * symbol) -> res (list (string * symbol)) :=
  fix go cs :=
    match cs with
    | [] => Ok []
    | (k, c) :: cs =>
        seg ← slice data offset stop;
        '(c', _) ← wrap_err "parsing child" (parse c seg (sy_Offset (sy_data c)) dts);
        cs' ← go cs;
        Ok ((k, c') :: cs')
    end.

Lemma parse_eq d cs data offset dts : parse (MkSymbol d cs) data offset dts =
  if len data <? sy_Length d then Err (EMsg "s.Length exceeds data buffer size")
  else
    let stop := if len data <? offset + sy_Length d then len data else offset + sy_Length d in
    match cs with
    | [] => v ← parse_leaf 2 d data offset dts; Ok (MkSymbol (updateValue v d) [], v)
    | _ => cs' ← parse_children data offset stop dts cs;
           Ok (MkSymbol (updateValue (getJSON (MkSymbol d cs')) d) cs', getJSON (MkSymbol d cs'))
    end.
Proof. destruct cs; done. Qed.

Lemma parse_layout_safe s : layout s -> forall data offset dts,
  0 <= offset -> offset + sy_Length (sy_data s) <= len data -> no_panic (parse s data offset dts).
Proof.
  induction s as [d cs IH] using symbol_tree_ind. intros Hl data offset dts Ho Hd.
  inversion Hl as [d' cs' Hn _ Hcs]. subst d' cs'. cbn [sy_data] in Hd. rewrite parse_eq.
  case_if; [done|]. cbv zeta. rewrite (proj2 (Z.ltb_ge _ (offset + _))) by lia.
  destruct cs as [|kc0 cs0] eqn:Ecs.
  { apply no_panic_bind; [by apply parse_leaf_fuel|done]. }
  rewrite <- Ecs in *. apply no_panic_bind; [|intros; discriminate]. clear Ecs kc0 cs0.
  clear Hl. induction Hcs as [|[k c] cs [Hc1 Hc2] Hcs IHcs]; [done|].
  apply Forall_cons in IH as [IHc IH]. cbn [snd parse_children] in *.
  rewrite slice_Ok by lia. cbn [mbind res_bind].
  apply no_panic_bind.
  - apply no_panic_wrap. destruct (layout_data _ Hc2). apply IHc; [done|done|].
    rewrite len_take, len_drop. lia.
  - intros [c' v] _. apply no_panic_bind; [by apply IHcs|]. intros; discriminate.
Qed.

(** C38. Decoding a symbol whose members lie inside their parents never panics: short
    data, wrong widths and unknown types are reported as errors. *)
Theorem parse_never_panics s data dts :
  layout s -> no_panic (parse s data 0 dts).
Proof.
  intros Hl. destruct s as [d cs]. destruct (Z.ltb_spec (len data) (sy_Length d)) as [Hs|Hs].
  - rewrite parse_eq. by rewrite (proj2 (Z.ltb_lt _ _)).
  - apply parse_layout_safe; [done|lia|]. cbn. lia.
Qed.

(** The layout is not checked when a datatype table is loaded, and without it
    decoding does panic: a member with members of its own, placed past the end
    of its parent, makes the slice expression [data[offset:stop]] go backwards. *)
Definition plain_data (name dt : string) (offset length_ : Z) : symbolData :=
  {| sy_Name := name; sy_FullName := name; sy_DataType := dt; sy_Comment := ""; sy_Handle := 0; sy_Group := 0;
     sy_Offset := offset; sy_Length := length_; sy_BaseType := 0; sy_Flags := 0; sy_ContextMask := 0;
     sy_Value := ""; sy_Valid := false; sy_ValueParsed := false; sy_Parent := None |}.
Definition stray_symbol : symbol :=
  MkSymbol (plain_data "s" "ST_A" 0 4)
    [("m"%string, MkSymbol (plain_data "m" "ST_B" 8 2)
        [("x"%string, MkSymbol (plain_data "x" "INT" 0 2) [])])].

Theorem parse_stray_member_panics data : len data = 4 -> parse stray_symbol data 0 None = Panic.
Proof.
  intros E. unfold stray_symbol. rewrite parse_eq. cbn [plain_data sy_Length]. rewrite E. cbn [Z.ltb Z.add].
  change (4 <? 4) with false. cbv zeta iota. cbn [parse_children sy_data plain_data sy_Offset].
  change (0 + 4) with 4. change (4 <? 4) with false. cbv iota.
  rewrite slice_all by done. cbn [mbind res_bind]. rewrite parse_eq. cbn [plain_data sy_Length]. rewrite E.
  change (4 <? 2) with false. cbv zeta iota. cbn [parse_children sy_data plain_data sy_Offset].
  change (4 <? 8 + 2) with true. cbv iota. rewrite slice_panic by (rewrite E; lia). done.
Qed.
End Safety.

(** ** Bits *)

Lemma land_pow2 z i : 0 <= i -> (Z.land z (Z.shiftl 1 i) =? 0) = negb (Z.testbit z i).
Proof.
  intros Hi. rewrite Z.shiftl_1_l. destruct (Z.testbit z i) eqn:E; cbn.
  - apply Z.eqb_neq. intros H. apply (f_equal (fun x => Z.testbit x i)) in H.
    rewrite Z.land_spec, E, Z.pow2_bits_true, Z.bits_0 in H by done. done.
  - apply Z.eqb_eq. apply Z.bits_inj'. intros n Hn. rewrite Z.land_spec, Z.bits_0.
    destruct (Z.eq_dec n i) as [->|Hne]; [by rewrite E|]. rewrite Z.pow2_bits_false by lia. by rewrite andb_false_r.
Qed.

Definition bit_of (data : bytes) (i : Z) : bool :=
  match data !! Z.to_nat (i / 8) with Some b => Z.testbit (Z_of_byte b) (i mod 8) | None => false end.

Lemma ReadBit_spec data i : ReadBit data i = Ok (if 0 <=? i then bit_of data i else false).
Proof.
  unfold ReadBit, bit_of. destruct (Z.leb_spec 0 i) as [Hi|Hi]; [|by rewrite (proj2 (Z.ltb_lt i 0))].
  rewrite (proj2 (Z.ltb_ge i 0)) by done. cbn [orb]. rewrite Z.quot_div_nonneg, Z.rem_mod_nonneg by lia.
  assert (0 <= i / 8) by (apply Z.div_pos; lia).
  destruct (Z.leb_spec (len data) (i / 8)).
  - rewrite lookup_ge_None_2; [done|]. unfold len in *. lia.
  - unfold index. rewrite (proj2 (Z.ltb_ge _ _)) by done.
    destruct (data !! Z.to_nat (i / 8)) eqn:E; [|apply lookup_ge_None in E; unfold len in *; lia].
    cbn [mbind res_bind]. rewrite land_pow2 by (apply Z.mod_pos_bound; lia). by rewrite negb_involutive.
Qed.

(** Writing a bit changes that bit and nothing else: every bit of the result reads
    as written at the index and as before elsewhere, the length is kept, and an
    index out of range changes nothing. *)
Theorem WriteBit_ReadBit data i v :
  exists data', WriteBit data i v = Ok data' /\ length data' = length data /\
    forall j, ReadBit data' j =
      if (j =? i) && (0 <=? i) && (i <? 8 * len data) then Ok v else ReadBit data j.
Proof.
  unfold WriteBit. destruct (Z.ltb_spec i 0) as [Hi|Hi]; cbn [orb].
  { exists data. split_and!; [done|done|]. intros j. by rewrite (proj2 (Z.leb_gt 0 i)), andb_false_r by done. }
  rewrite Z.quot_div_nonneg, Z.rem_mod_nonneg by lia. assert (Hq : 0 <= i / 8) by (apply Z.div_pos; lia).
  pose proof (Z.div_mod i 8 ltac:(lia)). pose proof (Z.mod_pos_bound i 8 ltac:(lia)).
  destruct (Z.leb_spec (len data) (i / 8)) as [Hl|Hl].
  { exists data. split_and!; [done|done|]. intros j.
    by rewrite (proj2 (Z.ltb_ge i (8 * len data))), andb_false_r by lia. }
  unfold index. rewrite (proj2 (Z.ltb_ge _ _)) by done.
  destruct (data !! Z.to_nat (i / 8)) as [b|] eqn:E; [|apply lookup_ge_None in E; unfold len in *; lia].
  cbn [mbind res_bind]. eexists. split; [done|]. split; [by rewrite length_insert|].
  intros j. rewrite (proj2 (Z.leb_le 0 i)), (proj2 (Z.ltb_lt i (8 * len data))) by lia. rewrite !andb_true_r.
  rewrite !ReadBit_spec. destruct (Z.leb_spec 0 j) as [Hj|Hj].
  2:{ by rewrite (proj2 (Z.eqb_neq j i)) by lia. }
  pose proof (Z.div_mod j 8 ltac:(lia)). pose proof (Z.mod_pos_bound j 8 ltac:(lia)).
  pose proof (Z.div_pos j 8 Hj ltac:(lia)).
  set (b' := if v then _ else _).
  assert (Hb : forall k, 0 <= k < 8 -> Z.testbit (Z_of_byte (byte_of_Z b')) k
                = if k =? i mod 8 then v else Z.testbit (Z_of_byte b) k).
  { intros k Hk. rewrite Z_of_byte_of_Z. change 256 with (2 ^ 8). rewrite Z.mod_pow2_bits_low by lia.
    unfold b'. rewrite Z.shiftl_1_l. destruct v.
    - rewrite Z.lor_spec, Z.pow2_bits_eqb by lia. rewrite (Z.eqb_sym _ k).
      destruct (k =? i mod 8); by rewrite ?orb_true_r, ?orb_false_r.
    - rewrite Z.ldiff_spec, Z.pow2_bits_eqb by lia. rewrite (Z.eqb_sym _ k).
      destruct (k =? i mod 8); by rewrite ?andb_true_r, ?andb_false_r. }
  unfold bit_of. destruct (Z.eq_dec (j / 8) (i / 8)) as [Ej|Ej].
  - rewrite Ej, list_lookup_insert_eq by (unfold len in *; lia). rewrite Hb by lia. rewrite E.
    destruct (Z.eqb_spec (j mod 8) (i mod 8)), (Z.eqb_spec j i); try lia; done.
  - rewrite list_lookup_insert_ne by lia. rewrite (proj2 (Z.eqb_neq j i)) by (intros ->; lia). done.
Qed.

#[local] Instance bits_text : FloatText := {
  FormatFloat32 := format_int; FormatFloat64 := format_int;
  ParseFloat32 := parse_uint 32;
  ParseFloat64 := fun s => match parse_uint 64 s with Ok v => (v, None) | Err e => (0, Some e) | Panic => (0, None) end }.

#[local] Instance empty_json : JsonText := {
  Marshal := fun _ => Ok "{}"%string; Unmarshal := fun _ => Ok []; UnmarshalString := fun s => Ok s }.

Lemma bits_text_laws : float_laws.
Proof.
  split; intros b [H1 H2] _; cbn; rewrite parse_uint_of_format, (proj2 (Z.leb_le _ _)), (proj2 (Z.ltb_lt _ _)); done.
Qed.


Lemma int_write_range_checked_witness :
  match write_known "INT" 2 (format_int 40000) with
  | Ok data => fits true 2 40000 = true /\ len data = 2 /\
               parse_known "INT" data 0 2 = Some (Ok (format_int 40000))
  | Err _ => fits true 2 40000 = false
  | Panic => False
  end.
Proof.
  apply (int_write_range_checked "INT" true 2 40000).
  apply list_elem_of_In. cbn. tauto.
Defined.

Lemma TIME_loses_days_witness :
  exists v data', parse_known "TIME" (put_u32 86400005) 0 4 = Some (Ok v) /\ write_known "TIME" 4 v = Ok data' /\
    le_get data' = 5.
Proof. apply (TIME_loses_days (put_u32 86400005)); [done|]. intros H; vm_compute in H; discriminate. Defined.

Lemma TOD_loses_seconds_witness :
  exists v data', parse_known "TIME_OF_DAY" (put_u32 45296000) 0 4 = Some (Ok v) /\
    write_known "TIME_OF_DAY" 4 v = Ok data' /\ le_get data' = 45240000.
Proof. apply (TOD_loses_seconds (put_u32 45296000)); done. Defined.

Lemma STRING_write_read_witness :
  exists data, write_known "STRING" 4 "abcdef" = Ok data /\ len data = 4 /\
    data !! 3%nat = Some Byte.x00 /\ parse_known "STRING" data 0 4 = Some (Ok "abc"%string).
Proof. apply (STRING_write_read 4 "abcdef"). lia. Defined.

Lemma WSTRING_write_read_witness :
  exists data, write_known "WSTRING" 8 (string_of_bytes (utf8_encode [104; 228])) = Ok data /\ len data = 8 /\
    parse_known "WSTRING" data 0 8 = Some (Ok (string_of_bytes (utf8_encode [104; 228]))).
Proof.
  apply (WSTRING_write_read 8 [104; 228]).
  - repeat constructor; vm_compute; intuition discriminate.
  - rewrite !elem_of_cons, elem_of_nil. intuition discriminate.
  - vm_compute. discriminate.
Defined.

Lemma parse_never_panics_witness :
  no_panic (parse (MkSymbol (plain_data "s" "ST_A" 0 4) [("m"%string, MkSymbol (plain_data "m" "INT" 2 2) [])])
                  (put_u32 65536) 0 None).
Proof.
  apply parse_never_panics. constructor; [done|done|].
  repeat constructor; vm_compute; intuition discriminate.
Defined.

Lemma parse_stray_member_panics_witness : parse stray_symbol (put_u32 0) 0 None = Panic.
Proof. apply (parse_stray_member_panics (put_u32 0)). done. Defined.
