(* ===== verification/Subs.v ===== *)
(** notification_api.go, cmd_notification.go and session.go: the notification
    manager's registry of subscriptions, the state guarded by
    [notificationManager.lock]: live handles, the caller's declared subscriptions
    with their key index, the shared channel, the baseline of the gap check. *)
From S2P Require Import Prelude Wire Strconv Defs SymbolTable Client SumCmd.

(** ** Data *)

Record NotificationConfig : Type := {
  nc_SymbolName : string; nc_MaxDelay : Z; nc_CycleTime : Z; nc_TransmissionMode : Z }.

Record pendingNotification : Type := { pn_Config : NotificationConfig; resubscribeAttempts : Z }.

(** [an_Sym] is the [FullName] of the symbol pointed to ([None]: a nil pointer),
    [an_order] the stamp of the handle's delivery order ([None]: not dispatched
    yet).  A channel is an identifier. *)
Record activeNotification : Type := {
  an_Sym : option string; an_Ch : Z; an_order : option Z }.

Record subs : Type := {
  activeNotifications : gmap Z activeNotification;
  pending : list pendingNotification;
  configsByKey : gset string;
  notificationChannel : option Z;
  registered : Z }.

Definition no_subs : subs :=
  {| activeNotifications := ∅; pending := []; configsByKey := ∅; notificationChannel := None; registered := 0 |}.

Definition set_active (a : gmap Z activeNotification) (s : subs) : subs :=
  {| activeNotifications := a; pending := pending s; configsByKey := configsByKey s;
     notificationChannel := notificationChannel s; registered := registered s |}.
Definition set_configs (p : list pendingNotification) (k : gset string) (s : subs) : subs :=
  {| activeNotifications := activeNotifications s; pending := p; configsByKey := k;
     notificationChannel := notificationChannel s; registered := registered s |}.
Definition set_channel (ch : option Z) (s : subs) : subs :=
  {| activeNotifications := activeNotifications s; pending := pending s; configsByKey := configsByKey s;
     notificationChannel := ch; registered := registered s |}.
Definition set_registered (n : Z) (s : subs) : subs :=
  {| activeNotifications := activeNotifications s; pending := pending s; configsByKey := configsByKey s;
     notificationChannel := notificationChannel s; registered := n |}.

Definition pn_name (p : pendingNotification) : string := nc_SymbolName (pn_Config p).
Definition pn_key (p : pendingNotification) : string := symbolKey (pn_name p).

(** The number of live handles. *)
Definition held (s : subs) : Z := Z.of_nat (size (activeNotifications s)).

(** ** The declared subscriptions *)

(** [for i := range m.pending { if key matches { m.pending[i] = p; return } }]. *)
Fixpoint replace_pending (p : pendingNotification) (l : list pendingNotification)
  : option (list pendingNotification) :=
  match l with
  | [] => None
  | q :: l => if String.eqb (pn_key q) (pn_key p) then Some (p :: l)
              else q' ← replace_pending p l; Some (q :: q')
  end.

Definition setPending (p : pendingNotification) (s : subs) : subs :=
  let append := set_configs (pending s ++ [p]) ({[pn_key p]} ∪ configsByKey s) s in
  if decide (pn_key p ∈ configsByKey s) then
    match replace_pending p (pending s) with
    | Some l => set_configs l (configsByKey s) s
    | None => append
    end
  else append.

Definition addConfig (cfg : NotificationConfig) (s : subs) : subs :=
  setPending {| pn_Config := cfg; resubscribeAttempts := 0 |} s.
Definition addPending (p : pendingNotification) (s : subs) : subs := setPending p s.

Definition hasConfig (symbolName : string) (s : subs) : bool :=
  bool_decide (symbolKey symbolName ∈ configsByKey s).

Definition resetConfigs (p : list pendingNotification) (s : subs) : subs :=
  set_configs p (list_to_set (map pn_key p)) s.

Fixpoint restoreConfigs (snapshot : list pendingNotification) (s : subs) : subs :=
  match snapshot with
  | [] => s
  | entry :: snapshot =>
      restoreConfigs snapshot
        (if decide (pn_key entry ∈ configsByKey s) then s else addPending entry s)
  end.

(** The first entry [strings.EqualFold] finds; symbol names are ASCII, for which
    folding is comparing in lower case. *)
Fixpoint drop_first (key : string) (l : list pendingNotification) : list pendingNotification :=
  match l with
  | [] => []
  | q :: l => if String.eqb (pn_key q) key then l else q :: drop_first key l
  end.

Definition removeNotificationConfig (symbolName : string) (s : subs) : subs :=
  let key := symbolKey symbolName in
  if decide (key ∈ configsByKey s)
  then set_configs (drop_first key (pending s)) (configsByKey s ∖ {[key]}) s
  else s.

(** ** Live handles and the baseline *)

Definition live_key (a : activeNotification) : option string := symbolKey <$> an_Sym a.

Definition hasLiveNotification (symbolName : string) (s : subs) : bool :=
  existsb (fun ha => bool_decide (live_key ha.2 = Some (symbolKey symbolName)))
          (map_to_list (activeNotifications s)).

Definition liveNotificationNames (s : subs) : gset string :=
  list_to_set (omap (fun ha => live_key ha.2) (map_to_list (activeNotifications s))).

Definition raiseRegistered (s : subs) : subs :=
  if registered s <? held s then set_registered (held s) s else s.
Definition lowerRegisteredTo (n : Z) (s : subs) : subs :=
  if n <? registered s then set_registered n s else s.
Definition subscriptionGap (s : subs) : Z * Z := (registered s, held s).

(** What a subscribe reads of the session besides the registry: the symbol cache
    and its epoch. *)
Record cacheView : Type := { cv_symbols : symbols; cv_onDemand : gset string; cv_epoch : Z }.

(** [commitNotification]: [None] when the handle was bound. *)
Definition commitNotification (cfg : NotificationConfig) (handle ch : Z) (batchCacheEpoch : Z)
    (cache : cacheView) (s : subs) : subs * option goerr :=
  match cv_symbols cache !! symbolKey (nc_SymbolName cfg) with
  | fresh =>
      if negb (cv_epoch cache =? batchCacheEpoch) then
        (s, Some (EWrap "symbol" (ESentinel ErrNotificationStrandedByReload)))
      else
        match fresh with
        | None => (s, Some (EWrap "symbol" (ESentinel ErrNotificationSymbolVanished)))
        | Some sym =>
            if (match notificationChannel s with Some c => negb (c =? ch) | None => false end) then
              (s, Some (EWrap "symbol" (ESentinel ErrNotificationChannelMismatch)))
            else if hasLiveNotification (nc_SymbolName cfg) s then
              (s, Some (EWrap "symbol" (ESentinel ErrNotificationDuplicate)))
            else
              let s := set_active (<[handle := {| an_Sym := Some (sy_FullName (sy_data sym));
                                                  an_Ch := ch; an_order := None |}]> (activeNotifications s)) s in
              let s := raiseRegistered s in
              let s := addConfig cfg s in
              (set_channel (Some ch) s, None)
        end
  end.

(** [takeNotificationHandles]: the handles, without the heartbeat's (Window.v). *)
Definition take_handles (s : subs) : subs * list Z :=
  (set_active ∅ s, (map_to_list (activeNotifications s)).*1).

(** ** Deletion *)

(** [Session.DeleteDeviceNotification], before and after the RPC: the lock is
    released in between. *)
Definition delete_snapshot (handle : Z) (s : subs) : string * bool :=
  match activeNotifications s !! handle with
  | Some entry => (default ""%string (an_Sym entry), true)
  | None => (""%string, false)
  end.

Definition delete_finish (handle : Z) (snap : string * bool) (err : option goerr) (s : subs)
  : subs * option goerr :=
  let '(symbolName, ours) := snap in
  if (match err with Some e => negb (isBestEffortDeleteSuccessErr (Some e)) | None => false end) then (s, err)
  else
    let s := if negb (String.eqb symbolName "") then removeNotificationConfig symbolName s else s in
    let s := set_active (delete handle (activeNotifications s)) s in
    let s := set_registered (held s) s in
    let s := if ours && (held s =? 0) then set_channel None s else s in
    (s, err).

(** [sumDeleteDeviceNotification] once the codes are known; [zip] pairs the codes
    with as many handles as both have. *)
Definition flush_one (userTeardown : bool) (h code : Z) (s : subs) : subs :=
  if isBestEffortDeleteSuccess code then
    let s := match activeNotifications s !! h with
             | Some entry => match an_Sym entry with
                             | Some name => removeNotificationConfig name s
                             | None => s
                             end
             | None => s
             end in
    let s := set_active (delete h (activeNotifications s)) s in
    if userTeardown then set_registered (held s) s else s
  else s.

Definition sumDelete_finish (handles codes : list Z) (userTeardown : bool) (s : subs) : subs :=
  match codes with
  | [] => s
  | _ =>
      let s := foldl (fun s hc => flush_one userTeardown hc.1 hc.2 s) s (zip handles codes) in
      if userTeardown && (held s =? 0) then set_channel None s else s
  end.

(** [bestEffortDeleteNotifications]: the registry after it and the count. *)
Definition bestEffortDelete (handles : list Z) (answer : multi Z) (s : subs) : subs * Z :=
  match handles with
  | [] => (s, 0)
  | _ => (sumDelete_finish handles answer.1 false s,
          Z.of_nat (length (List.filter isBestEffortDeleteSuccess answer.1)))
  end.
