(* ===== verification/SubsFacts.v ===== *)
(** The registry of subscriptions (Subs.v): the key index mirrors the declared
    subscriptions, a symbol has at most one declaration and at most one live
    handle, under every interleaving of the operations; what a restore keeps. *)
From S2P Require Import Prelude Wire Strconv Defs SymbolTable Client SumCmd Subs.

Definition keys (l : list pendingNotification) : list string := map pn_key l.

(** [configsByKey] and [pending] describe the same symbols, each once. *)
Definition lockstep (s : subs) : Prop :=
  NoDup (keys (pending s)) /\ configsByKey s = list_to_set (keys (pending s)).

(** No symbol has two live handles. *)
Definition live_unique (s : subs) : Prop :=
  forall h1 h2 a1 a2, activeNotifications s !! h1 = Some a1 -> activeNotifications s !! h2 = Some a2 ->
    live_key a1 = live_key a2 -> live_key a1 <> None -> h1 = h2.

(** The cache files every symbol under its own name. *)
Definition cache_keyed (c : cacheView) : Prop :=
  forall k sym, cv_symbols c !! k = Some sym -> symbolKey (sy_FullName (sy_data sym)) = k.

(** Every change of the registry, the two halves of a delete apart. *)
Inductive subs_step : subs -> subs -> Prop :=
| step_commit cfg h ch e c s : cache_keyed c -> subs_step s (commitNotification cfg h ch e c s).1
| step_take s : subs_step s (take_handles s).1
| step_delete h snap err s : subs_step s (delete_finish h snap err s).1
| step_sum_delete hs codes user s : subs_step s (sumDelete_finish hs codes user s)
| step_restore snapshot s : subs_step s (restoreConfigs snapshot s)
| step_requeue p s : subs_step s (addPending p s)
| step_reset p s : NoDup (keys p) -> subs_step s (resetConfigs p s)
| step_remove name s : subs_step s (removeNotificationConfig name s)
| step_lower n s : subs_step s (lowerRegisteredTo n s)
| step_raise s : subs_step s (raiseRegistered s)
| step_channel ch s : subs_step s (set_channel ch s).

Inductive subs_reachable : subs -> Prop :=
| reach_none : subs_reachable no_subs
| reach_subs s s' : subs_reachable s -> subs_step s s' -> subs_reachable s'.

(** ** The key index *)

Lemma replace_pending_keys p l : pn_key p ∈ keys l ->
  exists l', replace_pending p l = Some l' /\ keys l' = keys l.
Proof.
  induction l as [|q l IH]; cbn; intros Hin; [by apply elem_of_nil in Hin|].
  destruct (String.eqb_spec (pn_key q) (pn_key p)) as [E|E].
  - eexists. split; [done|]. cbn. by rewrite E.
  - apply elem_of_cons in Hin as [Hin|Hin]; [congruence|].
    destruct (IH Hin) as (l' & -> & Ek). eexists. split; [done|]. cbn. unfold keys in Ek. by rewrite Ek.
Qed.

Lemma keys_app l k : keys (l ++ k) = keys l ++ keys k.
Proof. apply map_app. Qed.

Lemma elem_of_index s k : lockstep s -> k ∈ configsByKey s <-> k ∈ keys (pending s).
Proof. intros [_ ->]. by rewrite elem_of_list_to_set. Qed.

Lemma setPending_lockstep p s : lockstep s -> lockstep (setPending p s).
Proof.
  intros Hs. unfold setPending. destruct (decide _) as [Hin|Hin].
  - rewrite elem_of_index in Hin by done. destruct (replace_pending_keys p _ Hin) as (l & -> & E).
    destruct Hs as [Hn Hk]. split; cbn [set_configs pending configsByKey]; rewrite E; done.
  - rewrite elem_of_index in Hin by done. destruct Hs as [Hn Hk]. split; cbn [set_configs pending configsByKey]; rewrite keys_app.
    + apply NoDup_app. split_and!; [done| |apply NoDup_singleton].
      intros x Hx. cbn. rewrite list_elem_of_singleton. by intros ->.
    + rewrite list_to_set_app_L, Hk. cbn [keys map list_to_set]. set_solver.
Qed.

Lemma drop_first_keys k l : NoDup (keys l) ->
  NoDup (keys (drop_first k l)) /\ forall x, x ∈ keys (drop_first k l) <-> x ∈ keys l /\ x <> k.
Proof.
  induction l as [|q l IH]; cbn; intros Hn.
  - split; [done|]. set_solver.
  - apply NoDup_cons in Hn as [Hq Hn]. destruct (IH Hn) as [IH1 IH2].
    destruct (String.eqb_spec (pn_key q) k) as [E|E].
    + split; [done|]. intros x. rewrite elem_of_cons. subst k. split; [|by intros [[->|?] ?]].
      intros Hx. split; [by right|]. intros ->. done.
    + cbn. split.
      * apply NoDup_cons. split; [|done]. rewrite IH2. by intros [? _].
      * intros x. rewrite !elem_of_cons, IH2. split; [|tauto].
        intros [->|[? ?]]; auto.
Qed.

Lemma remove_lockstep name s : lockstep s -> lockstep (removeNotificationConfig name s).
Proof.
  intros [Hn Hk]. unfold removeNotificationConfig. destruct (decide _); [|done].
  destruct (drop_first_keys (symbolKey name) _ Hn) as [H1 H2]. split; cbn; [done|].
  rewrite Hk. apply set_eq. intros x. rewrite elem_of_difference, !elem_of_list_to_set, H2. set_solver.
Qed.

Lemma reset_lockstep p s : NoDup (keys p) -> lockstep (resetConfigs p s).
Proof. intros. by split. Qed.

Lemma restore_lockstep snapshot s : lockstep s -> lockstep (restoreConfigs snapshot s).
Proof.
  revert s. induction snapshot as [|p l IH]; cbn; intros s Hs; [done|].
  apply IH. destruct (decide _); [done|]. by apply setPending_lockstep.
Qed.

(** ** Live handles *)

Lemma hasLive_spec name s : hasLiveNotification name s = true <->
  exists h a, activeNotifications s !! h = Some a /\ live_key a = Some (symbolKey name).
Proof.
  unfold hasLiveNotification. rewrite existsb_exists. split.
  - intros ([h a] & Hin & Hb). apply list_elem_of_In, elem_of_map_to_list in Hin.
    apply bool_decide_eq_true in Hb. eauto.
  - intros (h & a & Hl & Hk). exists (h, a). split; [by apply list_elem_of_In, elem_of_map_to_list|].
    by apply bool_decide_eq_true.
Qed.

(** Operations that leave the live handles alone. *)
Lemma setPending_active p s : activeNotifications (setPending p s) = activeNotifications s.
Proof. unfold setPending. destruct (decide _); [destruct (replace_pending _ _)|]; done. Qed.
Lemma restore_active l s : activeNotifications (restoreConfigs l s) = activeNotifications s.
Proof.
  revert s. induction l as [|p l IH]; cbn; intros s; [done|]. rewrite IH.
  destruct (decide _); [done|]. apply setPending_active.
Qed.
Lemma remove_active name s : activeNotifications (removeNotificationConfig name s) = activeNotifications s.
Proof. unfold removeNotificationConfig. by destruct (decide _). Qed.
Lemma lower_active n s : activeNotifications (lowerRegisteredTo n s) = activeNotifications s.
Proof. unfold lowerRegisteredTo. by destruct (_ <? _). Qed.
Lemma raise_active s : activeNotifications (raiseRegistered s) = activeNotifications s.
Proof. unfold raiseRegistered. by destruct (_ <? _). Qed.

Lemma raise_lockstep s : lockstep s -> lockstep (raiseRegistered s).
Proof. unfold raiseRegistered. by destruct (_ <? _). Qed.
Lemma lower_lockstep n s : lockstep s -> lockstep (lowerRegisteredTo n s).
Proof. unfold lowerRegisteredTo. by destruct (_ <? _). Qed.

Lemma live_unique_subset s s' :
  activeNotifications s' ⊆ activeNotifications s -> live_unique s -> live_unique s'.
Proof.
  intros Hsub Hu h1 h2 a1 a2 H1 H2. apply (Hu h1 h2 a1 a2); by eapply lookup_weaken.
Qed.

Lemma flush_one_active user h c s : activeNotifications (flush_one user h c s) ⊆ activeNotifications s.
Proof.
  unfold flush_one. destruct (isBestEffortDeleteSuccess c); [|done].
  destruct user; cbn; (etrans; [apply delete_subseteq|]); repeat case_match; by rewrite ?remove_active.
Qed.
Lemma flush_one_lockstep user h c s : lockstep s -> lockstep (flush_one user h c s).
Proof.
  intros Hs. unfold flush_one. destruct (isBestEffortDeleteSuccess c); [|done].
  assert (lockstep (match activeNotifications s !! h with
    | Some entry => match an_Sym entry with Some name => removeNotificationConfig name s | None => s end
    | None => s end)) by (repeat case_match; try done; by apply remove_lockstep).
  by destruct user.
Qed.

(** What the registry promises in every state. *)
Definition subs_wf (s : subs) : Prop := lockstep s /\ live_unique s.

Lemma subs_wf_active s s' :
  lockstep s' -> activeNotifications s' ⊆ activeNotifications s -> subs_wf s -> subs_wf s'.
Proof. intros H1 H2 [_ H3]. split; [done|]. by eapply live_unique_subset. Qed.

Lemma sumDelete_wf hs codes user s : subs_wf s -> subs_wf (sumDelete_finish hs codes user s).
Proof.
  intros Hs. unfold sumDelete_finish. destruct codes as [|c codes]; [done|].
  set (l := zip hs (c :: codes)). clearbody l.
  assert (Hf : subs_wf (foldl (fun s hc => flush_one user hc.1 hc.2 s) s l)).
  { clear hs c codes. revert s Hs. induction l as [|[h c] l IH]; cbn; intros s Hs; [done|].
    apply IH. eapply subs_wf_active; [|apply flush_one_active|done]. apply flush_one_lockstep, Hs. }
  destruct (user && _); [|done]. apply Hf.
Qed.

Lemma delete_wf h snap err s : subs_wf s -> subs_wf (delete_finish h snap err s).1.
Proof.
  intros Hs. unfold delete_finish. destruct snap as [name ours].
  destruct (match err with Some e => _ | None => false end); [done|].
  set (s1 := if negb _ then _ else s).
  assert (lockstep s1 /\ activeNotifications s1 = activeNotifications s) as [H1 H2].
  { unfold s1. destruct (negb _); [|split; [apply Hs|done]].
    split; [apply remove_lockstep, Hs|apply remove_active]. }
  cbv zeta. cbn [fst].
  assert (Hd : subs_wf (set_registered (held (set_active (delete h (activeNotifications s1)) s1))
                 (set_active (delete h (activeNotifications s1)) s1))).
  { eapply subs_wf_active; [|cbn; rewrite H2; apply delete_subseteq|done]. done. }
  destruct (ours && _); [|done]. apply Hd.
Qed.

Lemma commit_wf cfg h ch e c s : cache_keyed c -> subs_wf s -> subs_wf (commitNotification cfg h ch e c s).1.
Proof.
  intros Hc Hs. unfold commitNotification.
  destruct (negb _); [done|]. destruct (cv_symbols c !! _) as [sym|] eqn:Esym; [|done].
  destruct (match notificationChannel s with Some _ => _ | None => false end); [done|].
  destruct (hasLiveNotification _ s) eqn:Hl; [done|]. cbv zeta. cbn [fst].
  set (a := {| an_Sym := _; an_Ch := _; an_order := _ |}). destruct Hs as [Hk Hu]. split.
  - apply setPending_lockstep, raise_lockstep. done.
  - assert (Hne : forall h' a', activeNotifications s !! h' = Some a' -> live_key a' <> live_key a).
    { intros h' a' H1 H2. cbn in H2. rewrite (Hc _ _ Esym) in H2.
      assert (hasLiveNotification (nc_SymbolName cfg) s = true) by (apply hasLive_spec; eauto). congruence. }
    intros h1 h2 a1 a2. cbn [set_channel activeNotifications]. unfold addConfig.
    rewrite setPending_active, raise_active. cbn [set_active activeNotifications].
    rewrite !lookup_insert_Some. intros [[<- <-]|[? H1]] [[<- <-]|[? H2]] He Hn.
    + done.
    + by destruct (Hne _ _ H2 (eq_sym He)).
    + by destruct (Hne _ _ H1 He).
    + by apply (Hu h1 h2 a1 a2).
Qed.

Lemma subs_step_wf s s' : subs_step s s' -> subs_wf s -> subs_wf s'.
Proof.
  destruct 1; intros Hs.
  - by apply commit_wf.
  - eapply subs_wf_active; [apply Hs| |done]. apply map_empty_subseteq.
  - by apply delete_wf.
  - by apply sumDelete_wf.
  - eapply subs_wf_active; [apply restore_lockstep, Hs|by rewrite restore_active|done].
  - eapply subs_wf_active; [apply setPending_lockstep, Hs|by unfold addPending; rewrite setPending_active|done].
  - apply (subs_wf_active s); [by apply reset_lockstep|reflexivity|done].
  - eapply subs_wf_active; [apply remove_lockstep, Hs|by rewrite remove_active|done].
  - eapply subs_wf_active; [apply lower_lockstep, Hs|by rewrite lower_active|done].
  - eapply subs_wf_active; [apply raise_lockstep, Hs|by rewrite raise_active|done].
  - done.
Qed.

(** C15. Under every interleaving of commits, sweeps, deletes, restores and requeues,
    the key index holds exactly the symbols declared, no symbol is declared twice
    and no symbol has two live handles. *)
Theorem registry_invariant s : subs_reachable s ->
  lockstep s /\ live_unique s.
Proof.
  induction 1 as [|s s' _ IH Hstep]; [|by eapply subs_step_wf].
  split; [split; [apply NoDup_nil_2|done]|]. intros h1 h2 a1 a2 H. cbn in H. by rewrite lookup_empty in H.
Qed.

(** ** What a restore keeps *)

(** The declaration on file for a symbol. *)
Definition declared (key : string) (s : subs) : option pendingNotification :=
  List.find (fun p => String.eqb (pn_key p) key) (pending s).

Lemma find_app {A} (f : A -> bool) l k :
  List.find f (l ++ k) = match List.find f l with Some a => Some a | None => List.find f k end.
Proof. induction l as [|a l IH]; cbn; [done|]. by destruct (f a). Qed.

Lemma declared_None key s : lockstep s -> declared key s = None <-> key ∉ configsByKey s.
Proof.
  intros Hs. rewrite elem_of_index by done. unfold declared, keys. rewrite list_elem_of_In, in_map_iff. split.
  - intros Hf (p & E & Hin). apply (List.find_none _ _ Hf) in Hin. by rewrite E, String.eqb_refl in Hin.
  - intros Hn. destruct (List.find _ _) as [p|] eqn:Ef; [|done]. apply List.find_some in Ef as [Hin E%String.eqb_eq].
    destruct Hn. eauto.
Qed.

(** Putting a snapshot back loses nothing: every symbol declared since the
    snapshot was taken keeps its newer declaration, every other symbol of the
    snapshot is declared again, and nothing else is. *)
Theorem restoreConfigs_merges snapshot s key :
  lockstep s ->
  declared key (restoreConfigs snapshot s)
  = match declared key s with
    | Some p => Some p
    | None => List.find (fun p => String.eqb (pn_key p) key) snapshot
    end.
Proof.
  revert s. induction snapshot as [|p l IH]; intros s Hs; cbn [restoreConfigs List.find].
  - by destruct (declared key s).
  - destruct (decide (pn_key p ∈ configsByKey s)) as [Hin|Hin].
    + rewrite IH by done. destruct (declared key s) eqn:Ed; [done|].
      destruct (String.eqb_spec (pn_key p) key) as [<-|_]; [|done].
      by apply declared_None in Ed.
    + rewrite IH by (by apply setPending_lockstep).
      assert (Ed : declared key (addPending p s)
                   = match declared key s with Some q => Some q | None => if String.eqb (pn_key p) key then Some p else None end).
      { unfold addPending, setPending. rewrite decide_False by done. unfold declared. cbn. by rewrite find_app. }
      rewrite Ed. destruct (declared key s) as [q|]; [done|]. by destruct (String.eqb _ _).
Qed.

Definition one_symbol : symbolData :=
  {| sy_Name := "MAIN.a"; sy_FullName := "MAIN.a"; sy_DataType := "INT"; sy_Comment := ""; sy_Handle := 9; sy_Group := 0;
     sy_Offset := 0; sy_Length := 2; sy_BaseType := 2; sy_Flags := 0; sy_ContextMask := 0;
     sy_Value := ""; sy_Valid := false; sy_ValueParsed := false; sy_Parent := None |}.
Definition one_cache : cacheView :=
  {| cv_symbols := {["main.a"%string := MkSymbol one_symbol []]}; cv_onDemand := ∅; cv_epoch := 1 |}.
Definition one_config (name : string) : NotificationConfig :=
  {| nc_SymbolName := name; nc_MaxDelay := 0; nc_CycleTime := 1000000; nc_TransmissionMode := 4 |}.

(** Subscribed, refused a second time under another spelling, then swept. *)
Lemma registry_invariant_witness :
  let s := (commitNotification (one_config "main.A") 6 1 1 one_cache
             (commitNotification (one_config "MAIN.a") 5 1 1 one_cache no_subs).1).1 in
  (lockstep s /\ live_unique s) /\ held s = 1 /\ pending (take_handles s).1 = pending s.
Proof.
  assert (Hc : cache_keyed one_cache).
  { intros k sym. cbn. intros [<- <-]%lookup_singleton_Some. reflexivity. }
  split; [|split; vm_compute; reflexivity]. apply registry_invariant.
  eapply reach_subs; [eapply reach_subs; [apply reach_none|]|]; by apply step_commit.
Defined.
