(* ===== verification/Batch.v ===== *)
(** notification_api.go [AddSymbolNotifications] with its per-item callback and
    its tail, session.go [resubscribeNotificationsLocked] and cmd_notification.go
    [recoverDeadSubscriptions]: subscribing many symbols in one batch while other
    goroutines change the registry between the items.

    A batch is driven by what the Client layer reports ([SumCmd.sumAddDeviceNotificationFunc]
    returns the calls of [onItem]).  Each call carries the registry change other
    goroutines made before it, an arbitrary function, and the symbol cache it sees. *)
From S2P Require Import Prelude Wire Strconv Defs SymbolTable Client SumCmd Subs.

(** ** AddSymbolNotifications *)

Record symbolInfo : Type := { si_index : nat; si_config : NotificationConfig; si_symbol : symbolData }.

Definition zero_result : SumNotificationResult := {| ns_Handle := 0; ns_Error := 0; ns_Skipped := None |}.
Definition with_skipped (e : goerr) (r : SumNotificationResult) : SumNotificationResult :=
  {| ns_Handle := ns_Handle r; ns_Error := ns_Error r; ns_Skipped := Some e |}.

(** The request for one resolved symbol. *)
Definition batch_request (cfg : NotificationConfig) (sym : symbolData) : SumNotificationRequest :=
  let '(actualMode, cycleField) :=
    notificationCycleField (nc_TransmissionMode cfg) (sy_ContextMask sym) (nc_CycleTime cfg) in
  {| nr_Group := GroupSymbolValueByHandle; nr_Offset := sy_Handle sym; nr_Length := sy_Length sym;
     nr_TransmissionMode := actualMode; nr_MaxDelay := nc_MaxDelay cfg; nr_CycleTime := cycleField |}.

(** The resolve loop; [getSymbol] is the outcome of resolving a name. *)
Fixpoint resolve_loop (getSymbol : string -> goerr + symbolData) (existing batchSeen : gset string) (i : nat)
    (configs : list NotificationConfig) (results : list SumNotificationResult)
  : list symbolInfo * list SumNotificationRequest * list SumNotificationResult :=
  match configs with
  | [] => ([], [], results)
  | cfg :: configs =>
      let key := symbolKey (nc_SymbolName cfg) in
      let skip e := alter (with_skipped e) i results in
      if decide (key ∈ existing) then
        resolve_loop getSymbol existing batchSeen (S i) configs
          (skip (EWrap "symbol" (ESentinel ErrNotificationDuplicate)))
      else if decide (key ∈ batchSeen) then
        resolve_loop getSymbol existing batchSeen (S i) configs
          (skip (EWrap "symbol duplicated within batch" (ESentinel ErrNotificationDuplicate)))
      else
        match getSymbol (nc_SymbolName cfg) with
        | inl err => resolve_loop getSymbol existing ({[key]} ∪ batchSeen) (S i) configs
                       (skip (EWrap "resolve symbol" err))
        | inr sym =>
            let '(infos, requests, results) :=
              resolve_loop getSymbol existing ({[key]} ∪ batchSeen) (S i) configs results in
            ({| si_index := i; si_config := cfg; si_symbol := sym |} :: infos,
             batch_request cfg sym :: requests, results)
        end
  end.

Record batch : Type := {
  b_results : list SumNotificationResult; b_committed : list Z; b_committedIdx : list nat; b_refused : list Z }.

Definition set_results (f : list SumNotificationResult -> list SumNotificationResult) (b : batch) : batch :=
  {| b_results := f (b_results b); b_committed := b_committed b;
     b_committedIdx := b_committedIdx b; b_refused := b_refused b |}.

(** The callback [onItem]. *)
Definition onItem (infos : list symbolInfo) (ch batchCacheEpoch : Z) (cache : cacheView) (i : Z)
    (r : SumNotificationResult) (s : subs) (b : batch) : subs * batch :=
  if (i <? 0) || (len infos <=? i) then (s, b)
  else
    match infos !! Z.to_nat i with
    | None => (s, b)
    | Some info =>
        let idx := si_index info in
        match ns_Skipped r with
        | Some _ => (s, set_results <[idx := r]> b)
        | None =>
            if (ns_Handle r =? 0) && (ns_Error r =? ReturnCodeNoErrors) then
              (s, set_results (alter (with_skipped (EMsg "PLC reported success without a handle")) idx) b)
            else if negb (ns_Error r =? ReturnCodeNoErrors) then (s, set_results <[idx := r]> b)
            else
              match commitNotification (si_config info) (ns_Handle r) ch batchCacheEpoch cache s with
              | (s, Some skipErr) =>
                  (s, {| b_results := alter (fun old => {| ns_Handle := ns_Handle r; ns_Error := ns_Error old;
                                                           ns_Skipped := Some skipErr |}) idx (b_results b);
                         b_committed := b_committed b; b_committedIdx := b_committedIdx b;
                         b_refused := b_refused b ++ [ns_Handle r] |})
              | (s, None) =>
                  (s, {| b_results := <[idx := r]> (b_results b); b_committed := b_committed b ++ [ns_Handle r];
                         b_committedIdx := b_committedIdx b ++ [idx]; b_refused := b_refused b |})
              end
        end
    end.

(** One call of the callback, with what happened since the previous one. *)
Record item_call : Type := {
  ic_env : subs -> subs; ic_cache : cacheView; ic_index : Z; ic_result : SumNotificationResult }.

Definition run_items (infos : list symbolInfo) (ch batchCacheEpoch : Z) (calls : list item_call)
    (sb : subs * batch) : subs * batch :=
  foldl (fun sb c => onItem infos ch batchCacheEpoch (ic_cache c) (ic_index c) (ic_result c) (ic_env c sb.1) sb.2)
        sb calls.

(** The entries the aborted batch never reached. *)
Definition mark_unreported (err : goerr) (infos : list symbolInfo) (b : batch) : batch :=
  set_results (fun results => foldl (fun results info =>
      match results !! si_index info with
      | Some r =>
          if is_Some_b (ns_Skipped r) || negb (ns_Handle r =? 0) || negb (ns_Error r =? ReturnCodeNoErrors)
          then results
          else alter (with_skipped (EWrap2 (ESentinel ErrNotificationTransportFailure) err)) (si_index info) results
      | None => results
      end) results infos) b.

(** [settle] up to the release: the registry, the results and the handles to give
    back. *)
Definition is_bound (s : subs) (results : list SumNotificationResult) (idx : nat) : bool :=
  match results !! idx with
  | Some r => bool_decide (is_Some (activeNotifications s !! ns_Handle r))
  | None => false
  end.

Definition strand (idx : nat) (results : list SumNotificationResult) : list SumNotificationResult :=
  alter (fun r => {| ns_Handle := ns_Handle r; ns_Error := 0;
                     ns_Skipped := Some (EWrap "symbol" (ESentinel ErrNotificationStrandedByReload)) |}) idx results.

Definition settle (configs : list NotificationConfig) (s : subs) (b : batch)
  : subs * list SumNotificationResult * list Z :=
  let stranded := List.filter (fun idx => negb (is_bound s (b_results b) idx)) (b_committedIdx b) in
  let s := foldl (fun s idx => match configs !! idx with
                               | Some cfg => removeNotificationConfig (nc_SymbolName cfg) s
                               | None => s
                               end) s stranded in
  let results := foldl (fun results idx => strand idx results) (b_results b) stranded in
  let late := omap (fun idx => match results !! idx with
                               | Some r => if is_Some_b (ns_Skipped r) && negb (ns_Handle r =? 0)
                                           then Some (ns_Handle r) else None
                               | None => None
                               end) (b_committedIdx b) in
  (s, results, b_refused b ++ late).

(** What the rest of the process does to one batch. *)
Record batch_env : Type := {
  be_running : option goerr;                          (** [requireRunningRuntime] *)
  be_getSymbol : string -> goerr + symbolData;        (** [getSymbol] *)
  be_epoch : Z;                                       (** the epoch when the batch starts *)
  be_client : option goerr;                           (** [requireClient] *)
  be_rpc : list SumNotificationRequest -> list item_call * option goerr; (** the Client call *)
  be_last : subs -> subs;                             (** changes before [settle] *)
  be_delete : list Z -> multi Z }.                    (** [Client.SumDeleteDeviceNotification] *)

Definition AddSymbolNotifications (e : batch_env) (configs : list NotificationConfig) (ch : Z) (s : subs)
  : subs * multi SumNotificationResult :=
  match be_running e with
  | Some err => (s, ([], Some err))
  | None =>
      match configs with
      | [] => (s, ([], None))
      | _ =>
          if (match notificationChannel s with Some c => negb (c =? ch) | None => false end) then
            (s, ([], Some (EMsg "all symbol notifications on a connection must use the same updateReceiver channel")))
          else
            let '(infos, requests, results) :=
              resolve_loop (be_getSymbol e) (liveNotificationNames s) ∅ 0 configs
                           (replicate (length configs) zero_result) in
            match requests with
            | [] => (s, (results, None))
            | _ =>
                let b := {| b_results := results; b_committed := []; b_committedIdx := []; b_refused := [] |} in
                let finish s b err :=
                  let '(s, results, released) := settle configs s b in
                  ((bestEffortDelete released (be_delete e released) s).1, (results, err)) in
                match be_client e with
                | Some err => finish (be_last e s) b (Some err)
                | None =>
                    let '(calls, rpcErr) := be_rpc e requests in
                    let '(s, b) := run_items infos ch (be_epoch e) calls (s, b) in
                    match rpcErr with
                    | Some err => finish (be_last e s) (mark_unreported err infos b)
                                         (Some (EWrap "batch add notification failed" err))
                    | None => finish (be_last e s) b None
                    end
                end
            end
      end
  end.

(** ** Re-subscribing *)

Definition resubscribeMaxAttempts : Z := 3.

Definition filterValidPending (cache : cacheView) (entries : list pendingNotification) : list pendingNotification :=
  List.filter (fun p => bool_decide (is_Some (cv_symbols cache !! pn_key p))
                        || bool_decide (pn_key p ∈ cv_onDemand cache)) entries.

Definition bump_attempts (p : pendingNotification) : pendingNotification :=
  {| pn_Config := pn_Config p; resubscribeAttempts := resubscribeAttempts p + 1 |}.

(** The skipped entries among the results: to retry, and dropped for good. *)
Definition skipped_entries (results : list SumNotificationResult) (valid : list pendingNotification)
  : list pendingNotification * list pendingNotification :=
  let skipped := omap (fun rp : SumNotificationResult * pendingNotification =>
                         if is_Some_b (ns_Skipped rp.1) then Some (bump_attempts rp.2) else None)
                      (zip results valid) in
  (List.filter (fun p => negb (resubscribeMaxAttempts <=? resubscribeAttempts p)) skipped,
   List.filter (fun p => resubscribeMaxAttempts <=? resubscribeAttempts p) skipped).

Section Resubscribe.
Context (add : list NotificationConfig -> Z -> subs -> subs * multi SumNotificationResult).
Context (delete_ : list Z -> multi Z).

Definition resubscribeNotificationsLocked (cache : cacheView) (s : subs) : subs * option goerr :=
  match pending s, notificationChannel s with
  | [], _ | _, None => (s, None)
  | savedPending, Some savedChannel =>
      let s := resetConfigs [] s in
      match filterValidPending cache savedPending with
      | [] => (lowerRegisteredTo 0 (set_channel None s), None)
      | validPending =>
          let dropped := len savedPending - len validPending in
          let s := if 0 <? dropped then lowerRegisteredTo (len validPending) s else s in
          let preHandles := dom (activeNotifications s) in
          let '(s, (subResults, err)) := add (map pn_Config validPending) savedChannel s in
          let orphanHandles := omap (fun r => if is_Some_b (ns_Skipped r) && negb (ns_Handle r =? 0)
                                              then Some (ns_Handle r) else None) subResults in
          let '(retryEntries, droppedConfigs) := skipped_entries subResults validPending in
          let s := (bestEffortDelete orphanHandles (delete_ orphanHandles) s).1 in
          let s := foldl (fun s p => addPending p s) s retryEntries in
          let s := if 0 <? len droppedConfigs
                   then lowerRegisteredTo (len validPending - len droppedConfigs) s else s in
          match err with
          | Some err =>
              let newHandles := elements (dom (activeNotifications s) ∖ preHandles) in
              let s := set_active (filter (fun ha => ha.1 ∈ preHandles) (activeNotifications s)) s in
              let s := set_channel (Some savedChannel) (resetConfigs savedPending s) in
              ((bestEffortDelete newHandles (delete_ newHandles) s).1, Some err)
          | None => (s, None)
          end
      end
  end.

Inductive recoveryOutcome : Type := recoveryFailed | recoveryDone | recoveryDeferred.

(** [recoverDeadSubscriptions]; [admitted] is [admitBackgroundWork], [serving]
    what the runtime state says. *)
Definition recoverDeadSubscriptions (admitted serving : bool) (cache : cacheView) (s : subs)
  : subs * recoveryOutcome :=
  if negb admitted then (s, recoveryFailed)
  else if negb serving then (s, recoveryDeferred)
  else
    let '(s, stale) := take_handles s in
    let s := (bestEffortDelete stale (delete_ stale) s).1 in
    let intent := pending s in
    let channel := notificationChannel s in
    let restoreIntent s :=
      let s := restoreConfigs intent s in
      match notificationChannel s with None => set_channel channel s | Some _ => s end in
    match resubscribeNotificationsLocked cache s with
    | (s, Some err) =>
        (restoreIntent s, if errors_is ErrRuntimeNotRunning err then recoveryDeferred else recoveryFailed)
    | (s, None) =>
        if (held s =? 0) && (0 <? len intent) then (restoreIntent s, recoveryFailed)
        else (raiseRegistered s, recoveryDone)
    end.
End Resubscribe.
