(* ===== verification/BatchFacts.v ===== *)
(** Batch subscription and recovery (Batch.v): a batch accounts for every handle
    the PLC created, recovery keeps the caller's declarations, and the one it
    loses. *)
From S2P Require Import Prelude Wire Strconv Defs SymbolTable Client SumCmd Subs SubsFacts Batch.

(** ** A batch accounts for every handle *)

(** The PLC created this registration. *)
Definition accepted (r : SumNotificationResult) : Prop :=
  ns_Skipped r = None /\ ns_Error r = ReturnCodeNoErrors /\ ns_Handle r <> 0.

(** Its outcome is recorded: bound, or refused and due for release. *)
Definition recorded (b : batch) (idx : nat) (r : SumNotificationResult) : Prop :=
  (b_results b !! idx = Some r /\ idx ∈ b_committedIdx b) \/
  (exists x, b_results b !! idx = Some x /\ is_Some (ns_Skipped x) /\ ns_Handle r ∈ b_refused b).

Section Items.
Context (infos : list symbolInfo) (ch epoch : Z).

Lemma onItem_length cache i r s b :
  length (b_results (onItem infos ch epoch cache i r s b).2) = length (b_results b).
Proof.
  unfold onItem. repeat case_match; cbn; rewrite ?length_insert, ?length_alter; done.
Qed.

Lemma onItem_accepted cache i r s b info :
  0 <= i -> infos !! Z.to_nat i = Some info -> (si_index info < length (b_results b))%nat -> accepted r ->
  recorded (onItem infos ch epoch cache i r s b).2 (si_index info) r.
Proof.
  intros Hi Hl Hn (H1 & H2 & H3). unfold onItem. pose proof (lookup_lt_Some _ _ _ Hl) as Hlt.
  rewrite (proj2 (Z.ltb_ge _ _)), (proj2 (Z.leb_gt _ _)) by (unfold len; lia). cbn [orb].
  rewrite Hl, H1, H2, (proj2 (Z.eqb_neq _ _) H3). cbn [andb negb]. change (_ =? _) with true. cbn [negb].
  destruct (commitNotification _ _ _ _ _ _) as [s' [e|]]; cbn [snd]; [right|left]; cbn.
  - destruct (lookup_lt_is_Some_2 (b_results b) (si_index info) Hn) as [old Eo].
    exists {| ns_Handle := ns_Handle r; ns_Error := ns_Error old; ns_Skipped := Some e |}.
    rewrite list_lookup_alter_eq, Eo. split_and!; [done|by eexists|]. set_solver.
  - rewrite list_lookup_insert_eq by done. set_solver.
Qed.

Lemma onItem_other cache i r' s b idx r :
  (forall info, infos !! Z.to_nat i = Some info -> si_index info <> idx) ->
  recorded b idx r -> recorded (onItem infos ch epoch cache i r' s b).2 idx r.
Proof.
  intros Hne Hr. unfold onItem. destruct (_ || _); [done|]. destruct (infos !! Z.to_nat i) as [info|]; [|done].
  specialize (Hne _ eq_refl).
  destruct (ns_Skipped r'); [|destruct (_ && _); [|destruct (negb _); [|destruct (commitNotification _ _ _ _ _ _) as [s' [e|]]]]].
  all: destruct Hr as [[H1 H2]|(x & H1 & H2 & H3)]; [left|right; exists x]; cbn;
    rewrite ?list_lookup_insert_ne, ?list_lookup_alter_ne by done; set_solver.
Qed.

Lemma run_items_recorded calls sb idx r :
  (forall c info, c ∈ calls -> infos !! Z.to_nat (ic_index c) = Some info -> si_index info <> idx) ->
  recorded sb.2 idx r -> recorded (run_items infos ch epoch calls sb).2 idx r.
Proof.
  unfold run_items. revert sb. induction calls as [|c calls IH]; cbn [foldl]; intros sb Hne Hr; [done|].
  apply IH; [intros c' info Hc; apply Hne; set_solver|]. apply onItem_other; [|done].
  intros info. apply Hne. set_solver.
Qed.

Lemma run_items_all calls sb :
  NoDup (map si_index infos) -> Forall (fun info => si_index info < length (b_results sb.2))%nat infos ->
  NoDup (map ic_index calls) ->
  forall c info, c ∈ calls -> 0 <= ic_index c -> infos !! Z.to_nat (ic_index c) = Some info ->
    Forall (fun c => 0 <= ic_index c) calls -> accepted (ic_result c) ->
    recorded (run_items infos ch epoch calls sb).2 (si_index info) (ic_result c).
Proof.
  intros Hinf Hlen. revert sb Hlen.
  induction calls as [|c0 calls IH]; intros sb Hlen Hnd c info Hc Hi Hl Hpos Ha; [by apply elem_of_nil in Hc|].
  cbn [map] in Hnd. apply NoDup_cons in Hnd as [Hc0 Hnd]. apply Forall_cons in Hpos as [Hp0 Hpos].
  unfold run_items. cbn [foldl]. fold (run_items infos ch epoch calls).
  apply elem_of_cons in Hc as [->|Hc].
  - apply run_items_recorded.
    + intros c' info' Hc' Hl' E. apply Hc0. apply list_elem_of_fmap. exists c'. split; [|done].
      assert (Z.to_nat (ic_index c') = Z.to_nat (ic_index c0)).
      { eapply (NoDup_lookup (map si_index infos)); [done| |]; rewrite list_lookup_fmap;
          [by rewrite Hl'|]. rewrite Hl. cbn. by f_equal. }
      pose proof (proj1 (Forall_forall _ _) Hpos c' Hc'). cbn in *. lia.
    + apply onItem_accepted; [done|done| |done]. exact (Forall_lookup_1 _ _ _ _ Hlen Hl).
  - apply IH; try done. eapply Forall_impl; [done|]. cbn. intros x Hx. by rewrite onItem_length.
Qed.
End Items.

Lemma mark_unreported_recorded err infos b idx r : ns_Handle r <> 0 ->
  recorded b idx r -> recorded (mark_unreported err infos b) idx r.
Proof.
  intros Hh Hr. unfold mark_unreported, set_results, recorded. cbn [b_results b_committedIdx b_refused].
  set (f := foldl _ (b_results b) infos).
  assert (Hk : forall x, b_results b !! idx = Some x -> is_Some (ns_Skipped x) \/ ns_Handle x <> 0 -> f !! idx = Some x).
  { intros x. unfold f. clear Hr f. generalize (b_results b). induction infos as [|i l IH]; cbn; intros rs Hx Hs; [done|].
    apply IH; [|done]. destruct (rs !! si_index i) as [y|] eqn:Ey; [|done]. destruct (_ || _) eqn:E; [done|].
    rewrite list_lookup_alter_ne; [done|]. intros <-. rewrite Hx in Ey. injection Ey as <-.
    apply orb_false_elim in E as [[E1 E2]%orb_false_elim _]. apply negb_false_iff, Z.eqb_eq in E2.
    destruct Hs as [[? Hs]|]; [by rewrite Hs in E1|done]. }
  destruct Hr as [[H1 H2]|(x & H1 & H2 & H3)]; [left|right; exists x]; rewrite (Hk _ H1); auto.
Qed.

Lemma strand_fold l results idx :
  foldl (fun results idx => strand idx results) results l !! idx
  = if decide (idx ∈ l) then
      (fun r => {| ns_Handle := ns_Handle r; ns_Error := 0;
                   ns_Skipped := Some (EWrap "symbol" (ESentinel ErrNotificationStrandedByReload)) |})
      <$> results !! idx
    else results !! idx.
Proof.
  revert results. induction l as [|i l IH]; cbn [foldl]; intros results; [by rewrite decide_False by apply not_elem_of_nil|].
  rewrite IH. unfold strand at 1 2. destruct (decide (i = idx)) as [->|Hne].
  - rewrite list_lookup_alter_eq, (decide_True (P := idx ∈ idx :: l)) by set_solver.
    destruct (decide (idx ∈ l)); [|done]. by destruct (results !! idx).
  - rewrite list_lookup_alter_ne by done. destruct (decide (idx ∈ l)), (decide (idx ∈ i :: l)); try set_solver; done.
Qed.

Lemma remove_fold_active (configs : list NotificationConfig) l s :
  activeNotifications (foldl (fun s idx => match configs !! idx with
     | Some cfg => removeNotificationConfig (nc_SymbolName cfg) s | None => s end) s l) = activeNotifications s.
Proof.
  revert s. induction l as [|i l IH]; cbn; intros s; [done|]. rewrite IH.
  destruct (configs !! i); [apply remove_active|done].
Qed.

Lemma settle_recorded (configs : list NotificationConfig) s b idx r : ns_Handle r <> 0 -> recorded b idx r ->
  let '(s', results, released) := settle configs s b in
  (results !! idx = Some r /\ is_Some (activeNotifications s' !! ns_Handle r)) \/
  (ns_Handle r ∈ released /\ exists x, results !! idx = Some x /\ is_Some (ns_Skipped x)).
Proof.
  intros Hh Hr. unfold settle. cbv zeta. rewrite strand_fold, remove_fold_active.
  set (stranded := List.filter _ _).
  destruct Hr as [[H1 H2]|(x & H1 & H2 & H3)].
  - destruct (is_bound s (b_results b) idx) eqn:Eb.
    + left. rewrite decide_False.
      2:{ unfold stranded. rewrite list_elem_of_In, List.filter_In, Eb. by intros [_ ?]. }
      split; [done|]. unfold is_bound in Eb. rewrite H1 in Eb. by apply bool_decide_eq_true in Eb.
    + assert (idx ∈ stranded).
      { unfold stranded. rewrite list_elem_of_In, List.filter_In, Eb. split; [by apply list_elem_of_In|done]. }
      right. rewrite decide_True by done. split.
      * apply elem_of_app. right. apply list_elem_of_omap. exists idx. split; [done|].
        rewrite strand_fold, decide_True, H1 by done. cbn. by rewrite (proj2 (Z.eqb_neq _ _) Hh).
      * rewrite H1. eexists. split; [done|]. by eexists.
  - right. split; [apply elem_of_app; by left|]. rewrite H1. destruct (decide _); [|eauto].
    eexists. split; [done|]. by eexists.
Qed.

(** The symbols a batch resolved sit at increasing positions of its configs. *)
Lemma resolve_loop_infos getSymbol ex configs : forall seen i results infos reqs results',
  resolve_loop getSymbol ex seen i configs results = (infos, reqs, results') ->
  length results' = length results /\ NoDup (map si_index infos) /\
  Forall (fun info => i <= si_index info < i + length configs)%nat infos.
Proof.
  induction configs as [|cfg configs IH]; cbn [resolve_loop]; intros seen i results infos reqs results' E.
  { injection E as <- _ <-. split_and!; [done|apply NoDup_nil_2|done]. }
  assert (Hmono : forall infos0, Forall (fun info => S i <= si_index info < S i + length configs)%nat infos0 ->
                   Forall (fun info => i <= si_index info < i + S (length configs))%nat infos0).
  { intros infos0 HF. eapply Forall_impl; [exact HF|]. cbn. intros; lia. }
  repeat (case_decide; [apply IH in E as (H1 & H2 & H3); rewrite length_alter in H1; cbn [length]; by auto|]).
  destruct (getSymbol _) as [err|sym]; [apply IH in E as (H1 & H2 & H3); rewrite length_alter in H1; cbn [length]; by auto|].
  destruct (resolve_loop _ _ _ _ _ _) as [[infos0 reqs0] results0] eqn:E0. injection E as <- _ <-.
  apply IH in E0 as (H1 & H2 & H3). split_and!; [done| |].
  - cbn. apply NoDup_cons. split; [|done]. rewrite list_elem_of_fmap. intros (info & E & Hin).
    rewrite Forall_forall in H3. apply H3 in Hin. cbn in E. lia.
  - apply Forall_cons. cbn [length si_index]. split; [lia|by auto].
Qed.

(** C3. However other goroutines sweep, reload, delete or subscribe between the items
    of a batch, and whether or not the transport fails half-way: every handle the
    PLC created is either reported to the caller as a success and bound when the
    batch settles, or reported as skipped and on the list of handles to release. *)
Theorem batch_accounts_for_every_handle getSymbol existing configs infos requests results ch epoch calls s err
    (last : subs -> subs) :
  resolve_loop getSymbol existing ∅ 0 configs (replicate (length configs) zero_result) = (infos, requests, results) ->
  NoDup (map ic_index calls) -> Forall (fun c => 0 <= ic_index c < len infos) calls ->
  let '(s1, b1) := run_items infos ch epoch calls
      (s, {| b_results := results; b_committed := []; b_committedIdx := []; b_refused := [] |}) in
  let b2 := match err with Some e => mark_unreported e infos b1 | None => b1 end in
  let '(s2, results', released) := settle configs (last s1) b2 in
  forall c, c ∈ calls -> accepted (ic_result c) ->
    exists info, infos !! Z.to_nat (ic_index c) = Some info /\
      ((results' !! si_index info = Some (ic_result c) /\
        is_Some (activeNotifications s2 !! ns_Handle (ic_result c))) \/
       (ns_Handle (ic_result c) ∈ released /\
        exists x, results' !! si_index info = Some x /\ is_Some (ns_Skipped x))).
Proof.
  intros Er Hnd Hin. destruct (resolve_loop_infos _ _ _ _ _ _ _ _ _ Er) as (H1 & H2 & H3).
  rewrite length_replicate in H1.
  set (b0 := {| b_results := results; b_committed := []; b_committedIdx := []; b_refused := [] |}).
  pose proof (run_items_all infos ch epoch calls (s, b0) H2) as Hall.
  destruct (run_items infos ch epoch calls (s, b0)) as [s1 b1]. cbv zeta. cbn [snd] in Hall.
  assert (Hs : forall idx r, ns_Handle r <> 0 -> recorded b1 idx r ->
     recorded (match err with Some e => mark_unreported e infos b1 | None => b1 end) idx r).
  { intros idx r Hh Hr. destruct err; [|done]. by apply mark_unreported_recorded. }
  destruct (settle configs (last s1) _) as [[s2 results'] released] eqn:Es.
  intros c Hc Ha. pose proof (proj1 (Forall_forall _ _) Hin c Hc) as Hci. cbn beta in Hci.
  destruct (lookup_lt_is_Some_2 infos (Z.to_nat (ic_index c))) as [info Hl]; [unfold len in Hci; lia|].
  exists info. split; [done|]. destruct Ha as (Ha1 & Ha2 & Ha3).
  pose proof (settle_recorded configs (last s1) (match err with Some e => mark_unreported e infos b1 | None => b1 end)
                (si_index info) (ic_result c) Ha3) as Hset.
  rewrite Es in Hset. apply Hset, Hs; [done|].
  assert (Hlen : Forall (fun info => si_index info < length (b_results b0))%nat infos).
  { eapply Forall_impl; [done|]. cbn. intros x Hx. lia. }
  assert (Hpos : Forall (fun c => 0 <= ic_index c) calls).
  { eapply Forall_impl; [done|]. cbn. intros x Hx. lia. }
  exact (Hall Hlen Hnd c info Hc (proj1 Hci) Hl Hpos (conj Ha1 (conj Ha2 Ha3))).
Qed.

(** ** Recovery *)

Lemma commit_lockstep cfg h ch e c s : lockstep s -> lockstep (commitNotification cfg h ch e c s).1.
Proof.
  intros Hs. unfold commitNotification. repeat (case_match; try done); cbn [fst].
  all: by apply setPending_lockstep, raise_lockstep.
Qed.

Lemma sumDelete_lockstep hs codes user s : lockstep s -> lockstep (sumDelete_finish hs codes user s).
Proof.
  intros Hs. unfold sumDelete_finish. destruct codes as [|c codes]; [done|].
  set (l := zip hs (c :: codes)). clearbody l.
  assert (Hf : lockstep (foldl (fun s hc => flush_one user hc.1 hc.2 s) s l)).
  { revert s Hs. induction l as [|hc l IH]; cbn; intros s Hs; [done|]. by apply IH, flush_one_lockstep. }
  by destruct (user && _).
Qed.

Lemma best_effort_lockstep hs answer s : lockstep s -> lockstep (bestEffortDelete hs answer s).1.
Proof. destruct hs; [done|]. apply sumDelete_lockstep. Qed.

Lemma onItem_lockstep infos ch epoch cache i r s b :
  lockstep s -> lockstep (onItem infos ch epoch cache i r s b).1.
Proof.
  intros Hs. unfold onItem. destruct (_ || _); [done|]. destruct (infos !! _) as [info|]; [|done].
  destruct (ns_Skipped r); [done|]. destruct (_ && _); [done|]. destruct (negb _); [done|].
  pose proof (commit_lockstep (si_config info) (ns_Handle r) ch epoch cache s Hs) as Hc.
  by destruct (commitNotification _ _ _ _ _ _) as [s' [e|]].
Qed.

(** What other goroutines do keeps the index in step. *)
Definition env_lockstep (e : batch_env) : Prop :=
  (forall s, lockstep s -> lockstep (be_last e s)) /\
  (forall requests c s, c ∈ (be_rpc e requests).1 -> lockstep s -> lockstep (ic_env c s)).

Lemma run_items_lockstep infos ch epoch calls sb :
  (forall c s, c ∈ calls -> lockstep s -> lockstep (ic_env c s)) ->
  lockstep sb.1 -> lockstep (run_items infos ch epoch calls sb).1.
Proof.
  unfold run_items. revert sb. induction calls as [|c calls IH]; cbn [foldl]; intros sb He Hs; [done|].
  apply IH; [intros c' s' Hc'; apply He; set_solver|]. apply onItem_lockstep, He; [set_solver|done].
Qed.

Lemma settle_lockstep (configs : list NotificationConfig) s b : lockstep s -> lockstep (settle configs s b).1.1.
Proof.
  intros Hs. unfold settle. cbv zeta. cbn [fst]. set (l := List.filter _ _). clearbody l.
  revert s Hs. induction l as [|i l IH]; cbn [foldl]; intros s Hs; [done|]. apply IH.
  destruct (configs !! i); [by apply remove_lockstep|done].
Qed.

Lemma add_lockstep e configs ch s : env_lockstep e -> lockstep s ->
  lockstep (AddSymbolNotifications e configs ch s).1.
Proof.
  intros [He1 He2] Hs. unfold AddSymbolNotifications. destruct (be_running e); [done|].
  destruct configs as [|cfg configs0]; [done|]. set (configs := cfg :: configs0).
  destruct (match notificationChannel s with Some _ => _ | None => false end); [done|].
  destruct (resolve_loop _ _ _ _ _ _) as [[infos requests] results]. destruct requests as [|rq rqs]; [done|].
  set (b0 := {| b_results := results; b_committed := _; b_committedIdx := _; b_refused := _ |}).
  assert (Hfin : forall s b err, lockstep s ->
     lockstep (let '(s, results, released) := settle configs s b in
       ((bestEffortDelete released (be_delete e released) s).1, (results, err : option goerr))).1).
  { intros s' b err Hs'. pose proof (settle_lockstep configs s' b Hs') as Hl.
    destruct (settle configs s' b) as [[s2 rs] rel]. by apply best_effort_lockstep. }
  destruct (be_client e); [apply Hfin, He1, Hs|].
  pose proof (He2 (rq :: rqs)) as He3. destruct (be_rpc e (rq :: rqs)) as [calls rpcErr]. cbn [fst] in He3.
  pose proof (run_items_lockstep infos ch (be_epoch e) calls (s, b0) (fun c s => He3 c s) Hs) as Hr.
  destruct (run_items infos ch (be_epoch e) calls (s, b0)) as [s1 b1]. destruct rpcErr; apply Hfin, He1, Hr.
Qed.

Lemma requeue_lockstep l s : lockstep s -> lockstep (foldl (fun s p => addPending p s) s l).
Proof. revert s. induction l as [|p l IH]; cbn; intros s Hs; [done|]. by apply IH, setPending_lockstep. Qed.

Lemma resubscribe_lockstep add del cache s :
  (forall cfgs ch s, lockstep s -> lockstep (add cfgs ch s).1) ->
  lockstep s -> lockstep (resubscribeNotificationsLocked add del cache s).1.
Proof.
  intros Hadd Hs. unfold resubscribeNotificationsLocked.
  destruct (pending s) as [|p0 saved] eqn:Ep; [done|]. destruct (notificationChannel s) as [ch|]; [|done].
  assert (H0 : lockstep (resetConfigs [] s)) by (apply reset_lockstep, NoDup_nil_2).
  destruct (filterValidPending cache (p0 :: saved)) as [|v0 valid] eqn:Ev; [by apply lower_lockstep|].
  set (vs := v0 :: valid). cbv zeta. set (s1 := if 0 <? _ then _ else resetConfigs [] s).
  assert (H1 : lockstep s1) by (unfold s1; destruct (0 <? _); [by apply lower_lockstep|done]).
  pose proof (Hadd (map pn_Config vs) ch s1 H1) as H2.
  destruct (add (map pn_Config vs) ch s1) as [s2 [results err]]. cbn [fst] in H2.
  destruct (skipped_entries results vs) as [retry droppedC].
  set (orphans := omap _ results). set (s3 := foldl _ _ retry).
  assert (H3 : lockstep s3) by (by apply requeue_lockstep, best_effort_lockstep).
  set (s4 := if 0 <? len droppedC then _ else s3).
  assert (H4 : lockstep s4) by (unfold s4; destruct (0 <? len droppedC); [by apply lower_lockstep|done]).
  destruct err as [e|]; [|done]. apply best_effort_lockstep.
  change (lockstep (resetConfigs (p0 :: saved) s4)). apply reset_lockstep. rewrite <- Ep. apply Hs.
Qed.

(** Releasing handles the registry no longer holds changes nothing. *)
Lemma sumDelete_empty hs codes s : activeNotifications s = ∅ ->
  sumDelete_finish hs codes false s = s.
Proof.
  intros Ha. unfold sumDelete_finish. destruct codes as [|c codes]; [done|]. cbn [andb].
  set (l := zip hs (c :: codes)). clearbody l.
  induction l as [|[h c'] l IH]; cbn [foldl fst snd]; [done|].
  assert (E : flush_one false h c' s = s).
  { unfold flush_one. destruct (isBestEffortDeleteSuccess c'); [|done]. rewrite Ha, lookup_empty.
    cbv zeta iota. rewrite Ha, delete_empty. destruct s. cbn in *. by subst. }
  by rewrite E.
Qed.

(** C36. A recovery that did not succeed keeps every subscription the caller declared,
    whatever the PLC and the other goroutines did meanwhile. *)
Theorem failed_recovery_keeps_declarations e del admitted serving cache s key :
  env_lockstep e -> lockstep s ->
  let '(s', outcome) := recoverDeadSubscriptions (AddSymbolNotifications e) del admitted serving cache s in
  outcome <> recoveryDone -> is_Some (declared key s) -> is_Some (declared key s').
Proof.
  intros He Hs. unfold recoverDeadSubscriptions. destruct admitted; cbn [negb]; [|by intros]. destruct serving; cbn [negb]; [|by intros].
  destruct (take_handles s) as [s0 stale] eqn:Et. unfold take_handles in Et. injection Et as <- <-.
  set (stale := (map_to_list _).*1). set (s0 := set_active ∅ s).
  assert (E : (bestEffortDelete stale (del stale) s0).1 = s0).
  { unfold bestEffortDelete. destruct stale; [done|]. by apply sumDelete_empty. }
  rewrite E. clear E stale. change (pending s0) with (pending s). change (notificationChannel s0) with (notificationChannel s).
  assert (Hr : lockstep (resubscribeNotificationsLocked (AddSymbolNotifications e) del cache s0).1).
  { apply resubscribe_lockstep; [|done]. intros. by apply add_lockstep. }
  destruct (resubscribeNotificationsLocked _ _ _ s0) as [s1 err]. cbn [fst] in Hr. cbv zeta.
  assert (Hk : is_Some (declared key s) -> is_Some (declared key
     (let s2 := restoreConfigs (pending s) s1 in
      match notificationChannel s2 with None => set_channel (notificationChannel s) s2 | Some _ => s2 end))).
  { intros Hd. cbv zeta. assert (Hd' : is_Some (declared key (restoreConfigs (pending s) s1))).
    { rewrite restoreConfigs_merges by done. destruct (declared key s1); [by eexists|]. exact Hd. }
    by destruct (notificationChannel _). }
  destruct err as [err|]; [intros _; apply Hk|]. destruct (_ && _); [intros _; apply Hk|done].
Qed.

(** ** The declaration recovery loses *)

Definition sample_data (name : string) : symbolData :=
  {| sy_Name := name; sy_FullName := name; sy_DataType := "INT"; sy_Comment := ""; sy_Handle := 9; sy_Group := 0;
     sy_Offset := 0; sy_Length := 2; sy_BaseType := 2; sy_Flags := 0; sy_ContextMask := 0;
     sy_Value := ""; sy_Valid := false; sy_ValueParsed := false; sy_Parent := None |}.
Definition sample_cache : cacheView :=
  {| cv_symbols := {["main.a"%string := MkSymbol (sample_data "MAIN.a") []]} ∪
                   {["main.b"%string := MkSymbol (sample_data "MAIN.b") []]};
     cv_onDemand := ∅; cv_epoch := 1 |}.
Definition sample_config (name : string) : NotificationConfig :=
  {| nc_SymbolName := name; nc_MaxDelay := 0; nc_CycleTime := 1000000; nc_TransmissionMode := 4 |}.

(** Two live subscriptions. *)
Definition two_live : subs :=
  (commitNotification (sample_config "MAIN.b") 6 1 1 sample_cache
     (commitNotification (sample_config "MAIN.a") 5 1 1 sample_cache no_subs).1).1.

Definition item (i h rc : Z) : item_call :=
  {| ic_env := fun s => s; ic_cache := sample_cache; ic_index := i;
     ic_result := {| ns_Handle := h; ns_Error := rc; ns_Skipped := None |} |}.
(** A PLC that answers a two-item batch with [calls]. *)
Definition sample_env (calls : list item_call) (err : option goerr) : batch_env :=
  {| be_running := None; be_getSymbol := fun name => inr (sample_data name); be_epoch := 1; be_client := None;
     be_rpc := fun _ => (calls, err); be_last := fun s => s;
     be_delete := fun hs => (map (fun _ => 0) hs, None) |}.
Definition all_deleted (hs : list Z) : multi Z := (map (fun _ => 0) hs, None).

(** The PLC takes back the first symbol and answers the second with [rc]. *)
Definition refused_recovery (rc : Z) : subs * recoveryOutcome :=
  recoverDeadSubscriptions (AddSymbolNotifications (sample_env [item 0 7 0; item 1 0 rc] None))
    all_deleted true true sample_cache two_live.

(** When the PLC takes back one symbol of two and answers the other with any
    return code, the recovery reports success although the second subscription is
    neither live nor declared any more: no later recovery or reconnect restores
    it, and the baseline keeps counting it, so the gap never closes. *)
Theorem recovery_forgets_refused rc : rc <> ReturnCodeNoErrors ->
  is_Some (declared "main.b" two_live) /\ (refused_recovery rc).2 = recoveryDone /\
  is_Some (declared "main.a" (refused_recovery rc).1) /\ declared "main.b" (refused_recovery rc).1 = None /\
  hasLiveNotification "MAIN.b" (refused_recovery rc).1 = false /\ subscriptionGap (refused_recovery rc).1 = (2, 1).
Proof.
  intros Hrc. assert (Hs : forall A (o : option A), is_Some_b o = true -> is_Some o) by (intros A [a|]; [by eexists|done]).
  destruct rc as [|p|p]; [done| |]; split_and!; try apply Hs; vm_compute; reflexivity.
Qed.

Lemma recovery_forgets_refused_witness :
  ReturnCodeDeviceBusy <> ReturnCodeNoErrors /\ (refused_recovery ReturnCodeDeviceBusy).2 = recoveryDone.
Proof.
  assert (H : ReturnCodeDeviceBusy <> ReturnCodeNoErrors) by discriminate. split; [exact H|].
  exact (proj1 (proj2 (recovery_forgets_refused ReturnCodeDeviceBusy H))).
Defined.

Lemma failed_recovery_keeps_declarations_witness :
  let '(s, outcome) := recoverDeadSubscriptions (AddSymbolNotifications (sample_env [] (Some (EMsg "broken pipe"))))
     all_deleted true true sample_cache two_live in
  outcome <> recoveryDone -> is_Some (declared "main.b" two_live) -> is_Some (declared "main.b" s).
Proof.
  apply failed_recovery_keeps_declarations.
  - split; [done|]. intros requests c s Hc. by apply elem_of_nil in Hc.
  - split; [|vm_compute; reflexivity]. apply (bool_decide_unpack _). vm_compute. exact I.
Defined.

(** The first item is bound, then a sweep of another goroutine empties the
    registry, and the second is refused because the cache was reloaded. *)
Definition swept_item : item_call :=
  {| ic_env := fun s => (take_handles s).1;
     ic_cache := {| cv_symbols := cv_symbols sample_cache; cv_onDemand := ∅; cv_epoch := 2 |}; ic_index := 1;
     ic_result := {| ns_Handle := 8; ns_Error := 0; ns_Skipped := None |} |}.
Definition sample_infos : list symbolInfo :=
  [{| si_index := 0; si_config := sample_config "MAIN.a"; si_symbol := sample_data "MAIN.a" |};
   {| si_index := 1; si_config := sample_config "MAIN.b"; si_symbol := sample_data "MAIN.b" |}].

Lemma batch_accounts_for_every_handle_witness :
  let '(s1, b1) := run_items sample_infos 1 1 [item 0 7 0; swept_item]
      (no_subs, {| b_results := [zero_result; zero_result]; b_committed := []; b_committedIdx := []; b_refused := [] |}) in
  let '(s2, results', released) := settle [sample_config "MAIN.a"; sample_config "MAIN.b"] s1 b1 in
  (forall c, c ∈ [item 0 7 0; swept_item] -> accepted (ic_result c) ->
    exists info, sample_infos !! Z.to_nat (ic_index c) = Some info /\
      ((results' !! si_index info = Some (ic_result c) /\
        is_Some (activeNotifications s2 !! ns_Handle (ic_result c))) \/
       (ns_Handle (ic_result c) ∈ released /\
        exists x, results' !! si_index info = Some x /\ is_Some (ns_Skipped x)))) /\
  released = [8; 7].
Proof.
  pose proof (batch_accounts_for_every_handle (fun name => inr (sample_data name)) ∅
    [sample_config "MAIN.a"; sample_config "MAIN.b"] sample_infos
    [batch_request (sample_config "MAIN.a") (sample_data "MAIN.a");
     batch_request (sample_config "MAIN.b") (sample_data "MAIN.b")]
    [zero_result; zero_result] 1 1 [item 0 7 0; swept_item] no_subs None (fun s => s)) as H.
  specialize (H ltac:(vm_compute; reflexivity) ltac:(apply (bool_decide_unpack _); vm_compute; exact I)
    ltac:(repeat constructor; vm_compute; intuition discriminate)).
  split; [exact H|vm_compute; reflexivity].
Defined.
