(* ===== verification/Window.v ===== *)
(** cmd_notification.go: the dispatch of one notification sample, the heartbeat,
    and the buffer for samples that arrive before their subscription is committed
    ([beginSubscribe], [endSubscribe], [bufferEarlySample], [replayEarlySamples]).
    Time is the Unix time in nanoseconds, an argument. *)
From S2P Require Import Prelude Wire Strconv Defs SymbolTable Client SumCmd GoTime Utf Codec Subs.

(** ** Data *)

Record earlySample : Type := { es_timestamp : Z; es_content : bytes }.

#[export] Instance earlySample_eq_dec : EqDecision earlySample.
Proof. solve_decision. Defined.

(** The state guarded by [openMu] and [earlyMu]; a nil map is an empty one. *)
Record window : Type := {
  openSubscribes : gmap Z Z;
  nextSubscribeToken : Z;
  subscribeInFlight : Z;
  lastSubscribeNs : Z;
  earlySamples : gmap Z earlySample;
  earlyBytes : Z }.

Definition fresh_window : window :=
  {| openSubscribes := ∅; nextSubscribeToken := 0; subscribeInFlight := 0; lastSubscribeNs := 0;
     earlySamples := ∅; earlyBytes := 0 |}.

Definition subscribeRaceWindow : Z := 100 * Millisecond.
Definition earlySampleMaxHandles : Z := 4096.
Definition subscribeRaceMaxOpen : Z := 30 * Second.
Definition earlySampleMaxBytes : Z := Z.shiftl 8 20.

Definition set_open (o : gmap Z Z) (w : window) : window :=
  {| openSubscribes := o; nextSubscribeToken := nextSubscribeToken w; subscribeInFlight := Z.of_nat (size o);
     lastSubscribeNs := lastSubscribeNs w; earlySamples := earlySamples w; earlyBytes := earlyBytes w |}.
Definition set_early (e : gmap Z earlySample) (n : Z) (w : window) : window :=
  {| openSubscribes := openSubscribes w; nextSubscribeToken := nextSubscribeToken w;
     subscribeInFlight := subscribeInFlight w; lastSubscribeNs := lastSubscribeNs w;
     earlySamples := e; earlyBytes := n |}.
Definition touch (now : Z) (w : window) : window :=
  {| openSubscribes := openSubscribes w; nextSubscribeToken := nextSubscribeToken w;
     subscribeInFlight := subscribeInFlight w; lastSubscribeNs := now;
     earlySamples := earlySamples w; earlyBytes := earlyBytes w |}.

(** ** The subscribe window *)

Definition newestOpenSubscribe (w : window) : Z * bool :=
  let newest := map_fold (fun _ start newest => if newest <? start then start else newest) 0 (openSubscribes w) in
  (newest, negb (newest =? 0)).

Definition subscribeRaceActive (now : Z) (w : window) : bool :=
  let '(newest, open_) := newestOpenSubscribe w in
  if open_ then now - newest <? subscribeRaceMaxOpen
  else now - lastSubscribeNs w <? subscribeRaceWindow.

Definition subscribeProgress (tok now : Z) (w : window) : window :=
  match openSubscribes w !! tok with
  | Some _ => {| openSubscribes := <[tok := now]> (openSubscribes w); nextSubscribeToken := nextSubscribeToken w;
                 subscribeInFlight := subscribeInFlight w; lastSubscribeNs := lastSubscribeNs w;
                 earlySamples := earlySamples w; earlyBytes := earlyBytes w |}
  | None => w
  end.

Definition beginSubscribe (now : Z) (w : window) : window * Z :=
  let tok := u64 (nextSubscribeToken w + 1) in
  let w := {| openSubscribes := openSubscribes w; nextSubscribeToken := tok; subscribeInFlight := subscribeInFlight w;
              lastSubscribeNs := lastSubscribeNs w; earlySamples := earlySamples w; earlyBytes := earlyBytes w |} in
  (touch now (set_open (<[tok := now]> (openSubscribes w)) w), tok).

(** ** The early-sample buffer *)

(** [bufferEarlySample] up to its replay; [true]: the sample was dropped. *)
Definition bufferEarlySample (handle timestamp : Z) (content : bytes) (w : window) : window * bool :=
  let prev := earlySamples w !! handle in
  let delta := match prev with Some p => len content - len (es_content p) | None => len content end in
  let full := (negb (is_Some_b prev) && (earlySampleMaxHandles <=? Z.of_nat (size (earlySamples w))))
              || (earlySampleMaxBytes <? earlyBytes w + delta) in
  if full then (w, true)
  else (set_early (<[handle := {| es_timestamp := timestamp; es_content := content |}]> (earlySamples w))
                  (earlyBytes w + delta) w, false).

(** [replayEarlySamples] up to its dispatches: what it takes out of the buffer,
    given the bound handles. *)
Fixpoint replayEarlySamples (active : gmap Z activeNotification) (handles : list Z) (w : window)
  : window * list (Z * earlySample) :=
  match handles with
  | [] => (w, [])
  | h :: handles =>
      match active !! h, earlySamples w !! h with
      | Some _, Some s =>
          let '(w, rest) := replayEarlySamples active handles
             (set_early (delete h (earlySamples w)) (earlyBytes w - len (es_content s)) w) in
          (w, (h, s) :: rest)
      | _, _ => replayEarlySamples active handles w
      end
  end.

(** The critical section of [endSubscribe], after its replay. *)
Definition closeSubscribe (tok : Z) (w : window) : window :=
  let w := set_open (delete tok (openSubscribes w)) w in
  if (Z.of_nat (size (openSubscribes w)) =? 0) && (0 <? Z.of_nat (size (earlySamples w)))
  then set_early ∅ 0 w else w.

Definition endSubscribe (active : gmap Z activeNotification) (tok now : Z) (committed : list Z) (w : window)
  : window * list (Z * earlySample) :=
  let '(w, replayed) := replayEarlySamples active committed (touch now w) in
  (closeSubscribe tok w, replayed).

(** ** The heartbeat *)

Record heartbeat : Type := { heartbeatHandle : Z; heartbeatBeats : Z; heartbeatLastNs : Z }.

(** What the session remembers of the symbol cache. *)
Record symbolCache : Type := {
  c_symbols : symbols; c_datatypes : datatypes; c_symbolVersion : Z }.

(** [consumeHeartbeat]; the last component asks for a stale-cache detection. *)
Definition consumeHeartbeat (handle now : Z) (content : bytes) (hb : heartbeat) (c : symbolCache)
  : heartbeat * symbolCache * option bool :=
  if (handle =? 0) || negb (handle =? heartbeatHandle hb) then (hb, c, None)
  else
    let hb := {| heartbeatHandle := heartbeatHandle hb; heartbeatBeats := u64 (heartbeatBeats hb + 1);
                 heartbeatLastNs := now |} in
    match content with
    | [] => (hb, c, Some false)
    | b :: _ =>
        if negb (c_symbolVersion c =? 0) && negb (Z_of_byte b =? c_symbolVersion c) then
          (hb, {| c_symbols := c_symbols c; c_datatypes := c_datatypes c; c_symbolVersion := Z_of_byte b |}, Some true)
        else (hb, c, Some false)
    end.

(** [takeNotificationHandles]: every handle the PLC still holds, heartbeat included. *)
Definition takeNotificationHandles (quiesceDispatch : bool) (now : Z) (s : subs) (w : window) (hb : heartbeat)
  : subs * window * heartbeat * list Z :=
  let '(s, handles) := take_handles s in
  let w := if quiesceDispatch then touch now w else w in
  let handles := if negb (heartbeatHandle hb =? 0) then handles ++ [heartbeatHandle hb] else handles in
  (s, w, {| heartbeatHandle := 0; heartbeatBeats := heartbeatBeats hb; heartbeatLastNs := now |}, handles).

(** ** Stale marks *)

Definition markAllHandlesStale (reason : Reason) (s : subs) (stale : gmap Z Reason) : gmap Z Reason :=
  foldl (fun stale h => <[h := reason]> stale) stale (map_to_list (activeNotifications s)).*1.

Definition consumeStaleFlag (handle : Z) (stale : gmap Z Reason) : gmap Z Reason * option Reason :=
  match stale !! handle with
  | Some r => (delete handle stale, Some r)
  | None => (stale, None)
  end.

(** ** dispatchSample *)

Definition windowsTick : Z := 10000000.
Definition secToUnixEpoch : Z := 11644473600.

(** The live symbol, after the decoder rewrote it in place. *)
Definition set_symbol (key : string) (s : symbol) (c : symbolCache) : symbolCache :=
  {| c_symbols := <[key := s]> (c_symbols c); c_datatypes := c_datatypes c; c_symbolVersion := c_symbolVersion c |}.

(** Seconds and nanoseconds; [None]: the time of arrival. *)
Definition sample_time (timestamp : Z) : option (Z * Z) :=
  if timestamp =? 0 then None
  else Some (Z.quot (i64 timestamp) windowsTick - secToUnixEpoch, Z.rem (i64 timestamp) windowsTick * 100).

Record Update : Type := {
  u_Variable : string; u_Value : string; u_TimeStamp : option (Z * Z); u_Stale : option Reason }.

Inductive dispatch_outcome : Type :=
| DBeat (versionChanged : bool)       (** the heartbeat: not the caller's *)
| DClosed                             (** unknown handle while closing *)
| DBuffered (full : bool)             (** unknown handle while a subscribe is in flight *)
| DReconnecting                       (** unknown handle while reconnecting *)
| DOrphan                             (** unknown handle: delete it on the PLC *)
| DOlder                              (** a replayed sample older than one delivered *)
| DNoSymbol                           (** the symbol left the cache *)
| DTerminal                           (** a 0-byte sample: stale-cache detection *)
| DUnparsable (e : goerr)
| DPanic                              (** the decoder panicked *)
| DDeliver (ch : Z) (u : Update).     (** the non-blocking send *)

(** The session, as far as a dispatch reads and writes it. *)
Record dispatcher : Type := {
  d_closed : bool; d_reconnecting : bool;
  d_subs : subs; d_window : window; d_heartbeat : heartbeat; d_cache : symbolCache; d_stale : gmap Z Reason }.

Section Dispatch.
Context `{FloatText} `{JsonText}.

Definition set_order (handle stamp : Z) (entry : activeNotification) (s : subs) : subs :=
  set_active (<[handle := {| an_Sym := an_Sym entry; an_Ch := an_Ch entry; an_order := Some stamp |}]>
                (activeNotifications s)) s.

Definition dispatchSample (d : dispatcher) (now handle timestamp : Z) (content : bytes) (buffer : bool)
  : dispatcher * dispatch_outcome :=
  match consumeHeartbeat handle now content (d_heartbeat d) (d_cache d) with
  | (hb, c, Some changed) =>
      ({| d_closed := d_closed d; d_reconnecting := d_reconnecting d; d_subs := d_subs d; d_window := d_window d;
          d_heartbeat := hb; d_cache := c; d_stale := d_stale d |}, DBeat changed)
  | _ =>
      match activeNotifications (d_subs d) !! handle with
      | None =>
          if d_closed d then (d, DClosed)
          else if buffer && subscribeRaceActive now (d_window d) then
            let '(w, full) := bufferEarlySample handle timestamp content (d_window d) in
            ({| d_closed := d_closed d; d_reconnecting := d_reconnecting d; d_subs := d_subs d; d_window := w;
                d_heartbeat := d_heartbeat d; d_cache := d_cache d; d_stale := d_stale d |}, DBuffered full)
          else if d_reconnecting d then (d, DReconnecting)
          else (d, DOrphan)
      | Some entry =>
          let lastStamp := default 0 (an_order entry) in
          let with_subs st := {| d_closed := d_closed d; d_reconnecting := d_reconnecting d;
            d_subs := set_order handle st entry (d_subs d); d_window := d_window d;
            d_heartbeat := d_heartbeat d; d_cache := d_cache d; d_stale := d_stale d |} in
          if negb buffer && (timestamp <? lastStamp) then (with_subs lastStamp, DOlder)
          else
            let d := with_subs (if buffer || (lastStamp <? timestamp) then timestamp else lastStamp) in
            let fullName := default ""%string (an_Sym entry) in
            let key := symbolKey fullName in
            match c_symbols (d_cache d) !! key with
            | None => (d, DNoSymbol)
            | Some live =>
                if (len content =? 0) && (0 <? sy_Length (sy_data live)) then (d, DTerminal)
                else
                  match parse live content 0 (Some (c_datatypes (d_cache d))) with
                  | Panic => (d, DPanic)
                  | Err e =>
                      ({| d_closed := d_closed d; d_reconnecting := d_reconnecting d; d_subs := d_subs d;
                          d_window := d_window d; d_heartbeat := d_heartbeat d;
                          d_cache := set_symbol key (parse_left live content 0 (Some (c_datatypes (d_cache d)))) (d_cache d);
                          d_stale := d_stale d |}, DUnparsable e)
                  | Ok (live, value) =>
                      let c := set_symbol key live (d_cache d) in
                      let '(stale, mark) := consumeStaleFlag handle (d_stale d) in
                      ({| d_closed := d_closed d; d_reconnecting := d_reconnecting d; d_subs := d_subs d;
                          d_window := d_window d; d_heartbeat := d_heartbeat d; d_cache := c; d_stale := stale |},
                       DDeliver (an_Ch entry)
                         {| u_Variable := fullName; u_Value := value; u_TimeStamp := sample_time timestamp;
                            u_Stale := mark |})
                  end
            end
      end
  end.
End Dispatch.
