(* ===== verification/WindowFacts.v ===== *)
(** The subscribe window and the early-sample buffer (Window.v): when an unknown
    handle is presumed ours, the bounds of the buffer, and what becomes of a sample
    that races its own subscription. *)
From S2P Require Import Prelude Wire Strconv Defs SymbolTable Client SumCmd GoTime Utf Codec Subs Window.

(** ** The window *)

Lemma newest_spec (m : gmap Z Z) :
  let n := map_fold (fun _ start newest => if newest <? start then start else newest) 0 m in
  0 <= n /\ (n = 0 \/ exists t, m !! t = Some n) /\ forall t start, m !! t = Some start -> start <= n.
Proof.
  cbv zeta. apply (map_fold_weak_ind (fun n m => 0 <= n /\ (n = 0 \/ exists t, m !! t = Some n) /\
    forall t start, m !! t = Some start -> start <= n)).
  - split_and!; [lia|by left|]. intros t start H. by rewrite lookup_empty in H.
  - intros i x m' n Hi (H1 & H2 & H3). destruct (Z.ltb_spec n x).
    + split_and!; [lia|right; exists i; by rewrite lookup_insert_eq|].
      intros t start. rewrite lookup_insert_Some. intros [[<- <-]|[Hne Hl]]; [lia|]. apply H3 in Hl. lia.
    + split_and!; [lia| |].
      * destruct H2 as [->|[t Ht]]; [by left|right; exists t]. rewrite lookup_insert_ne; [done|]. congruence.
      * intros t start. rewrite lookup_insert_Some. intros [[<- <-]|[Hne Hl]]; [lia|]. by eapply H3.
Qed.

(** An unknown handle is presumed to be ours exactly when some subscribe in flight
    made progress within the last 30 s, or none is in flight and the subscribe
    lifecycle last moved within the last 100 ms: a wedged subscribe alone does not
    hold the window open, and does not close it for a younger one either. *)
Theorem subscribeRaceActive_spec now w :
  map_Forall (fun _ start => 0 < start) (openSubscribes w) ->
  subscribeRaceActive now w = true <->
  (exists tok start, openSubscribes w !! tok = Some start /\ now - start < subscribeRaceMaxOpen) \/
  (openSubscribes w = ∅ /\ now - lastSubscribeNs w < subscribeRaceWindow).
Proof.
  intros Hpos. unfold subscribeRaceActive, newestOpenSubscribe. destruct (newest_spec (openSubscribes w)) as (H1 & H2 & H3).
  cbv zeta. set (n := map_fold _ 0 (openSubscribes w)) in *. destruct (Z.eqb_spec n 0) as [E|E]; cbn [negb].
  - assert (He : openSubscribes w = ∅).
    { apply map_empty. intros t. destruct (openSubscribes w !! t) as [start|] eqn:Et; [|done].
      pose proof (Hpos _ _ Et). cbn in *. apply H3 in Et. lia. }
    rewrite Z.ltb_lt. split; [by right|]. intros [(t & start & Ht & _)|[_ ?]]; [|done].
    by rewrite He, lookup_empty in Ht.
  - destruct H2 as [->|[t Ht]]; [done|]. rewrite Z.ltb_lt. split.
    + intros. left. eauto.
    + intros [(t' & start & Ht' & Hs)|[He _]]; [apply H3 in Ht'; lia|]. by rewrite He, lookup_empty in Ht.
Qed.

(** ** The bounds of the buffer *)

(** Content bytes held. *)
Definition held_bytes (m : gmap Z earlySample) : Z := map_fold (fun _ s n => len (es_content s) + n) 0 m.

Lemma held_bytes_insert m h s : m !! h = None -> held_bytes (<[h := s]> m) = len (es_content s) + held_bytes m.
Proof. intros Hm. unfold held_bytes. rewrite map_fold_insert_L; [done|intros; lia|done]. Qed.

Lemma held_bytes_delete m h s : m !! h = Some s -> held_bytes m = len (es_content s) + held_bytes (delete h m).
Proof.
  intros Hm. rewrite <- (insert_delete_id m h s Hm) at 1. apply held_bytes_insert, lookup_delete_eq.
Qed.

Record window_wf (w : window) : Prop := {
  ww_bytes : earlyBytes w = held_bytes (earlySamples w);
  ww_cap : earlyBytes w <= earlySampleMaxBytes;
  ww_handles : Z.of_nat (size (earlySamples w)) <= earlySampleMaxHandles;
  ww_flight : subscribeInFlight w = Z.of_nat (size (openSubscribes w)) }.

Inductive window_step : window -> window -> Prop :=
| ws_begin now w : window_step w (beginSubscribe now w).1
| ws_progress tok now w : window_step w (subscribeProgress tok now w)
| ws_buffer h ts content w : window_step w (bufferEarlySample h ts content w).1
| ws_replay active hs w : window_step w (replayEarlySamples active hs w).1
| ws_close tok w : window_step w (closeSubscribe tok w)
| ws_touch now w : window_step w (touch now w).

Inductive window_reachable : window -> Prop :=
| wr_fresh : window_reachable fresh_window
| wr_step w w' : window_reachable w -> window_step w w' -> window_reachable w'.

Lemma buffer_wf h ts content w : window_wf w -> window_wf (bufferEarlySample h ts content w).1.
Proof.
  intros [Hb Hc Hh Hf]. unfold bufferEarlySample. cbv zeta. destruct (_ || _) eqn:Efull; [by split|].
  apply orb_false_elim in Efull as [E1 E2]. apply Z.ltb_ge in E2. cbn [fst].
  split; cbn [set_early earlyBytes earlySamples subscribeInFlight openSubscribes]; [|done| |done].
  - destruct (earlySamples w !! h) as [p|] eqn:Ep.
    + rewrite <- insert_delete_eq, held_bytes_insert by apply lookup_delete_eq.
      rewrite (held_bytes_delete _ _ _ Ep) in Hb. cbn [es_content]. lia.
    + rewrite held_bytes_insert by done. cbn [es_content]. lia.
  - destruct (earlySamples w !! h) as [p|] eqn:Ep.
    + by rewrite map_size_insert_Some.
    + rewrite map_size_insert_None by done. cbn in E1. apply Z.leb_gt in E1. lia.
Qed.

Lemma replay_wf active hs w : window_wf w -> window_wf (replayEarlySamples active hs w).1.
Proof.
  revert w. induction hs as [|h hs IH]; cbn [replayEarlySamples]; intros w Hw; [done|].
  destruct (active !! h); [|by apply IH]. destruct (earlySamples w !! h) as [s|] eqn:Es; [|by apply IH].
  set (w1 := set_early _ _ w). assert (H1 : window_wf w1).
  { destruct Hw as [Hb Hc Hh Hf]. pose proof (held_bytes_delete _ _ _ Es). pose proof (len_nonneg (es_content s)).
    assert (size (delete h (earlySamples w)) = Nat.pred (size (earlySamples w))) by (apply map_size_delete_Some; by eexists).
    split; cbn [w1 set_early earlyBytes earlySamples subscribeInFlight openSubscribes]; lia || done. }
  specialize (IH w1 H1). by destruct (replayEarlySamples active hs w1).
Qed.

(** The buffer never holds more than 4096 samples or 8 MiB, and its byte count is
    the bytes it holds, after any interleaving of its operations. *)
Theorem early_buffer_bounded w : window_reachable w ->
  earlyBytes w = held_bytes (earlySamples w) /\ held_bytes (earlySamples w) <= 8388608 /\
  Z.of_nat (size (earlySamples w)) <= 4096 /\ subscribeInFlight w = Z.of_nat (size (openSubscribes w)).
Proof.
  intros Hr. assert (Hw : window_wf w).
  { induction Hr as [|w w' _ IH Hs]; [by split|]. destruct Hs.
    - by destruct IH.
    - unfold subscribeProgress. destruct (openSubscribes w !! tok) eqn:E; [|done]. destruct IH. split; try done.
      cbn. by rewrite map_size_insert_Some.
    - by apply buffer_wf.
    - by apply replay_wf.
    - unfold closeSubscribe. cbv zeta. destruct IH. destruct (_ && _); by split.
    - by destruct IH. }
  destruct Hw as [Hb Hc Hh Hf]. rewrite <- Hb. split_and!; [done|exact Hc|exact Hh|done].
Qed.

(** ** A sample that races its own subscription *)

(** The dispatching goroutine has missed the handle and parks the sample; the
    subscribing one commits the handle and closes its window. *)
Inductive action : Type := ABuffer | AReplay | BCommit | BReplay | BClose.
#[export] Instance action_eq_dec : EqDecision action.
Proof. solve_decision. Defined.

(** The interleavings of two sequences. *)
Inductive merge {A} : list A -> list A -> list A -> Prop :=
| merge_nil : merge [] [] []
| merge_l a k l m : merge k l m -> merge (a :: k) l (a :: m)
| merge_r a k l m : merge k l m -> merge k (a :: l) (a :: m).

Section Race.
Context (h ts : Z) (content : bytes) (entry : activeNotification) (tok : Z).

(** Live handles, buffer, samples taken out for delivery. *)
Definition race_state : Type := gmap Z activeNotification * window * list (Z * earlySample).

Definition replay_in (st : race_state) : race_state :=
  let '(active, w, delivered) := st in
  let '(w, taken) := replayEarlySamples active [h] w in (active, w, delivered ++ taken).

Definition act (st : race_state) (a : action) : race_state :=
  let '(active, w, delivered) := st in
  match a with
  | ABuffer => (active, (bufferEarlySample h ts content w).1, delivered)
  | BCommit => (<[h := entry]> active, w, delivered)
  | AReplay | BReplay => replay_in st
  | BClose => (active, closeSubscribe tok w, delivered)
  end.

Definition sample : earlySample := {| es_timestamp := ts; es_content := content |}.
End Race.

Definition losing_schedule : list action := [BCommit; BReplay; ABuffer; BClose; AReplay].


Definition race_window : window :=
  {| openSubscribes := {[1 := 5]}; nextSubscribeToken := 1; subscribeInFlight := 1; lastSubscribeNs := 5;
     earlySamples := ∅; earlyBytes := 0 |}.
Definition race_entry : activeNotification := {| an_Sym := Some "MAIN.a"%string; an_Ch := 1; an_order := None |}.


Lemma subscribeRaceActive_spec_witness :
  subscribeRaceActive (6 * Second) race_window = true <->
  (exists tok start, openSubscribes race_window !! tok = Some start /\ 6 * Second - start < subscribeRaceMaxOpen) \/
  (openSubscribes race_window = ∅ /\ 6 * Second - lastSubscribeNs race_window < subscribeRaceWindow).
Proof.
  apply subscribeRaceActive_spec. apply map_Forall_singleton. lia.
Defined.

Lemma early_buffer_bounded_witness :
  let w := (bufferEarlySample 3 1 [Byte.x01] fresh_window).1 in
  earlyBytes w = held_bytes (earlySamples w) /\ held_bytes (earlySamples w) <= 8388608 /\
  Z.of_nat (size (earlySamples w)) <= 4096 /\ subscribeInFlight w = Z.of_nat (size (openSubscribes w)).
Proof. apply early_buffer_bounded. eapply wr_step; [apply wr_fresh|apply ws_buffer]. Defined.
