(* ===== verification/Policies.v ===== *)
(** session.go, session_options.go and cmd_notification.go: the session's decision
    rules.  Retry pacing, the reload budget, what an error says about the link,
    when silence counts as death.  A [time.Duration] is a 64-bit count of
    nanoseconds, an [int] is 64 bits wide. *)
From S2P Require Import Prelude Wire Strconv Defs.

(** ** Reconnect backoff *)

Record BackoffConfig : Type := {
  InitialInterval : Z; InitialAttempts : Z; MidInterval : Z; MidAttempts : Z;
  SlowInterval : Z; SlowAttempts : Z; MaxInterval : Z }.

Definition DefaultBackoffConfig : BackoffConfig :=
  {| InitialInterval := 1 * Second; InitialAttempts := 3; MidInterval := 5 * Second; MidAttempts := 3;
     SlowInterval := 15 * Second; SlowAttempts := 4; MaxInterval := 30 * Second |}.

Definition Validate (c : BackoffConfig) : option goerr :=
  if InitialInterval c <=? 0 then Some (EMsg "BackoffConfig.InitialInterval must be > 0")
  else if MidInterval c <=? 0 then Some (EMsg "BackoffConfig.MidInterval must be > 0")
  else if SlowInterval c <=? 0 then Some (EMsg "BackoffConfig.SlowInterval must be > 0")
  else if MaxInterval c <=? 0 then Some (EMsg "BackoffConfig.MaxInterval must be > 0")
  else if InitialAttempts c <? 0 then Some (EMsg "BackoffConfig.InitialAttempts must be >= 0")
  else if MidAttempts c <? 0 then Some (EMsg "BackoffConfig.MidAttempts must be >= 0")
  else if SlowAttempts c <? 0 then Some (EMsg "BackoffConfig.SlowAttempts must be >= 0")
  else if MidInterval c <? InitialInterval c then Some (EMsg "BackoffConfig.MidInterval < InitialInterval")
  else if SlowInterval c <? MidInterval c then Some (EMsg "BackoffConfig.SlowInterval < MidInterval")
  else if MaxInterval c <? SlowInterval c then Some (EMsg "BackoffConfig.MaxInterval < SlowInterval")
  else None.

(** [WithBackoff]. *)
Definition WithBackoff (cfg current : BackoffConfig) : BackoffConfig :=
  match Validate cfg with Some _ => current | None => cfg end.

Definition reconnectBackoff (cfg : BackoffConfig) (attempt : Z) : Z :=
  if attempt <=? InitialAttempts cfg then InitialInterval cfg
  else if attempt <=? i64 (InitialAttempts cfg + MidAttempts cfg) then MidInterval cfg
  else if attempt <=? i64 (i64 (InitialAttempts cfg + MidAttempts cfg) + SlowAttempts cfg) then SlowInterval cfg
  else MaxInterval cfg.

(** ** Flapping *)

Definition flapWindow : Z := 5 * Second.
Definition flapResetWindow : Z := 60 * Second.

(** [lastConnected = None]: the zero time. *)
Definition nextFlapCount (prev : Z) (lastConnected : option Z) (now : Z) (servedNothing : bool) : Z :=
  match lastConnected with
  | None => if servedNothing then prev + 1 else prev
  | Some t =>
      let elapsed := now - t in
      if elapsed <? flapWindow then prev + 2
      else if elapsed <? flapResetWindow then prev + 1
      else 0
  end.

(** ** Route activation *)

Definition defaultRouteActivationTimeout : Z := 10 * Second.
Definition minRouteActivationProbe : Z := 500 * Millisecond.
Definition maxRouteActivationProbe : Z := 2 * Second.
Definition maxFailureBackoffShift : Z := 6.
Definition redialBackoffBase : Z := 250 * Millisecond.
Definition redialBackoffMax : Z := 2 * Second.

Definition redialBackoff (n : Z) : Z :=
  let n := if n <? 0 then 0 else n in
  let n := if maxFailureBackoffShift <? n then maxFailureBackoffShift else n in
  let d := i64 (Z.shiftl redialBackoffBase n) in
  if (redialBackoffMax <? d) || (d <=? 0) then redialBackoffMax else d.

Definition routeActivationBudget (activationTimeout : Z) : Z * Z :=
  let total := if activationTimeout <=? 0 then defaultRouteActivationTimeout else activationTimeout in
  let probe := Z.quot total 4 in
  let probe := if probe <? minRouteActivationProbe then minRouteActivationProbe else probe in
  let probe := if maxRouteActivationProbe <? probe then maxRouteActivationProbe else probe in
  (total, probe).

Definition defaultStateWatchInterval : Z := 5 * Second.
Definition stateWatchCycle (stateWatchInterval : Z) : Z :=
  if 0 <? stateWatchInterval then stateWatchInterval else defaultStateWatchInterval.

Definition defaultUnservedCooldown : Z := 30 * Second.
Definition unservedCooldownDuration (unservedCooldown : Z) : Z :=
  if 0 <? unservedCooldown then unservedCooldown else defaultUnservedCooldown.

(** ** What an error says about the link *)

Definition isTransportDead (err : option goerr) : bool :=
  match err with
  | None => false
  | Some e => errors_is ErrTransportClosed e || errors_is ErrEOF e || errors_is ErrConnReset e
  end.

Definition isDeviceAnswer (err : option goerr) : bool :=
  match err with
  | None => false
  | Some e => is_Some_b (errors_as_code e) || is_Some_b (errors_as_ams e)
  end.

Definition isUnservedError (err : option goerr) : bool :=
  match err with
  | None => false
  | Some e => if is_Some_b (errors_as_code e) then false
              else errors_is ErrDeadlineExceeded e && negb (errors_is ErrTransportClosed e)
  end.

(** ** The reload budget *)

Record reloads : Type := { reloadAttempts : list Z; maxReloadAttempts : Z; reloadWindow : Z }.

(** [tryRecordReloadAttempt] at time [now]. *)
Definition tryRecordReloadAttempt (now : Z) (r : reloads) : reloads * bool :=
  let cutoff := now - reloadWindow r in
  let pruned := List.filter (fun t => cutoff <? t) (reloadAttempts r) in
  let with_attempts l := {| reloadAttempts := l; maxReloadAttempts := maxReloadAttempts r; reloadWindow := reloadWindow r |} in
  if maxReloadAttempts r <=? len pruned then (with_attempts pruned, false)
  else (with_attempts (pruned ++ [now]), true).

(** ** Stale-cache detection *)

(** What [handleStaleDetection] starts. *)
Inductive stale_action : Type :=
| MarkStale (reason : Reason) | Callback (reason : Reason) | CloseSession (reason : Reason) | Reload (reason : Reason).

(** The strategy, [reloadInProgress], whether a callback is installed. *)
Definition handleStaleDetection (strategy : SymbolVersionStrategy) (reloadInProgress callback : bool) (rc : Z)
  : bool * bool * list stale_action :=
  match detectStaleCache rc with
  | None => (reloadInProgress, false, [])
  | Some reason =>
      let cb := if callback then [Callback reason] else [] in
      match strategy with
      | SymbolVersionIgnore => (reloadInProgress, true, MarkStale reason :: cb)
      | SymbolVersionClose => (reloadInProgress, true, cb ++ [CloseSession reason])
      | SymbolVersionAutoReload =>
          if reloadInProgress then (reloadInProgress, true, [])
          else (true, true, cb ++ [Reload reason])
      end
  end.

(** ** The heartbeat's patience *)

Definition defaultHeartbeatInterval : Z := 2 * Second.
Definition defaultHeartbeatMissed : Z := 5.
Definition maxADSCycleTime : Z := 400 * Second.
Definition maxHeartbeatRecoveryBackoff : Z := 30 * Second.

Record heartbeatOptions : Type := {
  heartbeatInterval : Z; heartbeatMissed : Z; heartbeatSilence : Z; heartbeatDisabled : bool }.

Definition WithNotificationHeartbeat (interval missed : Z) (o : heartbeatOptions) : heartbeatOptions :=
  {| heartbeatInterval := if 0 <? interval
                          then (if maxADSCycleTime <? interval then maxADSCycleTime else interval)
                          else heartbeatInterval o;
     heartbeatMissed := if missed <? 2 then 2 else missed;
     heartbeatSilence := 0; heartbeatDisabled := false |}.

Definition WithNotificationSilenceTimeout (d : Z) (o : heartbeatOptions) : heartbeatOptions :=
  if d <=? 0 then o
  else {| heartbeatInterval := heartbeatInterval o; heartbeatMissed := heartbeatMissed o;
          heartbeatSilence := d; heartbeatDisabled := false |}.

Definition heartbeatCycle (o : heartbeatOptions) : Z :=
  if 0 <? heartbeatInterval o then heartbeatInterval o else defaultHeartbeatInterval.

Definition normalizeHeartbeatOptions (o : heartbeatOptions) : heartbeatOptions :=
  if heartbeatSilence o <=? 0 then o
  else
    let cycle := heartbeatCycle o in
    let missed := Z.quot (i64 (i64 (heartbeatSilence o + cycle) - 1)) cycle in
    {| heartbeatInterval := heartbeatInterval o; heartbeatMissed := if missed <? 2 then 2 else missed;
       heartbeatSilence := heartbeatSilence o; heartbeatDisabled := heartbeatDisabled o |}.

Definition heartbeatAllowedMisses (o : heartbeatOptions) : Z :=
  if 2 <=? heartbeatMissed o then heartbeatMissed o else defaultHeartbeatMissed.

Definition heartbeatAllowedTicks (base consecutiveFailures cycle : Z) : Z :=
  if (consecutiveFailures <=? 0) || (base <=? 0) || (cycle <=? 0) then base
  else
    let shift := Z.min consecutiveFailures maxFailureBackoffShift in
    let capTicks := Z.max (Z.quot maxHeartbeatRecoveryBackoff cycle) base in
    Z.min (i64 (Z.shiftl base shift)) capTicks.

(** [recoveryStreak]. *)
Record recoveryStreak : Type := { rs_failures : Z; rs_healthy : Z; rs_stableTicks : Z }.

Definition streak_attempt (r : recoveryStreak) : recoveryStreak :=
  {| rs_failures := rs_failures r + 1; rs_healthy := 0; rs_stableTicks := rs_stableTicks r |}.
Definition healthyTick (r : recoveryStreak) : recoveryStreak :=
  let h := rs_healthy r + 1 in
  {| rs_failures := if rs_stableTicks r <=? h then 0 else rs_failures r; rs_healthy := h;
     rs_stableTicks := rs_stableTicks r |}.
Definition unhealthyTick (r : recoveryStreak) : recoveryStreak :=
  {| rs_failures := rs_failures r; rs_healthy := 0; rs_stableTicks := rs_stableTicks r |}.
Definition streak_reset (r : recoveryStreak) : recoveryStreak :=
  {| rs_failures := 0; rs_healthy := 0; rs_stableTicks := rs_stableTicks r |}.

(** [reportNow]: the new stamp and whether to report. *)
Definition reportNow (now last interval : Z) : Z * bool :=
  if now - last <? interval then (last, false) else (now, true).

(** ** The runtime state *)

Definition ADSStateInvalid : Z := 0.
Definition ADSStateReconfig : Z := 16.
Definition runtimeStateTTL : Z := 30 * Second.

(** [at_]: when the state was recorded, 0 when never. *)
Definition knownRuntimeState (state at_ now : Z) : Z * bool :=
  if state =? ADSStateInvalid then (state, false)
  else if negb (at_ =? 0) && (runtimeStateTTL <? now - at_) then (ADSStateInvalid, false)
  else (state, true).

Definition runtimeDefinitelyNotServing (state : Z) : bool :=
  (state =? ADSStateConfig) || (state =? ADSStateReconfig).

Definition requireRunningRuntime (state at_ now : Z) : option goerr :=
  let '(state, known) := knownRuntimeState state at_ now in
  if known && runtimeDefinitelyNotServing state
  then Some (EWrap "the runtime port is not serving" (ESentinel ErrRuntimeNotRunning)) else None.
