(* ===== verification/PoliciesFacts.v ===== *)
(** The session's decision rules (Policies.v): the reconnect ramp, the sliding
    reload budget, the patience of the heartbeat and where its arithmetic
    overflows. *)
From S2P Require Import Prelude Wire Strconv Defs Policies.
From Stdlib Require Import Sorting.Sorted.

(** ** The reconnect ramp *)

Lemma i64_id z : in_s 64 z -> i64 z = z.
Proof.
  intros H. unfold i64, wrap_s, in_s in *. change (64 - 1) with 63 in *.
  destruct (Z.leb_spec 0 z).
  - rewrite Z.mod_small by lia. by rewrite (proj2 (Z.ltb_lt _ _)) by lia.
  - assert (E : z mod 2 ^ 64 = z + 2 ^ 64) by (symmetry; apply Z.mod_unique_pos with (q := -1); lia).
    rewrite E, (proj2 (Z.ltb_ge _ _)) by lia. lia.
Qed.

Record valid_backoff (c : BackoffConfig) : Prop := {
  vb_initial : 0 < InitialInterval c; vb_mid : InitialInterval c <= MidInterval c;
  vb_slow : MidInterval c <= SlowInterval c; vb_max : SlowInterval c <= MaxInterval c;
  vb_n1 : 0 <= InitialAttempts c; vb_n2 : 0 <= MidAttempts c; vb_n3 : 0 <= SlowAttempts c }.

Lemma Validate_spec c : Validate c = None <-> valid_backoff c.
Proof.
  unfold Validate. split.
  - intros H. repeat (case_match; [done|]). zbool. by split; lia.
  - intros []. repeat (case_match; [zbool; lia|]). done.
Qed.

Lemma WithBackoff_valid cfg c : Validate c = None -> Validate (WithBackoff cfg c) = None.
Proof. unfold WithBackoff. by destruct (Validate cfg) eqn:E. Qed.

(** With a configuration that passed validation the delay between reconnect
    attempts is positive, never shrinks from one attempt to a later one and never
    exceeds the configured cap, which it reaches once the tiers are used up. *)
Theorem reconnectBackoff_ramp c a b :
  Validate c = None -> InitialAttempts c + MidAttempts c + SlowAttempts c < 2 ^ 63 -> a <= b ->
  0 < reconnectBackoff c a <= reconnectBackoff c b /\ reconnectBackoff c b <= MaxInterval c /\
  (InitialAttempts c + MidAttempts c + SlowAttempts c < b -> reconnectBackoff c b = MaxInterval c).
Proof.
  intros [H1 H2 H3 H4 H5 H6 H7]%Validate_spec Hs Hab. unfold reconnectBackoff.
  rewrite (i64_id (_ + MidAttempts c)) by (unfold in_s; lia). rewrite i64_id by (unfold in_s; lia).
  repeat match goal with |- context [?x <=? ?y] => destruct (Z.leb_spec x y) end; lia.
Qed.

(** ** The reload budget *)

(** A run of detections at the given times: the state and the times granted. *)
Definition record_reload (st : reloads * list Z) (now : Z) : reloads * list Z :=
  let '(r, granted) := st in
  let '(r, ok) := tryRecordReloadAttempt now r in (r, if ok then granted ++ [now] else granted).

Definition run_reloads (r : reloads) (times : list Z) : reloads * list Z := foldl record_reload (r, []) times.

(** The grants in the window that ends at [t]. *)
Definition in_window (w t : Z) (granted : list Z) : list Z :=
  List.filter (fun x => (t - w <? x) && (x <=? t)) granted.

Lemma filter_impl {A} (f g : A -> bool) l : (forall x, f x = true -> g x = true) ->
  List.filter f (List.filter g l) = List.filter f l.
Proof.
  intros H. induction l as [|x l IH]; cbn; [done|]. destruct (g x) eqn:Eg; cbn; [by rewrite IH|].
  destruct (f x) eqn:Ef; [by rewrite (H x Ef) in Eg|done].
Qed.

Lemma filter_len_impl {A} (f g : A -> bool) l : Forall (fun x => f x = true -> g x = true) l ->
  len (List.filter f l) <= len (List.filter g l).
Proof.
  induction 1 as [|x l Hx _ IH]; cbn; [done|]. destruct (f x); [rewrite (Hx eq_refl), !len_cons; lia|].
  destruct (g x); rewrite ?len_cons; lia.
Qed.

Record budget_inv (maxn w : Z) (times : list Z) (st : reloads * list Z) : Prop := {
  bi_max : maxReloadAttempts st.1 = maxn;
  bi_window : reloadWindow st.1 = w;
  bi_sub : Forall (fun g => g ∈ times) st.2;
  bi_kept : forall now, Forall (fun t => t <= now) times ->
     List.filter (fun t => now - w <? t) (reloadAttempts st.1) = List.filter (fun t => now - w <? t) st.2;
  bi_count : forall t, len (in_window w t st.2) <= maxn }.

Lemma budget_step maxn w times now st : 0 <= w -> Forall (fun t => t <= now) times ->
  budget_inv maxn w times st -> budget_inv maxn w (times ++ [now]) (record_reload st now).
Proof.
  intros Hw Hnow Hi. destruct st as [r granted], Hi as [Hm Hwi Hsub Hkept Hcount]. cbn [fst snd] in *.
  unfold record_reload, tryRecordReloadAttempt. rewrite Hwi, Hm.
  set (pruned := List.filter _ (reloadAttempts r)).
  assert (Hp : pruned = List.filter (fun t => now - w <? t) granted) by (apply Hkept, Hnow).
  assert (Hsub' : Forall (fun g => g ∈ times ++ [now]) granted).
  { eapply Forall_impl; [done|]. cbn. set_solver. }
  assert (Hk : forall now', Forall (fun t => t <= now') (times ++ [now]) ->
     List.filter (fun t => now' - w <? t) pruned = List.filter (fun t => now' - w <? t) granted).
  { intros now' Hn. rewrite Hp. apply filter_impl. intros x Hx. apply Z.ltb_lt in Hx. apply Z.ltb_lt.
    apply Forall_app in Hn as [_ [Hn _]%Forall_cons]. lia. }
  destruct (Z.leb_spec maxn (len pruned)) as [Hle|Hgt]; split; cbn [fst snd maxReloadAttempts reloadWindow reloadAttempts]; try done.
  - apply Forall_app. split; [done|]. apply Forall_singleton. set_solver.
  - intros now' Hn. rewrite !List.filter_app. by rewrite Hk.
  - intros t. unfold in_window. rewrite List.filter_app, len_app. cbn [List.filter].
    destruct ((t - w <? now) && (now <=? t)) eqn:Et; rewrite ?len_cons, ?len_nil; [|pose proof (Hcount t); unfold in_window in *; lia].
    apply andb_prop in Et as [E1%Z.ltb_lt E2%Z.leb_le].
    assert (len (in_window w t granted) <= len pruned); [|unfold in_window in *; lia].
    rewrite Hp. unfold in_window. apply filter_len_impl. eapply Forall_impl; [done|]. cbn. intros x _ Hx.
    apply andb_prop in Hx as [Hx%Z.ltb_lt _]. apply Z.ltb_lt. lia.
Qed.

Lemma sorted_snoc_le l x : Sorted Z.le (l ++ [x]) -> Forall (fun t => t <= x) l /\ Sorted Z.le l.
Proof.
  intros H. apply Sorted_StronglySorted in H; [|intros ???; lia].
  induction l as [|a l IH]; [by split|]. cbn in H. apply StronglySorted_inv in H as [H1 H2].
  destruct (IH H1) as [H3 H4]. apply Forall_app in H2 as [H2 [H5 _]%Forall_cons].
  split; [by constructor|]. constructor; [done|]. destruct l; [constructor|]. apply Forall_cons in H2 as [? _]. by constructor.
Qed.

(** However often a stale cache is detected, any window of the configured width
    holds at most the configured number of automatic reloads. *)
Theorem reload_budget maxn w times t :
  0 <= maxn -> 0 <= w -> Sorted Z.le times ->
  len (in_window w t (run_reloads {| reloadAttempts := []; maxReloadAttempts := maxn; reloadWindow := w |} times).2) <= maxn.
Proof.
  intros Hm Hw Hs. revert t. eapply bi_count with (times := times).
  unfold run_reloads. induction times as [|now times IH] using rev_ind.
  - split; cbn; done || by constructor.
  - destruct (sorted_snoc_le _ _ Hs) as [Hle Hs']. rewrite foldl_app. cbn [foldl].
    apply budget_step; [done|done|by apply IH].
Qed.

(** ** The heartbeat's patience *)

Lemma shiftl_pow2 b n : 0 <= n -> Z.shiftl b n = b * 2 ^ n.
Proof. apply Z.shiftl_mul_pow2. Qed.

(** The silence tolerated grows with every failed recovery, never drops below the
    configured window, and never exceeds 30 s (or the configured window, when that
    is longer), as long as the window is below 2^57 ticks. *)
Theorem heartbeatAllowedTicks_bounds base f f' cycle :
  0 < base < 2 ^ 57 -> 0 < cycle -> f <= f' ->
  base <= heartbeatAllowedTicks base f cycle <= heartbeatAllowedTicks base f' cycle /\
  heartbeatAllowedTicks base f' cycle <= Z.max (maxHeartbeatRecoveryBackoff / cycle) base.
Proof.
  intros Hb Hc Hf. assert (Hd : 0 <= maxHeartbeatRecoveryBackoff / cycle) by (apply Z.div_pos; [done|lia]).
  assert (Hval : forall g, heartbeatAllowedTicks base g cycle
     = if g <=? 0 then base
       else Z.min (base * 2 ^ Z.min g 6) (Z.max (maxHeartbeatRecoveryBackoff / cycle) base)).
  { intros g. unfold heartbeatAllowedTicks. rewrite (proj2 (Z.leb_gt base 0)), (proj2 (Z.leb_gt cycle 0)) by lia.
    rewrite !orb_false_r. destruct (Z.leb_spec g 0); [done|]. cbv zeta. change maxFailureBackoffShift with 6.
    rewrite shiftl_pow2 by lia. rewrite Z.quot_div_nonneg by (done || lia). rewrite i64_id; [done|]. unfold in_s.
    assert (1 <= 2 ^ Z.min g 6 <= 2 ^ 6); [|nia].
    split; [change 1 with (2 ^ 0)|]; apply Z.pow_le_mono_r; lia. }
  rewrite !Hval. destruct (Z.leb_spec f 0), (Z.leb_spec f' 0); try lia.
  - assert (1 <= 2 ^ Z.min f' 6) by (change 1 with (2 ^ 0); apply Z.pow_le_mono_r; lia). nia.
  - assert (1 <= 2 ^ Z.min f 6) by (change 1 with (2 ^ 0); apply Z.pow_le_mono_r; lia).
    assert (2 ^ Z.min f 6 <= 2 ^ Z.min f' 6) by (apply Z.pow_le_mono_r; lia). nia.
Qed.

(** A silence timeout is converted to a number of beats that covers it, and to no
    more than needed (two at least), as long as timeout plus cycle fits 64 bits. *)
Theorem silence_timeout_covered d o :
  0 < d -> d + heartbeatCycle o < 2 ^ 63 -> heartbeatCycle o < 2 ^ 63 ->
  let o' := normalizeHeartbeatOptions (WithNotificationSilenceTimeout d o) in
  heartbeatCycle o' = heartbeatCycle o /\ d <= heartbeatMissed o' * heartbeatCycle o /\
  ((heartbeatMissed o' - 1) * heartbeatCycle o < d \/ heartbeatMissed o' = 2).
Proof.
  intros Hd Hov Hcy. assert (Hc : 0 < heartbeatCycle o).
  { unfold heartbeatCycle. destruct (Z.ltb_spec 0 (heartbeatInterval o)); [done|]. done. }
  cbv zeta. unfold WithNotificationSilenceTimeout, normalizeHeartbeatOptions.
  rewrite (proj2 (Z.leb_gt d 0)) by lia. cbn [heartbeatSilence]. rewrite (proj2 (Z.leb_gt d 0)) by lia.
  set (o1 := {| heartbeatInterval := _; heartbeatMissed := heartbeatMissed o; heartbeatSilence := d; heartbeatDisabled := false |}).
  change (heartbeatCycle o1) with (heartbeatCycle o). set (c := heartbeatCycle o) in *.
  cbn [heartbeatMissed]. rewrite (i64_id (d + c)) by (unfold in_s; lia). rewrite i64_id by (unfold in_s; lia).
  rewrite Z.quot_div_nonneg by lia. split; [done|].
  pose proof (Z.div_mod (d + c - 1) c ltac:(lia)). pose proof (Z.mod_pos_bound (d + c - 1) c Hc).
  destruct (Z.ltb_spec ((d + c - 1) / c) 2).
  - split; [|by right]. nia.
  - split; [nia|left; nia].
Qed.

(** At the top of the range the conversion wraps around: the longest timeout that
    can be stated, "never", becomes the shortest one, two beats; and the longest
    window of beats turns negative at the first failed recovery. *)
Theorem patience_overflows o cycle :
  2 <= heartbeatCycle o < 2 ^ 63 -> 0 < cycle ->
  heartbeatMissed (normalizeHeartbeatOptions (WithNotificationSilenceTimeout (2 ^ 63 - 1) o)) = 2 /\
  heartbeatAllowedTicks (2 ^ 63 - 1) 1 cycle = -2.
Proof.
  intros Hc Hcy. split.
  - unfold WithNotificationSilenceTimeout, normalizeHeartbeatOptions.
    change (2 ^ 63 - 1 <=? 0) with false. cbv iota. cbn [heartbeatSilence].
    change (2 ^ 63 - 1 <=? 0) with false. cbv iota zeta. cbn [heartbeatMissed].
    set (c := heartbeatCycle _). change (heartbeatCycle o) with c in Hc.
    assert (E : i64 (2 ^ 63 - 1 + c) = c - 2 ^ 63 - 1).
    { unfold i64, wrap_s. rewrite Z.mod_small by lia. rewrite (proj2 (Z.ltb_ge _ _)) by lia. lia. }
    rewrite E. set (n := i64 _). assert (Hn : n < 0 \/ n = 2 ^ 63 - 1).
    { destruct (Z.eq_dec c 0); [lia|]. left. unfold n. rewrite i64_id by (unfold in_s; lia). lia. }
    destruct Hn as [Hn|Hn].
    + assert (Z.quot n c <= 0).
      { assert (Hq : Z.quot (- n) c = - Z.quot n c) by (apply Z.quot_opp_l; lia). pose proof (Z.quot_pos (- n) c ltac:(lia) ltac:(lia)). lia. }
      by rewrite (proj2 (Z.ltb_lt _ _)) by lia.
    + unfold n in Hn. rewrite i64_id in Hn by (unfold in_s; lia). lia.
  - unfold heartbeatAllowedTicks. rewrite (proj2 (Z.leb_gt cycle 0)) by lia.
    change ((1 <=? 0) || (2 ^ 63 - 1 <=? 0) || false) with false. cbv iota zeta.
    change (i64 (Z.shiftl (2 ^ 63 - 1) (Z.min 1 maxFailureBackoffShift))) with (-2). lia.
Qed.

Lemma reconnectBackoff_ramp_witness :
  0 < reconnectBackoff DefaultBackoffConfig 2 <= reconnectBackoff DefaultBackoffConfig 11 /\
  reconnectBackoff DefaultBackoffConfig 11 <= 30000000000 /\
  (10 < 11 -> reconnectBackoff DefaultBackoffConfig 11 = 30000000000).
Proof.
  refine (reconnectBackoff_ramp DefaultBackoffConfig 2 11 _ _ _);
    [reflexivity|vm_compute; reflexivity|lia].
Defined.

(** Three detections within a window of 60 s and a budget of two. *)
Definition sample_reloads : reloads := {| reloadAttempts := []; maxReloadAttempts := 2; reloadWindow := 60 |}.
Lemma reload_budget_witness :
  len (in_window 60 30 (run_reloads sample_reloads [10; 20; 30; 75]).2) <= 2 /\
  (run_reloads sample_reloads [10; 20; 30; 75]).2 = [10; 20; 75].
Proof.
  split; [|reflexivity]. apply (reload_budget 2 60 [10; 20; 30; 75] 30); [lia|lia|].
  repeat constructor; lia.
Defined.

Lemma heartbeatAllowedTicks_bounds_witness :
  5 <= heartbeatAllowedTicks 5 1 (2 * Second) <= heartbeatAllowedTicks 5 4 (2 * Second) /\
  heartbeatAllowedTicks 5 4 (2 * Second) <= Z.max (maxHeartbeatRecoveryBackoff / (2 * Second)) 5.
Proof. apply (heartbeatAllowedTicks_bounds 5 1 4 (2 * Second)); vm_compute; intuition discriminate. Defined.

Definition default_heartbeat : heartbeatOptions :=
  {| heartbeatInterval := 0; heartbeatMissed := 0; heartbeatSilence := 0; heartbeatDisabled := false |}.

Lemma silence_timeout_covered_witness :
  let o' := normalizeHeartbeatOptions (WithNotificationSilenceTimeout (9 * Second) default_heartbeat) in
  heartbeatCycle o' = 2 * Second /\ 9 * Second <= heartbeatMissed o' * (2 * Second) /\
  ((heartbeatMissed o' - 1) * (2 * Second) < 9 * Second \/ heartbeatMissed o' = 2).
Proof. apply (silence_timeout_covered (9 * Second) default_heartbeat); vm_compute; reflexivity. Defined.
