(* ===== verification/Access.v ===== *)
(** symbol_access.go, batch_result.go and the on-demand resolution of
    symbol_discovery.go: reading and writing symbols by name, one at a time and in
    batches, with the retry after a reconnect and the per-item error report.

    Network calls run without the cache lock: other goroutines may swap the symbol
    cache, resolve or drop symbols and reconnect meanwhile.  [interfere] is what they
    did while one network call was out, [reconnected] what happened while
    [waitForReconnect] blocked; both are arbitrary functions on the session. *)
From S2P Require Import Prelude Wire Strconv Defs Ams Client SumCmd SymbolTable GoTime Utf Codec.

(** ** Batch errors *)

Record BatchItemError : Type := { bi_Symbol : string; bi_Error : Z; bi_Skipped : option goerr }.
Record BatchError : Type := {
  be_Op : string; be_Requested : Z; be_Succeeded : Z; be_Items : list BatchItemError }.

Definition newBatchError (op : string) (requested succeeded : Z) (items : list BatchItemError) : option BatchError :=
  match items with
  | [] => None
  | _ => Some {| be_Op := op; be_Requested := requested; be_Succeeded := succeeded; be_Items := items |}
  end.

(** [sort.Slice] by symbol name (the names of a write batch are distinct). *)
Fixpoint insert_item (i : BatchItemError) (l : list BatchItemError) : list BatchItemError :=
  match l with
  | [] => [i]
  | j :: l => if String.ltb (bi_Symbol j) (bi_Symbol i) then j :: insert_item i l else i :: j :: l
  end.
Definition sortBatchItems (l : list BatchItemError) : list BatchItemError := foldr insert_item [] l.

(** [BatchError.Unwrap]. *)
Definition Unwrap (e : BatchError) : list goerr := omap bi_Skipped (be_Items e).

Definition item_skipped (name : string) (s : sentinel) (cause : option goerr) : BatchItemError :=
  {| bi_Symbol := name; bi_Error := 0;
     bi_Skipped := Some (match cause with Some e => EWrap2 (ESentinel s) e | None => ESentinel s end) |}.
Definition item_code (name : string) (rc : Z) : BatchItemError :=
  {| bi_Symbol := name; bi_Error := rc; bi_Skipped := None |}.

(** ** The session *)

(** [symbolCache], and the parts of the session the access paths consult: the client,
    the runtime state observed and when, the generation counter, the clock; and the
    codes handed to stale detection, which start a reload elsewhere.

    A symbol object of the cache: its identity, its fields, when its value was
    last updated and how long that value may be served. *)
Record entry : Type := { en_id : Z; en_sym : symbol; en_updated : Z; en_interval : Z }.

Record session (W : Type) : Type := {
  ss_client : option (client W);
  ss_symbols : gmap string entry;
  ss_onDemand : gset string;
  ss_datatypes : datatypes;
  ss_fullyLoaded : bool; ss_listLoaded : bool; ss_datatypesLoaded : bool;
  ss_version : Z;
  ss_runtime : Z * Z;
  ss_strictFailures : Z;
  ss_epoch : Z;
  ss_now : Z;
  ss_nextId : Z;
  ss_detected : list Z }.
Arguments Build_session {W}.
Arguments ss_client {W}. Arguments ss_symbols {W}. Arguments ss_onDemand {W}. Arguments ss_datatypes {W}.
Arguments ss_fullyLoaded {W}. Arguments ss_listLoaded {W}. Arguments ss_datatypesLoaded {W}.
Arguments ss_version {W}. Arguments ss_runtime {W}. Arguments ss_strictFailures {W}.
Arguments ss_epoch {W}. Arguments ss_now {W}. Arguments ss_nextId {W}. Arguments ss_detected {W}.

Definition set_client {W} (c : client W) (s : session W) : session W :=
  Build_session (Some c) (ss_symbols s) (ss_onDemand s) (ss_datatypes s) (ss_fullyLoaded s) (ss_listLoaded s)
    (ss_datatypesLoaded s) (ss_version s) (ss_runtime s) (ss_strictFailures s) (ss_epoch s) (ss_now s) (ss_nextId s)
    (ss_detected s).
(** The table, with what identifies its objects. *)
Definition set_table {W} (m : gmap string entry) (onDemand : gset string) (nextId : Z) (s : session W) : session W :=
  Build_session (ss_client s) m onDemand (ss_datatypes s) (ss_fullyLoaded s) (ss_listLoaded s)
    (ss_datatypesLoaded s) (ss_version s) (ss_runtime s) (ss_strictFailures s) (ss_epoch s) (ss_now s) nextId
    (ss_detected s).
Definition set_symbols {W} (m : gmap string entry) (s : session W) : session W :=
  set_table m (ss_onDemand s) (ss_nextId s) s.
(** A code handed to [handleStaleDetection] (Policies.v). *)
Definition detect {W} (rc : Z) (s : session W) : session W :=
  Build_session (ss_client s) (ss_symbols s) (ss_onDemand s) (ss_datatypes s) (ss_fullyLoaded s) (ss_listLoaded s)
    (ss_datatypesLoaded s) (ss_version s) (ss_runtime s) (ss_strictFailures s) (ss_epoch s) (ss_now s) (ss_nextId s)
    (ss_detected s ++ [rc]).
Definition detect_err {W} (err : goerr) (s : session W) : session W :=
  match errors_as_code err with Some rc => detect rc s | None => s end.

(** The first per-item code that means a stale cache. *)
Definition detect_first {W} (codes : list Z) (s : session W) : session W :=
  match List.find (fun rc => negb (rc =? ReturnCodeNoErrors) && is_Some_b (detectStaleCache rc)) codes with
  | Some rc => detect rc s
  | None => s
  end.

Definition with_handle (h : Z) (d : symbolData) : symbolData :=
  {| sy_Name := sy_Name d; sy_FullName := sy_FullName d; sy_DataType := sy_DataType d; sy_Comment := sy_Comment d;
     sy_Handle := h; sy_Group := sy_Group d; sy_Offset := sy_Offset d; sy_Length := sy_Length d;
     sy_BaseType := sy_BaseType d; sy_Flags := sy_Flags d; sy_ContextMask := sy_ContextMask d;
     sy_Value := sy_Value d; sy_Valid := sy_Valid d; sy_ValueParsed := sy_ValueParsed d; sy_Parent := sy_Parent d |}.

(** [Value = "", ValueParsed = false]. *)
Definition forget_value (d : symbolData) : symbolData :=
  {| sy_Name := sy_Name d; sy_FullName := sy_FullName d; sy_DataType := sy_DataType d; sy_Comment := sy_Comment d;
     sy_Handle := sy_Handle d; sy_Group := sy_Group d; sy_Offset := sy_Offset d; sy_Length := sy_Length d;
     sy_BaseType := sy_BaseType d; sy_Flags := sy_Flags d; sy_ContextMask := sy_ContextMask d;
     sy_Value := ""; sy_Valid := sy_Valid d; sy_ValueParsed := false; sy_Parent := sy_Parent d |}.

Definition map_data (f : symbolData -> symbolData) (s : symbol) : symbol :=
  let '(MkSymbol d cs) := s in MkSymbol (f d) cs.
Definition map_entry (f : symbolData -> symbolData) (e : entry) : entry :=
  {| en_id := en_id e; en_sym := map_data f (en_sym e); en_updated := en_updated e; en_interval := en_interval e |}.
Definition en_data (e : entry) : symbolData := sy_data (en_sym e).

(** The object a captured pointer stands for: the cache's when it is still there,
    otherwise the captured copy, which nothing updates any more. *)
Definition deref (key : string) (e : entry) (m : gmap string entry) : entry :=
  match m !! key with
  | Some e' => if en_id e' =? en_id e then e' else e
  | None => e
  end.

(** [parse] updates the members of a composite in place, and the cache holds those
    same objects under their own names. *)
Fixpoint members (s : symbol) : list symbol :=
  let '(MkSymbol _ cs) := s in
  (fix go (cs : list (string * symbol)) : list symbol :=
     match cs with
     | [] => []
     | (_, c) :: cs => c :: members c ++ go cs
     end) cs.

Definition publish_member (now : Z) (m : gmap string entry) (c : symbol) : gmap string entry :=
  match m !! symbolKey (sy_FullName (sy_data c)) with
  | Some e =>
      <[symbolKey (sy_FullName (sy_data c)) :=
          {| en_id := en_id e; en_sym := map_data (updateValue (sy_Value (sy_data c))) (en_sym e);
             en_updated := now; en_interval := en_interval e |}]> m
  | None => m
  end.

(** Store what [parse] made of the object [e]. *)
Definition store_parsed (key : string) (now : Z) (e : entry) (s' : symbol) (m : gmap string entry) : gmap string entry :=
  let m := foldl (publish_member now) m (members s') in
  match m !! key with
  | Some e' => if en_id e' =? en_id e
               then <[key := {| en_id := en_id e; en_sym := s'; en_updated := now; en_interval := en_interval e |}]> m
               else m
  | None => m
  end.

(** Store what a failed [parse] left of the object [e]: its own value is the old one. *)
Definition store_left (key : string) (now : Z) (e : entry) (left : symbol) (done : list symbol)
    (m : gmap string entry) : gmap string entry :=
  let m := foldl (publish_member now) m done in
  match m !! key with
  | Some e' => if en_id e' =? en_id e
               then <[key := {| en_id := en_id e; en_sym := left; en_updated := en_updated e;
                                en_interval := en_interval e |}]> m
               else m
  | None => m
  end.

(** A session method: the session's state and [(value, error)]. *)
Definition call (W A : Type) : Type := session W -> session W * res A.
#[export] Instance call_ret W : MRet (call W) := fun A a s => (s, Ok a).
#[export] Instance call_bind W : MBind (call W) := fun A B f m s =>
  match m s with
  | (s, Ok a) => f a s
  | (s, Err e) => (s, Err e)
  | (s, Panic) => (s, Panic)
  end.
Definition lift_call {W A} (r : res A) : call W A := fun s => (s, r).
Definition wrap_call {W A} (msg : string) (m : call W A) : call W A := fun s =>
  let '(s, r) := m s in (s, wrap_err msg r).
Definition get_session {W} : call W (session W) := fun s => (s, Ok s).
Definition modify {W} (f : session W -> session W) : call W () := fun s => (f s, Ok ()).
Definition try_call {W A} (m : call W A) : call W (A + goerr) := fun s =>
  match m s with
  | (s, Ok a) => (s, Ok (inl a))
  | (s, Err e) => (s, Ok (inr e))
  | (s, Panic) => (s, Panic)
  end.

Definition requireClient {W} : call W () := fun s =>
  match ss_client s with
  | Some _ => (s, Ok ())
  | None => (s, Err (EWrap "the session has not connected yet; call Connect first" (ESentinel ErrDisconnected)))
  end.

Section Access.
Context {W : Type} `{Transport W} `{FloatText} `{JsonText}.
Context (interfere reconnected : session W -> session W).

(** [waitForReconnect]: what happened meanwhile is the argument of the section. *)
Definition waitForReconnect : call W (session W) := fun s => let s := reconnected s in (s, Ok s).

(** A network call, without the lock. *)
Definition net {A} (m : rpc W A) : call W A := fun s =>
  match ss_client s with
  | None => (s, Panic)
  | Some c => let '(c, r) := m c in (interfere (set_client c s), r)
  end.

(** ** Resolution *)

(** [GetSymbolInfoByName]. *)
Definition GetSymbolInfoByName (symbolName : string) : rpc W symbolUploadSymbol :=
  resp ← wrap_rpc "GetSymbolInfoByName failed"
           (WriteRead GroupSymbolInfoByNameEx 0 2048 (bytes_of_string symbolName ++ [Byte.x00]));
  '(entry, data) ← lift (wrap_err "failed to parse symbol entry" (read_symbolEntry resp));
  '(name, data) ← lift (wrap_err "reading symbol name" (read_full (se_NameLength entry) data));
  let '(_, data) := buf_next 1 data in
  '(dt, data) ← lift (wrap_err "reading symbol type" (read_full (se_TypeLength entry) data));
  let '(_, data) := buf_next 1 data in
  '(comment, _) ← lift (wrap_err "reading symbol comment" (read_full (se_CommentLength entry) data));
  mret {| us_entry := entry; us_name := cString name;
          us_type := normalizeStringDataType (cString dt); us_comment := cString comment |}.

(** The release of a handle nobody will use; a failure is only logged. *)
Definition release_handle (handle : Z) : call W () :=
  _ ← try_call (net (Write GroupSymbolReleaseHandle 0 (put_u32 handle))); mret ().

Definition getSymbol (symbolName : string) : call W entry :=
  s ← get_session;
  let key := symbolKey symbolName in
  match ss_symbols s !! key with
  | Some localSymbol =>
      if negb (sy_Handle (en_data localSymbol) =? 0) then mret localSymbol
      else
        _ ← requireClient;
        handle ← net (GetHandleByName symbolName);
        s ← get_session;
        match ss_symbols s !! key with
        | Some current =>
            if negb (en_id current =? en_id localSymbol) then
              _ ← release_handle handle;
              lift_call (Err (EMsg "symbol cache reloaded during handle acquisition; retry"))
            else if negb (sy_Handle (en_data current) =? 0) then
              _ ← release_handle handle; mret current
            else
              let e := map_entry (with_handle handle) current in
              _ ← modify (fun s => set_symbols (<[key := e]> (ss_symbols s)) s);
              mret e
        | None =>
            _ ← release_handle handle;
            lift_call (Err (EMsg "symbol cache reloaded during handle acquisition; retry"))
        end
  | None =>
      _ ← requireClient;
      info ← wrap_call "symbol not found and on-demand lookup failed" (net (GetSymbolInfoByName symbolName));
      asked ← get_session;
      handle ← wrap_call "failed to get handle" (net (GetHandleByName symbolName));
      s ← get_session;
      match ss_symbols s !! key with
      | Some existing => _ ← release_handle handle; mret existing
      | None =>
          let e := {| en_id := ss_nextId s; en_sym := MkSymbol (with_handle handle (root_data info)) [];
                      en_updated := ss_now asked; en_interval := 50 * Millisecond |} in
          _ ← modify (fun s => set_table (<[key := e]> (ss_symbols s)) ({[key]} ∪ ss_onDemand s) (ss_nextId s + 1) s);
          mret e
      end
  end.

(** ** One symbol *)

(** What a failed request leads to: detection, the wait, and whether to retry. *)
Definition after_failure (err : goerr) (gen : Z) (retriesLeft : nat) : call W bool :=
  _ ← modify (detect_err err);
  s ← waitForReconnect;
  mret ((0 <? Z.of_nat retriesLeft) && negb (ss_epoch s =? gen)).

Definition write_value (e : entry) (value : string) (dts : datatypes) : res bytes :=
  writeToNode (en_sym e) value (Some dts).

(** The cached value of the live entry is dropped, nothing else. *)
Definition invalidate (key : string) (s : session W) : session W :=
  match ss_symbols s !! key with
  | Some e => set_symbols (<[key := map_entry forget_value e]> (ss_symbols s)) s
  | None => s
  end.

Fixpoint writeToSymbolRetry (retriesLeft : nat) (symbolName value : string) : call W () :=
  s0 ← get_session;
  e ← wrap_call "write" (getSymbol symbolName);
  s ← get_session;
  let e := deref (symbolKey symbolName) e (ss_symbols s) in
  data ← lift_call (wrap_err "write: serialization failed" (write_value e value (ss_datatypes s)));
  r ← try_call (net (Write GroupSymbolValueByHandle (sy_Handle (en_data e)) data));
  match r with
  | inr err =>
      retry ← after_failure err (ss_epoch s0) retriesLeft;
      match retriesLeft with
      | S n => if (retry : bool) then writeToSymbolRetry n symbolName value else lift_call (Err (EWrap "write" err))
      | O => lift_call (Err (EWrap "write" err))
      end
  | inl _ => modify (invalidate (symbolKey symbolName))
  end.

Definition WriteToSymbol (symbolName value : string) : call W () :=
  _ ← requireClient; writeToSymbolRetry 1 symbolName value.

(** The cached value may be served. *)
Definition is_fresh (now : Z) (e : entry) : bool :=
  (now - en_updated e <? en_interval e) && negb (String.eqb (sy_Value (en_data e)) "").

(** The members a failed attempt refreshed before it stopped. *)
Fixpoint parse_done (s : symbol) (data : bytes) (offset : Z) (dts : option datatypes) : list symbol :=
  let '(MkSymbol d children) := s in
  if len data <? sy_Length d then []
  else
    let stop := if len data <? offset + sy_Length d then len data else offset + sy_Length d in
    (fix go (cs : list (string * symbol)) : list symbol :=
       match cs with
       | [] => []
       | (_, c) :: cs =>
           match slice data offset stop with
           | Ok seg =>
               match parse c seg (sy_Offset (sy_data c)) dts with
               | Ok (c', _) => c' :: members c' ++ go cs
               | _ => parse_done c seg (sy_Offset (sy_data c)) dts
               end
           | _ => []
           end
       end) children.

(** Decode into the object [e], under the cache lock. *)
Definition parse_entry (key : string) (e : entry) (data : bytes) (dts : datatypes) : call W string := fun s =>
  match parse (en_sym e) data 0 (Some dts) with
  | Ok (s', value) => (set_symbols (store_parsed key (ss_now s) e s' (ss_symbols s)) s, Ok value)
  | Err err =>
      (set_symbols (store_left key (ss_now s) e (parse_left (en_sym e) data 0 (Some dts))
                      (parse_done (en_sym e) data 0 (Some dts)) (ss_symbols s)) s, Err err)
  | Panic => (s, Panic)
  end.

Fixpoint readFromSymbolRetry (retriesLeft : nat) (symbolName : string) : call W string :=
  s0 ← get_session;
  e ← wrap_call "read" (getSymbol symbolName);
  s ← get_session;
  let key := symbolKey symbolName in
  let e := deref key e (ss_symbols s) in
  if is_fresh (ss_now s) e then mret (sy_Value (en_data e))
  else
    let length_ := sy_Length (en_data e) in
    let dts := ss_datatypes s in
    r ← try_call (net (Read GroupSymbolValueByHandle (sy_Handle (en_data e)) length_));
    match r with
    | inr err =>
        retry ← after_failure err (ss_epoch s0) retriesLeft;
        match retriesLeft with
        | S n => if (retry : bool) then readFromSymbolRetry n symbolName else lift_call (Err (EWrap "read" err))
        | O => lift_call (Err (EWrap "read" err))
        end
    | inl data =>
        if (0 <? length_) && negb (u32 (len data) =? length_) then
          _ ← modify (detect ReturnCodeDeviceInvalidSize);
          lift_call (Err (EWrap "read" (ECode ReturnCodeDeviceInvalidSize)))
        else
          s ← get_session;
          let e := deref key e (ss_symbols s) in
          wrap_call "read: parse failed" (parse_entry key e data dts)
    end.

Definition ReadFromSymbol (symbolName : string) : call W string :=
  _ ← requireClient; readFromSymbolRetry 1 symbolName.

(** ** Batches *)

(** The sum over the parents' offsets, when there is no handle: the offsets of the
    chain above the symbol are an argument of the address. *)
Definition symbolSumAddress (sym : symbolData) (parents : list Z) : Z * Z :=
  if negb (sy_Handle sym =? 0) then (GroupSymbolValueByHandle, sy_Handle sym)
  else if negb (sy_Group sym =? 0) then
    (sy_Group sym, fold_left (fun a o => u32 (a + o)) parents (sy_Offset sym))
  else (GroupSymbolValueByHandle, sy_Handle sym).

(** The offsets of the symbols above [d], nearest first: the chain of [Parent]
    pointers, each under its own name in the cache. *)
Fixpoint parent_offsets (fuel : nat) (m : gmap string entry) (d : symbolData) : list Z :=
  match fuel, sy_Parent d with
  | S fuel, Some p =>
      match m !! symbolKey p with
      | Some e => sy_Offset (en_data e) :: parent_offsets fuel m (en_data e)
      | None => []
      end
  | _, _ => []
  end.

Definition sum_address (e : entry) (m : gmap string entry) : Z * Z :=
  symbolSumAddress (en_data e) (parent_offsets (size m) m (en_data e)).

(** The resolve loop of a batch read. *)
Fixpoint resolve_reads (names : list string)
  : call W (list (string * SumReadRequest) * list BatchItemError) :=
  match names with
  | [] => mret ([], [])
  | name :: names =>
      r ← try_call (getSymbol name);
      match r with
      | inr err =>
          '(infos, failed) ← resolve_reads names;
          mret (infos, item_skipped name ErrBatchSymbolUnresolved (Some err) :: failed)
      | inl e =>
          s ← get_session;
          let e := deref (symbolKey name) e (ss_symbols s) in
          let '(group, offset) := sum_address e (ss_symbols s) in
          '(infos, failed) ← resolve_reads names;
          mret ((name, {| rr_Group := group; rr_Offset := offset; rr_Length := sy_Length (en_data e) |}) :: infos,
                failed)
      end
  end.

(** One result of a batch read, under the cache lock. *)
Definition read_result (name : string) (r : SumReadResult) (values : gmap string string)
  : call W (gmap string string * list BatchItemError) := fun s =>
  if negb (rs_Error r =? ReturnCodeNoErrors) then (s, Ok (values, [item_code name (rs_Error r)]))
  else
    match ss_symbols s !! symbolKey name with
    | None => (s, Ok (values, [item_skipped name ErrBatchSymbolVanished None]))
    | Some live =>
        match parse_entry (symbolKey name) live (rs_Data r) (ss_datatypes s) s with
        | (s, Panic) => (s, Panic)
        | (s, Err err) => (s, Ok (values, [item_skipped name ErrBatchValueUnparsable (Some err)]))
        | (s, Ok value) => (s, Ok (<[name := value]> values, []))
        end
    end.

(** The decode loop: results beyond the requests cannot be attributed, requests
    beyond the results have no verdict. *)
Fixpoint read_results (infos : list (string * SumReadRequest)) (results : list SumReadResult)
    (values : gmap string string) : call W (gmap string string * list BatchItemError) :=
  match infos, results with
  | [], _ => mret (values, [])
  | _, [] => mret (values, map (fun i => item_skipped i.1 ErrBatchNoResult None) infos)
  | (name, _) :: infos, r :: results =>
      '(values, failed) ← read_result name r values;
      '(values, more) ← read_results infos results values;
      mret (values, failed ++ more)
  end.

Fixpoint readMultipleSymbolsRetry (retriesLeft : nat) (names : list string)
  : call W (gmap string string * option BatchError) :=
  match names with
  | [] => mret (∅, None)
  | _ =>
      s0 ← get_session;
      '(infos, failed) ← resolve_reads names;
      match infos with
      | [] => mret (∅, newBatchError "read" (len names) 0 failed)
      | _ =>
          r ← try_call (net (SumRead (map snd infos)));
          match r with
          | inr err =>
              s ← waitForReconnect;
              match retriesLeft with
              | S n => if negb (ss_epoch s =? ss_epoch s0) then readMultipleSymbolsRetry n names
                       else lift_call (Err (EWrap "batch read failed" err))
              | O => lift_call (Err (EWrap "batch read failed" err))
              end
          | inl results =>
              _ ← modify (detect_first (map rs_Error results));
              '(values, more) ← read_results infos results ∅;
              mret (values, newBatchError "read" (len names) (Z.of_nat (size values)) (failed ++ more))
          end
      end
  end.

Definition ReadMultipleSymbols (names : list string) : call W (gmap string string * option BatchError) :=
  _ ← requireClient; readMultipleSymbolsRetry 1 names.

(** The resolve loop of a batch write; the caller's map is visited in an arbitrary
    order, its pairs are given in that order. *)
Fixpoint resolve_writes (dts : datatypes) (values : list (string * string))
  : call W (list (string * SumWriteRequest) * list BatchItemError) :=
  match values with
  | [] => mret ([], [])
  | (name, value) :: values =>
      r ← try_call (getSymbol name);
      match r with
      | inr err =>
          '(infos, failed) ← resolve_writes dts values;
          mret (infos, item_skipped name ErrBatchSymbolUnresolved (Some err) :: failed)
      | inl e =>
          match write_value e value dts with
          | Panic => lift_call Panic
          | Err err =>
              '(infos, failed) ← resolve_writes dts values;
              mret (infos, item_skipped name ErrBatchValueUnserializable (Some err) :: failed)
          | Ok data =>
              s ← get_session;
              let e := deref (symbolKey name) e (ss_symbols s) in
              let '(group, offset) := sum_address e (ss_symbols s) in
              '(infos, failed) ← resolve_writes dts values;
              mret ((name, {| wr_Group := group; wr_Offset := offset; wr_Data := data |}) :: infos, failed)
          end
      end
  end.

(** The commit loop of a batch write: the codes, the number of writes that
    succeeded and the items that did not. *)
Fixpoint write_results (infos : list (string * SumWriteRequest)) (results : list SumWriteResult)
    (codes : gmap string Z) : call W (gmap string Z * Z * list BatchItemError) :=
  match infos, results with
  | [], _ => mret (codes, 0, [])
  | _, [] => mret (codes, 0, map (fun i => item_skipped i.1 ErrBatchNoResult None) infos)
  | (name, _) :: infos, r :: results =>
      let ok := ws_Error r =? ReturnCodeNoErrors in
      _ ← modify (fun s => if ok then invalidate (symbolKey name) s else s);
      '(codes, n, failed) ← write_results infos results (<[name := ws_Error r]> codes);
      mret (codes, if ok then n + 1 else n, if ok then failed else item_code name (ws_Error r) :: failed)
  end.

Fixpoint writeMultipleSymbolsRetry (retriesLeft : nat) (values : list (string * string))
  : call W (gmap string Z * option BatchError) :=
  match values with
  | [] => mret (∅, None)
  | _ =>
      s0 ← get_session;
      '(infos, failed) ← resolve_writes (ss_datatypes s0) values;
      match infos with
      | [] => mret (∅, newBatchError "write" (len values) 0 (sortBatchItems failed))
      | _ =>
          r ← try_call (net (SumWrite (map snd infos)));
          match r with
          | inr err =>
              s ← waitForReconnect;
              match retriesLeft with
              | S n => if negb (ss_epoch s =? ss_epoch s0) then writeMultipleSymbolsRetry n values
                       else lift_call (Err (EWrap "batch write failed" err))
              | O => lift_call (Err (EWrap "batch write failed" err))
              end
          | inl results =>
              _ ← modify (detect_first (map ws_Error results));
              '(codes, succeeded, more) ← write_results infos results ∅;
              mret (codes, newBatchError "write" (len values) succeeded (sortBatchItems (failed ++ more)))
          end
      end
  end.

Definition WriteMultipleSymbols (values : list (string * string)) : call W (gmap string Z * option BatchError) :=
  _ ← requireClient; writeMultipleSymbolsRetry 1 values.
End Access.
