(* ===== verification/AccessFacts.v ===== *)
(** Reading and writing by name (Access.v): a batch accounts for every name the
    caller gave, a write is never answered from the value cached before it, and a
    cached value is served only inside its interval. *)
From S2P Require Import Prelude Wire Strconv Defs Ams Client SumCmd SymbolTable GoTime Utf Codec CodecSafety Access.

(** ** The session monad *)

Lemma call_bind_Ok {W A B} (m : call W A) (f : A -> call W B) s s' b :
  (m ≫= f) s = (s', Ok b) <-> exists a s1, m s = (s1, Ok a) /\ f a s1 = (s', Ok b).
Proof.
  unfold mbind, call_bind. split.
  - destruct (m s) as [s1 [a|e|]]; intros E; try by inversion E. by exists a, s1.
  - by intros (a & s1 & -> & E).
Qed.

Lemma try_call_inl {W A} (m : call W A) s s' a : try_call m s = (s', Ok (inl a)) -> m s = (s', Ok a).
Proof. unfold try_call. destruct (m s) as [s1 [b|e|]]; intros E; by inversion E. Qed.
Lemma wrap_call_Ok {W A} msg (m : call W A) s s' a : wrap_call msg m s = (s', Ok a) -> m s = (s', Ok a).
Proof. unfold wrap_call. destruct (m s) as [s1 [b|e|]]; intros E; by inversion E. Qed.

Ltac step_call :=
  match goal with
  | E : (_ ≫= _) _ = (_, Ok _) |- _ =>
      let a := fresh "a" in
      apply call_bind_Ok in E as (a & ? & ? & E);
      try (match type of a with
           | (_ * _ * _)%type => destruct a as [[? ?] ?]
           | (_ * _)%type => destruct a as [? ?]
           | (_ + _)%type => destruct a as [?|?]
           end)
  | E : try_call _ _ = (_, Ok (inl _)) |- _ => apply try_call_inl in E
  | E : wrap_call _ _ _ = (_, Ok _) |- _ => apply wrap_call_Ok in E
  | E : mret _ _ = (_, Ok _) |- _ => inversion E; clear E; subst
  | E : get_session _ = (_, Ok _) |- _ => inversion E; clear E; subst
  | E : modify _ _ = (_, Ok _) |- _ => inversion E; clear E; subst
  | E : lift_call _ _ = (_, Ok _) |- _ => inversion E; clear E; subst
  | E : waitForReconnect _ _ = (_, Ok _) |- _ => inversion E; clear E; subst
  end.

(** ** The items of a batch error *)

Definition named (name : string) (l : list BatchItemError) : Prop :=
  exists it, it ∈ l /\ bi_Symbol it = name.

(** An item says whose verdict it is: a reason of the library, or a code of the PLC. *)
Definition has_verdict (it : BatchItemError) : Prop := is_Some (bi_Skipped it) \/ bi_Error it <> ReturnCodeNoErrors.

Lemma named_app name l l' : named name (l ++ l') <-> named name l \/ named name l'.
Proof. unfold named. setoid_rewrite elem_of_app. naive_solver. Qed.
Lemma named_cons name it l : named name (it :: l) <-> bi_Symbol it = name \/ named name l.
Proof. unfold named. setoid_rewrite elem_of_cons. naive_solver. Qed.

Lemma insert_item_perm i l : insert_item i l ≡ₚ i :: l.
Proof.
  induction l as [|j l IH]; cbn [insert_item]; [done|]. case_match; [|done]. rewrite IH. apply Permutation_swap.
Qed.
Lemma sortBatchItems_perm l : sortBatchItems l ≡ₚ l.
Proof. induction l as [|i l IH]; [done|]. cbn [sortBatchItems foldr]. by rewrite insert_item_perm, IH. Qed.

Lemma named_perm name l l' : l ≡ₚ l' -> named name l -> named name l'.
Proof. intros Hp (it & Hi & Hn). exists it. by rewrite <- Hp. Qed.

Lemma newBatchError_items op n k items it : it ∈ items ->
  exists be, newBatchError op n k items = Some be /\ be_Items be = items /\ be_Requested be = n /\ be_Succeeded be = k.
Proof. destruct items; [by intros ?%elem_of_nil|]. cbn. intros _. by eexists. Qed.

Lemma newBatchError_Some op n k items be : newBatchError op n k items = Some be ->
  be_Items be = items /\ items <> [] /\ be_Requested be = n /\ be_Succeeded be = k.
Proof. destruct items; cbn; [done|]. by intros [= <-]. Qed.

Lemma tail_named {A} name (infos : list (string * A)) : name ∈ map fst infos ->
  named name (map (fun i => item_skipped i.1 ErrBatchNoResult None) infos).
Proof.
  intros ([n q] & -> & Hq)%list_elem_of_fmap. exists (item_skipped n ErrBatchNoResult None). split; [|done].
  apply list_elem_of_fmap. by exists (n, q).
Qed.

Lemma tail_verdict {A} (infos : list (string * A)) :
  Forall has_verdict (map (fun i => item_skipped i.1 ErrBatchNoResult None) infos).
Proof. apply Forall_forall. intros it (i & -> & _)%list_elem_of_fmap. left. by eexists. Qed.

Section Facts.
Context {W : Type} `{Transport W} `{FloatText} `{JsonText}.
Context (interfere reconnected : session W -> session W).

(** ** Batch reads *)

Lemma resolve_reads_spec names s s' infos failed :
  resolve_reads interfere names s = (s', Ok (infos, failed)) ->
  (forall name, name ∈ names -> name ∈ map fst infos \/ named name failed) /\
  (forall name, name ∈ map fst infos -> name ∈ names) /\ Forall has_verdict failed.
Proof.
  revert s infos failed. induction names as [|n names IH]; cbn [resolve_reads]; intros s infos failed E.
  - step_call. split_and!; [by intros ? ?%elem_of_nil|by intros ? ?%elem_of_nil|constructor].
  - step_call.
    + do 2 step_call. cbv zeta in E. destruct (sum_address _ _) as [g o]. step_call. step_call.
      match goal with R : resolve_reads _ _ _ = _ |- _ => apply IH in R as (I1 & I2 & I3) end.
      cbn [map fst]. split_and!; [|set_solver|done].
      intros name [->|Hn]%elem_of_cons; [left; by left|]. destruct (I1 _ Hn); [left; by right|by right].
    + step_call. step_call.
      match goal with R : resolve_reads _ _ _ = _ |- _ => apply IH in R as (I1 & I2 & I3) end.
      split_and!; [|set_solver|constructor; [left; by eexists|done]].
      intros name [->|Hn]%elem_of_cons; rewrite named_cons; [right; by left|]. destruct (I1 _ Hn); [by left|right; by right].
Qed.

(** The value returned under [name] is what the PLC answered to its request, decoded
    as the symbol of a cache entry. *)
Definition decoded (infos : list (string * SumReadRequest)) (results : list SumReadResult) (name v : string) : Prop :=
  exists i q r sym sym' dts,
    infos !! i = Some (name, q) /\ results !! i = Some r /\ rs_Error r = ReturnCodeNoErrors /\
    parse sym (rs_Data r) 0 (Some dts) = Ok (sym', v).

Lemma decoded_cons i infos r results name v : decoded infos results name v -> decoded (i :: infos) (r :: results) name v.
Proof. intros (k & q & r' & sy & sy' & dts & Hi & Hr & Hx). by exists (S k), q, r', sy, sy', dts. Qed.

Lemma read_result_spec name r values (s s' : session W) values' failed :
  read_result name r values s = (s', Ok (values', failed)) ->
  ((values' = values /\ exists it, failed = [it] /\ bi_Symbol it = name /\ has_verdict it) \/
   (failed = [] /\ exists v, values' = <[name := v]> values /\ rs_Error r = ReturnCodeNoErrors /\
      exists sym sym' dts, parse sym (rs_Data r) 0 (Some dts) = Ok (sym', v))).
Proof.
  unfold read_result, parse_entry. destruct (rs_Error r =? _) eqn:Er; cbn [negb].
  - apply Z.eqb_eq in Er. destruct (ss_symbols s !! _) as [live|].
    + destruct (parse _ _ _ _) as [[sym' v]|err|] eqn:Ep; intros E; inversion E; subst.
      * right. split; [done|]. exists v. split_and!; [done|done|]. eauto.
      * left. split; [done|]. eexists. split_and!; [done|done|]. left. by eexists.
    + intros E. inversion E; subst. left. split; [done|]. eexists. split_and!; [done|done|]. left. by eexists.
  - apply Z.eqb_neq in Er. intros E. inversion E; subst. left. split; [done|].
    eexists. split_and!; [done|done|]. by right.
Qed.

Lemma read_results_spec infos results values (s s' : session W) values' more :
  read_results infos results values s = (s', Ok (values', more)) ->
  (forall name, is_Some (values !! name) -> is_Some (values' !! name)) /\
  (forall name, name ∈ map fst infos -> is_Some (values' !! name) \/ named name more) /\
  (forall name v, values' !! name = Some v -> values !! name = Some v \/ decoded infos results name v) /\
  Forall has_verdict more.
Proof.
  revert results values s values' more. induction infos as [|[n q] infos IH]; intros results values s values' more E.
  - cbn [read_results] in E. step_call. split_and!; [done|by intros ? ?%elem_of_nil|by left|constructor].
  - destruct results as [|r results]; cbn [read_results] in E.
    + step_call. split_and!; [done|intros name Hn; right; exact (tail_named name ((n, q) :: infos) Hn)|by left|exact (tail_verdict ((n, q) :: infos))].
    + step_call. step_call. step_call.
      match goal with R : read_results _ _ _ _ = _ |- _ => apply IH in R as (I1 & I2 & I3 & I4) end.
      match goal with R : read_result _ _ _ _ = _ |- _ =>
        apply read_result_spec in R as [(-> & it & -> & Hn & Hv)|(-> & v & -> & Hr & sy & sy' & dts & Hp)] end.
      * split_and!; [done| | |by constructor].
        { intros name [->|Hi]%elem_of_cons; cbn [fst]; rewrite named_app, named_cons; [right; left; by left|].
          destruct (I2 _ Hi); [by left|right; by right]. }
        intros name v Hl. destruct (I3 _ _ Hl); [by left|right; by apply decoded_cons].
      * split_and!; [| | |done].
        { intros name Hs. apply I1. destruct (decide (n = name)) as [->|Hne]; [rewrite lookup_insert_eq; by eexists|].
          by rewrite lookup_insert_ne. }
        { intros name [->|Hi]%elem_of_cons; cbn [fst]; [left; apply I1; rewrite lookup_insert_eq; by eexists|by apply I2]. }
        intros name v' Hl. destruct (I3 _ _ Hl) as [Hl'|Hd]; [|right; by apply decoded_cons].
        destruct (decide (n = name)) as [->|Hne]; [|left; by rewrite lookup_insert_ne in Hl' by done].
        rewrite lookup_insert_eq in Hl'. injection Hl' as <-. right. exists 0%nat, q, r, sy, sy', dts. done.
Qed.

(** What a batch read that returns owes the caller. *)
Definition read_accounted (names : list string) (values : gmap string string) (err : option BatchError) : Prop :=
  (forall name, name ∈ names ->
     is_Some (values !! name) \/ exists be, err = Some be /\ named name (be_Items be)) /\
  (forall be, err = Some be -> Forall has_verdict (be_Items be) /\ be_Items be <> [] /\
     be_Requested be = len names /\ be_Succeeded be = Z.of_nat (size values)) /\
  (forall name v, values !! name = Some v -> name ∈ names /\
     exists infos results s1 s2,
       net interfere (SumRead (map snd infos)) s1 = (s2, Ok results) /\ decoded infos results name v).

Lemma decoded_requested infos results name v : decoded infos results name v -> name ∈ map fst infos.
Proof.
  intros (i & q & r & _ & _ & _ & Hi & _). apply list_elem_of_fmap. exists (name, q). split; [done|].
  by apply list_elem_of_lookup_2 in Hi.
Qed.

Lemma read_tail_accounted names infos results failed values more (t t1 s1 s2 : session W) :
  (forall name, name ∈ names -> name ∈ map fst infos \/ named name failed) ->
  (forall name, name ∈ map fst infos -> name ∈ names) -> Forall has_verdict failed ->
  net interfere (SumRead (map snd infos)) s1 = (s2, Ok results) ->
  read_results infos results ∅ t = (t1, Ok (values, more)) ->
  read_accounted names values (newBatchError "read" (len names) (Z.of_nat (size values)) (failed ++ more)).
Proof.
  intros I1 I2 I3 Hnet Hr. apply read_results_spec in Hr as (_ & R2 & R3 & R4). split_and!.
  - intros name Hn.
    assert (is_Some (values !! name) \/ named name (failed ++ more)) as [Hs|Hf].
    { rewrite named_app. destruct (I1 _ Hn) as [Hi|Hf]; [|right; by left]. destruct (R2 _ Hi); [by left|right; by right]. }
    + by left.
    + right. destruct Hf as (it & Hi & Hn').
      destruct (newBatchError_items "read" (len names) (Z.of_nat (size values)) _ _ Hi) as (be & -> & Hb & _).
      exists be. split; [done|]. rewrite Hb. by exists it.
  - intros be (Hb & Hne & Hrq & Hsc)%newBatchError_Some. rewrite Hb. split_and!; [by apply Forall_app|done|done|done].
  - intros name v Hl. destruct (R3 _ _ Hl) as [Hl'|Hd]; [by rewrite lookup_empty in Hl'|].
    split; [by eapply I2, decoded_requested|]. by exists infos, results, s1, s2.
Qed.

Lemma none_read_accounted names failed : names <> [] ->
  (forall name, name ∈ names -> named name failed) -> Forall has_verdict failed ->
  read_accounted names ∅ (newBatchError "read" (len names) 0 failed).
Proof.
  intros Hne Hf Hv. split_and!.
  - intros name Hn. right. destruct (Hf _ Hn) as (it & Hi & Hn').
    destruct (newBatchError_items "read" (len names) 0 _ _ Hi) as (be & -> & Hb & _).
    exists be. split; [done|]. rewrite Hb. by exists it.
  - intros be (Hb & Hn & Hrq & Hsc)%newBatchError_Some. by rewrite Hb, map_size_empty.
  - intros name v Hl. by rewrite lookup_empty in Hl.
Qed.

Lemma retry_read_accounted n names s s' values err : names <> [] ->
  readMultipleSymbolsRetry interfere reconnected n names s = (s', Ok (values, err)) ->
  read_accounted names values err.
Proof.
  intros Hne. revert s. induction n as [|n IH]; intros s E; cbn [readMultipleSymbolsRetry] in E.
  all: destruct names as [|n0 names0] eqn:En; [done|]; rewrite <- En in *; clear En; do 2 step_call.
  all: lazymatch goal with R : resolve_reads _ _ _ = (_, Ok (?i, _)) |- _ =>
         apply resolve_reads_spec in R as (I1 & I2 & I3); let i0 := fresh "i0" in let l0 := fresh "l0" in destruct i as [|i0 l0] eqn:Ei end.
  all: try (step_call; apply none_read_accounted; [done| |done]; intros name Hn; destruct (I1 _ Hn) as [?%elem_of_nil|]; done).
  all: rewrite <- Ei in *; clear Ei; step_call; do 2 step_call.
  all: repeat step_call; try (by eapply read_tail_accounted).
  case_match; [eauto|]. step_call.
Qed.

(** C11. A batch read that returns accounts for every name: it has a value, or an item of
    the error names it with a reason; every value is the PLC's answer to its own
    request, decoded; and the error's counts are those of the call. *)
Theorem ReadMultipleSymbols_accounts names s s' values err :
  names <> [] -> ReadMultipleSymbols interfere reconnected names s = (s', Ok (values, err)) ->
  read_accounted names values err.
Proof.
  intros Hne E. unfold ReadMultipleSymbols in E. step_call. by eapply retry_read_accounted.
Qed.

(** ** Batch writes *)

Definition skipped (name : string) (l : list BatchItemError) : Prop :=
  exists it, it ∈ l /\ bi_Symbol it = name /\ is_Some (bi_Skipped it).

Lemma skipped_named_tail {A} name (infos : list (string * A)) : name ∈ map fst infos ->
  skipped name (map (fun i => item_skipped i.1 ErrBatchNoResult None) infos).
Proof.
  intros ([n q] & -> & Hq)%list_elem_of_fmap. exists (item_skipped n ErrBatchNoResult None).
  split_and!; [|done|by eexists]. apply list_elem_of_fmap. by exists (n, q).
Qed.

(** The request [q] carries [value], encoded for the symbol of a cache entry. *)
Definition carries (values : list (string * string)) (name : string) (q : SumWriteRequest) : Prop :=
  exists value e dts, (name, value) ∈ values /\ write_value e value dts = Ok (wr_Data q).

Lemma carries_mono values values' name q : values ⊆ values' -> carries values name q -> carries values' name q.
Proof. intros Hs (v & e & dts & Hv & He). exists v, e, dts. auto. Qed.

Lemma resolve_writes_spec dts values s s' infos failed :
  resolve_writes interfere dts values s = (s', Ok (infos, failed)) ->
  (forall name, name ∈ map fst values -> name ∈ map fst infos \/ skipped name failed) /\
  map fst infos `sublist_of` map fst values /\
  Forall (fun i => carries values i.1 i.2) infos /\ Forall has_verdict failed.
Proof.
  assert (Hsk : forall name n s0 c l, bi_Symbol (item_skipped n s0 (Some c)) = name \/ skipped name l ->
    skipped name (item_skipped n s0 (Some c) :: l)).
  { intros name n s0 c l [<-|(it & Hi & Hx)]; eexists; (split; [|cbn; try done]); [by left|by eexists|by right]. }
  revert s infos failed. induction values as [|[n v] values IH]; cbn [resolve_writes]; intros s infos failed E.
  - step_call. split_and!; [by intros ? ?%elem_of_nil|constructor|constructor|constructor].
  - step_call; [destruct (write_value e v dts) as [data|err|] eqn:Ew; [| |done]|].
    1: repeat step_call; cbv zeta in E; destruct (sum_address _ _) as [g o]; repeat step_call;
      match goal with R : resolve_writes _ _ _ _ = _ |- _ => apply IH in R as (I1 & I2 & I3 & I4) end;
      cbn [map fst]; split_and!; [|by constructor| |done].
      { intros name [->|Hn]%elem_of_cons; [left; by left|]. destruct (I1 _ Hn); [left; by right|by right]. }
      constructor; [by exists v, e, dts; split; [left|]|].
      eapply Forall_impl; [done|]. intros i. apply carries_mono. set_solver.
    all: repeat step_call;
      match goal with R : resolve_writes _ _ _ _ = _ |- _ => apply IH in R as (I1 & I2 & I3 & I4) end;
      cbn [map fst]; split_and!; [|by constructor| |constructor; [left; by eexists|done]].
    1,3: intros name [->|Hn]%elem_of_cons; [right; apply Hsk; by left|];
      destruct (I1 _ Hn); [by left|right; apply Hsk; by right].
    all: eapply Forall_impl; [done|]; intros i; apply carries_mono; set_solver.
Qed.

(** The PLC's code for the request of [name], and the request. *)
Definition answered (infos : list (string * SumWriteRequest)) (results : list SumWriteResult)
    (name : string) (q : SumWriteRequest) (rc : Z) : Prop :=
  exists i r, infos !! i = Some (name, q) /\ results !! i = Some r /\ ws_Error r = rc.

Definition accepted_codes (codes : gmap string Z) : gmap string Z :=
  filter (fun kv => kv.2 = ReturnCodeNoErrors) codes.

Lemma answered_cons infos results i r name q rc :
  answered infos results name q rc -> answered (i :: infos) (r :: results) name q rc.
Proof. intros (k & r' & Hk). by exists (S k), r'. Qed.

(** The verdict on [name] in the commit loop's result. *)
Definition verdict infos results (codes : gmap string Z) (more : list BatchItemError) (name : string) : Prop :=
  match codes !! name with
  | Some rc => (exists q, answered infos results name q rc) /\
               (rc = ReturnCodeNoErrors \/ item_code name rc ∈ more)
  | None => skipped name more
  end.

Lemma verdict_cons infos results i r codes more it name :
  verdict infos results codes more name -> verdict (i :: infos) (r :: results) codes (it ++ more) name.
Proof.
  unfold verdict. destruct (codes !! name) as [rc|].
  - intros [[q Hq] Hc]. split; [exists q; by apply answered_cons|]. rewrite elem_of_app. tauto.
  - intros (x & Hx & Hy). exists x. rewrite elem_of_app. auto.
Qed.

Lemma write_results_spec infos results codes (s s' : session W) codes' n more :
  NoDup (map fst infos) -> (forall name, name ∈ map fst infos -> codes !! name = None) ->
  write_results infos results codes s = (s', Ok (codes', n, more)) ->
  (forall name, name ∉ map fst infos -> codes' !! name = codes !! name) /\
  (forall name, name ∈ map fst infos -> verdict infos results codes' more name) /\
  Z.of_nat (size (accepted_codes codes')) = Z.of_nat (size (accepted_codes codes)) + n /\
  Forall has_verdict more.
Proof.
  revert results codes s codes' n more.
  induction infos as [|[nm q] infos IH]; intros results codes s codes' n more Hnd Hc E.
  - cbn [write_results] in E. step_call. split_and!; [done|by intros ? ?%elem_of_nil|lia|constructor].
  - destruct results as [|r results]; cbn [write_results] in E.
    { step_call. split_and!; [done| |lia|exact (tail_verdict ((nm, q) :: infos))].
      intros name Hn. unfold verdict. rewrite Hc by done. exact (skipped_named_tail name ((nm, q) :: infos) Hn). }
    cbv zeta in E. cbn [map fst] in *. apply NoDup_cons in Hnd as [Hnm Hnd]. repeat step_call.
    match goal with R : write_results _ _ _ _ = _ |- _ => apply IH in R as (I1 & I2 & I3 & I4) end; [|done|].
    2:{ intros name Hn. rewrite lookup_insert_ne by (intros ->; done). apply Hc. by right. }
    assert (Hat : codes' !! nm = Some (ws_Error r)) by (rewrite I1, lookup_insert_eq; done).
    split_and!.
    + intros name Hn. rewrite I1 by set_solver. apply lookup_insert_ne. set_solver.
    + intros name [->|Hn]%elem_of_cons.
      * unfold verdict. rewrite Hat. split; [by exists q, 0%nat, r|]. destruct (ws_Error r =? _) eqn:Er; [left; lia|].
        right. by left.
      * specialize (I2 _ Hn).
        apply (verdict_cons _ _ (nm, q) r _ _ (if ws_Error r =? ReturnCodeNoErrors then [] else [item_code nm (ws_Error r)])) in I2.
        by destruct (ws_Error r =? _).
    + rewrite I3. unfold accepted_codes. destruct (ws_Error r =? _) eqn:Er.
      * rewrite map_filter_insert_True by (cbn; lia). rewrite map_size_insert_None; [lia|].
        apply map_lookup_filter_None. left. apply Hc. by left.
      * rewrite map_filter_insert_False by (cbn; lia). rewrite delete_id; [done|]. apply Hc. by left.
    + destruct (ws_Error r =? _) eqn:Er; [done|]. constructor; [|done]. right. cbn. lia.
Qed.

(** What a batch write that returns owes the caller. *)
Definition write_accounted (values : list (string * string)) (codes : gmap string Z) (err : option BatchError) : Prop :=
  (forall name, name ∈ map fst values ->
     match codes !! name with
     | Some rc =>
         (exists infos results s1 s2 q,
            net interfere (SumWrite (map snd infos)) s1 = (s2, Ok results) /\
            answered infos results name q rc /\ carries values name q) /\
         (rc = ReturnCodeNoErrors \/ exists be, err = Some be /\ item_code name rc ∈ be_Items be)
     | None => exists be, err = Some be /\ skipped name (be_Items be)
     end) /\
  (forall be, err = Some be -> Forall has_verdict (be_Items be) /\ be_Items be <> [] /\
     be_Requested be = len values /\ be_Succeeded be = Z.of_nat (size (accepted_codes codes))).

Lemma sorted_error op n k items it : it ∈ items ->
  exists be, newBatchError op n k (sortBatchItems items) = Some be /\ it ∈ be_Items be.
Proof.
  rewrite <- (sortBatchItems_perm items). intros Hi.
  destruct (newBatchError_items op n k _ _ Hi) as (be & Hb & Hs & _). exists be. by rewrite Hs.
Qed.

Lemma sorted_skipped op n k items name : skipped name items ->
  exists be, newBatchError op n k (sortBatchItems items) = Some be /\ skipped name (be_Items be).
Proof.
  intros (it & Hi & Hx). destruct (sorted_error op n k _ _ Hi) as (be & Hb & Hbi).
  exists be. split; [done|]. by exists it.
Qed.

Lemma write_tail_accounted values infos results failed codes n more (t t1 s1 s2 : session W) :
  NoDup (map fst values) ->
  (forall name, name ∈ map fst values -> name ∈ map fst infos \/ skipped name failed) ->
  map fst infos `sublist_of` map fst values ->
  Forall (fun i => carries values i.1 i.2) infos -> Forall has_verdict failed ->
  net interfere (SumWrite (map snd infos)) s1 = (s2, Ok results) ->
  write_results infos results ∅ t = (t1, Ok (codes, n, more)) ->
  write_accounted values codes (newBatchError "write" (len values) n (sortBatchItems (failed ++ more))).
Proof.
  intros Hnd I1 I2 I3 I4 Hnet Hw.
  assert (Hndi : NoDup (map fst infos)) by (by eapply sublist_NoDup).
  apply write_results_spec in Hw as (R1 & R2 & R3 & R4); [|done|done].
  assert (Hns : n = Z.of_nat (size (accepted_codes codes))).
  { rewrite R3. unfold accepted_codes at 1. rewrite map_filter_empty, map_size_empty. lia. }
  split.
  - intros name Hn. destruct (decide (name ∈ map fst infos)) as [Hi|Hi].
    + pose proof (R2 _ Hi) as Hv. unfold verdict in Hv. destruct (codes !! name) as [rc|].
      * destruct Hv as [[q Hq] Hc]. split.
        { exists infos, results, s1, s2, q. split_and!; [done|done|]. destruct Hq as (i & r & Hl & _).
          exact (Forall_lookup_1 _ _ _ _ I3 Hl). }
        destruct Hc as [Hc|Hc]; [by left|right]. apply sorted_error, elem_of_app. by right.
      * apply sorted_skipped. destruct Hv as (it & Hit & Hx). exists it. rewrite elem_of_app. auto.
    + rewrite R1, lookup_empty by done. apply sorted_skipped. destruct (I1 _ Hn) as [|(it & Hit & Hx)]; [done|].
      exists it. rewrite elem_of_app. auto.
  - intros be (Hb & Hne & Hrq & Hsc)%newBatchError_Some. rewrite Hb in *. split_and!; [|done|done|by rewrite Hsc].
    rewrite sortBatchItems_perm. by apply Forall_app.
Qed.

Lemma none_write_accounted values failed : 
  (forall name, name ∈ map fst values -> skipped name failed) -> Forall has_verdict failed ->
  write_accounted values ∅ (newBatchError "write" (len values) 0 (sortBatchItems failed)).
Proof.
  intros Hf Hv. split.
  - intros name Hn. rewrite lookup_empty. by apply sorted_skipped, Hf.
  - intros be (Hb & Hne & Hrq & Hsc)%newBatchError_Some. rewrite Hb in *.
    split_and!; [by rewrite sortBatchItems_perm|done|done|].
    unfold accepted_codes. by rewrite map_filter_empty, map_size_empty.
Qed.

Lemma retry_write_accounted n values s s' codes err : values <> [] -> NoDup (map fst values) ->
  writeMultipleSymbolsRetry interfere reconnected n values s = (s', Ok (codes, err)) ->
  write_accounted values codes err.
Proof.
  intros Hne Hnd. revert s. induction n as [|n IH]; intros s E; cbn [writeMultipleSymbolsRetry] in E.
  all: destruct values as [|v0 values0] eqn:En; [done|]; rewrite <- En in *; clear En; do 2 step_call.
  all: lazymatch goal with R : resolve_writes _ _ _ _ = (_, Ok (?i, _)) |- _ =>
         apply resolve_writes_spec in R as (I1 & I2 & I3 & I4);
         let i0 := fresh "i0" in let l0 := fresh "l0" in destruct i as [|i0 l0] eqn:Ei end.
  all: try (step_call; apply none_write_accounted; [|done]; intros name Hn; destruct (I1 _ Hn) as [?%elem_of_nil|]; done).
  all: rewrite <- Ei in *; clear Ei; repeat step_call; try (by eapply write_tail_accounted).
  case_match; [eauto|]. step_call.
Qed.

(** C10. A batch write that returns accounts for every name: a code in the map is the
    PLC's answer to a request carrying that name's value, encoded; a name without a
    code is an item with the library's reason, a code other than success an item with
    that code; and the error counts the codes that mean success. *)
Theorem WriteMultipleSymbols_accounts values s s' codes err :
  values <> [] -> NoDup (map fst values) ->
  WriteMultipleSymbols interfere reconnected values s = (s', Ok (codes, err)) ->
  write_accounted values codes err.
Proof.
  intros Hne Hnd E. unfold WriteMultipleSymbols in E. step_call. by eapply retry_write_accounted.
Qed.

(** ** One symbol *)

Lemma invalidate_key key (s : session W) e : ss_symbols (invalidate key s) !! key = Some e ->
  sy_Value (en_data e) = "".
Proof.
  unfold invalidate. destruct (ss_symbols s !! key) as [e0|] eqn:E0; cbn; [|by rewrite E0].
  rewrite lookup_insert_eq. intros [= <-]. unfold en_data, map_entry, map_data. cbn. by destruct (en_sym e0).
Qed.

Lemma retry_write_invalidates n name value s s' e now :
  writeToSymbolRetry interfere reconnected n name value s = (s', Ok tt) ->
  ss_symbols s' !! symbolKey name = Some e -> is_fresh now e = false.
Proof.
  revert s. induction n as [|n IH]; intros s E Hl; cbn [writeToSymbolRetry] in E; cbv zeta in E.
  all: repeat (step_call; cbv zeta in * ).
  all: try (unfold is_fresh; erewrite invalidate_key by done; apply andb_false_r).
  case_match; [eauto|]. step_call.
Qed.

(** A write that succeeded leaves nothing to serve from the cache: whatever the
    clock says, the next read of that name goes to the PLC. *)
Theorem WriteToSymbol_invalidates name value s s' e now :
  WriteToSymbol interfere reconnected name value s = (s', Ok tt) ->
  ss_symbols s' !! symbolKey name = Some e -> is_fresh now e = false.
Proof.
  intros E. unfold WriteToSymbol in E. step_call. by eapply retry_write_invalidates.
Qed.

(** A fresh cached value is served without a request, and the session is unchanged. *)
Lemma read_within_interval_is_cached n name s e :
  ss_symbols s !! symbolKey name = Some e -> sy_Handle (en_data e) <> 0 -> is_fresh (ss_now s) e = true ->
  readFromSymbolRetry interfere reconnected n name s = (s, Ok (sy_Value (en_data e))).
Proof.
  intros Hl Hh Hf.
  assert (Hg : getSymbol interfere name s = (s, Ok e)).
  { unfold getSymbol, mbind, call_bind, get_session. rewrite Hl. by rewrite (proj2 (Z.eqb_neq _ _) Hh). }
  destruct n; cbn [readFromSymbolRetry]; unfold mbind, call_bind, get_session, wrap_call; rewrite Hg; cbn;
    unfold deref; rewrite Hl, Z.eqb_refl, Hf; done.
Qed.

Lemma invalidate_other key key' (s : session W) : key <> key' ->
  ss_symbols (invalidate key s) !! key' = ss_symbols s !! key'.
Proof. intros Hne. unfold invalidate. destruct (ss_symbols s !! key); [|done]. by apply lookup_insert_ne. Qed.
End Facts.

(** ** Concrete inputs: a cache that knows [MAIN.x] as an INT, and a PLC that reads 5
    there, accepts writes and knows no other symbol. *)
#[local] Existing Instance bits_text.
#[local] Existing Instance empty_json.

#[local] Instance demo_plc : Transport () := fun _ cmd data w =>
  (w, if (cmd =? CommandIDReadWrite) && (le_get (take 4 data) =? GroupSymbolInfoByNameEx)
      then Ok (put_u32 1808 ++ put_u32 0)
      else if (cmd =? CommandIDReadWrite) && (le_get (take 4 data) =? GroupSumupWrite)
      then Ok (put_u32 0 ++ put_u32 4 ++ put_u32 0)
      else if cmd =? CommandIDReadWrite
      then Ok (put_u32 0 ++ put_u32 10 ++ put_u32 0 ++ put_u32 2 ++ put_u16 5)
      else Ok (put_u32 0)).

Definition demo_entry : entry :=
  {| en_id := 1; en_sym := MkSymbol (with_handle 77 (plain_data "MAIN.x" "INT" 0 2)) [];
     en_updated := 0; en_interval := 50 * Millisecond |}.
Definition demo_session : session () :=
  {| ss_client := Some {| cl_target := {| NetID := replicate 6 Byte.x01; Port := 851 |}; cl_caps := fresh_capabilities; cl_tx := tt |};
     ss_symbols := {["main.x"%string := demo_entry]}; ss_onDemand := ∅; ss_datatypes := ∅;
     ss_fullyLoaded := false; ss_listLoaded := false; ss_datatypesLoaded := false; ss_version := 0; ss_runtime := (0, 0);
     ss_strictFailures := 0; ss_epoch := 1; ss_now := 1000; ss_nextId := 2; ss_detected := [] |}.

Lemma ReadMultipleSymbols_accounts_witness :
  exists be, read_accounted id ["MAIN.x"%string; "MAIN.gone"%string] {["MAIN.x"%string := "5"%string]} (Some be).
Proof.
  eexists.
  apply (ReadMultipleSymbols_accounts id id _ demo_session
           (ReadMultipleSymbols id id ["MAIN.x"%string; "MAIN.gone"%string] demo_session).1); [done|].
  vm_compute. reflexivity.
Defined.

Lemma WriteMultipleSymbols_accounts_witness :
  exists be, write_accounted id [("MAIN.x", "7"); ("MAIN.gone", "1")]%string {["MAIN.x"%string := 0]} (Some be).
Proof.
  eexists.
  apply (WriteMultipleSymbols_accounts id id _ demo_session
           (WriteMultipleSymbols id id [("MAIN.x", "7"); ("MAIN.gone", "1")]%string demo_session).1); [done| |].
  - apply (bool_decide_unpack _). vm_compute. done.
  - vm_compute. reflexivity.
Defined.

Lemma WriteToSymbol_invalidates_witness :
  match ss_symbols (WriteToSymbol id id "main.X" "7" demo_session).1 !! "main.x"%string with
  | Some e => is_fresh 0 e = false
  | None => False
  end.
Proof.
  destruct (ss_symbols _ !! _) as [e|] eqn:E; [|by vm_compute in E].
  apply (WriteToSymbol_invalidates id id "main.X" "7" demo_session
           (WriteToSymbol id id "main.X" "7" demo_session).1); [vm_compute; reflexivity|done].
Defined.
