(* ===== verification/Discovery.v ===== *)
(** symbol_discovery.go and the reload entry points of session.go: downloading the
    symbol and datatype tables, whole or in chunks, and installing them.

    As in Access.v, [interfere] is what other goroutines did to the session while a
    request was out or the caller slept.  [ctx_err] is what the caller's context
    reports, read off the world the requests have moved on. *)
From S2P Require Import Prelude Wire Strconv Defs Fsm Ams Client SymbolTable GoTime Utf Codec Policies Access.

(** ** Chunked download *)

Definition isChunkedDownloadUnsupportedErr (err : goerr) : bool :=
  match errors_as_code err with
  | Some rc => (rc =? ReturnCodeDeviceServiceNotSupported) || (rc =? ReturnCodeDeviceInvalidOffset)
  | None => false
  end.

Definition maxDownloadSize : Z := 64 * 1024 * 1024.

Record SlowDiscoveryConfig : Type := { ChunkSize : Z; ChunkDelay : Z }.
Definition applyDefaults (cfg : SlowDiscoveryConfig) : SlowDiscoveryConfig :=
  {| ChunkSize := if ChunkSize cfg =? 0 then 4096 else ChunkSize cfg;
     ChunkDelay := if ChunkDelay cfg =? 0 then 100 * Millisecond else ChunkDelay cfg |}.

Section Download.
Context {W : Type} `{Transport W}.
Context (ctx_err : W -> option goerr).

Definition sleepCtx (d : Z) : rpc W () := fun c =>
  if d <=? 0 then (c, Ok ())
  else (c, match ctx_err (cl_tx c) with Some e => Err e | None => Ok () end).

(** The first chunk's failure, when it says the PLC has no offset reads. *)
Definition note_unsupported (offset : Z) (err : goerr) : rpc W () :=
  k ← caps_get;
  if (offset =? 0) && negb (chunkedDownloadChecked k) && isChunkedDownloadUnsupportedErr err
  then ChunkedDownloadStore false else mret tt.

(** The chunk loop; [None] when the fuel does not suffice. *)
Fixpoint chunk_loop (fuel : nat) (group totalLength chunkSize delay offset : Z) (result : bytes)
  : rpc W (option bytes) :=
  match fuel with
  | O => mret None
  | S fuel =>
      if negb (offset <? totalLength) then mret (Some result)
      else
        let remaining := u32 (totalLength - offset) in
        let readLen := if remaining <? chunkSize then remaining else chunkSize in
        r ← attempt (Read group offset readLen);
        match r with
        | inr err => _ ← note_unsupported offset err; lift (Err (EWrap "chunk read failed" err))
        | inl chunk =>
            if len chunk =? 0 then lift (Err (EMsg "chunk read returned empty response"))
            else
              let offset := u32 (offset + u32 (len chunk)) in
              _ ← (if offset <? totalLength then sleepCtx delay else mret tt);
              chunk_loop fuel group totalLength chunkSize delay offset (result ++ chunk)
        end
  end.

(** Every chunk brings at least one byte, so one round more than bytes is enough. *)
Definition chunk_fuel (totalLength : Z) : nat := S (Z.to_nat totalLength).

Definition DownloadInChunks (group totalLength chunkSize delay : Z) : rpc W (option bytes) :=
  if totalLength =? 0 then mret (Some [])
  else
    k ← caps_get;
    if chunkedDownloadChecked k && negb (chunkedDownloadSupported k)
    then lift (Err (EMsg "chunked download not supported by this PLC"))
    else if maxDownloadSize <? totalLength then lift (Err (EMsg "download size exceeds sanity limit"))
    else
      r ← chunk_loop (chunk_fuel totalLength) group totalLength chunkSize delay 0 [];
      match r with
      | None => mret None
      | Some result =>
          k ← caps_get;
          _ ← (if negb (chunkedDownloadChecked k) then ChunkedDownloadStore true else mret tt);
          if negb (u32 (len result) =? totalLength) then lift (Err (EMsg "downloaded and expected sizes differ"))
          else mret (Some result)
      end.

(** What both slow loaders do with it: the single request when chunking failed. *)
Definition download_or_fallback (group totalLength : Z) (cfg : SlowDiscoveryConfig) (fallback : Z -> rpc W bytes)
  : rpc W bytes :=
  r ← attempt (DownloadInChunks group totalLength (ChunkSize cfg) (ChunkDelay cfg));
  match r with
  | inl (Some data) => mret data
  | inl None => lift Panic
  | inr _ => fallback totalLength
  end.
End Download.

(** ** Installing a table *)

(** Each symbol of a loaded table becomes an object of its own. *)
Definition install_entries (now first : Z) (m : symbols) : gmap string entry :=
  list_to_map (imap (fun i '(key, sym) =>
    (key, {| en_id := first + Z.of_nat i; en_sym := sym; en_updated := now; en_interval := 50 * Millisecond |}))
    (map_to_list m)).

Section Installers.
Context {W : Type}.

Definition store_table (m : symbols) (s : session W) : session W :=
  set_table (install_entries (ss_now s) (ss_nextId s) m) (ss_onDemand s) (ss_nextId s + Z.of_nat (size m)) s.
Definition clear_onDemand (s : session W) : session W := set_table (ss_symbols s) ∅ (ss_nextId s) s.
Definition store_datatypes (dts : datatypes) (s : session W) : session W :=
  Build_session (ss_client s) (ss_symbols s) (ss_onDemand s) dts (ss_fullyLoaded s) (ss_listLoaded s)
    (ss_datatypesLoaded s) (ss_version s) (ss_runtime s) (ss_strictFailures s) (ss_epoch s) (ss_now s) (ss_nextId s)
    (ss_detected s).
Definition set_loaded (full list_ dt : bool) (s : session W) : session W :=
  Build_session (ss_client s) (ss_symbols s) (ss_onDemand s) (ss_datatypes s) full list_ dt (ss_version s)
    (ss_runtime s) (ss_strictFailures s) (ss_epoch s) (ss_now s) (ss_nextId s) (ss_detected s).
Definition store_version (v : Z) (s : session W) : session W :=
  Build_session (ss_client s) (ss_symbols s) (ss_onDemand s) (ss_datatypes s) (ss_fullyLoaded s) (ss_listLoaded s)
    (ss_datatypesLoaded s) v (ss_runtime s) (ss_strictFailures s) (ss_epoch s) (ss_now s) (ss_nextId s) (ss_detected s).
Definition bump_epoch (s : session W) : session W :=
  Build_session (ss_client s) (ss_symbols s) (ss_onDemand s) (ss_datatypes s) (ss_fullyLoaded s) (ss_listLoaded s)
    (ss_datatypesLoaded s) (ss_version s) (ss_runtime s) (ss_strictFailures s) (Fsm.bump (ss_epoch s)) (ss_now s)
    (ss_nextId s) (ss_detected s).
Definition strict_failure (s : session W) : session W :=
  Build_session (ss_client s) (ss_symbols s) (ss_onDemand s) (ss_datatypes s) (ss_fullyLoaded s) (ss_listLoaded s)
    (ss_datatypesLoaded s) (ss_version s) (ss_runtime s) (ss_strictFailures s + 1) (ss_epoch s) (ss_now s)
    (ss_nextId s) (ss_detected s).

(** [zeroOldSymbolHandles] on one object. *)
Definition zero_data (d : symbolData) : symbolData :=
  {| sy_Name := sy_Name d; sy_FullName := sy_FullName d; sy_DataType := sy_DataType d; sy_Comment := sy_Comment d;
     sy_Handle := 0; sy_Group := sy_Group d; sy_Offset := sy_Offset d; sy_Length := sy_Length d;
     sy_BaseType := sy_BaseType d; sy_Flags := sy_Flags d; sy_ContextMask := sy_ContextMask d;
     sy_Value := ""; sy_Valid := false; sy_ValueParsed := false; sy_Parent := sy_Parent d |}.
Definition zero_entry (zero_time : Z) (e : entry) : entry :=
  {| en_id := en_id e; en_sym := map_data zero_data (en_sym e); en_updated := zero_time; en_interval := en_interval e |}.
Definition zeroOldSymbolHandles (zero_time : Z) (m : gmap string entry) : gmap string entry :=
  zero_entry zero_time <$> m.

(** [addChildren], over objects: members get objects of their own unless their key is
    taken. *)
Definition add_member (now : Z) (acc : gmap string entry * Z) (c : symbol) : gmap string entry * Z :=
  let '(m, next) := acc in
  let key := symbolKey (sy_FullName (sy_data c)) in
  match m !! key with
  | Some _ => acc
  | None => (<[key := {| en_id := next; en_sym := c; en_updated := now; en_interval := 50 * Millisecond |}]> m, next + 1)
  end.

(** A member whose key is taken is not descended into. *)
Fixpoint add_children (now : Z) (s : symbol) (acc : gmap string entry * Z) : gmap string entry * Z :=
  let '(MkSymbol _ children) := s in
  (fix go (cs : list (string * symbol)) (acc : gmap string entry * Z) : gmap string entry * Z :=
     match cs with
     | [] => acc
     | (_, c) :: cs =>
         go cs (match acc.1 !! symbolKey (sy_FullName (sy_data c)) with
                | Some _ => acc
                | None => add_children now c (add_member now acc c)
                end)
     end) children acc.

(** One object of [rebuildSymbolChildrenLocked]. *)
Definition rebuild_one (dts : datatypes) (now : Z) (acc : gmap string entry * Z) (key : string)
  : gmap string entry * Z :=
  match acc.1 !! key with
  | None => acc
  | Some e =>
      let d := en_data e in
      match dts !! sy_DataType d with
      | None => acc
      | Some dt =>
          let sym := MkSymbol d (addOffset dts (sy_FullName d) (sy_Group d) dt) in
          add_children now sym
            (<[key := {| en_id := en_id e; en_sym := sym; en_updated := en_updated e; en_interval := en_interval e |}]> acc.1,
             acc.2)
      end
  end.

(** The map is visited in an arbitrary order; the key order stands for it.  Every
    visited object of a known type gets fresh members, so the objects its old members
    were under their own names stay in the table as they are. *)
Definition rebuildSymbolChildrenLocked (s : session W) : session W :=
  let '(m, next) := foldl (rebuild_one (ss_datatypes s) (ss_now s)) (ss_symbols s, ss_nextId s)
                          (map fst (map_to_list (ss_symbols s))) in
  set_table m (ss_onDemand s) next s.
End Installers.

(** ** The loaders *)

Section Loaders.
Context {W : Type} `{Transport W} `{FloatText} `{JsonText}.
Context (interfere : session W -> session W) (ctx_err : W -> option goerr) (zero_time : Z).

(** A request whose failure the loader only logs. *)
Definition read_version : call W () :=
  r ← try_call (net interfere GetSymbolVersion);
  match r with
  | inl version => modify (store_version version)
  | inr _ => mret tt
  end.

Definition loadSymbols : call W () :=
  _ ← read_version;
  info ← wrap_call "failed to get symbol upload info" (net interfere GetSymbolUploadInfo);
  datatypesResponse ← wrap_call "failed to upload datatypes" (net interfere (DownloadDataTypes (DataTypeLength info)));
  datatypes ← lift_call (wrap_err "failed to parse datatypes" (parseUploadSymbolInfoDataTypes datatypesResponse));
  symbolsResponse ← wrap_call "failed to upload symbols" (net interfere (DownloadSymbolList (SymbolLength info)));
  symbols ← lift_call (wrap_err "failed to parse symbols" (parseUploadSymbolInfoSymbols symbolsResponse datatypes));
  modify (fun s => bump_epoch (store_table symbols (store_datatypes datatypes
                     (set_symbols (zeroOldSymbolHandles zero_time (ss_symbols s)) s)))).

Definition require_running : call W () := fun s =>
  match requireRunningRuntime (ss_runtime s).1 (ss_runtime s).2 (ss_now s) with
  | Some e => (s, Err e)
  | None => (s, Ok tt)
  end.

Definition LoadSymbols : call W () :=
  _ ← requireClient;
  _ ← require_running;
  _ ← loadSymbols;
  modify (fun s => clear_onDemand (set_loaded true (ss_listLoaded s) (ss_datatypesLoaded s) s)).

Definition LoadSymbolsSlow (cfg : SlowDiscoveryConfig) : call W () :=
  _ ← requireClient;
  _ ← require_running;
  let cfg := applyDefaults cfg in
  _ ← read_version;
  info ← wrap_call "failed to get symbol upload info" (net interfere GetSymbolUploadInfo);
  _ ← net interfere (sleepCtx ctx_err (ChunkDelay cfg));
  datatypesData ← wrap_call "failed to download datatypes"
    (net interfere (download_or_fallback ctx_err GroupSymbolDataTypeUpload (DataTypeLength info) cfg DownloadDataTypes));
  datatypes ← lift_call (wrap_err "failed to parse datatypes" (parseUploadSymbolInfoDataTypes datatypesData));
  _ ← net interfere (sleepCtx ctx_err (ChunkDelay cfg));
  symbolsData ← wrap_call "failed to download symbols"
    (net interfere (download_or_fallback ctx_err GroupSymbolUpload (SymbolLength info) cfg DownloadSymbolList));
  symbols ← lift_call (wrap_err "failed to parse symbols" (parseUploadSymbolInfoSymbols symbolsData datatypes));
  modify (fun s => bump_epoch (clear_onDemand
    (set_loaded true (ss_listLoaded s) (ss_datatypesLoaded s) (store_table symbols (store_datatypes datatypes s))))).

Definition LoadSymbolList (cfg : SlowDiscoveryConfig) : call W () :=
  _ ← requireClient;
  let cfg := applyDefaults cfg in
  _ ← read_version;
  info ← wrap_call "failed to get symbol upload info" (net interfere GetSymbolUploadInfo);
  _ ← modify interfere;
  symbolsData ← wrap_call "failed to download symbols"
    (net interfere (download_or_fallback ctx_err GroupSymbolUpload (SymbolLength info) cfg DownloadSymbolList));
  symbols ← lift_call (wrap_err "failed to parse symbols" (parseUploadSymbolInfoSymbols symbolsData ∅));
  modify (fun s =>
    let s := clear_onDemand (set_loaded (ss_fullyLoaded s) true (ss_datatypesLoaded s) (store_table symbols s)) in
    bump_epoch (if ss_datatypesLoaded s then rebuildSymbolChildrenLocked s else s)).

Definition LoadDataTypes (cfg : SlowDiscoveryConfig) : call W () :=
  _ ← requireClient;
  let cfg := applyDefaults cfg in
  info ← wrap_call "failed to get symbol upload info" (net interfere GetSymbolUploadInfo);
  _ ← modify interfere;
  datatypesData ← wrap_call "failed to download datatypes"
    (net interfere (download_or_fallback ctx_err GroupSymbolDataTypeUpload (DataTypeLength info) cfg DownloadDataTypes));
  datatypes ← lift_call (wrap_err "failed to parse datatypes" (parseUploadSymbolInfoDataTypes datatypesData));
  modify (fun s =>
    let s := set_loaded (ss_fullyLoaded s) (ss_listLoaded s) true (store_datatypes datatypes s) in
    bump_epoch (if ss_listLoaded s then rebuildSymbolChildrenLocked s else s)).

(** [ListSymbols]: the objects under their own full names. *)
Definition ListSymbols : call W (gmap string entry) := fun s =>
  if negb (ss_fullyLoaded s) then (s, Err (EMsg "full symbol discovery has not been run"))
  else (s, Ok (map_fold (fun _ e out => <[sy_FullName (en_data e) := e]> out) ∅ (ss_symbols s))).

(** ** Version changes and reloading *)

Definition CheckSymbolVersion : call W bool :=
  _ ← requireClient;
  version ← net interfere GetSymbolVersion;
  s ← get_session;
  mret (negb (version =? ss_version s)).

Definition live_handles (m : gmap string entry) : list Z :=
  filter (fun h => h <> 0) (map (fun p => sy_Handle (en_data p.2)) (map_to_list m)).

(** The releases, in the order collected; a failure is only logged. *)
Fixpoint release_handles (hs : list Z) : call W () :=
  match hs with
  | [] => mret tt
  | h :: hs => _ ← release_handle interfere h; release_handles hs
  end.

Definition RefreshSymbols : call W () :=
  _ ← requireClient;
  changed ← CheckSymbolVersion;
  if negb (changed : bool) then mret tt
  else
    s ← get_session;
    _ ← modify (fun s => set_symbols (map_entry (with_handle 0) <$> ss_symbols s) s);
    _ ← release_handles (live_handles (ss_symbols s));
    wrap_call "failed to refresh symbols" loadSymbols.

(** [WithStrictReconnect] and its attempt cap; the cap only changes the message. *)
Context (strictReconnect : bool).

Fixpoint reresolve (names : list string) : call W () :=
  match names with
  | [] => mret tt
  | name :: names =>
      r ← try_call (getSymbol interfere name);
      match r with
      | inl _ => reresolve names
      | inr err =>
          if strictReconnect then
            _ ← modify strict_failure;
            lift_call (Err (EWrap "re-resolve symbol (strict mode)" err))
          else reresolve names
      end
  end.

Definition reloadSymbols : call W () :=
  s ← get_session;
  let defaults := {| ChunkSize := 0; ChunkDelay := 0 |} in
  if ss_fullyLoaded s then loadSymbols
  else if ss_listLoaded s || ss_datatypesLoaded s then
    _ ← (if ss_listLoaded s then wrap_call "reload symbol list" (LoadSymbolList defaults) else mret tt);
    if ss_datatypesLoaded s then wrap_call "reload datatypes" (LoadDataTypes defaults) else mret tt
  else if negb (bool_decide (ss_onDemand s = ∅)) then
    let oldSymbols := elements (ss_onDemand s) in
    _ ← modify (fun s => bump_epoch (set_symbols ∅ s));
    reresolve oldSymbols
  else read_version.
End Loaders.
