(* ===== verification/DiscoveryFacts.v ===== *)
(** Symbol discovery (Discovery.v): a chunked download ends, returns exactly the
    length asked for, and returns what one request would; the slow and the fast
    loader install the same table; a loader that fails installs nothing. *)
From S2P Require Import Prelude Wire Strconv Defs Fsm Ams Client SymbolTable SymbolTableFacts GoTime Utf Codec CodecSafety Policies Access AccessFacts Discovery.

Section Chunks.
Context {W : Type} `{Transport W}.
Context (ctx_err : W -> option goerr).

(** ** A chunked download ends *)

(** The transport refuses frames of 2 GiB and more, and does not panic. *)
Definition replies_bounded : Prop := forall t cmd d w,
  match (sendRequestTo_tx t cmd d w).2 with Ok b => len b < 2 ^ 31 | Err _ => True | Panic => False end.

Lemma parse_read_reply_no_panic what b : no_panic (parse_read_reply what b).
Proof.
  unfold parse_read_reply.
  repeat (apply no_panic_bind; [apply no_panic_wrap, no_panic_read_uint|]; intros [? ?] ?).
  by repeat case_match.
Qed.

Lemma Read_bounded group offset n c : replies_bounded ->
  match (Read group offset n c).2 with Ok d => len d < 2 ^ 31 | Err _ => True | Panic => False end.
Proof.
  intros Hb. unfold Read, sendRequest, sendRequestTo, mbind, rpc_bind.
  specialize (Hb (cl_target c) CommandIDRead (read_packet group offset n) (cl_tx c)).
  destruct (sendRequestTo_tx _ _ _ _) as [w [b|e|]]; cbn in *; try done. unfold lift. cbn.
  pose proof (parse_read_reply_no_panic "ADS error in Read" b) as Hp.
  destruct (parse_read_reply _ b) as [d|e|] eqn:Ep; [|done|by apply Hp].
  apply parse_read_reply_len in Ep as (code & ln & body & -> & _ & Hl & ->). len_lia.
Qed.

(** What a download may end with: exactly the length asked for, or an error. *)
Definition download_verdict (total : Z) (r : res (option bytes)) : Prop :=
  match r with Ok (Some d) => len d = total | Ok None => False | Err _ => True | Panic => False end.

Lemma note_unsupported_Ok offset err (c : client W) : exists c', note_unsupported offset err c = (c', Ok tt).
Proof.
  unfold note_unsupported, caps_get, mbind, rpc_bind. case_match; [|by eexists].
  unfold ChunkedDownloadStore, caps_get, mbind, rpc_bind, caps_set. by eexists.
Qed.

(** The bytes gathered are always exactly those before the offset. *)
Lemma chunk_loop_total group total chunk delay fuel : replies_bounded -> 0 <= total <= maxDownloadSize ->
  forall offset result c, len result = offset -> 0 <= offset < 2 ^ 32 -> Z.max 0 (total - offset) < Z.of_nat fuel ->
  match (chunk_loop ctx_err fuel group total chunk delay offset result c).2 with
  | Ok (Some d) => total <= len d < 2 ^ 32 | Ok None => False | Err _ => True | Panic => False
  end.
Proof.
  intros Hb Ht. induction fuel as [|fuel IH]; intros offset result c Hr Ho Hf; cbn [chunk_loop]; [lia|].
  destruct (offset <? total) eqn:Eo; cbn [negb]; [|cbn; lia]. zbool. cbv zeta.
  set (n := if _ <? chunk then _ else _). pose proof (Read_bounded group offset n c Hb) as Hread.
  unfold attempt, mbind at 1, rpc_bind at 1. destruct (Read group offset n c) as [c1 [d|e|]] eqn:Er; cbn in Hread; [| |done].
  - destruct (len d =? 0) eqn:Ed; [done|]. zbool. unfold maxDownloadSize in Ht.
    assert (Hd : u32 (offset + u32 (len d)) = offset + len d).
    { unfold u32. rewrite !wrap_u_small; [done| |]; unfold in_u; rewrite ?wrap_u_small; unfold in_u; len_lia. }
    rewrite Hd. unfold mbind, rpc_bind. destruct (offset + len d <? total) eqn:E2.
    + unfold sleepCtx. destruct (delay <=? 0); [|destruct (ctx_err _); [done|]]; apply IH; len_lia.
    + cbn. apply IH; len_lia.
  - destruct (note_unsupported_Ok offset e c1) as [c2 E2]. unfold mbind, rpc_bind. by rewrite E2.
Qed.

Lemma download_total group total chunk delay c : replies_bounded -> in_u 32 total ->
  download_verdict total (DownloadInChunks ctx_err group total chunk delay c).2.
Proof.
  intros Hb Ht. unfold DownloadInChunks. destruct (total =? 0) eqn:E0; zbool; [by subst|].
  unfold caps_get, mbind, rpc_bind. destruct (_ && _); [done|]. destruct (maxDownloadSize <? total) eqn:Em; [done|]. zbool.
  unfold in_u in Ht.
  pose proof (chunk_loop_total group total chunk delay (chunk_fuel total) Hb ltac:(lia) 0 [] c eq_refl ltac:(lia)
                ltac:(unfold chunk_fuel; lia)) as Hl.
  destruct (chunk_loop _ _ _ _ _ _ _ _ _) as [c1 [[d|]|e|]]; try done. cbn in Hl.
  unfold u32 at 1. rewrite wrap_u_small by (unfold in_u; lia).
  assert (Hfin : forall c2 : client W, download_verdict total
    ((if negb (len d =? total) then lift (Err (EMsg "downloaded and expected sizes differ")) else mret (Some d) : rpc W (option bytes)) c2).2).
  { intros c2. destruct (len d =? total) eqn:E; [|done]. cbn. by zbool. }
  cbn. destruct (negb (chunkedDownloadChecked _)); eapply Hfin.
Qed.

(** A chunked download of any table ends, with an error or with exactly the length it
    was asked for, whatever the pieces the device sends: every round brings a byte. *)
Theorem DownloadInChunks_ends group total chunk delay c : replies_bounded -> in_u 32 total ->
  download_verdict total (DownloadInChunks ctx_err group total chunk delay c).2.
Proof. apply download_total. Qed.

(** ** and returns the table *)

(** The device serves [blob] under [group]: any piece asked for inside it is answered
    by a nonempty beginning of that piece. *)
Definition serves (t : AMSAddress) (group : Z) (blob : bytes) : Prop :=
  forall w offset n, 0 <= offset -> 0 < n -> offset + n <= len blob ->
  exists k, 0 < k <= n /\
    (sendRequestTo_tx t CommandIDRead (read_packet group offset n) w).2
    = Ok (read_reply 0 (take (Z.to_nat k) (drop (Z.to_nat offset) blob))).

(** The client's next state: only the transport moved. *)
Definition same_but_tx (c c' : client W) : Prop := cl_target c' = cl_target c /\ cl_caps c' = cl_caps c.

Lemma Read_serves_piece t group blob offset n c : serves t group blob -> cl_target c = t -> len blob < 2 ^ 32 ->
  0 <= offset -> 0 < n -> offset + n <= len blob ->
  exists k c', 0 < k <= n /\ same_but_tx c c' /\
    Read group offset n c = (c', Ok (take (Z.to_nat k) (drop (Z.to_nat offset) blob))).
Proof.
  intros Hs Ht Hl Ho Hn Hon. destruct (Hs (cl_tx c) offset n Ho Hn Hon) as (k & Hk & E).
  exists k. unfold Read, sendRequest, sendRequestTo, mbind, rpc_bind. rewrite Ht.
  destruct (sendRequestTo_tx _ _ _ _) as [w r]. cbn [snd] in E. subst r. unfold lift.
  rewrite <- (app_nil_r (read_reply _ _)), parse_read_reply_ok by len_lia. eexists. split; [done|]. split; [|reflexivity]. by split.
Qed.

Definition uncancelled (delay : Z) : Prop := delay <= 0 \/ forall w, ctx_err w = None.

Lemma sleepCtx_uncancelled delay c : uncancelled delay -> sleepCtx ctx_err delay c = (c, Ok tt).
Proof.
  intros Hd. unfold sleepCtx. destruct (delay <=? 0) eqn:E; [done|]. zbool. destruct Hd as [|Hd]; [lia|]. by rewrite Hd.
Qed.

Lemma chunk_loop_serves group blob chunk delay fuel :
  len blob <= maxDownloadSize -> 0 < chunk -> uncancelled delay ->
  forall offset c, serves (cl_target c) group blob -> 0 <= offset <= len blob -> len blob - offset < Z.of_nat fuel ->
  exists c', same_but_tx c c' /\
    chunk_loop ctx_err fuel group (len blob) chunk delay offset (take (Z.to_nat offset) blob) c = (c', Ok (Some blob)).
Proof.
  intros Hm Hc Hd. unfold maxDownloadSize in Hm.
  induction fuel as [|fuel IH]; intros offset c Hs Ho Hf; cbn [chunk_loop]; [lia|].
  destruct (offset <? len blob) eqn:Eo; cbn [negb]; zbool.
  2:{ exists c. split; [done|]. rewrite take_ge by len_lia. done. }
  cbv zeta. assert (Erem : u32 (len blob - offset) = len blob - offset) by (apply wrap_u_small; unfold in_u; lia).
  rewrite Erem.
  set (n := if _ <? chunk then _ else _).
  assert (Hn : 0 < n /\ offset + n <= len blob) by (unfold n; destruct (_ <? chunk) eqn:E; zbool; lia).
  destruct (Read_serves_piece (cl_target c) group blob offset n c Hs eq_refl ltac:(lia) ltac:(lia) (proj1 Hn) (proj2 Hn))
    as (k & c1 & Hk & [Ht1 Hc1] & Er).
  set (d := take (Z.to_nat k) (drop (Z.to_nat offset) blob)) in *.
  assert (Hld : len d = k) by (unfold d; len_lia).
  rewrite (rpc_bind_Ok _ _ _ _ _ (attempt_Ok _ _ _ _ Er)), Hld, (proj2 (Z.eqb_neq k 0)) by lia.
  assert (Eoff : u32 (offset + u32 k) = offset + k).
  { unfold u32. rewrite !wrap_u_small; [done| |]; unfold in_u; rewrite ?wrap_u_small; unfold in_u; lia. }
  rewrite Eoff.
  assert (Etk : take (Z.to_nat offset) blob ++ d = take (Z.to_nat (offset + k)) blob).
  { unfold d. rewrite take_take_drop. f_equal. lia. }
  rewrite Etk. destruct (IH (offset + k) c1) as (c2 & [Ht2 Hc2] & E2); [by rewrite Ht1|lia|lia|].
  exists c2. split; [split; congruence|].
  destruct (offset + k <? len blob); [rewrite (rpc_bind_Ok _ _ _ _ _ (sleepCtx_uncancelled _ _ Hd))|]; done.
Qed.

(** Whether chunking was seen to work. *)
Definition chunking_usable (k : capabilities) : bool :=
  negb (chunkedDownloadChecked k) || chunkedDownloadSupported k.

Lemma download_serves group blob chunk delay c :
  serves (cl_target c) group blob -> chunking_usable (cl_caps c) = true ->
  len blob <= maxDownloadSize -> 0 < chunk -> uncancelled delay ->
  exists c', cl_target c' = cl_target c /\ chunking_usable (cl_caps c') = true /\
    DownloadInChunks ctx_err group (len blob) chunk delay c = (c', Ok (Some blob)).
Proof.
  intros Hs Hu Hm Hc Hd. unfold DownloadInChunks. destruct (len blob =? 0) eqn:E0.
  { zbool. destruct blob; [|len_lia]. by exists c. }
  zbool. rewrite (rpc_bind_Ok caps_get _ c c (cl_caps c) eq_refl).
  assert (Hg : chunkedDownloadChecked (cl_caps c) && negb (chunkedDownloadSupported (cl_caps c)) = false).
  { unfold chunking_usable in Hu. by destruct (chunkedDownloadChecked _), (chunkedDownloadSupported _). }
  rewrite Hg, (proj2 (Z.ltb_ge _ _)) by done.
  destruct (chunk_loop_serves group blob chunk delay (chunk_fuel (len blob)) Hm Hc Hd 0 c Hs) as (c1 & [Ht1 Hc1] & E);
    [len_lia|unfold chunk_fuel; len_lia|].
  rewrite (rpc_bind_Ok _ _ _ _ _ E), (rpc_bind_Ok caps_get _ c1 c1 (cl_caps c1) eq_refl).
  unfold u32, maxDownloadSize in *. rewrite wrap_u_small by (unfold in_u; len_lia). rewrite Z.eqb_refl.
  destruct (chunkedDownloadChecked (cl_caps c1)) eqn:Ek.
  - exists c1. split_and!; [done|by rewrite Hc1|done].
  - eexists. split_and!; [| |cbn; reflexivity]; cbn; done.
Qed.
End Chunks.

(** ** A loader that fails installs nothing *)

Section Failure.
Context {W : Type} `{Transport W} `{FloatText} `{JsonText}.
Context (ctx_err : W -> option goerr) (zero_time : Z).

(** The parts of the session a lookup or a retry consults: the table, its types, the
    record of what was loaded and how, and the generation. *)
Definition same_table (s s' : session W) : Prop :=
  ss_symbols s' = ss_symbols s /\ ss_datatypes s' = ss_datatypes s /\ ss_onDemand s' = ss_onDemand s /\
  ss_fullyLoaded s' = ss_fullyLoaded s /\ ss_listLoaded s' = ss_listLoaded s /\
  ss_datatypesLoaded s' = ss_datatypesLoaded s /\ ss_epoch s' = ss_epoch s.

#[local] Instance same_table_refl : Reflexive same_table.
Proof. by intros s. Qed.
#[local] Instance same_table_trans : Transitive same_table.
Proof. unfold same_table. intros s1 s2 s3 H12 H23. intuition congruence. Qed.

Definition keeps {A} (m : call W A) : Prop := forall s, same_table s (m s).1.
Definition err_keeps {A} (m : call W A) : Prop := forall s,
  match m s with (_, Ok _) => True | (s', _) => same_table s s' end.

Lemma keeps_err {A} (m : call W A) : keeps m -> err_keeps m.
Proof. intros Hm s. specialize (Hm s). by destruct (m s) as [s' [a|e|]]. Qed.
Lemma keeps_bind {A B} (m : call W A) (f : A -> call W B) : keeps m -> (forall a, keeps (f a)) -> keeps (m ≫= f).
Proof.
  intros Hm Hf s. specialize (Hm s). unfold mbind, call_bind. destruct (m s) as [s1 [a|e|]]; [|done..].
  etrans; [exact Hm|apply Hf].
Qed.
Lemma err_keeps_bind {A B} (m : call W A) (f : A -> call W B) :
  keeps m -> (forall a, err_keeps (f a)) -> err_keeps (m ≫= f).
Proof.
  intros Hm Hf s. specialize (Hm s). unfold mbind, call_bind. destruct (m s) as [s1 [a|e|]]; [|done..].
  specialize (Hf a s1). destruct (f a s1) as [s2 [b|e|]]; [done| |]; by etrans.
Qed.
(** A last step that cannot fail. *)
Lemma err_keeps_commit {A} (m : call W A) (f : session W -> session W) :
  err_keeps m -> err_keeps (m ≫= fun _ => modify f).
Proof. intros Hm s. specialize (Hm s). unfold mbind, call_bind. by destruct (m s) as [s1 [a|e|]]. Qed.

Lemma keeps_ret {A} (a : A) : keeps (mret a).
Proof. by intros s. Qed.
Lemma keeps_lift {A} (r : res A) : keeps (lift_call r).
Proof. by intros s. Qed.
Lemma keeps_net {A} (m : rpc W A) : keeps (net id m).
Proof. intros s. unfold net. destruct (ss_client s) as [c|]; [|done]. by destruct (m c). Qed.
Lemma keeps_try {A} (m : call W A) : keeps m -> keeps (try_call m).
Proof. intros Hm s. specialize (Hm s). unfold try_call. by destruct (m s) as [s1 [a|e|]]. Qed.
Lemma keeps_wrap {A} msg (m : call W A) : keeps m -> keeps (wrap_call msg m).
Proof. intros Hm s. specialize (Hm s). unfold wrap_call. by destruct (m s). Qed.
Lemma keeps_requireClient : keeps (requireClient (W := W)).
Proof. intros s. unfold requireClient. by destruct (ss_client s). Qed.
Lemma keeps_running : keeps (require_running (W := W)).
Proof. intros s. unfold require_running. by destruct (requireRunningRuntime _ _ _). Qed.
Lemma keeps_version : keeps (read_version id).
Proof.
  apply keeps_bind; [apply keeps_try, keeps_net|]. intros [v|e]; [|apply keeps_ret]. by intros s.
Qed.
Lemma keeps_id : keeps (modify (W := W) id).
Proof. by intros s. Qed.
Lemma err_keeps_modify (f : session W -> session W) : err_keeps (modify f).
Proof. by intros s. Qed.

Ltac keeping :=
  repeat first
    [ apply err_keeps_modify
    | apply err_keeps_bind; [first [apply keeps_requireClient|apply keeps_running|apply keeps_version|apply keeps_net
        |apply keeps_lift|apply keeps_id|apply keeps_wrap, keeps_net]|intros ?; cbv zeta] ].

Lemma loadSymbols_err_keeps : err_keeps (loadSymbols id zero_time).
Proof. unfold loadSymbols. keeping. Qed.

(** The four loaders. *)
Definition loaders (cfg : SlowDiscoveryConfig) : list (call W ()) :=
  [LoadSymbols id zero_time; LoadSymbolsSlow id ctx_err cfg; LoadSymbolList id ctx_err cfg; LoadDataTypes id ctx_err cfg].

Lemma loaders_err_keep cfg : Forall err_keeps (loaders cfg).
Proof.
  unfold loaders, LoadSymbols, LoadSymbolsSlow, LoadSymbolList, LoadDataTypes. repeat constructor.
  - keeping. apply err_keeps_commit, loadSymbols_err_keeps.
  - cbv zeta. keeping.
  - cbv zeta. keeping.
  - cbv zeta. keeping.
Qed.

(** Whatever the device answers, each of the four loaders, when it returns an error,
    leaves the table, its types, the load flags and the generation as they were. *)
Theorem failed_load_keeps_table cfg load s s' e :
  load ∈ loaders cfg -> load s = (s', Err e) -> same_table s s'.
Proof.
  intros Hl E. pose proof (proj1 (Forall_forall _ _) (loaders_err_keep cfg) _ Hl s) as Hk. by rewrite E in Hk.
Qed.
End Failure.

(** ** Slow and fast loading install the same table *)

(** What loading a table means: parse the types, parse the symbols against them, and
    publish both with the version, as a fully loaded table of a new generation. *)
Definition install_tables {W} (version : Z) (dts_blob sym_blob : bytes) : call W () :=
  _ ← modify (store_version version);
  datatypes ← lift_call (wrap_err "failed to parse datatypes" (parseUploadSymbolInfoDataTypes dts_blob));
  symbols ← lift_call (wrap_err "failed to parse symbols" (parseUploadSymbolInfoSymbols sym_blob datatypes));
  modify (fun s => bump_epoch (clear_onDemand
    (set_loaded true (ss_listLoaded s) (ss_datatypesLoaded s) (store_table symbols (store_datatypes datatypes s))))).

Section Same.
Context {W : Type} `{Transport W} `{FloatText} `{JsonText}.
Context (ctx_err : W -> option goerr) (zero_time : Z).

(** A device with a symbol version and the two tables, whatever state it is in: pieces
    of the tables may come short, the single requests return them whole. *)
Record table_device (t : AMSAddress) (version : byte) (dts_blob sym_blob : bytes) : Prop := {
  td_version : forall w, (sendRequestTo_tx t CommandIDRead (read_packet GroupSymbolVersion 0 1) w).2
                         = Ok (read_reply 0 [version]);
  td_info : exists info header,
    (forall w, (sendRequestTo_tx t CommandIDRead (read_packet GroupSymbolUploadInfo2 0 24) w).2 = Ok (read_reply 0 header)) /\
    len header < 2 ^ 32 /\ parse_upload_info header = Ok info /\
    DataTypeLength info = len dts_blob /\ SymbolLength info = len sym_blob;
  td_dts : forall w, (sendRequestTo_tx t CommandIDRead (read_packet GroupSymbolDataTypeUpload 0 (len dts_blob)) w).2
                     = Ok (read_reply 0 dts_blob);
  td_sym : forall w, (sendRequestTo_tx t CommandIDRead (read_packet GroupSymbolUpload 0 (len sym_blob)) w).2
                     = Ok (read_reply 0 sym_blob);
  td_dts_pieces : serves t GroupSymbolDataTypeUpload dts_blob;
  td_sym_pieces : serves t GroupSymbolUpload sym_blob;
  td_sizes : len dts_blob <= maxDownloadSize /\ len sym_blob <= maxDownloadSize }.

(** A session with a live client of that device, in a state the gate lets through. *)
Definition connected_to (t : AMSAddress) (s : session W) : Prop :=
  (exists c, ss_client s = Some c /\ cl_target c = t /\ chunking_usable (cl_caps c) = true) /\
  requireRunningRuntime (ss_runtime s).1 (ss_runtime s).2 (ss_now s) = None.

Definition without_client (s : session W) : session W :=
  Build_session None (ss_symbols s) (ss_onDemand s) (ss_datatypes s) (ss_fullyLoaded s) (ss_listLoaded s)
    (ss_datatypesLoaded s) (ss_version s) (ss_runtime s) (ss_strictFailures s) (ss_epoch s) (ss_now s) (ss_nextId s)
    (ss_detected s).

(** [m] does what [spec] does, from sessions that differ at most in their client. *)
Definition refines (t : AMSAddress) (m spec : call W ()) : Prop := forall s s0,
  connected_to t s -> without_client s = without_client s0 ->
  (m s).2 = (spec s0).2 /\ without_client (m s).1 = without_client (spec s0).1.

(** A request of the client answered with [a]. *)
Definition answers {A} (t : AMSAddress) (m : rpc W A) (a : A) : Prop := forall c,
  cl_target c = t -> chunking_usable (cl_caps c) = true ->
  exists c', cl_target c' = t /\ chunking_usable (cl_caps c') = true /\ m c = (c', Ok a).

Lemma net_answers {A} t (m : rpc W A) a s : answers t m a -> connected_to t s ->
  exists c, net id m s = (set_client c s, Ok a) /\ connected_to t (set_client c s).
Proof.
  intros Ha ((c & Hc & Ht & Hu) & Hr). destruct (Ha c Ht Hu) as (c' & Ht' & Hu' & E).
  exists c'. unfold net. rewrite Hc, E. split; [done|]. split; [by exists c'|done].
Qed.

Lemma refines_net {A} t (m : rpc W A) a f spec :
  answers t m a -> refines t (f a) spec -> refines t (net id m ≫= f) spec.
Proof.
  intros Ha Hf s s0 Hs E. destruct (net_answers t m a s Ha Hs) as (c & En & Hc).
  unfold mbind, call_bind. rewrite En. by apply Hf.
Qed.
Lemma refines_wrap_net {A} t msg (m : rpc W A) a f spec :
  answers t m a -> refines t (f a) spec -> refines t (wrap_call msg (net id m) ≫= f) spec.
Proof.
  intros Ha Hf s s0 Hs E. destruct (net_answers t m a s Ha Hs) as (c & En & Hc).
  unfold mbind, call_bind, wrap_call. rewrite En. by apply Hf.
Qed.
Lemma refines_lift {A} t (r : res A) f fs :
  (forall a, r = Ok a -> refines t (f a) (fs a)) -> refines t (lift_call r ≫= f) (lift_call r ≫= fs).
Proof.
  intros Hf s s0 Hs E. unfold mbind, call_bind, lift_call. destruct r as [a|e|]; [by apply Hf|done..].
Qed.
Lemma refines_requireClient t f spec : refines t f spec -> refines t (requireClient ≫= fun _ => f) spec.
Proof.
  intros Hf s s0 Hs E. unfold mbind, call_bind, requireClient. destruct Hs as ((c & Hc & Hx) & Hr). rewrite Hc.
  apply Hf; [|done]. split; [by exists c|done].
Qed.
Lemma refines_running t f spec : refines t f spec -> refines t (require_running ≫= fun _ => f) spec.
Proof.
  intros Hf s s0 Hs E. unfold mbind, call_bind, require_running. destruct Hs as (Hc & Hr). rewrite Hr. by apply Hf.
Qed.
Lemma refines_assoc {A B} t (m : call W A) (f : A -> call W B) (g : B -> call W ()) spec :
  refines t (m ≫= fun a => f a ≫= g) spec -> refines t ((m ≫= f) ≫= g) spec.
Proof.
  intros Hf s s0 Hs E. specialize (Hf s s0 Hs E). revert Hf. unfold mbind, call_bind. by destruct (m s) as [s1 [a|e|]].
Qed.
Lemma refines_version t version f spec : answers t GetSymbolVersion version ->
  refines t f spec -> refines t (read_version id ≫= fun _ => f) (modify (store_version version) ≫= fun _ => spec).
Proof.
  intros Ha Hf s s0 Hs E. destruct (net_answers t _ _ s Ha Hs) as (c & En & Hc).
  unfold read_version, mbind, call_bind, try_call, modify. rewrite En. apply Hf; [done|].
  unfold without_client, store_version in *. cbn. injection E. intros. congruence.
Qed.

(** *** What the device answers *)

Lemma answers_Read t group offset n data :
  (forall w, (sendRequestTo_tx t CommandIDRead (read_packet group offset n) w).2 = Ok (read_reply 0 data)) ->
  len data < 2 ^ 32 -> answers t (Read group offset n) data.
Proof.
  intros Hd Hl c Ht Hu. unfold Read, sendRequest, sendRequestTo, mbind, rpc_bind. rewrite Ht.
  specialize (Hd (cl_tx c)). destruct (sendRequestTo_tx _ _ _ _) as [w r]. cbn [snd] in Hd. subst r. unfold lift.
  rewrite <- (app_nil_r (read_reply _ _)), parse_read_reply_ok by done. eexists. split_and!; [| |reflexivity]; done.
Qed.
Lemma answers_wrap {A} t msg (m : rpc W A) a : answers t m a -> answers t (wrap_rpc msg m) a.
Proof. intros Ha c Ht Hu. destruct (Ha c Ht Hu) as (c' & ? & ? & E). exists c'. unfold wrap_rpc. by rewrite E. Qed.
Lemma answers_attempt {A} t (m : rpc W A) a : answers t m a -> answers t (attempt m) (inl a).
Proof. intros Ha c Ht Hu. destruct (Ha c Ht Hu) as (c' & ? & ? & E). exists c'. by rewrite (attempt_Ok _ _ _ _ E). Qed.
Lemma answers_bind {A B} t (m : rpc W A) (f : A -> rpc W B) a b :
  answers t m a -> answers t (f a) b -> answers t (m ≫= f) b.
Proof.
  intros Ha Hb c Ht Hu. destruct (Ha c Ht Hu) as (c1 & Ht1 & Hu1 & E). rewrite (rpc_bind_Ok _ _ _ _ _ E). by apply Hb.
Qed.
Lemma answers_ret {A} t (a : A) : answers t (mret a : rpc W A) a.
Proof. intros c Ht Hu. by exists c. Qed.
Lemma answers_lift {A} t (r : res A) a : r = Ok a -> answers t (lift r : rpc W A) a.
Proof. intros -> c Ht Hu. by exists c. Qed.

Section Device.
Context (t : AMSAddress) (version : byte) (dts_blob sym_blob : bytes).
Hypothesis device : table_device t version dts_blob sym_blob.

Lemma answers_version : answers t GetSymbolVersion (Z_of_byte version).
Proof.
  eapply answers_bind; [apply answers_wrap, answers_Read; [apply (td_version _ _ _ _ device)|done]|]. by apply answers_lift.
Qed.
Lemma answers_info : exists info, answers t GetSymbolUploadInfo info /\
  DataTypeLength info = len dts_blob /\ SymbolLength info = len sym_blob.
Proof.
  destruct (td_info _ _ _ _ device) as (info & header & Hw & Hl & Hp & Hd & Hs). exists info. split; [|done].
  unfold GetSymbolUploadInfo. eapply answers_bind; [apply answers_attempt, answers_Read; done|].
  eapply answers_bind; [apply answers_ret|]. by apply answers_lift.
Qed.
Lemma small_tables : len dts_blob < 2 ^ 32 /\ len sym_blob < 2 ^ 32.
Proof. destruct (td_sizes _ _ _ _ device). unfold maxDownloadSize in *. lia. Qed.
Lemma answers_dts : answers t (DownloadDataTypes (len dts_blob)) dts_blob.
Proof. apply answers_wrap, answers_Read; [apply (td_dts _ _ _ _ device)|apply small_tables]. Qed.
Lemma answers_sym : answers t (DownloadSymbolList (len sym_blob)) sym_blob.
Proof. apply answers_wrap, answers_Read; [apply (td_sym _ _ _ _ device)|apply small_tables]. Qed.

Lemma answers_sleep d : uncancelled ctx_err d -> answers t (sleepCtx ctx_err d) tt.
Proof. intros Hd c Ht Hu. exists c. by rewrite sleepCtx_uncancelled. Qed.

Lemma answers_chunks group blob cfg fallback : serves t group blob -> len blob <= maxDownloadSize ->
  0 < ChunkSize cfg -> uncancelled ctx_err (ChunkDelay cfg) ->
  answers t (download_or_fallback ctx_err group (len blob) cfg fallback) blob.
Proof.
  intros Hs Hm Hc Hd. unfold download_or_fallback.
  eapply (answers_bind _ _ _ (inl (Some blob))); [|apply answers_ret].
  apply answers_attempt. intros c <- Hu. by apply download_serves.
Qed.

Lemma LoadSymbols_installs : refines t (LoadSymbols id zero_time) (install_tables (Z_of_byte version) dts_blob sym_blob).
Proof.
  destruct answers_info as (info & Hi & Hd & Hs).
  unfold LoadSymbols, install_tables. apply refines_requireClient, refines_running, refines_assoc.
  apply refines_version; [apply answers_version|].
  apply refines_assoc. apply refines_wrap_net with info; [done|]. rewrite Hd, Hs.
  apply refines_assoc. apply refines_wrap_net with dts_blob; [apply answers_dts|].
  apply refines_assoc, refines_lift. intros dts _.
  apply refines_assoc. apply refines_wrap_net with sym_blob; [apply answers_sym|].
  apply refines_assoc, refines_lift. intros syms _ s s0 Hc E. split; [done|].
  injection E. intros. unfold mbind, call_bind, modify, without_client. cbn. congruence.
Qed.

Lemma LoadSymbolsSlow_installs cfg : 0 <= ChunkSize cfg -> uncancelled ctx_err (ChunkDelay (applyDefaults cfg)) ->
  refines t (LoadSymbolsSlow id ctx_err cfg) (install_tables (Z_of_byte version) dts_blob sym_blob).
Proof.
  intros Hc Hu. destruct answers_info as (info & Hi & Hd & Hs). destruct (td_sizes _ _ _ _ device) as [Sd Ss].
  assert (0 < ChunkSize (applyDefaults cfg)).
  { unfold applyDefaults. cbn. destruct (ChunkSize cfg =? 0) eqn:E; zbool; lia. }
  unfold LoadSymbolsSlow, install_tables. apply refines_requireClient, refines_running. cbv zeta.
  apply refines_version; [apply answers_version|].
  apply refines_wrap_net with info; [done|]. rewrite Hd, Hs.
  apply refines_net with tt; [by apply answers_sleep|].
  apply refines_wrap_net with dts_blob; [apply answers_chunks; [apply (td_dts_pieces _ _ _ _ device)|done..]|].
  apply refines_lift. intros dts _.
  apply refines_net with tt; [by apply answers_sleep|].
  apply refines_wrap_net with sym_blob; [apply answers_chunks; [apply (td_sym_pieces _ _ _ _ device)|done..]|].
  apply refines_lift. intros syms _ s s0 Hcc E. split; [done|].
  injection E. intros. unfold modify, without_client. cbn. congruence.
Qed.
End Device.

(** C22. Against a device that serves its tables, whole or in pieces, the slow loader and
    the fast one return the same result and leave the same session, whatever the chunk
    size and however short the pieces come: both do what [install_tables] says. *)
Theorem slow_load_equals_load t version dts_blob sym_blob cfg s :
  table_device t version dts_blob sym_blob -> connected_to t s ->
  0 <= ChunkSize cfg -> uncancelled ctx_err (ChunkDelay (applyDefaults cfg)) ->
  (LoadSymbolsSlow id ctx_err cfg s).2 = (LoadSymbols id zero_time s).2 /\
  without_client (LoadSymbolsSlow id ctx_err cfg s).1 = without_client (LoadSymbols id zero_time s).1 /\
  (LoadSymbols id zero_time s).2 = (install_tables (Z_of_byte version) dts_blob sym_blob s).2 /\
  without_client (LoadSymbols id zero_time s).1
  = without_client (install_tables (Z_of_byte version) dts_blob sym_blob s).1.
Proof.
  intros Hd Hs Hc Hu.
  destruct (LoadSymbols_installs t version dts_blob sym_blob Hd s s Hs eq_refl) as [R1 S1].
  destruct (LoadSymbolsSlow_installs t version dts_blob sym_blob Hd cfg Hc Hu s s Hs eq_refl) as [R2 S2].
  by rewrite R1, R2, S1, S2.
Qed.
End Same.
