(* ===== verification/ReloadFacts.v ===== *)
(** Refreshing and reloading the table (Discovery.v): a refresh leaves no handle
    behind, and re-resolving after a reconnect keeps the record of what was asked
    for, whether or not it succeeds. *)
From S2P Require Import Prelude Wire Strconv Defs Fsm Ams Client SymbolTable SymbolTableFacts GoTime Utf Codec CodecSafety Policies Access AccessFacts Discovery DiscoveryFacts.

(** ** Loaded symbols have no handle *)

Definition no_handle (s : symbol) : Prop := sy_Handle (sy_data s) = 0.

Lemma addChildren_sources s m k x : addChildren s m !! k = Some x -> m !! k = Some x \/ x ∈ subtree s.
Proof.
  revert m. induction s as [d cs IH] using symbol_tree_ind. intros m. rewrite addChildren_eq, subtree_eq.
  revert m. induction cs as [|[n c] cs IHcs]; intros m Hx; cbn [add_list subtree_list] in *; [by left|].
  apply Forall_cons in IH as [IHc IH].
  destruct (IHcs IH _ Hx) as [Hm|Hs]; [|right; set_solver].
  destruct (m !! symbolKey (sy_FullName (sy_data c))) as [y|] eqn:Ey; [by left|].
  destruct (IHc _ Hm) as [Hi|Hs]; [|right; set_solver].
  apply lookup_insert_Some in Hi as [[_ <-]|[_ Hi]]; [right; set_solver|by left].
Qed.

Lemma addOffset_no_handle levels : forall dts parent group dt,
  Forall no_handle (subtree_list (addOffsetDepth levels dts parent group dt)).
Proof.
  induction levels as [|levels IH]; intros dts parent group dt; cbn [addOffsetDepth]; [constructor|].
  induction (dt_children dt) as [|[k seg] l IHl]; cbn; [constructor|].
  destruct (String.eqb (dt_name seg) ""); [done|]. cbn [subtree_list]. constructor; [done|]. apply Forall_app. split; [|done].
  rewrite subtree_eq. destruct (dts !! dt_type seg) as [dt'|]; [|constructor].
  destruct (isEnumDataType dt'); [constructor|apply IH].
Qed.

Lemma symbols_loop_no_handle dts : forall fuel data m syms, map_Forall (fun _ => no_handle) m ->
  symbols_loop fuel dts data m = Ok syms -> map_Forall (fun _ => no_handle) syms.
Proof.
  induction fuel as [|fuel IH]; intros [|b data] m syms Hm E; cbn [symbols_loop] in E.
  1,3: by injection E as <-.
  { done. }
  apply bind_Ok in E as ([item rest] & _ & E). eapply IH; [|exact E]. intros k x Hx.
  destruct (addChildren_sources _ _ _ _ Hx) as [Hi|Hs].
  - apply lookup_insert_Some in Hi as [[_ <-]|[_ Hi]]; [done|exact (Hm _ _ Hi)].
  - revert Hs. unfold addSymbol. rewrite subtree_eq. destruct (dts !! us_type item) as [dt|]; [|by intros ?%elem_of_nil].
    exact (proj1 (Forall_forall _ _) (addOffset_no_handle _ _ _ _ _) x).
Qed.

Lemma install_no_handle now first m : map_Forall (fun _ => no_handle) m ->
  map_Forall (fun _ e => sy_Handle (en_data e) = 0) (install_entries now first m).
Proof.
  intros Hm k e He. apply elem_of_list_to_map_2, list_elem_of_lookup in He as [i Hi].
  rewrite list_lookup_imap in Hi. destruct (map_to_list m !! i) as [[k' s]|] eqn:Es; [|done].
  cbn in Hi. injection Hi as <- <-. apply list_elem_of_lookup_2, elem_of_map_to_list in Es. exact (Hm _ _ Es).
Qed.

Section Reload.
Context {W : Type} `{Transport W} `{FloatText} `{JsonText}.
Context (interfere : session W -> session W) (ctx_err : W -> option goerr) (zero_time : Z).

Definition handles_clear (s : session W) : Prop := map_Forall (fun _ e => sy_Handle (en_data e) = 0) (ss_symbols s).

Lemma loadSymbols_no_handle s s' : loadSymbols interfere zero_time s = (s', Ok tt) -> handles_clear s'.
Proof.
  intros E. unfold loadSymbols in E. repeat step_call.
  unfold handles_clear. cbn. apply install_no_handle.
  match goal with P : wrap_err _ (parseUploadSymbolInfoSymbols ?b ?d) = Ok _ |- _ =>
    destruct (parseUploadSymbolInfoSymbols b d) as [m| |] eqn:Ep; [|done..]; cbn in P; injection P as <- end.
  eapply symbols_loop_no_handle; [|exact Ep]. apply map_Forall_empty.
Qed.

(** A refresh that found a new version and succeeded leaves no symbol with a handle,
    whatever other goroutines did meanwhile: handles come back one by one, as symbols
    are next used. *)
Theorem RefreshSymbols_acquires_no_handle s s' :
  (CheckSymbolVersion interfere s).2 = Ok true -> RefreshSymbols interfere zero_time s = (s', Ok tt) ->
  handles_clear s'.
Proof.
  intros Hc E. unfold RefreshSymbols in E. repeat step_call.
  match goal with R : requireClient ?s0 = (?x, _) |- _ =>
    assert (x = s0) as -> by (revert R; unfold requireClient; destruct (ss_client s0); congruence) end.
  match goal with C : CheckSymbolVersion _ _ = (_, Ok ?b) |- _ => rewrite C in Hc; injection Hc as -> end.
  cbn [negb] in E. repeat step_call. by eapply loadSymbols_no_handle.
Qed.

(** ** Re-resolving on-demand symbols *)

Definition resolved (name : string) (s : session W) : Prop := is_Some (ss_symbols s !! symbolKey name).

(** [s'] has every name [s] had, in the table and on record. *)
Definition grows (s s' : session W) : Prop :=
  (forall k, is_Some (ss_symbols s !! k) -> is_Some (ss_symbols s' !! k)) /\ ss_onDemand s ⊆ ss_onDemand s'.

#[local] Instance grows_refl : Reflexive grows.
Proof. by intros s. Qed.
#[local] Instance grows_trans : Transitive grows.
Proof. intros s1 s2 s3 [G1 G2] [G3 G4]. split; [auto|by etrans]. Qed.

Definition growing {A} (m : call W A) : Prop := forall s, grows s (m s).1.

Lemma growing_bind {A B} (m : call W A) (f : A -> call W B) : growing m -> (forall a, growing (f a)) -> growing (m ≫= f).
Proof.
  intros Hm Hf s. specialize (Hm s). unfold mbind, call_bind. destruct (m s) as [s1 [a|e|]]; [|done..].
  etrans; [exact Hm|apply Hf].
Qed.
Lemma growing_ret {A} (a : A) : growing (mret a).
Proof. by intros s. Qed.
Lemma growing_lift {A} (r : res A) : growing (lift_call r).
Proof. by intros s. Qed.
Lemma growing_try {A} (m : call W A) : growing m -> growing (try_call m).
Proof. intros Hm s. specialize (Hm s). unfold try_call. by destruct (m s) as [s1 [a|e|]]. Qed.
Lemma growing_wrap {A} msg (m : call W A) : growing m -> growing (wrap_call msg m).
Proof. intros Hm s. specialize (Hm s). unfold wrap_call. by destruct (m s). Qed.
Lemma growing_requireClient : growing (requireClient (W := W)).
Proof. intros s. unfold requireClient. by destruct (ss_client s). Qed.
Lemma growing_get : growing (get_session (W := W)).
Proof. by intros s. Qed.
Lemma growing_modify f : (forall s, grows s (f s)) -> growing (modify (W := W) f).
Proof. intros Hf s. apply Hf. Qed.

(** Other goroutines may resolve symbols meanwhile, not drop them. *)
Hypothesis interfere_grows : forall s, grows s (interfere s).

Lemma growing_net {A} (m : rpc W A) : growing (net interfere m).
Proof. intros s. unfold net. destruct (ss_client s) as [c|]; [|done]. destruct (m c). apply (interfere_grows (set_client _ s)). Qed.
Lemma growing_release h : growing (release_handle interfere h).
Proof. apply growing_bind; [apply growing_try, growing_net|intros ?; apply growing_ret]. Qed.

Lemma grows_insert key e (s : session W) n extra :
  grows s (set_table (<[key := e]> (ss_symbols s)) (extra ∪ ss_onDemand s) n s).
Proof.
  split; [|cbn; set_solver]. intros k Hk. cbn. destruct (decide (key = k)) as [->|]; [rewrite lookup_insert_eq; by eexists|].
  by rewrite lookup_insert_ne.
Qed.

Lemma growing_getSymbol name : growing (getSymbol interfere name).
Proof.
  unfold getSymbol. apply growing_bind; [apply growing_get|]. intros s0. cbv zeta.
  destruct (ss_symbols s0 !! symbolKey name) as [e|].
  - destruct (negb _); [apply growing_ret|].
    apply growing_bind; [apply growing_requireClient|]. intros _.
    apply growing_bind; [apply growing_net|]. intros h.
    apply growing_bind; [apply growing_get|]. intros s1.
    destruct (ss_symbols s1 !! symbolKey name) as [cur|].
    + destruct (negb (en_id cur =? en_id e)); [apply growing_bind; [apply growing_release|intros; apply growing_lift]|].
      destruct (negb _); [apply growing_bind; [apply growing_release|intros; apply growing_ret]|].
      apply growing_bind; [|intros; apply growing_ret]. apply growing_modify. intros s.
      pose proof (grows_insert (symbolKey name) (map_entry (with_handle h) cur) s (ss_nextId s) ∅) as Hg.
      by rewrite union_empty_l_L in Hg.
    + apply growing_bind; [apply growing_release|intros; apply growing_lift].
  - apply growing_bind; [apply growing_requireClient|]. intros _.
    apply growing_bind; [apply growing_wrap, growing_net|]. intros info.
    apply growing_bind; [apply growing_get|]. intros asked.
    apply growing_bind; [apply growing_wrap, growing_net|]. intros h.
    apply growing_bind; [apply growing_get|]. intros s1.
    destruct (ss_symbols s1 !! symbolKey name) as [ex|].
    + apply growing_bind; [apply growing_release|intros; apply growing_ret].
    + apply growing_bind; [|intros; apply growing_ret]. apply growing_modify. intros s. apply grows_insert.
Qed.

Lemma release_Ok h s s' : release_handle interfere h s = (s', Ok tt) -> grows s s'.
Proof. intros E. pose proof (growing_release h s) as Hg. by rewrite E in Hg. Qed.

Lemma getSymbol_resolves name s s' e : getSymbol interfere name s = (s', Ok e) -> resolved name s'.
Proof.
  intros E. unfold getSymbol in E. repeat step_call. cbv zeta in E.
  match goal with E : match ss_symbols ?x !! _ with _ => _ end _ = _ |- _ =>
    destruct (ss_symbols x !! symbolKey name) as [e0|] eqn:E0 end.
  - destruct (negb _); [step_call; unfold resolved; rewrite E0; by eexists|]. repeat step_call.
    match goal with E : match ss_symbols ?x !! _ with _ => _ end _ = _ |- _ =>
      destruct (ss_symbols x !! symbolKey name) as [cur|] eqn:E1 end; [|repeat step_call].
    destruct (negb (en_id cur =? en_id e0)); [repeat step_call|].
    destruct (negb _).
    + repeat step_call. match goal with R : release_handle _ _ _ = (_, Ok ?u) |- _ => destruct u; apply release_Ok in R as [HR _] end.
      apply HR. rewrite E1. by eexists.
    + repeat step_call. unfold resolved. cbn. rewrite lookup_insert_eq. by eexists.
  - repeat step_call.
    match goal with E : match ss_symbols ?x !! _ with _ => _ end _ = _ |- _ =>
      destruct (ss_symbols x !! symbolKey name) as [ex|] eqn:E1 end.
    + repeat step_call. match goal with R : release_handle _ _ _ = (_, Ok ?u) |- _ => destruct u; apply release_Ok in R as [HR _] end.
      apply HR. rewrite E1. by eexists.
    + repeat step_call. unfold resolved. cbn. rewrite lookup_insert_eq. by eexists.
Qed.

Context (strictReconnect : bool).

Lemma growing_reresolve names : growing (reresolve interfere strictReconnect names).
Proof.
  induction names as [|n names IH]; cbn [reresolve]; [apply growing_ret|].
  apply growing_bind; [apply growing_try, growing_getSymbol|]. intros [e|err]; [done|].
  destruct strictReconnect; [|done]. apply growing_bind; [|intros; apply growing_lift].
  apply growing_modify. intros s. by split.
Qed.

Lemma strict_reresolve names s s' : strictReconnect = true ->
  reresolve interfere strictReconnect names s = (s', Ok tt) -> forall name, name ∈ names -> resolved name s'.
Proof.
  intros Hst. revert s. induction names as [|n names IH]; intros s E name Hn; [by apply elem_of_nil in Hn|].
  cbn [reresolve] in E. step_call.
  - step_call. pose proof (growing_reresolve names x) as Hg. rewrite E in Hg. destruct Hg as [Hg _].
    apply elem_of_cons in Hn as [->|Hn]; [|by eapply IH].
    apply Hg. by eapply getSymbol_resolves.
  - rewrite Hst in E. repeat step_call.
Qed.

Lemma lax_reresolve names s e s' : strictReconnect = false ->
  reresolve interfere strictReconnect names s <> (s', Err e).
Proof.
  intros Hst. revert s. induction names as [|n names IH]; intros s; cbn [reresolve]; [done|].
  unfold mbind, call_bind, try_call. destruct (getSymbol interfere n s) as [s1 [a|err|]]; [apply IH| |done].
  specialize (IH s1). by rewrite Hst in *.
Qed.

(** A reconnect of a session that only ever resolved symbols on demand: whatever
    happens, every name asked for stays on record for the next attempt; in strict
    mode success means each of them is back in the table; without it a symbol that is
    gone is skipped, never an error. *)
Theorem on_demand_reload s s' r :
  ss_fullyLoaded s = false -> ss_listLoaded s = false -> ss_datatypesLoaded s = false -> ss_onDemand s <> ∅ ->
  reloadSymbols interfere ctx_err zero_time strictReconnect s = (s', r) ->
  ss_onDemand s ⊆ ss_onDemand s' /\
  (r = Ok tt -> strictReconnect = true -> forall name, name ∈ ss_onDemand s -> resolved name s') /\
  (strictReconnect = false -> forall e, r <> Err e).
Proof.
  intros Hf Hl Hd Ho E. unfold reloadSymbols, mbind, call_bind, get_session in E. rewrite Hf, Hl, Hd in E. cbn [orb] in E.
  rewrite bool_decide_eq_false_2 in E by done. cbn [negb] in E. unfold modify in E.
  set (s1 := bump_epoch _) in E. pose proof (growing_reresolve (elements (ss_onDemand s)) s1) as [_ Hg]. rewrite E in Hg.
  split_and!; [exact Hg| |].
  - intros -> Hst name Hn. eapply strict_reresolve; [done|exact E|]. by apply elem_of_elements.
  - intros Hst e ->. by apply lax_reresolve in E.
Qed.
End Reload.
