(* ===== verification/DiscoveryWitness.v ===== *)
(** Concrete devices for the theorems on discovery and reloading. *)
From S2P Require Import Prelude Wire Strconv Defs Fsm Ams Client SymbolTable SymbolTableFacts GoTime Utf Codec CodecSafety Policies Access AccessFacts Discovery DiscoveryFacts ReloadFacts.
#[local] Existing Instance bits_text.
#[local] Existing Instance empty_json.

(** A device with one symbol, that sends at most seven bytes of a piece of its table. *)
Definition demo_table : bytes := encode_symbol sample_symbol.
Definition demo_header : bytes := put_u32 1 ++ put_u32 (len demo_table) ++ put_u32 0 ++ put_u32 0.

Definition demo_answer (group offset n : Z) : bytes :=
  if group =? GroupSymbolVersion then [Byte.x07]
  else if group =? GroupSymbolUploadInfo2 then demo_header
  else if group =? GroupSymbolUpload then
    take (Z.to_nat (if n =? len demo_table then n else Z.min n 7)) (drop (Z.to_nat offset) demo_table)
  else [].

#[local] Instance table_plc : Transport () := fun _ cmd data w =>
  (w, if cmd =? CommandIDRead
      then Ok (read_reply 0 (demo_answer (le_get (take 4 data)) (le_get (take 4 (drop 4 data))) (le_get (drop 8 data))))
      else if cmd =? CommandIDWrite then Ok (put_u32 0)
      else if le_get (take 4 data) =? GroupSymbolInfoByNameEx then Ok (read_reply 0 demo_table)
      else Ok (read_reply 0 (put_u32 9))).

Lemma table_plc_reads t group offset n : in_u 32 group -> in_u 32 offset -> in_u 32 n -> forall w,
  (sendRequestTo_tx t CommandIDRead (read_packet group offset n) w).2 = Ok (read_reply 0 (demo_answer group offset n)).
Proof.
  intros Hg Ho Hn w. unfold sendRequestTo_tx, table_plc. cbn [snd]. change (CommandIDRead =? CommandIDRead) with true.
  cbn iota. unfold read_packet.
  assert (Hlen : forall z, length (put_u32 z) = 4%nat) by (intros z; apply (length_le_put 4)).
  assert (Hget : forall z, in_u 32 z -> le_get (put_u32 z) = z) by (intros z Hz; by apply (le_get_put_small 4)).
  rewrite take_app_len by apply Hlen. rewrite (drop_app_len 4), take_app_len by apply Hlen.
  change 8%nat with (4 + 4)%nat. rewrite <- drop_drop, !drop_app_len by apply Hlen. by rewrite !Hget.
Qed.

Lemma table_plc_serves t : serves t GroupSymbolUpload demo_table.
Proof.
  intros w offset n Ho Hn Hl. change (len demo_table) with 59 in *.
  exists (if n =? 59 then n else Z.min n 7). split; [destruct (n =? 59) eqn:E; zbool; lia|].
  by rewrite table_plc_reads by (unfold in_u, GroupSymbolUpload; lia).
Qed.

Lemma demo_device t : table_device t Byte.x07 [] demo_table.
Proof.
  split.
  - intros w. by rewrite table_plc_reads.
  - exists {| SymbolCount := 1; SymbolLength := 59; DataTypeCount := 0; DataTypeLength := 0; ExtraCount := 0; ExtraLength := 0 |},
      demo_header. split_and!; [intros w; by rewrite table_plc_reads|done..].
  - intros w. by rewrite table_plc_reads.
  - intros w. by rewrite table_plc_reads.
  - intros w offset n Ho Hn Hl. change (len (@nil byte)) with 0 in Hl. lia.
  - apply table_plc_serves.
  - done.
Qed.

Definition table_client : client () :=
  {| cl_target := {| NetID := replicate 6 Byte.x01; Port := 851 |}; cl_caps := fresh_capabilities; cl_tx := tt |}.
Definition table_session : session () :=
  Build_session (Some table_client) ∅ {["main.pos"%string]} ∅ false false false 0 (0, 0) 0 1 1000 2 [].

Definition quick : SlowDiscoveryConfig := {| ChunkSize := 16; ChunkDelay := 1 |}.

Lemma slow_load_equals_load_witness :
  let s := table_session in
  (LoadSymbolsSlow id (fun _ => None) quick s).2 = (LoadSymbols id 0 s).2 /\
  without_client (LoadSymbolsSlow id (fun _ => None) quick s).1 = without_client (LoadSymbols id 0 s).1 /\
  (LoadSymbols id 0 s).2 = (install_tables 7 [] demo_table s).2 /\
  without_client (LoadSymbols id 0 s).1 = without_client (install_tables 7 [] demo_table s).1.
Proof.
  apply (slow_load_equals_load (fun _ => None) 0 (cl_target table_client) Byte.x07 [] demo_table quick table_session).
  - apply demo_device.
  - split; [by exists table_client|done].
  - done.
  - by right.
Defined.

(** That load succeeds, and knows the symbol. *)
Example slow_load_knows_symbol :
  (LoadSymbolsSlow id (fun _ => None) quick table_session).2 = Ok tt /\
  map_size (ss_symbols (LoadSymbolsSlow id (fun _ => None) quick table_session).1) = 1%nat.
Proof. by vm_compute. Qed.

Definition config_session : session () :=
  Build_session (Some table_client) ∅ ∅ ∅ false false false 0 (ADSStateConfig, 0) 0 1 1000 2 [].

Lemma failed_load_keeps_table_witness : exists s' e, same_table config_session s' /\ LoadSymbols id 0 config_session = (s', Err e).
Proof.
  exists config_session. eexists. split; [|vm_compute; reflexivity].
  eapply (failed_load_keeps_table (fun _ => None) 0 quick (LoadSymbols id 0) config_session config_session).
  - apply list_elem_of_here.
  - vm_compute. reflexivity.
Defined.

Lemma RefreshSymbols_acquires_no_handle_witness :
  handles_clear (RefreshSymbols id 0 table_session).1.
Proof.
  apply (RefreshSymbols_acquires_no_handle id 0 table_session); [by vm_compute|vm_compute; reflexivity].
Defined.

Lemma on_demand_reload_witness :
  resolved "main.pos" (reloadSymbols id (fun _ => None) 0 true table_session).1.
Proof.
  apply (on_demand_reload id (fun _ => None) 0 (fun s => conj (fun _ H => H) (reflexivity _)) true table_session
           (reloadSymbols id (fun _ => None) 0 true table_session).1 (Ok tt));
    [done|done|done|by vm_compute|vm_compute; reflexivity|done|done|set_solver].
Defined.

Lemma demo_answer_short group offset n : len (demo_answer group offset n) <= 59.
Proof.
  unfold demo_answer. destruct (group =? _); [vm_compute; congruence|]. destruct (group =? _); [vm_compute; congruence|].
  destruct (group =? _); [|vm_compute; congruence]. rewrite len_take, len_drop. change (len demo_table) with 59. lia.
Qed.

Lemma table_plc_bounded : replies_bounded (W := ()).
Proof.
  intros t cmd d w. unfold sendRequestTo_tx, table_plc. cbn [snd]. destruct (cmd =? CommandIDRead);
    [|destruct (cmd =? CommandIDWrite); [vm_compute; reflexivity|destruct (_ =? _); vm_compute; reflexivity]].
  pose proof (demo_answer_short (le_get (take 4 d)) (le_get (take 4 (drop 4 d))) (le_get (drop 8 d))).
  unfold read_reply. rewrite !len_app, !len_le_put. lia.
Qed.

Lemma DownloadInChunks_ends_witness :
  download_verdict 59 (DownloadInChunks (fun _ => None) GroupSymbolUpload 59 16 1 table_client).2.
Proof.
  apply (DownloadInChunks_ends (fun _ => None)); [apply table_plc_bounded|done].
Defined.
