(* ===== verification/LifeState.v ===== *)
(** The state of a session's lifecycle (session.go: [sessionLifecycle], the fields of
    [Session], [transport] and [routeManager] that Connect, Reconnect and Close use),
    with one setter per field. *)
From S2P Require Import Prelude Wire Ams Fsm Route.

(** What a session knows of the [Client] it published: the socket it reads, whether a
    drop calls [triggerReconnect], the nesting of handshake regions, whether it was
    marked dropped, whether a frame ever came in, and the context it was given. *)
Record link : Type := {
  lk_sock : Z; lk_armed : bool; lk_handshaking : Z; lk_dropped : bool; lk_established : bool; lk_ctx : Z }.

(** [lf_world] is the rest of the world.  [lf_open] are the sockets not closed yet,
    [lf_conn] the one in [tx.connection].  [lf_ctx] numbers the lifecycle contexts,
    [lf_cancelled] says whether the current one is cancelled.  [lf_reconnectDone] says
    that the channel of that name exists.  [lf_spawned], [lf_onDisconnectCalls] and
    [lf_onReconnectCalls] count the goroutines started for [Reconnect] and for the two
    callbacks, [lf_dials] the dials of the reconnect loop; [lf_deletes] records the
    notification handles whose deletion was attempted. *)
Record life (W : Type) : Type := {
  lf_world : W; lf_fsm : sessionFSM; lf_connectedGen : Z; lf_closedCh : bool; lf_shutdown : bool;
  lf_reconnectDone : bool; lf_owner : bool; lf_connecting : bool; lf_disconnected : bool; lf_conn : option Z;
  lf_open : gset Z; lf_nextSock : Z; lf_ctx : Z; lf_cancelled : bool; lf_client : option link;
  lf_flapCount : Z; lf_lastConnected : option Z; lf_dials : Z; lf_route : routeManager; lf_listener : bool;
  lf_peerStopped : bool; lf_peerAdopted : Z; lf_peerKnown : bool; lf_target : AMSAddress;
  lf_source : AMSAddress; lf_handles : list Z; lf_deletes : list Z; lf_symHandles : list Z; lf_version : Z;
  lf_runtime : Z * Z; lf_strictFailures : Z; lf_spawned : Z; lf_onDisconnectCalls : Z; lf_onReconnectCalls : Z;
  lf_watching : bool }.
Arguments Build_life {W}.
Arguments lf_world {W}. Arguments lf_fsm {W}. Arguments lf_connectedGen {W}. Arguments lf_closedCh {W}.
Arguments lf_shutdown {W}. Arguments lf_reconnectDone {W}. Arguments lf_owner {W}. Arguments lf_connecting {W}.
Arguments lf_disconnected {W}. Arguments lf_conn {W}. Arguments lf_open {W}. Arguments lf_nextSock {W}.
Arguments lf_ctx {W}. Arguments lf_cancelled {W}. Arguments lf_client {W}. Arguments lf_flapCount {W}.
Arguments lf_lastConnected {W}. Arguments lf_dials {W}. Arguments lf_route {W}. Arguments lf_listener {W}.
Arguments lf_peerStopped {W}. Arguments lf_peerAdopted {W}. Arguments lf_peerKnown {W}.
Arguments lf_target {W}. Arguments lf_source {W}. Arguments lf_handles {W}. Arguments lf_deletes {W}.
Arguments lf_symHandles {W}. Arguments lf_version {W}. Arguments lf_runtime {W}.
Arguments lf_strictFailures {W}. Arguments lf_spawned {W}. Arguments lf_onDisconnectCalls {W}.
Arguments lf_onReconnectCalls {W}. Arguments lf_watching {W}.

Definition set_world {W} (x : W) (s : life W) : life W :=
  Build_life x (lf_fsm s) (lf_connectedGen s) (lf_closedCh s) (lf_shutdown s) (lf_reconnectDone s) (lf_owner s)
    (lf_connecting s) (lf_disconnected s) (lf_conn s) (lf_open s) (lf_nextSock s) (lf_ctx s) (lf_cancelled s)
    (lf_client s) (lf_flapCount s) (lf_lastConnected s) (lf_dials s) (lf_route s) (lf_listener s)
    (lf_peerStopped s) (lf_peerAdopted s) (lf_peerKnown s) (lf_target s) (lf_source s) (lf_handles s)
    (lf_deletes s) (lf_symHandles s) (lf_version s) (lf_runtime s) (lf_strictFailures s) (lf_spawned s)
    (lf_onDisconnectCalls s) (lf_onReconnectCalls s) (lf_watching s).
Definition set_fsm {W} (x : sessionFSM) (s : life W) : life W :=
  Build_life (lf_world s) x (lf_connectedGen s) (lf_closedCh s) (lf_shutdown s) (lf_reconnectDone s) (lf_owner s)
    (lf_connecting s) (lf_disconnected s) (lf_conn s) (lf_open s) (lf_nextSock s) (lf_ctx s) (lf_cancelled s)
    (lf_client s) (lf_flapCount s) (lf_lastConnected s) (lf_dials s) (lf_route s) (lf_listener s)
    (lf_peerStopped s) (lf_peerAdopted s) (lf_peerKnown s) (lf_target s) (lf_source s) (lf_handles s)
    (lf_deletes s) (lf_symHandles s) (lf_version s) (lf_runtime s) (lf_strictFailures s) (lf_spawned s)
    (lf_onDisconnectCalls s) (lf_onReconnectCalls s) (lf_watching s).
Definition set_connectedGen {W} (x : Z) (s : life W) : life W :=
  Build_life (lf_world s) (lf_fsm s) x (lf_closedCh s) (lf_shutdown s) (lf_reconnectDone s) (lf_owner s)
    (lf_connecting s) (lf_disconnected s) (lf_conn s) (lf_open s) (lf_nextSock s) (lf_ctx s) (lf_cancelled s)
    (lf_client s) (lf_flapCount s) (lf_lastConnected s) (lf_dials s) (lf_route s) (lf_listener s)
    (lf_peerStopped s) (lf_peerAdopted s) (lf_peerKnown s) (lf_target s) (lf_source s) (lf_handles s)
    (lf_deletes s) (lf_symHandles s) (lf_version s) (lf_runtime s) (lf_strictFailures s) (lf_spawned s)
    (lf_onDisconnectCalls s) (lf_onReconnectCalls s) (lf_watching s).
Definition set_closedCh {W} (x : bool) (s : life W) : life W :=
  Build_life (lf_world s) (lf_fsm s) (lf_connectedGen s) x (lf_shutdown s) (lf_reconnectDone s) (lf_owner s)
    (lf_connecting s) (lf_disconnected s) (lf_conn s) (lf_open s) (lf_nextSock s) (lf_ctx s) (lf_cancelled s)
    (lf_client s) (lf_flapCount s) (lf_lastConnected s) (lf_dials s) (lf_route s) (lf_listener s)
    (lf_peerStopped s) (lf_peerAdopted s) (lf_peerKnown s) (lf_target s) (lf_source s) (lf_handles s)
    (lf_deletes s) (lf_symHandles s) (lf_version s) (lf_runtime s) (lf_strictFailures s) (lf_spawned s)
    (lf_onDisconnectCalls s) (lf_onReconnectCalls s) (lf_watching s).
Definition set_shutdown {W} (x : bool) (s : life W) : life W :=
  Build_life (lf_world s) (lf_fsm s) (lf_connectedGen s) (lf_closedCh s) x (lf_reconnectDone s) (lf_owner s)
    (lf_connecting s) (lf_disconnected s) (lf_conn s) (lf_open s) (lf_nextSock s) (lf_ctx s) (lf_cancelled s)
    (lf_client s) (lf_flapCount s) (lf_lastConnected s) (lf_dials s) (lf_route s) (lf_listener s)
    (lf_peerStopped s) (lf_peerAdopted s) (lf_peerKnown s) (lf_target s) (lf_source s) (lf_handles s)
    (lf_deletes s) (lf_symHandles s) (lf_version s) (lf_runtime s) (lf_strictFailures s) (lf_spawned s)
    (lf_onDisconnectCalls s) (lf_onReconnectCalls s) (lf_watching s).
Definition set_reconnectDone {W} (x : bool) (s : life W) : life W :=
  Build_life (lf_world s) (lf_fsm s) (lf_connectedGen s) (lf_closedCh s) (lf_shutdown s) x (lf_owner s)
    (lf_connecting s) (lf_disconnected s) (lf_conn s) (lf_open s) (lf_nextSock s) (lf_ctx s) (lf_cancelled s)
    (lf_client s) (lf_flapCount s) (lf_lastConnected s) (lf_dials s) (lf_route s) (lf_listener s)
    (lf_peerStopped s) (lf_peerAdopted s) (lf_peerKnown s) (lf_target s) (lf_source s) (lf_handles s)
    (lf_deletes s) (lf_symHandles s) (lf_version s) (lf_runtime s) (lf_strictFailures s) (lf_spawned s)
    (lf_onDisconnectCalls s) (lf_onReconnectCalls s) (lf_watching s).
Definition set_owner {W} (x : bool) (s : life W) : life W :=
  Build_life (lf_world s) (lf_fsm s) (lf_connectedGen s) (lf_closedCh s) (lf_shutdown s) (lf_reconnectDone s) x
    (lf_connecting s) (lf_disconnected s) (lf_conn s) (lf_open s) (lf_nextSock s) (lf_ctx s) (lf_cancelled s)
    (lf_client s) (lf_flapCount s) (lf_lastConnected s) (lf_dials s) (lf_route s) (lf_listener s)
    (lf_peerStopped s) (lf_peerAdopted s) (lf_peerKnown s) (lf_target s) (lf_source s) (lf_handles s)
    (lf_deletes s) (lf_symHandles s) (lf_version s) (lf_runtime s) (lf_strictFailures s) (lf_spawned s)
    (lf_onDisconnectCalls s) (lf_onReconnectCalls s) (lf_watching s).
Definition set_connecting {W} (x : bool) (s : life W) : life W :=
  Build_life (lf_world s) (lf_fsm s) (lf_connectedGen s) (lf_closedCh s) (lf_shutdown s) (lf_reconnectDone s)
    (lf_owner s) x (lf_disconnected s) (lf_conn s) (lf_open s) (lf_nextSock s) (lf_ctx s) (lf_cancelled s)
    (lf_client s) (lf_flapCount s) (lf_lastConnected s) (lf_dials s) (lf_route s) (lf_listener s)
    (lf_peerStopped s) (lf_peerAdopted s) (lf_peerKnown s) (lf_target s) (lf_source s) (lf_handles s)
    (lf_deletes s) (lf_symHandles s) (lf_version s) (lf_runtime s) (lf_strictFailures s) (lf_spawned s)
    (lf_onDisconnectCalls s) (lf_onReconnectCalls s) (lf_watching s).
Definition set_disconnected {W} (x : bool) (s : life W) : life W :=
  Build_life (lf_world s) (lf_fsm s) (lf_connectedGen s) (lf_closedCh s) (lf_shutdown s) (lf_reconnectDone s)
    (lf_owner s) (lf_connecting s) x (lf_conn s) (lf_open s) (lf_nextSock s) (lf_ctx s) (lf_cancelled s)
    (lf_client s) (lf_flapCount s) (lf_lastConnected s) (lf_dials s) (lf_route s) (lf_listener s)
    (lf_peerStopped s) (lf_peerAdopted s) (lf_peerKnown s) (lf_target s) (lf_source s) (lf_handles s)
    (lf_deletes s) (lf_symHandles s) (lf_version s) (lf_runtime s) (lf_strictFailures s) (lf_spawned s)
    (lf_onDisconnectCalls s) (lf_onReconnectCalls s) (lf_watching s).
Definition set_conn {W} (x : option Z) (s : life W) : life W :=
  Build_life (lf_world s) (lf_fsm s) (lf_connectedGen s) (lf_closedCh s) (lf_shutdown s) (lf_reconnectDone s)
    (lf_owner s) (lf_connecting s) (lf_disconnected s) x (lf_open s) (lf_nextSock s) (lf_ctx s) (lf_cancelled s)
    (lf_client s) (lf_flapCount s) (lf_lastConnected s) (lf_dials s) (lf_route s) (lf_listener s)
    (lf_peerStopped s) (lf_peerAdopted s) (lf_peerKnown s) (lf_target s) (lf_source s) (lf_handles s)
    (lf_deletes s) (lf_symHandles s) (lf_version s) (lf_runtime s) (lf_strictFailures s) (lf_spawned s)
    (lf_onDisconnectCalls s) (lf_onReconnectCalls s) (lf_watching s).
Definition set_open {W} (x : gset Z) (s : life W) : life W :=
  Build_life (lf_world s) (lf_fsm s) (lf_connectedGen s) (lf_closedCh s) (lf_shutdown s) (lf_reconnectDone s)
    (lf_owner s) (lf_connecting s) (lf_disconnected s) (lf_conn s) x (lf_nextSock s) (lf_ctx s) (lf_cancelled s)
    (lf_client s) (lf_flapCount s) (lf_lastConnected s) (lf_dials s) (lf_route s) (lf_listener s)
    (lf_peerStopped s) (lf_peerAdopted s) (lf_peerKnown s) (lf_target s) (lf_source s) (lf_handles s)
    (lf_deletes s) (lf_symHandles s) (lf_version s) (lf_runtime s) (lf_strictFailures s) (lf_spawned s)
    (lf_onDisconnectCalls s) (lf_onReconnectCalls s) (lf_watching s).
Definition set_nextSock {W} (x : Z) (s : life W) : life W :=
  Build_life (lf_world s) (lf_fsm s) (lf_connectedGen s) (lf_closedCh s) (lf_shutdown s) (lf_reconnectDone s)
    (lf_owner s) (lf_connecting s) (lf_disconnected s) (lf_conn s) (lf_open s) x (lf_ctx s) (lf_cancelled s)
    (lf_client s) (lf_flapCount s) (lf_lastConnected s) (lf_dials s) (lf_route s) (lf_listener s)
    (lf_peerStopped s) (lf_peerAdopted s) (lf_peerKnown s) (lf_target s) (lf_source s) (lf_handles s)
    (lf_deletes s) (lf_symHandles s) (lf_version s) (lf_runtime s) (lf_strictFailures s) (lf_spawned s)
    (lf_onDisconnectCalls s) (lf_onReconnectCalls s) (lf_watching s).
Definition set_ctx {W} (x : Z) (s : life W) : life W :=
  Build_life (lf_world s) (lf_fsm s) (lf_connectedGen s) (lf_closedCh s) (lf_shutdown s) (lf_reconnectDone s)
    (lf_owner s) (lf_connecting s) (lf_disconnected s) (lf_conn s) (lf_open s) (lf_nextSock s) x (lf_cancelled s)
    (lf_client s) (lf_flapCount s) (lf_lastConnected s) (lf_dials s) (lf_route s) (lf_listener s)
    (lf_peerStopped s) (lf_peerAdopted s) (lf_peerKnown s) (lf_target s) (lf_source s) (lf_handles s)
    (lf_deletes s) (lf_symHandles s) (lf_version s) (lf_runtime s) (lf_strictFailures s) (lf_spawned s)
    (lf_onDisconnectCalls s) (lf_onReconnectCalls s) (lf_watching s).
Definition set_cancelled {W} (x : bool) (s : life W) : life W :=
  Build_life (lf_world s) (lf_fsm s) (lf_connectedGen s) (lf_closedCh s) (lf_shutdown s) (lf_reconnectDone s)
    (lf_owner s) (lf_connecting s) (lf_disconnected s) (lf_conn s) (lf_open s) (lf_nextSock s) (lf_ctx s) x
    (lf_client s) (lf_flapCount s) (lf_lastConnected s) (lf_dials s) (lf_route s) (lf_listener s)
    (lf_peerStopped s) (lf_peerAdopted s) (lf_peerKnown s) (lf_target s) (lf_source s) (lf_handles s)
    (lf_deletes s) (lf_symHandles s) (lf_version s) (lf_runtime s) (lf_strictFailures s) (lf_spawned s)
    (lf_onDisconnectCalls s) (lf_onReconnectCalls s) (lf_watching s).
Definition set_client {W} (x : option link) (s : life W) : life W :=
  Build_life (lf_world s) (lf_fsm s) (lf_connectedGen s) (lf_closedCh s) (lf_shutdown s) (lf_reconnectDone s)
    (lf_owner s) (lf_connecting s) (lf_disconnected s) (lf_conn s) (lf_open s) (lf_nextSock s) (lf_ctx s)
    (lf_cancelled s) x (lf_flapCount s) (lf_lastConnected s) (lf_dials s) (lf_route s) (lf_listener s)
    (lf_peerStopped s) (lf_peerAdopted s) (lf_peerKnown s) (lf_target s) (lf_source s) (lf_handles s)
    (lf_deletes s) (lf_symHandles s) (lf_version s) (lf_runtime s) (lf_strictFailures s) (lf_spawned s)
    (lf_onDisconnectCalls s) (lf_onReconnectCalls s) (lf_watching s).
Definition set_flapCount {W} (x : Z) (s : life W) : life W :=
  Build_life (lf_world s) (lf_fsm s) (lf_connectedGen s) (lf_closedCh s) (lf_shutdown s) (lf_reconnectDone s)
    (lf_owner s) (lf_connecting s) (lf_disconnected s) (lf_conn s) (lf_open s) (lf_nextSock s) (lf_ctx s)
    (lf_cancelled s) (lf_client s) x (lf_lastConnected s) (lf_dials s) (lf_route s) (lf_listener s)
    (lf_peerStopped s) (lf_peerAdopted s) (lf_peerKnown s) (lf_target s) (lf_source s) (lf_handles s)
    (lf_deletes s) (lf_symHandles s) (lf_version s) (lf_runtime s) (lf_strictFailures s) (lf_spawned s)
    (lf_onDisconnectCalls s) (lf_onReconnectCalls s) (lf_watching s).
Definition set_lastConnected {W} (x : option Z) (s : life W) : life W :=
  Build_life (lf_world s) (lf_fsm s) (lf_connectedGen s) (lf_closedCh s) (lf_shutdown s) (lf_reconnectDone s)
    (lf_owner s) (lf_connecting s) (lf_disconnected s) (lf_conn s) (lf_open s) (lf_nextSock s) (lf_ctx s)
    (lf_cancelled s) (lf_client s) (lf_flapCount s) x (lf_dials s) (lf_route s) (lf_listener s) (lf_peerStopped s)
    (lf_peerAdopted s) (lf_peerKnown s) (lf_target s) (lf_source s) (lf_handles s) (lf_deletes s)
    (lf_symHandles s) (lf_version s) (lf_runtime s) (lf_strictFailures s) (lf_spawned s) (lf_onDisconnectCalls s)
    (lf_onReconnectCalls s) (lf_watching s).
Definition set_dials {W} (x : Z) (s : life W) : life W :=
  Build_life (lf_world s) (lf_fsm s) (lf_connectedGen s) (lf_closedCh s) (lf_shutdown s) (lf_reconnectDone s)
    (lf_owner s) (lf_connecting s) (lf_disconnected s) (lf_conn s) (lf_open s) (lf_nextSock s) (lf_ctx s)
    (lf_cancelled s) (lf_client s) (lf_flapCount s) (lf_lastConnected s) x (lf_route s) (lf_listener s)
    (lf_peerStopped s) (lf_peerAdopted s) (lf_peerKnown s) (lf_target s) (lf_source s) (lf_handles s)
    (lf_deletes s) (lf_symHandles s) (lf_version s) (lf_runtime s) (lf_strictFailures s) (lf_spawned s)
    (lf_onDisconnectCalls s) (lf_onReconnectCalls s) (lf_watching s).
Definition set_route {W} (x : routeManager) (s : life W) : life W :=
  Build_life (lf_world s) (lf_fsm s) (lf_connectedGen s) (lf_closedCh s) (lf_shutdown s) (lf_reconnectDone s)
    (lf_owner s) (lf_connecting s) (lf_disconnected s) (lf_conn s) (lf_open s) (lf_nextSock s) (lf_ctx s)
    (lf_cancelled s) (lf_client s) (lf_flapCount s) (lf_lastConnected s) (lf_dials s) x (lf_listener s)
    (lf_peerStopped s) (lf_peerAdopted s) (lf_peerKnown s) (lf_target s) (lf_source s) (lf_handles s)
    (lf_deletes s) (lf_symHandles s) (lf_version s) (lf_runtime s) (lf_strictFailures s) (lf_spawned s)
    (lf_onDisconnectCalls s) (lf_onReconnectCalls s) (lf_watching s).
Definition set_listener {W} (x : bool) (s : life W) : life W :=
  Build_life (lf_world s) (lf_fsm s) (lf_connectedGen s) (lf_closedCh s) (lf_shutdown s) (lf_reconnectDone s)
    (lf_owner s) (lf_connecting s) (lf_disconnected s) (lf_conn s) (lf_open s) (lf_nextSock s) (lf_ctx s)
    (lf_cancelled s) (lf_client s) (lf_flapCount s) (lf_lastConnected s) (lf_dials s) (lf_route s) x
    (lf_peerStopped s) (lf_peerAdopted s) (lf_peerKnown s) (lf_target s) (lf_source s) (lf_handles s)
    (lf_deletes s) (lf_symHandles s) (lf_version s) (lf_runtime s) (lf_strictFailures s) (lf_spawned s)
    (lf_onDisconnectCalls s) (lf_onReconnectCalls s) (lf_watching s).
Definition set_peerStopped {W} (x : bool) (s : life W) : life W :=
  Build_life (lf_world s) (lf_fsm s) (lf_connectedGen s) (lf_closedCh s) (lf_shutdown s) (lf_reconnectDone s)
    (lf_owner s) (lf_connecting s) (lf_disconnected s) (lf_conn s) (lf_open s) (lf_nextSock s) (lf_ctx s)
    (lf_cancelled s) (lf_client s) (lf_flapCount s) (lf_lastConnected s) (lf_dials s) (lf_route s) (lf_listener s)
    x (lf_peerAdopted s) (lf_peerKnown s) (lf_target s) (lf_source s) (lf_handles s) (lf_deletes s)
    (lf_symHandles s) (lf_version s) (lf_runtime s) (lf_strictFailures s) (lf_spawned s) (lf_onDisconnectCalls s)
    (lf_onReconnectCalls s) (lf_watching s).
Definition set_peerAdopted {W} (x : Z) (s : life W) : life W :=
  Build_life (lf_world s) (lf_fsm s) (lf_connectedGen s) (lf_closedCh s) (lf_shutdown s) (lf_reconnectDone s)
    (lf_owner s) (lf_connecting s) (lf_disconnected s) (lf_conn s) (lf_open s) (lf_nextSock s) (lf_ctx s)
    (lf_cancelled s) (lf_client s) (lf_flapCount s) (lf_lastConnected s) (lf_dials s) (lf_route s) (lf_listener s)
    (lf_peerStopped s) x (lf_peerKnown s) (lf_target s) (lf_source s) (lf_handles s) (lf_deletes s)
    (lf_symHandles s) (lf_version s) (lf_runtime s) (lf_strictFailures s) (lf_spawned s) (lf_onDisconnectCalls s)
    (lf_onReconnectCalls s) (lf_watching s).
Definition set_peerKnown {W} (x : bool) (s : life W) : life W :=
  Build_life (lf_world s) (lf_fsm s) (lf_connectedGen s) (lf_closedCh s) (lf_shutdown s) (lf_reconnectDone s)
    (lf_owner s) (lf_connecting s) (lf_disconnected s) (lf_conn s) (lf_open s) (lf_nextSock s) (lf_ctx s)
    (lf_cancelled s) (lf_client s) (lf_flapCount s) (lf_lastConnected s) (lf_dials s) (lf_route s) (lf_listener s)
    (lf_peerStopped s) (lf_peerAdopted s) x (lf_target s) (lf_source s) (lf_handles s) (lf_deletes s)
    (lf_symHandles s) (lf_version s) (lf_runtime s) (lf_strictFailures s) (lf_spawned s) (lf_onDisconnectCalls s)
    (lf_onReconnectCalls s) (lf_watching s).
Definition set_target {W} (x : AMSAddress) (s : life W) : life W :=
  Build_life (lf_world s) (lf_fsm s) (lf_connectedGen s) (lf_closedCh s) (lf_shutdown s) (lf_reconnectDone s)
    (lf_owner s) (lf_connecting s) (lf_disconnected s) (lf_conn s) (lf_open s) (lf_nextSock s) (lf_ctx s)
    (lf_cancelled s) (lf_client s) (lf_flapCount s) (lf_lastConnected s) (lf_dials s) (lf_route s) (lf_listener s)
    (lf_peerStopped s) (lf_peerAdopted s) (lf_peerKnown s) x (lf_source s) (lf_handles s) (lf_deletes s)
    (lf_symHandles s) (lf_version s) (lf_runtime s) (lf_strictFailures s) (lf_spawned s) (lf_onDisconnectCalls s)
    (lf_onReconnectCalls s) (lf_watching s).
Definition set_source {W} (x : AMSAddress) (s : life W) : life W :=
  Build_life (lf_world s) (lf_fsm s) (lf_connectedGen s) (lf_closedCh s) (lf_shutdown s) (lf_reconnectDone s)
    (lf_owner s) (lf_connecting s) (lf_disconnected s) (lf_conn s) (lf_open s) (lf_nextSock s) (lf_ctx s)
    (lf_cancelled s) (lf_client s) (lf_flapCount s) (lf_lastConnected s) (lf_dials s) (lf_route s) (lf_listener s)
    (lf_peerStopped s) (lf_peerAdopted s) (lf_peerKnown s) (lf_target s) x (lf_handles s) (lf_deletes s)
    (lf_symHandles s) (lf_version s) (lf_runtime s) (lf_strictFailures s) (lf_spawned s) (lf_onDisconnectCalls s)
    (lf_onReconnectCalls s) (lf_watching s).
Definition set_handles {W} (x : list Z) (s : life W) : life W :=
  Build_life (lf_world s) (lf_fsm s) (lf_connectedGen s) (lf_closedCh s) (lf_shutdown s) (lf_reconnectDone s)
    (lf_owner s) (lf_connecting s) (lf_disconnected s) (lf_conn s) (lf_open s) (lf_nextSock s) (lf_ctx s)
    (lf_cancelled s) (lf_client s) (lf_flapCount s) (lf_lastConnected s) (lf_dials s) (lf_route s) (lf_listener s)
    (lf_peerStopped s) (lf_peerAdopted s) (lf_peerKnown s) (lf_target s) (lf_source s) x (lf_deletes s)
    (lf_symHandles s) (lf_version s) (lf_runtime s) (lf_strictFailures s) (lf_spawned s) (lf_onDisconnectCalls s)
    (lf_onReconnectCalls s) (lf_watching s).
Definition set_deletes {W} (x : list Z) (s : life W) : life W :=
  Build_life (lf_world s) (lf_fsm s) (lf_connectedGen s) (lf_closedCh s) (lf_shutdown s) (lf_reconnectDone s)
    (lf_owner s) (lf_connecting s) (lf_disconnected s) (lf_conn s) (lf_open s) (lf_nextSock s) (lf_ctx s)
    (lf_cancelled s) (lf_client s) (lf_flapCount s) (lf_lastConnected s) (lf_dials s) (lf_route s) (lf_listener s)
    (lf_peerStopped s) (lf_peerAdopted s) (lf_peerKnown s) (lf_target s) (lf_source s) (lf_handles s) x
    (lf_symHandles s) (lf_version s) (lf_runtime s) (lf_strictFailures s) (lf_spawned s) (lf_onDisconnectCalls s)
    (lf_onReconnectCalls s) (lf_watching s).
Definition set_symHandles {W} (x : list Z) (s : life W) : life W :=
  Build_life (lf_world s) (lf_fsm s) (lf_connectedGen s) (lf_closedCh s) (lf_shutdown s) (lf_reconnectDone s)
    (lf_owner s) (lf_connecting s) (lf_disconnected s) (lf_conn s) (lf_open s) (lf_nextSock s) (lf_ctx s)
    (lf_cancelled s) (lf_client s) (lf_flapCount s) (lf_lastConnected s) (lf_dials s) (lf_route s) (lf_listener s)
    (lf_peerStopped s) (lf_peerAdopted s) (lf_peerKnown s) (lf_target s) (lf_source s) (lf_handles s)
    (lf_deletes s) x (lf_version s) (lf_runtime s) (lf_strictFailures s) (lf_spawned s) (lf_onDisconnectCalls s)
    (lf_onReconnectCalls s) (lf_watching s).
Definition set_version {W} (x : Z) (s : life W) : life W :=
  Build_life (lf_world s) (lf_fsm s) (lf_connectedGen s) (lf_closedCh s) (lf_shutdown s) (lf_reconnectDone s)
    (lf_owner s) (lf_connecting s) (lf_disconnected s) (lf_conn s) (lf_open s) (lf_nextSock s) (lf_ctx s)
    (lf_cancelled s) (lf_client s) (lf_flapCount s) (lf_lastConnected s) (lf_dials s) (lf_route s) (lf_listener s)
    (lf_peerStopped s) (lf_peerAdopted s) (lf_peerKnown s) (lf_target s) (lf_source s) (lf_handles s)
    (lf_deletes s) (lf_symHandles s) x (lf_runtime s) (lf_strictFailures s) (lf_spawned s)
    (lf_onDisconnectCalls s) (lf_onReconnectCalls s) (lf_watching s).
Definition set_runtime {W} (x : Z * Z) (s : life W) : life W :=
  Build_life (lf_world s) (lf_fsm s) (lf_connectedGen s) (lf_closedCh s) (lf_shutdown s) (lf_reconnectDone s)
    (lf_owner s) (lf_connecting s) (lf_disconnected s) (lf_conn s) (lf_open s) (lf_nextSock s) (lf_ctx s)
    (lf_cancelled s) (lf_client s) (lf_flapCount s) (lf_lastConnected s) (lf_dials s) (lf_route s) (lf_listener s)
    (lf_peerStopped s) (lf_peerAdopted s) (lf_peerKnown s) (lf_target s) (lf_source s) (lf_handles s)
    (lf_deletes s) (lf_symHandles s) (lf_version s) x (lf_strictFailures s) (lf_spawned s)
    (lf_onDisconnectCalls s) (lf_onReconnectCalls s) (lf_watching s).
Definition set_strictFailures {W} (x : Z) (s : life W) : life W :=
  Build_life (lf_world s) (lf_fsm s) (lf_connectedGen s) (lf_closedCh s) (lf_shutdown s) (lf_reconnectDone s)
    (lf_owner s) (lf_connecting s) (lf_disconnected s) (lf_conn s) (lf_open s) (lf_nextSock s) (lf_ctx s)
    (lf_cancelled s) (lf_client s) (lf_flapCount s) (lf_lastConnected s) (lf_dials s) (lf_route s) (lf_listener s)
    (lf_peerStopped s) (lf_peerAdopted s) (lf_peerKnown s) (lf_target s) (lf_source s) (lf_handles s)
    (lf_deletes s) (lf_symHandles s) (lf_version s) (lf_runtime s) x (lf_spawned s) (lf_onDisconnectCalls s)
    (lf_onReconnectCalls s) (lf_watching s).
Definition set_spawned {W} (x : Z) (s : life W) : life W :=
  Build_life (lf_world s) (lf_fsm s) (lf_connectedGen s) (lf_closedCh s) (lf_shutdown s) (lf_reconnectDone s)
    (lf_owner s) (lf_connecting s) (lf_disconnected s) (lf_conn s) (lf_open s) (lf_nextSock s) (lf_ctx s)
    (lf_cancelled s) (lf_client s) (lf_flapCount s) (lf_lastConnected s) (lf_dials s) (lf_route s) (lf_listener s)
    (lf_peerStopped s) (lf_peerAdopted s) (lf_peerKnown s) (lf_target s) (lf_source s) (lf_handles s)
    (lf_deletes s) (lf_symHandles s) (lf_version s) (lf_runtime s) (lf_strictFailures s) x
    (lf_onDisconnectCalls s) (lf_onReconnectCalls s) (lf_watching s).
Definition set_onDisconnectCalls {W} (x : Z) (s : life W) : life W :=
  Build_life (lf_world s) (lf_fsm s) (lf_connectedGen s) (lf_closedCh s) (lf_shutdown s) (lf_reconnectDone s)
    (lf_owner s) (lf_connecting s) (lf_disconnected s) (lf_conn s) (lf_open s) (lf_nextSock s) (lf_ctx s)
    (lf_cancelled s) (lf_client s) (lf_flapCount s) (lf_lastConnected s) (lf_dials s) (lf_route s) (lf_listener s)
    (lf_peerStopped s) (lf_peerAdopted s) (lf_peerKnown s) (lf_target s) (lf_source s) (lf_handles s)
    (lf_deletes s) (lf_symHandles s) (lf_version s) (lf_runtime s) (lf_strictFailures s) (lf_spawned s) x
    (lf_onReconnectCalls s) (lf_watching s).
Definition set_onReconnectCalls {W} (x : Z) (s : life W) : life W :=
  Build_life (lf_world s) (lf_fsm s) (lf_connectedGen s) (lf_closedCh s) (lf_shutdown s) (lf_reconnectDone s)
    (lf_owner s) (lf_connecting s) (lf_disconnected s) (lf_conn s) (lf_open s) (lf_nextSock s) (lf_ctx s)
    (lf_cancelled s) (lf_client s) (lf_flapCount s) (lf_lastConnected s) (lf_dials s) (lf_route s) (lf_listener s)
    (lf_peerStopped s) (lf_peerAdopted s) (lf_peerKnown s) (lf_target s) (lf_source s) (lf_handles s)
    (lf_deletes s) (lf_symHandles s) (lf_version s) (lf_runtime s) (lf_strictFailures s) (lf_spawned s)
    (lf_onDisconnectCalls s) x (lf_watching s).
Definition set_watching {W} (x : bool) (s : life W) : life W :=
  Build_life (lf_world s) (lf_fsm s) (lf_connectedGen s) (lf_closedCh s) (lf_shutdown s) (lf_reconnectDone s)
    (lf_owner s) (lf_connecting s) (lf_disconnected s) (lf_conn s) (lf_open s) (lf_nextSock s) (lf_ctx s)
    (lf_cancelled s) (lf_client s) (lf_flapCount s) (lf_lastConnected s) (lf_dials s) (lf_route s) (lf_listener s)
    (lf_peerStopped s) (lf_peerAdopted s) (lf_peerKnown s) (lf_target s) (lf_source s) (lf_handles s)
    (lf_deletes s) (lf_symHandles s) (lf_version s) (lf_runtime s) (lf_strictFailures s) (lf_spawned s)
    (lf_onDisconnectCalls s) (lf_onReconnectCalls s) x.
