(* ===== verification/Lifecycle.v ===== *)
(** session.go: Connect, Reconnect and Close, and what they are made of.

    The session's goroutines meet at blocking points: a dial, a request, a sleep.
    [Env] is everything outside the session: what the network and the clock answer,
    and, for each blocking point, which [event]s the other goroutines of the session
    produced meanwhile: the reader saw the link die or a frame arrive, the user called
    Close, the device dialled in.  Events act through the model's own handlers. *)
From S2P Require Import Prelude Wire Strconv Defs Ams Fsm Client Route Policies LifeState.

(** ** Configuration and environment *)

Inductive TargetCheck : Type := TargetCheckWarn | TargetCheckError | TargetCheckOff.
#[export] Instance TargetCheck_eq_dec : EqDecision TargetCheck.
Proof. solve_decision. Defined.

(** The options a session was built with; [cf_callback] is [callbackIP] parsed to its
    four bytes. *)
Record config : Type := {
  cf_local : bool; cf_peerListenPort : Z; cf_peerFallbackDisabled : bool; cf_targetCheck : TargetCheck;
  cf_callback : option bytes; cf_autoReconnect : bool; cf_maxReconnectAttempts : Z; cf_backoff : BackoffConfig;
  cf_unservedCooldown : Z; cf_stateWatchDisabled : bool; cf_onDisconnect : bool; cf_onReconnect : bool }.

(** The configuration is fixed for a session: every operation takes it implicitly. *)
Existing Class config.

Inductive event : Type :=
| EvDrop     (** a worker of the current client found the transport down *)
| EvFrame    (** a frame arrived *)
| EvClose    (** another goroutine ran Close up to its waits *)
| EvPeer.    (** the device opened a connection to our listener *)

(** How a timed wait ended, and whose context a request or a wait obeys: the caller's,
    or the lifecycle's, read anew at each use. *)
Inductive wake : Type := Elapsed | CtxDone (e : goerr) | ClosedSignal.
Inductive ctxFor : Type := CallerCtx | LifecycleCtx.

(** The world: [ev_happen] yields the events of the current blocking point; the others
    are the outcomes of the network calls, of the waits and of the components that
    reload the symbols and the subscriptions. *)
Class Env (W : Type) : Type := {
  ev_happen : W -> W * list event;
  ev_now : W -> Z;
  ev_dial : W -> W * res (option bytes);
  ev_listen : W -> W * res ();
  ev_identify : W -> W * res bytes;
  ev_udp_identify : W -> W * option goerr;
  ev_version : W -> W * res Z;
  ev_state : Z -> W -> W * res Z;
  ev_local : W -> W * res bytes;
  ev_addRoute : W -> W * option goerr;
  ev_delete : list Z -> W -> W * Z;
  ev_release : Z -> W -> W * option goerr;
  ev_reload : W -> W * res ();
  ev_resubscribe : W -> W * res ();
  ev_wait : Z -> W -> W * option goerr;
  ev_ctx : W -> option goerr }.

(** ** The monad *)

Definition lc (W A : Type) : Type := life W -> life W * res A.
#[export] Instance lc_ret W : MRet (lc W) := fun A a s => (s, Ok a).
#[export] Instance lc_bind W : MBind (lc W) := fun A B f m s =>
  match m s with
  | (s, Ok a) => f a s
  | (s, Err e) => (s, Err e)
  | (s, Panic) => (s, Panic)
  end.
Definition fails {W A} (e : goerr) : lc W A := fun s => (s, Err e).
Definition act {W} (f : life W -> life W) : lc W () := fun s => (f s, Ok tt).
Definition look {W A} (f : life W -> A) : lc W A := fun s => (s, Ok (f s)).
Definition tried {W A} (m : lc W A) : lc W (A + goerr) := fun s =>
  match m s with
  | (s, Ok a) => (s, Ok (inl a))
  | (s, Err e) => (s, Ok (inr e))
  | (s, Panic) => (s, Panic)
  end.
(** [defer fin()]: [fin] sees the result. *)
Definition deferred {W A} (fin : res A -> life W -> life W) (m : lc W A) : lc W A := fun s =>
  let '(s, r) := m s in (fin r s, r).

(** ** The client and the sockets *)

Section Session.
Context {W : Type} `{cfg : config}.

Definition on_client (f : link -> link) (s : life W) : life W := set_client (f <$> lf_client s) s.
Definition SetOnDrop (armed : bool) : life W -> life W := on_client (fun c =>
  {| lk_sock := lk_sock c; lk_armed := armed; lk_handshaking := lk_handshaking c; lk_dropped := lk_dropped c;
     lk_established := lk_established c; lk_ctx := lk_ctx c |}).
Definition beginHandshake : life W -> life W := on_client (fun c =>
  {| lk_sock := lk_sock c; lk_armed := lk_armed c; lk_handshaking := lk_handshaking c + 1; lk_dropped := lk_dropped c;
     lk_established := lk_established c; lk_ctx := lk_ctx c |}).
(** The decrement, clamped at zero. *)
Definition endHandshake : life W -> life W := on_client (fun c =>
  {| lk_sock := lk_sock c; lk_armed := lk_armed c;
     lk_handshaking := if 0 <=? lk_handshaking c - 1 then lk_handshaking c - 1 else 0; lk_dropped := lk_dropped c;
     lk_established := lk_established c; lk_ctx := lk_ctx c |}).
Definition markDropped : life W -> life W := on_client (fun c =>
  {| lk_sock := lk_sock c; lk_armed := lk_armed c; lk_handshaking := lk_handshaking c; lk_dropped := true;
     lk_established := lk_established c; lk_ctx := lk_ctx c |}).
Definition frame_seen : life W -> life W := on_client (fun c =>
  {| lk_sock := lk_sock c; lk_armed := lk_armed c; lk_handshaking := lk_handshaking c; lk_dropped := lk_dropped c;
     lk_established := true; lk_ctx := lk_ctx c |}).

Definition ctx_live (s : life W) (n : Z) : bool := (n =? lf_ctx s) && negb (lf_cancelled s).
Definition wasEstablished (s : life W) : bool :=
  match lf_client s with Some c => lk_established c | None => false end.

(** [tx.connection.Close()]. *)
Definition close_conn (s : life W) : life W :=
  match lf_conn s with
  | Some n => set_open (lf_open s ∖ {[n]}) s
  | None => s
  end.

Definition isClosed' (s : life W) : bool := isClosed (lf_fsm s).
Definition transitionState (want : SessionState) (s : life W) : life W :=
  set_fsm (transitionTo (lf_fsm s) want).1.1 s.

(** ** Dropping and closing *)

(** [triggerReconnect]. *)
Definition triggerReconnect (s : life W) : life W :=
  if isClosed' s then s
  else
    let first := negb (lf_disconnected s) in
    let s := if first then transitionState SessionStateDisconnected (set_disconnected true s) else s in
    let s := if first && cf_onDisconnect cfg && negb (isClosed' s)
             then set_onDisconnectCalls (lf_onDisconnectCalls s + 1) s else s in
    if lf_connecting s then s
    else if cf_autoReconnect cfg then set_spawned (lf_spawned s + 1) (set_reconnectDone true s)
    else set_reconnectDone false s.

(** [callOnDrop], from a worker of the current client. *)
Definition callOnDrop (s : life W) : life W :=
  match lf_client s with
  | Some c =>
      if ctx_live s (lk_ctx c) then
        let s := markDropped s in if lk_armed c then triggerReconnect s else s
      else s
  | None => s
  end.

Definition markClosed : life W -> life W := set_closedCh true.

(** [releasePeerListener], [stopPeerListener]. *)
Definition releasePeerListener : life W -> life W := set_listener false.
Definition stopPeerListener (s : life W) : life W := releasePeerListener (set_peerStopped true s).

(** [takeNotificationHandles] empties the registry (Subs.v, Window.v). *)
Definition take_handles (s : life W) : life W * list Z := (set_handles [] s, lf_handles s).
End Session.

Section Release.
Context {W : Type} `{Env W}.

Definition bestEffortDelete (hs : list Z) (s : life W) : life W * Z :=
  let '(w, n) := ev_delete hs (lf_world s) in
  (set_deletes (lf_deletes s ++ hs) (set_world w s), n).

(** One Write per symbol handle, stopping when the PLC does not answer. *)
Fixpoint release_symbols (hs : list Z) (s : life W) : life W :=
  match hs with
  | [] => s
  | h :: hs =>
      if isDisconnected (lf_fsm s) then s
      else
        let '(w, err) := ev_release h (lf_world s) in
        let s := set_world w s in
        if isUnservedError err || isTransportDead err then s else release_symbols hs s
  end.

Definition releasePLCResources (wasDisconnected : bool) (s : life W) : life W :=
  let '(s, hs) := take_handles s in
  let s := match hs with [] => s | _ => (bestEffortDelete hs s).1 end in
  if wasDisconnected then s else release_symbols (lf_symHandles s) s.

Definition shutdownTransport (wasDisconnected : bool) (s : life W) : life W :=
  if lf_shutdown s then s
  else
    let s := stopPeerListener (set_shutdown true s) in
    let s := releasePLCResources wasDisconnected s in
    markDropped (close_conn (set_cancelled true s)).

(** [Close], up to its waits, which change nothing. *)
Definition Close (s : life W) : life W :=
  let wasDisconnected := isDisconnected (lf_fsm s) in
  let s := set_fsm (transitionToOnce (lf_fsm s) SessionStateClosed).1.1 s in
  let s := shutdownTransport wasDisconnected (markClosed s) in
  markDropped s.

(** [giveUpReconnecting]. *)
Definition end_session (s : life W) : life W :=
  let s := set_fsm (transitionToOnce (lf_fsm s) SessionStateClosed).1.1 s in
  shutdownTransport true (markClosed s).
Definition giveUpReconnecting {A} (cause : goerr) : lc W A := fun s => (end_session s, Err cause).
End Release.

(** ** Blocking points *)

Section Blocking.
Context {W : Type} `{Env W} `{cfg : config}.

Definition apply_event (s : life W) (e : event) : life W :=
  match e with
  | EvDrop => callOnDrop s
  | EvFrame => frame_seen s
  | EvClose => Close s
  | EvPeer =>
      if lf_listener s && negb (isClosed' s) && is_Some_b (lf_client s)
      then set_peerAdopted (lf_peerAdopted s + 1) s else s
  end.

Definition happen (s : life W) : life W :=
  let '(w, evs) := ev_happen (lf_world s) in foldl apply_event (set_world w s) evs.

(** A call that takes time: its outcome, and what happened meanwhile. *)
Definition blocking {A} (op : W -> W * A) : lc W A := fun s =>
  let '(w, a) := op (lf_world s) in (happen (set_world w s), Ok a).
(** A point where other goroutines may run. *)
Definition yield : lc W () := fun s => (happen s, Ok tt).

Definition lift_res {A} (r : res A) : lc W A := fun s => (s, r).
Definition blocking_res {A} (op : W -> W * res A) : lc W A := r ← blocking op; lift_res r.

(** Whether the lifecycle context [k] stands for is cancelled; the caller's is [ev_ctx]. *)
Definition lifecycle_done (k : ctxFor) (s : life W) : bool :=
  match k with LifecycleCtx => lf_cancelled s | CallerCtx => false end.

(** A request on the published client ([sendRequest]): refused on a dead transport, and
    left unanswered when the workers of the client are gone. *)
Definition request {A} (k : ctxFor) (op : W -> W * res A) : lc W A := fun s =>
  match lf_client s with
  | None => (s, Panic)
  | Some c =>
      if lf_disconnected s then (s, Err (ESentinel ErrTransportClosed))
      else if lifecycle_done k s then (s, Err (ESentinel ErrCanceled))
      else if lk_dropped c then (s, Err (ESentinel ErrTransportClosed))
      else if ctx_live s (lk_ctx c) then blocking_res op s
      else (happen s, Err (ESentinel ErrDeadlineExceeded))
  end.

Definition probeRouteVersion (k : ctxFor) : lc W Z := request k ev_version.
Definition recordRuntimeState (state : Z) : lc W () :=
  act (fun s => set_runtime (state, ev_now (lf_world s)) s).

(** The wait on a timer, a context and [closedCh]; a close that lands during the wait ends it. *)
Definition wait_for (k : ctxFor) (d : Z) : lc W wake := fun s =>
  let '(w, e) := ev_wait d (lf_world s) in
  let s := happen (set_world w s) in
  (s, Ok (match e with
          | Some e => CtxDone e
          | None => if lf_closedCh s then ClosedSignal
                    else if lifecycle_done k s then CtxDone (ESentinel ErrCanceled) else Elapsed
          end)).

(** ** Dialing *)

(** [dialTCP]: a new socket and its local address. *)
Definition dialTCP : lc W (Z * option bytes) :=
  ip ← blocking_res ev_dial;
  n ← look lf_nextSock;
  _ ← act (fun s => set_open ({[n]} ∪ lf_open s) (set_nextSock (n + 1) s));
  mret (n, ip).

Definition publishWiredClient : lc W () := act (fun s =>
  match lf_conn s with
  | Some n => set_client (Some {| lk_sock := n; lk_armed := true; lk_handshaking := 0; lk_dropped := false;
                                  lk_established := false; lk_ctx := lf_ctx s |}) s
  | None => s
  end).

Definition dialAndStart : lc W () :=
  '(n, _) ← dialTCP;
  _ ← act (set_conn (Some n));
  closed ← look isClosed';
  if (closed : bool) then
    _ ← act (fun s => set_conn None (close_conn s));
    fails (EMsg "connection closed during dial")
  else
    _ ← publishWiredClient;
    act (set_disconnected false).

(** Cancel, close, wait for the workers, then a fresh context and fresh channels. *)
Definition tearDownAndReset : lc W () :=
  _ ← act (fun s => markDropped (close_conn (set_cancelled true s)));
  _ ← yield;
  act (fun s => set_cancelled false (set_ctx (lf_ctx s + 1) s)).

Definition resetForRetry : lc W () := _ ← act (set_disconnected true); tearDownAndReset.

Definition redialDuringHandshake : lc W () :=
  _ ← act (set_disconnected true);
  _ ← tearDownAndReset;
  _ ← dialAndStart;
  act (fun s => beginHandshake (SetOnDrop false s)).

(** The handshake region around [m]: the drop handler disarmed, and re-armed on the
    client that is current when [m] ends. *)
Definition handshake {A} (m : lc W A) : lc W A :=
  _ ← act (fun s => beginHandshake (SetOnDrop false s));
  deferred (fun _ s => SetOnDrop true (endHandshake s)) m.

(** ** The peer listener *)

Definition startPeerListener : lc W () :=
  s ← look id;
  if lf_listener s then mret tt
  else if lf_peerStopped s then fails (EMsg "session is shutting down; not binding the inbound AMS port")
  else if lf_closedCh s then fails (EMsg "session is closed; not binding the inbound AMS port")
  else
    let '(w, r) := ev_listen (lf_world s) in
    _ ← act (set_world w);
    match r with
    | Ok _ => act (set_listener true)
    | Err e => fails (EWrap "listening for the PLC's own connection" e)
    | Panic => lift_res Panic
    end.

Definition peerFallbackProbes : nat := 3.

Fixpoint peer_probes (n : nat) : lc W bool :=
  match n with
  | O => mret false
  | S n =>
      w ← look lf_world;
      match ev_ctx w with
      | Some e => fails e
      | None =>
          r ← tried (request CallerCtx ev_version);
          match r with
          | inl _ => mret true
          | inr _ =>
              k ← blocking (ev_wait (200 * Millisecond));
              match k with Some e => fails e | None => peer_probes n end
          end
      end
  end.

(** [tryPeerFallback]: whether a request was answered once we listen, or why not. *)
Definition tryPeerFallback : lc W bool :=
  if cf_peerFallbackDisabled cfg then fails (EMsg "peer-route fallback disabled by WithoutAmsPeerFallback")
  else _ ← startPeerListener; peer_probes peerFallbackProbes.

Definition forgetPeerRouteHostIfUnused (s : life W) : life W :=
  if lf_peerAdopted s =? 0 then set_peerKnown false s else s.

(** ** Routes *)

Definition set_failures (n : Z) (s : life W) : life W :=
  let r := lf_route s in
  set_route {| rm_name := rm_name r; rm_username := rm_username r; rm_password := rm_password r;
               forceRouteRegistration := forceRouteRegistration r; activationTimeout := activationTimeout r;
               skipRegistration := skipRegistration r; routeProbeFailures := n; registered := registered r |} s.

(** [AddRoute] as the session calls it, and the mark when it worked. *)
Definition AddRoute : lc W () :=
  r ← blocking ev_addRoute;
  match r with
  | Some e => fails e
  | None => act (fun s => set_route (markRegistered (lf_route s)) s)
  end.

Definition isProbeRetryable : goerr -> bool := fun e => isTransportDead (Some e).

Definition routeProbeRetryDelay : Z := 500 * Millisecond.
Definition routerAwakePoll : Z := 1 * Second.
Definition routeProbeGrace : Z := 30 * Second.
Definition routerDeafGrace : Z := 20 * Second.
Definition routeActivationPollDelay : Z := 250 * Millisecond.
Definition maxRouteActivationRedials : Z := 3.

(** [awaitRouterAwake]; each round takes a second at least. *)
Fixpoint router_awake_loop (fuel : nat) (deadline : Z) : lc W () :=
  match fuel with
  | O => lift_res Panic
  | S fuel =>
      r ← blocking ev_udp_identify;
      match r with
      | None => mret tt
      | Some _ =>
          w ← look lf_world;
          match ev_ctx w with
          | Some e => fails (EWrap "waiting for the PLC's AMS router" e)
          | None =>
              if deadline <? ev_now w then fails (EWrap "no identify answer" (ESentinel ErrRouterUnresponsive))
              else
                k ← blocking (ev_wait routerAwakePoll);
                match k with
                | Some e => fails (EWrap "waiting for the PLC's AMS router" e)
                | None => router_awake_loop fuel deadline
                end
          end
      end
  end.
Definition awaitRouterAwake : lc W () :=
  w ← look lf_world;
  router_awake_loop (Z.to_nat (routerDeafGrace / routerAwakePoll) + 2) (ev_now w + routerDeafGrace).

(** The rounds of [ensureRouteOnConnect] that retry a probe which failed below ADS:
    [inl tt] when the route turned out to exist, [inr e] with the last failure. *)
Fixpoint probe_retry_loop (fuel : nat) (deadline : Z) : lc W (() + goerr) :=
  match fuel with
  | O => lift_res Panic
  | S fuel =>
      k ← blocking (ev_wait routeProbeRetryDelay);
      match k with
      | Some e => fails (EWrap "route probe retry aborted" e)
      | None =>
          r ← tried redialDuringHandshake;
          match r with
          | inr e => fails (EWrap "redial during route probe retry" e)
          | inl _ =>
              closed ← look isClosed';
              if (closed : bool) then fails (EMsg "connection closed during route probe retry")
              else
                r ← tried (probeRouteVersion CallerCtx);
                match r with
                | inl _ => _ ← act (set_failures 0); mret (inl tt)
                | inr e =>
                    w ← look lf_world;
                    if negb (isProbeRetryable e) || (deadline <? ev_now w) then mret (inr e)
                    else probe_retry_loop fuel deadline
                end
          end
      end
  end.

(** Register unless this session already did. *)
Definition register_after_probe : lc W bool :=
  _ ← act (fun s => set_failures (i32 (routeProbeFailures (lf_route s) + 1)) s);
  r ← look lf_route;
  if negb (mayRegister r) then mret false else _ ← AddRoute; mret true.

Definition ensureRouteOnConnect : lc W bool :=
  closed ← look isClosed';
  if (closed : bool) then fails (EMsg "connection closed")
  else handshake (
    r ← look lf_route;
    if forceRouteRegistration r then _ ← AddRoute; mret true
    else
      p ← tried (probeRouteVersion CallerCtx);
      match p with
      | inl _ => _ ← act (set_failures 0); mret false
      | inr e =>
          closed ← look isClosed';
          if (closed : bool) then fails (EMsg "connection closed during route probe")
          else if isProbeRetryable e then
            _ ← awaitRouterAwake;
            w ← look lf_world;
            q ← probe_retry_loop (Z.to_nat (routeProbeGrace / routeProbeRetryDelay) + 2) (ev_now w + routeProbeGrace);
            match q with inl _ => mret false | inr _ => register_after_probe end
          else register_after_probe
      end).

(** [waitDuringActivation]. *)
Definition waitDuringActivation (k : ctxFor) (d : Z) : lc W () :=
  r ← wait_for k d;
  match r with
  | Elapsed => mret tt
  | ClosedSignal => fails (EMsg "connection closed while waiting for route activation")
  | CtxDone e => fails (EWrap "route activation wait aborted" e)
  end.

(** The probes of [awaitRouteActive]. *)
Fixpoint activation_loop (k : ctxFor) (fuel : nat) (deadline redials : Z) : lc W Z :=
  match fuel with
  | O => lift_res Panic
  | S fuel =>
      closed ← look isClosed';
      if (closed : bool) then fails (EMsg "connection closed while waiting for route activation")
      else
        p ← tried (probeRouteVersion k);
        match p with
        | inl version => _ ← act (set_failures 0); mret version
        | inr lastErr =>
            st ← tried (request k (ev_state PortSystemService));
            notRunning ← match st with
                         | inl state => _ ← recordRuntimeState state; mret (negb (state =? ADSStateRun))
                         | inr _ => mret false
                         end;
            if (notRunning : bool) then
              _ ← act (set_failures 0); fails (EWrap "route is served but" (ESentinel ErrRuntimeNotRunning))
            else
              w ← look lf_world;
              if negb (ev_now w <? deadline) then fails (EWrap "the PLC did not serve the route" lastErr)
              else if isProbeRetryable lastErr then
                if (maxRouteActivationRedials <=? redials) && isTransportDead (Some lastErr)
                then fails (EWrap "the PLC did not serve the route" lastErr)
                else
                  _ ← waitDuringActivation k (redialBackoff redials);
                  closed ← look isClosed';
                  if (closed : bool) then fails (EMsg "connection closed while waiting for route activation")
                  else
                    r ← tried redialDuringHandshake;
                    match r with
                    | inr e => fails (EWrap "redial while waiting for route activation" e)
                    | inl _ => activation_loop k fuel deadline (redials + 1)
                    end
              else
                _ ← waitDuringActivation k routeActivationPollDelay;
                activation_loop k fuel deadline redials
        end
  end.

Definition activation_fuel (total : Z) : nat := Z.to_nat (total / routeActivationPollDelay) + 2.

Definition awaitRouteActive (k : ctxFor) : lc W Z :=
  handshake (
    r ← look lf_route;
    w ← look lf_world;
    let total := (routeActivationBudget (activationTimeout r)).1 in
    activation_loop k (activation_fuel total) (ev_now w + total) 0).

(** [ensureRoute], the reconnect loop's form. *)
Definition ensureRoute : lc W () :=
  r ← look lf_route;
  if shouldSkip r then mret tt
  else
    closed ← look isClosed';
    if (closed : bool) then fails (EMsg "connection closed")
    else if forceRouteRegistration r || (3 <=? routeProbeFailures r) then
      if negb (forceRouteRegistration r) && negb (mayRegister r) then _ ← awaitRouteActive LifecycleCtx; mret tt
      else
        a ← tried AddRoute;
        match a with
        | inr e => fails (EWrap "route registration failed" e)
        | inl _ => _ ← awaitRouteActive LifecycleCtx; act (set_failures 0)
        end
    else
      p ← tried (probeRouteVersion LifecycleCtx);
      match p with
      | inl _ => act (set_failures 0)
      | inr _ =>
          closed ← look isClosed';
          if (closed : bool) then fails (EMsg "connection closed during route probe")
          else
            _ ← act (fun s => set_failures (i32 (routeProbeFailures (lf_route s) + 1)) s);
            r ← look lf_route;
            if negb (mayRegister r) then _ ← awaitRouteActive LifecycleCtx; mret tt
            else
              a ← tried AddRoute;
              match a with
              | inr e => fails (EWrap "route registration failed after probe" e)
              | inl _ => _ ← awaitRouteActive LifecycleCtx; mret tt
              end
      end.
End Blocking.
