(* ===== verification/Connect.v ===== *)
(** session.go: Connect and Reconnect, built from the steps of Lifecycle.v. *)
From S2P Require Import Prelude Wire Strconv Defs Ams Fsm Client Route Policies LifeState Lifecycle.

Section Connect.
Context {W : Type} `{Env W} `{cfg : config}.

(** ** Addresses *)

Definition no_netid : bytes := repeat Byte.x00 6.
Definition loopback_netid : bytes := map byte_of_Z [127; 0; 0; 1; 1; 1].

(** A [NetID] of the caller is kept: a usermode runtime on this host has its own. *)
Definition localTarget (s : life W) : life W :=
  if cf_local cfg && bool_decide (NetID (lf_target s) = no_netid)
  then set_target {| NetID := loopback_netid; Port := Port (lf_target s) |} s else s.

Definition applyTargetCheck (reported : bytes) : lc W () :=
  s ← look id;
  if decide (reported = NetID (lf_target s)) then mret tt
  else if decide (cf_targetCheck cfg = TargetCheckError) then fails (EMsg "target NetID does not match the NetID reported")
  else mret tt.

(** An unanswered probe is never a failure. *)
Definition verifyTarget : lc W () :=
  r ← tried (blocking_res ev_identify);
  match r with inl reported => applyTargetCheck reported | inr _ => mret tt end.

(** The source NetID, from the local address of the socket or from [callbackIP]. *)
Definition deriveSource (ip : option bytes) (s : life W) : life W :=
  if decide (NetID (lf_source s) = no_netid) then
    match ip with
    | Some ip =>
        let ip := match cf_callback cfg with Some cb => cb | None => ip end in
        set_source {| NetID := ip ++ map byte_of_Z [1; 1]; Port := Port (lf_source s) |} s
    | None => s
    end
  else s.

(** [Client.send] and the address in its answer. *)
Definition send_local : lc W bytes := fun s =>
  match lf_client s with
  | None => (s, Panic)
  | Some c =>
      if lk_dropped c then (s, Err (ESentinel ErrTransportClosed))
      else if ctx_live s (lk_ctx c) then blocking_res ev_local s
      else (s, Err (EWrap "send aborted, context canceled" (ESentinel ErrCanceled)))
  end.

Definition localHandshake : lc W () :=
  r ← tried send_local;
  match r with
  | inr e => fails (EWrap "local handshake send" e)
  | inl resp =>
      match read_addr resp with
      | Ok (a, _) => act (set_source a)
      | Err e => fails (EWrap "local handshake parse" e)
      | Panic => lift_res Panic
      end
  end.

(** ** Connect *)

(** [enterConnected], and [lastConnectedAt] after it. *)
Definition enterConnected (s : life W) : life W :=
  let '(f, gen) := Fsm.enterConnected (lf_fsm s) (lf_connectedGen s) in
  set_connectedGen gen (set_fsm f s).
Definition stamp_connected (s : life W) : life W := set_lastConnected (Some (ev_now (lf_world s))) s.
Definition settle : lc W () := _ ← act enterConnected; act stamp_connected.

Definition startRuntimeStateWatch (s : life W) : life W :=
  if cf_stateWatchDisabled cfg || lf_closedCh s then s else set_watching true s.

Definition runtimeStateQuietly : lc W () :=
  _ ← act beginHandshake;
  state ← deferred (fun _ => endHandshake) (request CallerCtx (ev_state PortSystemService));
  recordRuntimeState state.

(** A failure on which this Connect tears its own transport down. *)
Definition abandon {A} (e : goerr) : lc W A := _ ← tearDownAndReset; fails e.

(** The fallback's answer to a silent PLC: [inl tt] when it rescued the session. *)
Definition rescue : lc W (() + option goerr) :=
  r ← tried tryPeerFallback;
  match r with
  | inl true => _ ← act (set_peerKnown true); mret (inl tt)
  | inl false => mret (inr None)
  | inr e => mret (inr (Some e))
  end.

(** The route: probe, register and redial; the symbol version when a probe read it. *)
Definition connect_route : lc W (option Z) :=
  r ← look lf_route;
  if shouldSkip r then mret None
  else
    a ← tried ensureRouteOnConnect;
    _ ← yield;
    match a with
    | inr e => abandon (EWrap "route registration failed during connect" e)
    | inl false => mret None
    | inl true =>
        _ ← tearDownAndReset;
        _ ← act (fun s => set_dials (lf_dials s + 1) s);
        d ← tried dialAndStart;
        match d with
        | inr e => fails (EWrap "TCP reconnect after route registration failed" e)
        | inl _ =>
            v ← tried (awaitRouteActive CallerCtx);
            match v with
            | inl version => mret (Some version)
            | inr e =>
                if errors_is ErrRuntimeNotRunning e then mret None
                else
                  f ← rescue;
                  match f with
                  | inl _ => mret None
                  | inr ferr =>
                      abandon (EWrap "route registration during connect"
                        (match ferr with Some fe => EWrap2 e fe | None => e end))
                  end
            end
        end
    end.

Definition drop_to_disconnected {A} (e : goerr) : lc W A :=
  _ ← tearDownAndReset;
  _ ← act (transitionState SessionStateDisconnected);
  fails e.

(** The symbol version: its failure is fatal when the link died, or when the PLC answers
    neither it nor [ReadState] and the fallback does not rescue the session. *)
Definition connect_version : lc W (option Z) :=
  v ← tried (request CallerCtx ev_version);
  match v with
  | inl version => mret (Some version)
  | inr e =>
      if errors_is ErrTransportClosed e then
        established ← look wasEstablished;
        drop_to_disconnected (EWrap "transport dropped during connect"
          (EWrap2 (ESentinel (if (established : bool) then ErrEstablishedDropped else ErrRouteNotServed)) e))
      else if isUnservedError (Some e) then
        target ← look (fun s => Port (lf_target s));
        st ← tried (request CallerCtx (ev_state target));
        if isUnservedError (match st with inl _ => None | inr e => Some e end) then
          f ← rescue;
          match f with
          | inl _ => mret None
          | inr _ => drop_to_disconnected (EWrap "PLC accepted the connection but answered neither GetSymbolVersion nor ReadState" e)
          end
        else mret None
      else mret None
  end.

Definition listen_if_configured : lc W () :=
  if cf_peerListenPort cfg =? 0 then mret tt else startPeerListener.
Definition listen_if_known : lc W () :=
  known ← look lf_peerKnown;
  if negb (cf_peerFallbackDisabled cfg) && known then _ ← tried startPeerListener; mret tt else mret tt.

(** Dial and publish; [yield]: the workers run from here on. *)
Definition connect_dial : lc W () :=
  '(n, ip) ← dialTCP;
  _ ← act (set_conn (Some n));
  _ ← act (deriveSource ip);
  _ ← publishWiredClient;
  _ ← act (set_disconnected false);
  _ ← yield;
  listen_if_known.

Definition connect_local : lc W () :=
  if cf_local cfg then
    r ← tried localHandshake;
    match r with inl _ => mret tt | inr e => abandon (EWrap "local mode handshake failed" e) end
  else mret tt.

(** From the version on; [yield]: a drop may land before Connect returns. *)
Definition connect_finish (version : option Z) : lc W () :=
  _ ← act (fun s => match version with Some v => set_version v s | None => s end);
  _ ← act startRuntimeStateWatch;
  _ ← tried runtimeStateQuietly;
  _ ← act forgetPeerRouteHostIfUnused;
  _ ← settle;
  yield.

Definition connect_body : lc W () :=
  _ ← listen_if_configured;
  _ ← act localTarget;
  _ ← (if negb (cf_local cfg) && negb (bool_decide (cf_targetCheck cfg = TargetCheckOff)) then verifyTarget else mret tt);
  _ ← connect_dial;
  _ ← connect_local;
  v ← connect_route;
  v ← (match v with Some _ => mret v | None => connect_version end);
  connect_finish v.

(** The three defers of Connect, in the order they run. *)
Definition release_on_error {A} (r : res A) (s : life W) : life W :=
  match r with Err _ => releasePeerListener s | _ => s end.
Definition rollback_on_error {A} (r : res A) (s : life W) : life W :=
  match r with
  | Err _ => if decide (fsm_value (lf_fsm s) = SessionStateConnecting)
             then transitionState SessionStateDisconnected s else s
  | _ => s
  end.
Definition adopt_drop {A} (r : res A) (s : life W) : life W :=
  let s := set_connecting false s in
  match r with
  | Ok _ => if negb (isClosed' s) && lf_disconnected s then triggerReconnect s else s
  | _ => s
  end.

Definition Connect : lc W () := fun s =>
  let '(f, _, ok) := transitionToOnce (lf_fsm s) SessionStateConnecting in
  if negb ok then (s, Err (EMsg "Connect already in progress or session past Constructed state"))
  else deferred adopt_drop (deferred rollback_on_error (deferred release_on_error connect_body))
         (set_connecting true (set_fsm f s)).

(** ** Reconnect *)

Definition unservedAttemptsBeforeCooldown : Z := 3.
Definition preReconnectReleaseAttempts : Z := 3.

(** A wait the caller's context ends for good and a close ends with an error. *)
Definition pause (d : Z) (aborted closed : string) : lc W () :=
  k ← wait_for CallerCtx d;
  match k with
  | Elapsed => mret tt
  | CtxDone e => giveUpReconnecting (EWrap aborted e)
  | ClosedSignal => fails (EMsg closed)
  end.

Definition reconnectSleep (attempt : Z) : lc W () :=
  pause (reconnectBackoff (cf_backoff cfg) attempt)
    "reconnect aborted during backoff" "connection closed during reconnect".

Definition healing (s : life W) : life W :=
  if shouldSkip (lf_route s) then s else set_route (allowHealingRegistration (lf_route s)) s.

Definition coolDownAfterUnserved : lc W () :=
  _ ← tearDownAndReset;
  _ ← act healing;
  pause (unservedCooldownDuration (cf_unservedCooldown cfg))
    "reconnect aborted during unserved cooldown" "connection closed during unserved cooldown".

(** The locals of the loop. *)
Record rounds : Type := {
  rc_attempts : Z; rc_lastErr : option goerr; rc_releaseTries : Z; rc_unserved : Z; rc_saved : list Z }.

Definition servedNothing (s : life W) : bool :=
  match lf_client s with Some _ => negb (wasEstablished s) | None => false end.

(** [retryAfter]: the next round's locals, after the pause. *)
Definition retryAfter (err : goerr) (l : rounds) : lc W rounds :=
  quiet ← look servedNothing;
  _ ← resetForRetry;
  let mk u := {| rc_attempts := rc_attempts l; rc_lastErr := Some err; rc_releaseTries := rc_releaseTries l;
                 rc_unserved := u; rc_saved := rc_saved l |} in
  if isUnservedError (Some err) || quiet then
    if unservedAttemptsBeforeCooldown <=? rc_unserved l + 1
    then _ ← coolDownAfterUnserved; mret (mk 0)
    else _ ← reconnectSleep (rc_attempts l); mret (mk (rc_unserved l + 1))
  else _ ← reconnectSleep (rc_attempts l); mret (mk 0).

(** The delete of the handles held before the drop. *)
Definition release_saved (l : rounds) : lc W rounds :=
  match rc_saved l with
  | [] => mret l
  | hs =>
      deleted ← (fun s => let '(s, n) := bestEffortDelete hs s in (happen s, Ok n));
      let tries := rc_releaseTries l + 1 in
      mret {| rc_attempts := rc_attempts l; rc_lastErr := rc_lastErr l; rc_releaseTries := tries;
              rc_unserved := rc_unserved l;
              rc_saved := if (len hs <=? deleted) || (preReconnectReleaseAttempts <=? tries) then [] else hs |}
  end.

(** The reconnect callback, in a goroutine of its own. *)
Definition announce (s : life W) : life W :=
  if cf_onReconnect cfg && negb (isClosed' s) then set_onReconnectCalls (lf_onReconnectCalls s + 1) s else s.

(** The end of a reconnect that worked; [yield]: a drop may land before it returns. *)
Definition reconnected : lc W () :=
  _ ← act (set_strictFailures 0);
  _ ← settle;
  _ ← act announce;
  yield.

(** How one round of the loop ends: connected, or another round with these locals. *)
Definition retry (err : goerr) (l : rounds) : lc W (() + rounds) := l ← retryAfter err l; mret (inr l).

(** A round behind its dial. *)
Definition restore (l : rounds) : lc W (() + rounds) :=
  h ← (if cf_local cfg then tried localHandshake else mret (inl tt));
  match h with
  | inr e => retry e l
  | inl _ =>
      r ← tried ensureRoute;
      match r with
      | inr e => retry e l
      | inl _ =>
          l ← release_saved l;
          r ← tried (blocking_res ev_reload);
          match r with
          | inr e => retry e l
          | inl _ =>
              r ← tried (blocking_res ev_resubscribe);
              match r with
              | inr e =>
                  if errors_is ErrRuntimeNotRunning e then
                    _ ← resetForRetry;
                    _ ← reconnectSleep (rc_attempts l);
                    mret (inr {| rc_attempts := rc_attempts l - 1; rc_lastErr := rc_lastErr l;
                                 rc_releaseTries := rc_releaseTries l; rc_unserved := rc_unserved l;
                                 rc_saved := rc_saved l |})
                  else retry e l
              | inl _ => _ ← reconnected; mret (inl tt)
              end
          end
      end
  end.

Definition reconnect_round (l : rounds) : lc W (() + rounds) :=
  _ ← act (fun s => set_dials (lf_dials s + 1) s);
  d ← tried dialAndStart;
  match d with
  | inr e =>
      _ ← reconnectSleep (rc_attempts l);
      mret (inr {| rc_attempts := rc_attempts l; rc_lastErr := Some e; rc_releaseTries := rc_releaseTries l;
                   rc_unserved := rc_unserved l; rc_saved := rc_saved l |})
  | inl _ => restore l
  end.

Definition exhausted (lastErr : option goerr) : goerr :=
  match lastErr with
  | None => EMsg "reconnect failed after the maximum number of attempts"
  | Some e => EWrap "reconnect failed after the maximum number of attempts" e
  end.

(** The head of the loop. *)
Definition loop_guard (l : rounds) : lc W rounds :=
  closed ← look isClosed';
  if (closed : bool) then fails (EMsg "connection closed during reconnect")
  else
    let l := {| rc_attempts := rc_attempts l + 1; rc_lastErr := rc_lastErr l; rc_releaseTries := rc_releaseTries l;
                rc_unserved := rc_unserved l; rc_saved := rc_saved l |} in
    w ← look lf_world;
    match ev_ctx w with
    | Some e => giveUpReconnecting (EWrap "reconnect aborted" e)
    | None =>
        if (0 <? cf_maxReconnectAttempts cfg) && (cf_maxReconnectAttempts cfg <? rc_attempts l)
        then giveUpReconnecting (exhausted (rc_lastErr l))
        else mret l
    end.

(** The loop, for [fuel] rounds; running out is told apart as [Panic]. *)
Fixpoint reconnect_loop (fuel : nat) (l : rounds) : lc W () :=
  match fuel with
  | O => lift_res Panic
  | S fuel =>
      l ← loop_guard l;
      r ← reconnect_round l;
      match r with inl _ => mret tt | inr l => reconnect_loop fuel l end
  end.

Definition flap (s : life W) : life W :=
  set_flapCount (nextFlapCount (lf_flapCount s) (lf_lastConnected s) (ev_now (lf_world s)) (servedNothing s)) s.

Definition flap_cooldown : lc W () :=
  _ ← act flap;
  n ← look lf_flapCount;
  if 0 <? n then pause (reconnectBackoff (cf_backoff cfg) n)
                   "reconnect aborted during flap cooldown" "connection closed during flap cooldown"
  else mret tt.

Definition reconnect_owned (fuel : nat) : lc W () :=
  _ ← act (set_reconnectDone true);
  _ ← flap_cooldown;
  _ ← act (set_disconnected true);
  saved ← look lf_handles;
  _ ← act (set_handles []);
  _ ← tearDownAndReset;
  reconnect_loop fuel {| rc_attempts := 0; rc_lastErr := None; rc_releaseTries := 0; rc_unserved := 0; rc_saved := saved |}.

(** The deferred hand-off of the ownership. *)
Definition hand_off {A} (_ : res A) (s : life W) : life W :=
  let s := set_owner false (set_reconnectDone false s) in
  if cf_autoReconnect cfg && negb (isClosed' s) && lf_disconnected s then set_spawned (lf_spawned s + 1) s else s.

Definition Reconnect (fuel : nat) : lc W () := fun s =>
  if isClosed' s then (set_reconnectDone false s, Err (EMsg "connection closed"))
  else if lf_owner s then (s, Ok tt)
  else deferred hand_off (fun s =>
    let '(f, from, ok) := transitionToOnce (lf_fsm s) SessionStateReconnecting in
    if negb ok && negb (bool_decide (from = SessionStateReconnecting)) then (s, Ok tt)
    else reconnect_owned fuel (set_fsm f s)) (set_owner true s).
End Connect.
