(* ===== verification/LifeLogic.v ===== *)
(** A program logic for the operations of Lifecycle.v and Connect.v: triples with a
    postcondition for success and one for failure, their rules and a tactic, and the
    traversal that carries an invariant through every operation, once and for all. *)
From S2P Require Import Prelude Wire Strconv Defs Ams Fsm Client Route Policies LifeState Lifecycle Connect.

(** ** Triples *)

Section Triple.
Context {W : Type}.
Implicit Types P : life W -> Prop.

(** [crash]: whether the operation may panic or run out of fuel. *)
Definition triple {A} (crash : Prop) P (m : lc W A) (Q : A -> life W -> Prop) (X : goerr -> life W -> Prop) : Prop :=
  forall s, P s -> match m s with
              | (s', Ok a) => Q a s'
              | (s', Err e) => X e s'
              | (_, Panic) => crash
              end.

Context (crash : Prop).

Lemma t_ret A P (a : A) (Q : A -> life W -> Prop) X : (forall s, P s -> Q a s) -> triple crash P (mret a) Q X.
Proof. intros HQ s Hs. by apply HQ. Qed.

Lemma t_fails A P (Q : A -> life W -> Prop) (X : goerr -> life W -> Prop) e :
  (forall s, P s -> X e s) -> triple crash P (fails e) Q X.
Proof. intros HX s Hs. by apply HX. Qed.

Lemma t_act P f (Q : () -> life W -> Prop) X : (forall s, P s -> Q tt (f s)) -> triple crash P (act f) Q X.
Proof. intros HQ s Hs. by apply HQ. Qed.

Lemma t_look A P (f : life W -> A) (Q : A -> life W -> Prop) X :
  (forall s, P s -> Q (f s) s) -> triple crash P (look f) Q X.
Proof. intros HQ s Hs. by apply HQ. Qed.

Lemma t_bind A B P (m : lc W A) (f : A -> lc W B) R Q X :
  triple crash P m R X -> (forall a, triple crash (R a) (f a) Q X) -> triple crash P (m ≫= f) Q X.
Proof.
  intros Hm Hf s Hs. unfold mbind, lc_bind. specialize (Hm s Hs).
  destruct (m s) as [s' [a|e|]]; [by apply Hf|done|done].
Qed.

Lemma t_tried A P (m : lc W A) (Q : A + goerr -> life W -> Prop) X :
  triple crash P m (fun a => Q (inl a)) (fun e => Q (inr e)) -> triple crash P (tried m) Q X.
Proof. intros Hm s Hs. unfold tried. specialize (Hm s Hs). by destruct (m s) as [s' [a|e|]]. Qed.

Lemma t_deferred A P (m : lc W A) fin (Q : A -> life W -> Prop) (X : goerr -> life W -> Prop) :
  triple crash P m (fun a s => Q a (fin (Ok a) s)) (fun e s => X e (fin (Err e) s)) ->
  triple crash P (deferred fin m) Q X.
Proof. intros Hm s Hs. unfold deferred. specialize (Hm s Hs). by destruct (m s) as [s' [a|e|]]. Qed.

Lemma t_weaken A P P' (m : lc W A) (Q Q' : A -> life W -> Prop) (X X' : goerr -> life W -> Prop) :
  triple crash P' m Q' X' -> (forall s, P s -> P' s) -> (forall a s, Q' a s -> Q a s) ->
  (forall e s, X' e s -> X e s) -> triple crash P m Q X.
Proof.
  intros Hm HP HQ HX s Hs. specialize (Hm s (HP s Hs)).
  destruct (m s) as [s' [a|e|]]; eauto.
Qed.

Lemma t_given A P P' (m : lc W A) (Q : A -> life W -> Prop) (X : goerr -> life W -> Prop) :
  (forall s, P s -> P' s) -> triple crash P' m Q X -> triple crash P m Q X.
Proof. intros HP Hm s Hs. by apply Hm, HP. Qed.

Lemma t_lift_res A P (r : res A) Q X :
  (forall s, P s -> match r with Ok a => Q a s | Err e => X e s | Panic => crash end) ->
  triple crash P (lift_res r) Q X.
Proof. intros Hr s Hs. specialize (Hr s Hs). unfold lift_res. by destruct r. Qed.

Lemma t_and A P P' (m : lc W A) Q Q' X X' :
  triple crash P m Q X -> triple crash P' m Q' X' ->
  triple crash (fun s => P s /\ P' s) m (fun a s => Q a s /\ Q' a s) (fun e s => X e s /\ X' e s).
Proof.
  intros H1 H2 s [Hs Hs']. specialize (H1 s Hs). specialize (H2 s Hs').
  destruct (m s) as [s' [a|e|]]; auto.
Qed.

Lemma t_pre A P (m : lc W A) Q X : (forall s, P s -> triple crash (eq s) m Q X) -> triple crash P m Q X.
Proof. intros Hm s Hs. by apply (Hm s Hs). Qed.

(** The triple read off at one state. *)
Lemma t_run A P (m : lc W A) Q X s : triple crash P m Q X -> P s ->
  match m s with (s', Ok a) => Q a s' | (s', Err e) => X e s' | (_, Panic) => crash end.
Proof. intros Hm Hs. by apply Hm. Qed.
End Triple.

(** ** What an invariant reads *)

(** Two states alike in all that an invariant of this library looks at. *)
Record frame {W} (s s' : life W) : Prop := {
  fr_fsm : lf_fsm s' = lf_fsm s; fr_gen : lf_connectedGen s' = lf_connectedGen s;
  fr_closedCh : lf_closedCh s' = lf_closedCh s; fr_shutdown : lf_shutdown s' = lf_shutdown s;
  fr_open : lf_open s' = lf_open s; fr_conn : lf_conn s' = lf_conn s; fr_ctx : lf_ctx s' = lf_ctx s;
  fr_cancelled : lf_cancelled s' = lf_cancelled s; fr_listener : lf_listener s' = lf_listener s;
  fr_peerStopped : lf_peerStopped s' = lf_peerStopped s; fr_spawned : lf_spawned s <= lf_spawned s';
  fr_client : lk_ctx <$> lf_client s' = lk_ctx <$> lf_client s }.

Lemma frame_refl {W} (s : life W) : frame s s.
Proof. by constructor. Qed.

Lemma frame_on_client {W} f (s : life W) : (forall c, lk_ctx (f c) = lk_ctx c) -> frame s (on_client f s).
Proof.
  intros Hf. constructor; try done. cbn. destruct (lf_client s); cbn; [by rewrite Hf|done].
Qed.

Lemma frame_trans {W} (s1 s2 s3 : life W) : frame s1 s2 -> frame s2 s3 -> frame s1 s3.
Proof. intros [] []. constructor; try congruence. lia. Qed.

Ltac frame_tac := solve [ apply frame_on_client; intros; reflexivity | constructor; cbn; done || lia ].

Section Frames.
Context {W : Type} `{cfg : config}.
Lemma frame_SetOnDrop b (s : life W) : frame s (SetOnDrop b s). Proof. frame_tac. Qed.
Lemma frame_begin (s : life W) : frame s (beginHandshake s). Proof. frame_tac. Qed.
Lemma frame_end (s : life W) : frame s (endHandshake s). Proof. frame_tac. Qed.
Lemma frame_seen_ok (s : life W) : frame s (frame_seen s). Proof. frame_tac. Qed.
Lemma frame_world w (s : life W) : frame s (set_world w s). Proof. frame_tac. Qed.
Lemma frame_failures n (s : life W) : frame s (set_failures n s). Proof. frame_tac. Qed.
Lemma frame_route r (s : life W) : frame s (set_route r s). Proof. frame_tac. Qed.
Lemma frame_forget (s : life W) : frame s (forgetPeerRouteHostIfUnused s).
Proof. unfold forgetPeerRouteHostIfUnused. destruct (_ =? 0); frame_tac. Qed.
Lemma frame_healing (s : life W) : frame s (healing s).
Proof. unfold healing. destruct (shouldSkip _); frame_tac. Qed.
Lemma frame_handshake (s : life W) b : frame s (beginHandshake (SetOnDrop b s)).
Proof. eapply frame_trans; [apply frame_SetOnDrop|apply frame_begin]. Qed.
Lemma frame_handshake_end (s : life W) b : frame s (SetOnDrop b (endHandshake s)).
Proof. eapply frame_trans; [apply frame_end|apply frame_SetOnDrop]. Qed.
End Frames.

Create HintDb frames.
#[export] Hint Resolve frame_refl frame_SetOnDrop frame_begin frame_end frame_seen_ok frame_world frame_failures
  frame_route frame_forget frame_healing frame_handshake frame_handshake_end : frames.
#[export] Hint Extern 4 (frame _ _) => constructor; cbn; solve [done | lia] : frames.

(** ** Invariants that survive everything *)

(** [m] preserves [J], however it ends. *)
Notation keeps crash J m := (triple crash J m (fun _ => J) (fun _ => J)).

Section Steady.
Context {W : Type} `{Env W} `{cfg : config}.

(** [J] survives what the other goroutines do, and what no invariant reads. *)
Class Steady (J : life W -> Prop) : Prop := {
  steady_frame s s' : frame s s' -> J s -> J s';
  steady_event s e : J s -> J (apply_event s e) }.

Context (J : life W -> Prop) `{!Steady J} (crash : Prop).

Lemma k_frame f : (forall s, frame s (f s)) -> keeps crash J (act f).
Proof. intros Hf. apply t_act. intros s Hs. eapply steady_frame; eauto. Qed.

Lemma k_look A (f : life W -> A) : keeps crash J (look f).
Proof. by apply t_look. Qed.

Lemma k_ret A (a : A) : keeps crash J (mret a).
Proof. by apply t_ret. Qed.

Lemma k_fails A e : keeps crash J (fails (A:=A) e).
Proof. by apply t_fails. Qed.

Lemma k_lift A (r : res A) : (r = Panic -> crash) -> keeps crash J (lift_res r).
Proof. intros Hr. apply t_lift_res. intros s Hs. destruct r; auto. Qed.

Lemma k_bind A B (m : lc W A) (f : A -> lc W B) :
  keeps crash J m -> (forall a, keeps crash J (f a)) -> keeps crash J (m ≫= f).
Proof. intros Hm Hf. by eapply t_bind. Qed.

Lemma k_tried A (m : lc W A) : keeps crash J m -> keeps crash J (tried m).
Proof. intros Hm. apply t_tried. by eapply t_weaken. Qed.

Lemma k_deferred A (m : lc W A) fin :
  keeps crash J m -> (forall r s, J s -> J (fin r s)) -> keeps crash J (deferred fin m).
Proof. intros Hm Hf. apply t_deferred. eapply t_weaken; eauto. Qed.

Lemma happen_ind (P : life W -> Prop) s :
  (forall w s, P s -> P (set_world w s)) -> (forall s e, P s -> P (apply_event s e)) -> P s -> P (happen s).
Proof.
  intros HW HE Hs. unfold happen. destruct (ev_happen (lf_world s)) as [w evs].
  apply (HW w) in Hs. revert Hs. generalize (set_world w s). clear s.
  induction evs as [|e evs IH]; intros s Hs; cbn; [done|]. by apply IH, HE.
Qed.

Lemma k_happen s : J s -> J (happen s).
Proof.
  apply happen_ind; [|apply steady_event]. intros w t Ht. eapply steady_frame; [apply frame_world|done].
Qed.

Lemma k_blocking A (op : W -> W * A) : keeps crash J (blocking op).
Proof.
  intros s Hs. unfold blocking. destruct (op _) as [w a].
  apply k_happen. eapply steady_frame; [apply frame_world|done].
Qed.

Lemma k_yield : keeps crash J yield.
Proof. intros s Hs. by apply k_happen. Qed.
End Steady.

Create HintDb lc.
#[export] Hint Resolve k_look k_ret k_fails k_blocking k_yield k_frame : lc.
#[export] Hint Extern 3 (triple _ _ (lift_res (Err _)) _ _) => apply k_lift; discriminate : lc.

(** The assertion between the two halves of a sequence. *)
Ltac after R := apply t_bind with (fun _ => R).

#[export] Hint Extern 0 (Steady _) => typeclasses eauto : lc.

(** Walks through an operation that preserves the invariant. *)
Ltac kp_step :=
  first [ solve [eauto 3 with lc frames nocore]
        | apply k_bind; [|intros]
        | apply k_tried
        | apply k_deferred; [|solve [intros; cbv beta; eapply steady_frame; [|eassumption]; auto with frames]]
        | match goal with |- triple _ _ (match ?x with _ => _ end) _ _ => destruct x end ].
Ltac kp := repeat kp_step.
