(* ===== verification/LifeInv.v ===== *)
(** An invariant carried through every operation of Lifecycle.v and Connect.v: what it
    must survive ([Inv]), and the traversal. *)
From S2P Require Import Prelude Wire Strconv Defs Ams Fsm Client Route Policies LifeState Lifecycle Connect LifeLogic.

Section Inv.
Context {W : Type} `{Env W} `{cfg : config}.

(** [I] holds whenever the session may be observed, [T] moreover when the transport is
    torn down: a teardown leads from [I] to [T], a dial from [T] to [I]. *)
Class Inv (I T : life W -> Prop) : Prop := {
  #[global] inv_steady :: Steady I;
  #[global] inv_steady_T :: Steady T;
  inv_T s : T s -> I s;
  inv_listen s : I s -> lf_closedCh s = false -> lf_peerStopped s = false -> I (set_listener true s);
  inv_listen_T s : T s -> lf_closedCh s = false -> lf_peerStopped s = false -> T (set_listener true s);
  inv_tear s : I s -> T (markDropped (close_conn (set_cancelled true s)));
  inv_fresh s : T s -> T (set_cancelled false (set_ctx (lf_ctx s + 1) s));
  inv_disc s : T s -> T (transitionState SessionStateDisconnected s);
  inv_giveup s : I s -> I (end_session s);
  inv_dial : triple True T dialAndStart (fun _ => I) (fun _ => T) }.

Lemma k_blocking_res A J `{!Steady J} (op : W -> W * res A) : keeps True J (blocking_res op).
Proof. unfold blocking_res. kp. by apply k_lift. Qed.

Lemma k_request A J `{!Steady J} k (op : W -> W * res A) : keeps True J (request k op).
Proof.
  intros s Hs. unfold request. destruct (lf_client s) as [c|]; [|done].
  destruct (lf_disconnected s); [done|]. destruct (lifecycle_done k s); [done|].
  destruct (lk_dropped c); [done|]. destruct (ctx_live s (lk_ctx c)); [|by apply k_happen].
  by apply (k_blocking_res A J op).
Qed.

Lemma k_wait_for J `{!Steady J} k d : keeps True J (wait_for k d).
Proof.
  intros s Hs. unfold wait_for. destruct (ev_wait d (lf_world s)) as [w e].
  apply (k_happen J). eapply steady_frame; [apply frame_world|done].
Qed.
Hint Resolve k_blocking_res k_request k_wait_for : lc.

Lemma k_waitDuringActivation J `{!Steady J} k d : keeps True J (waitDuringActivation k d).
Proof. unfold waitDuringActivation. kp. Qed.

Lemma k_AddRoute J `{!Steady J} : keeps True J AddRoute.
Proof. unfold AddRoute. kp. Qed.
Hint Resolve k_waitDuringActivation k_AddRoute : lc.

Lemma k_peer_probes J `{!Steady J} n : keeps True J (peer_probes n).
Proof. induction n; cbn; kp. Qed.

Lemma k_router_awake J `{!Steady J} fuel d : keeps True J (router_awake_loop fuel d).
Proof. induction fuel; cbn; [by apply k_lift|]. kp. Qed.
Hint Resolve k_peer_probes k_router_awake : lc.

Context (I T : life W -> Prop) `{!Inv I T}.

Lemma t_tear : triple True I tearDownAndReset (fun _ => T) (fun _ => T).
Proof.
  unfold tearDownAndReset. apply t_bind with (fun _ => T); [apply t_act; intros s Hs; by apply inv_tear|intros _].
  apply (k_bind T); [kp|intros _]. apply t_act. intros s. by apply inv_fresh.
Qed.

(** An update no invariant reads, in whatever triple. *)
Lemma t_frame J (HJ : Steady J) (X : goerr -> life W -> Prop) f :
  (forall s, frame s (f s)) -> triple True J (act f) (fun _ => J) X.
Proof. intros Hf. apply t_act. intros s Hs. by eapply steady_frame; [apply Hf|]. Qed.

Lemma t_resetForRetry : triple True I resetForRetry (fun _ => T) (fun _ => T).
Proof.
  unfold resetForRetry. after I; [|intros _; apply t_tear].
  apply t_frame; [apply _|auto with frames].
Qed.

Lemma t_redial : keeps True I redialDuringHandshake.
Proof.
  unfold redialDuringHandshake. apply (k_bind I); [kp|intros _].
  after T; [eapply t_weaken; [apply t_tear|auto|auto|intros; by apply inv_T]|intros _].
  after I; [eapply t_weaken; [apply inv_dial|auto|auto|intros; by apply inv_T]|intros _]. kp.
Qed.

Lemma k_startPeerListener J (HJ : Steady J) :
  (forall s, J s -> lf_closedCh s = false -> lf_peerStopped s = false -> J (set_listener true s)) ->
  keeps True J startPeerListener.
Proof.
  intros HL. apply t_pre. intros s Hs. unfold startPeerListener, look, mbind, lc_bind, id. intros ? <-.
  destruct (lf_listener s); [done|]. destruct (lf_peerStopped s) eqn:Hp; [done|].
  destruct (lf_closedCh s) eqn:Hc; [done|]. destruct (ev_listen (lf_world s)) as [w r]. cbn.
  assert (Hw : J (set_world w s)) by (eapply steady_frame; [apply frame_world|done]).
  destruct r; cbn; [|done..]. by apply HL.
Qed.
Lemma t_listen : keeps True I startPeerListener.
Proof. apply k_startPeerListener; [apply _|]. intros. by apply inv_listen. Qed.
Lemma t_listen_T : keeps True T startPeerListener.
Proof. apply k_startPeerListener; [apply _|]. intros. by apply inv_listen_T. Qed.
Hint Resolve t_redial t_listen t_listen_T : lc.

Lemma k_fallback : keeps True I tryPeerFallback.
Proof. unfold tryPeerFallback. kp. Qed.

Lemma k_handshake A (m : lc W A) : keeps True I m -> keeps True I (handshake m).
Proof. intros Hm. unfold handshake. kp; try exact Hm. Qed.

Lemma k_probe_retry fuel d : keeps True I (probe_retry_loop fuel d).
Proof. induction fuel; cbn; [by apply k_lift|]. unfold probeRouteVersion. kp. Qed.
Hint Resolve k_fallback k_probe_retry : lc.

Lemma k_ensureRouteOnConnect : keeps True I ensureRouteOnConnect.
Proof.
  unfold ensureRouteOnConnect. apply (k_bind I); [kp|intros [|]; [kp|]]. apply k_handshake.
  unfold probeRouteVersion, awaitRouterAwake, register_after_probe. kp.
Qed.

Lemma k_activation k fuel d r : keeps True I (activation_loop k fuel d r).
Proof.
  revert r. induction fuel as [|fuel IH]; intros r; cbn; [by apply k_lift|].
  unfold probeRouteVersion, recordRuntimeState. kp.
Qed.
Hint Resolve k_activation : lc.

Lemma k_awaitRouteActive k : keeps True I (awaitRouteActive k).
Proof. unfold awaitRouteActive. apply k_handshake. kp. Qed.
Hint Resolve k_ensureRouteOnConnect k_awaitRouteActive : lc.

Lemma k_ensureRoute : keeps True I ensureRoute.
Proof. unfold ensureRoute, probeRouteVersion. kp. Qed.

Lemma k_rescue : keeps True I rescue.
Proof. unfold rescue. kp. Qed.

Lemma k_localHandshake : keeps True I localHandshake.
Proof.
  unfold localHandshake. kp; [|by apply k_lift].
  intros s Hs. unfold send_local. destruct (lf_client s) as [c|]; [|done].
  destruct (lk_dropped c); [done|]. destruct (ctx_live s (lk_ctx c)); [|done]. by apply (k_blocking_res bytes I ev_local).
Qed.

Lemma k_runtimeStateQuietly : keeps True I runtimeStateQuietly.
Proof. unfold runtimeStateQuietly, recordRuntimeState. kp. Qed.
Hint Resolve k_ensureRoute k_rescue k_localHandshake k_runtimeStateQuietly : lc.

(** ** Reconnect *)

Lemma t_giveUp A J (Q : A -> life W -> Prop) e : (forall s, J s -> I s) ->
  triple True J (giveUpReconnecting e) Q (fun _ => I).
Proof. intros HJ s Hs. by apply inv_giveup, HJ. Qed.

Lemma t_pause d a c : triple True T (pause d a c) (fun _ => T) (fun _ => I).
Proof.
  unfold pause. apply t_bind with (fun _ => T).
  - eapply t_weaken; [by apply (k_wait_for T)|auto|auto|intros; by apply inv_T].
  - intros [|e|]; [by apply t_ret|by apply t_giveUp, inv_T|apply t_fails, inv_T].
Qed.

Lemma t_retryAfter err l : triple True I (retryAfter err l) (fun _ => T) (fun _ => I).
Proof.
  unfold retryAfter. after I; [by apply (k_look I)|intros q].
  after T; [eapply t_weaken; [apply t_resetForRetry|auto|auto|intros; by apply inv_T]|intros _].
  assert (HC : triple True T coolDownAfterUnserved (fun _ => T) (fun _ => I)).
  { unfold coolDownAfterUnserved.
    after T; [eapply t_weaken; [apply t_tear|intros; by apply inv_T|auto|intros; by apply inv_T]|intros _].
    after T; [apply t_frame; auto with frames; apply _|intros _]. apply t_pause. }
  destruct (_ || q); [destruct (_ <=? _)|].
  - after T; [exact HC|intros _]. by apply t_ret.
  - after T; [apply t_pause|intros _]. by apply t_ret.
  - after T; [apply t_pause|intros _]. by apply t_ret.
Qed.

Lemma k_release_saved l : triple True I (release_saved l) (fun _ => I) (fun _ => I).
Proof.
  unfold release_saved. destruct (rc_saved l) as [|h hs]; [kp|].
  apply (k_bind I); [|intros; kp]. intros s Hs. unfold bestEffortDelete.
  destruct (ev_delete _ _) as [w n]. apply (k_happen I). eapply steady_frame; [|exact Hs].
  eapply frame_trans; [apply (frame_world w)|auto with frames].
Qed.

(** The post of a round: connected under [C], or torn down for the next one. *)
Definition round_post (C : life W -> Prop) (r : () + rounds) : life W -> Prop :=
  match r with inl _ => C | inr _ => T end.

Lemma t_retry C err l :
  triple True I (retry err l) (round_post C) (fun _ => I).
Proof. unfold retry. after T; [apply t_retryAfter|intros]. by apply t_ret. Qed.

Lemma t_reconnected C `{!Steady C} X : triple True I settle (fun _ => C) X -> triple True I reconnected (fun _ => C) X.
Proof.
  intros HC. unfold reconnected. after I; [apply t_frame; [apply _|auto with frames]|intros _].
  after C; [exact HC|intros _].
  after C; [apply t_frame; [done|unfold announce; intros s; destruct (_ && _); auto with frames]|intros _].
  intros s Hs. by apply (k_happen C).
Qed.

(** [C]: what the end of a reconnect makes of [I]. *)
Lemma t_round C l : triple True I reconnected (fun _ => C) (fun _ => I) ->
  triple True T (reconnect_round l) (round_post C) (fun _ => I).
Proof.
  intros HC. unfold reconnect_round.
  after T; [apply t_frame; [apply _|auto with frames]|intros _].
  apply t_bind with (fun d => match d with inl _ => I | inr _ => T end).
  { apply t_tried. eapply t_weaken; [apply inv_dial|auto|auto|auto]. }
  intros [_|e]; [|after T; [apply t_pause|intros _]; by apply t_ret].
  unfold restore. after I; [destruct (cf_local cfg); kp|intros [_|e]; [|apply t_retry]].
  after I; [kp|intros [_|e]; [|apply t_retry]].
  after I; [apply k_release_saved|intros l'].
  after I; [kp|intros [_|e]; [|apply t_retry]].
  after I; [kp|intros [_|e]].
  - after C; [exact HC|intros _]. by apply t_ret.
  - destruct (errors_is _ e); [|apply t_retry].
    after T; [eapply t_weaken; [apply t_resetForRetry|auto|auto|intros; by apply inv_T]|intros _].
    after T; [apply t_pause|intros _]. by apply t_ret.
Qed.

Lemma t_loop_guard l : triple True T (loop_guard l) (fun _ => T) (fun _ => I).
Proof.
  unfold loop_guard. after T; [by apply t_look|intros [|]]; [apply t_fails, inv_T|].
  after T; [by apply t_look|intros w]. destruct (ev_ctx w); [by apply t_giveUp, inv_T|].
  destruct (_ && _); [by apply t_giveUp, inv_T|]. by apply t_ret.
Qed.

Lemma t_loop C fuel l :
  (forall l, triple True T (reconnect_round l) (round_post C) (fun _ => I)) ->
  triple True T (reconnect_loop fuel l) (fun _ => C) (fun _ => I).
Proof.
  intros HR. revert l. induction fuel as [|fuel IH]; intros l; cbn; [by apply t_lift_res|].
  after T; [apply t_loop_guard|intros l'].
  eapply t_bind; [apply HR|intros [?|l'']]; [by apply t_ret|apply IH].
Qed.

Lemma t_owned C fuel :
  (forall l, triple True T (reconnect_round l) (round_post C) (fun _ => I)) ->
  triple True I (reconnect_owned fuel) (fun _ => C) (fun _ => I).
Proof.
  intros HR. unfold reconnect_owned. after I; [kp|intros _].
  after I; [unfold flap_cooldown|intros _].
  { after I; [apply t_frame; [apply _|unfold flap; auto with frames]|intros _].
    after I; [by apply t_look|intros n]. destruct (0 <? n); [|by apply t_ret].
    unfold pause. after I; [by apply k_wait_for, _|intros [|e|]]; [by apply t_ret|by apply t_giveUp|by apply t_fails]. }
  after I; [kp|intros _]. after I; [by apply t_look|intros saved].
  after I; [kp|intros _].
  after T; [eapply t_weaken; [apply t_tear|auto|auto|intros; by apply inv_T]|intros _].
  by apply t_loop.
Qed.

(** ** Connect *)

Lemma t_abandon A (Q : A -> life W -> Prop) e : triple True I (abandon e) Q (fun _ => T).
Proof. unfold abandon. after T; [apply t_tear|intros _]. by apply t_fails. Qed.

Lemma t_drop A (Q : A -> life W -> Prop) e : triple True I (drop_to_disconnected e) Q (fun _ => T).
Proof.
  unfold drop_to_disconnected. after T; [apply t_tear|intros _].
  after T; [|intros _; by apply t_fails]. apply t_act. intros s. by apply inv_disc.
Qed.

Lemma t_connect_local : triple True I connect_local (fun _ => I) (fun _ => T).
Proof.
  unfold connect_local. destruct (cf_local cfg); [|by apply t_ret].
  after I; [apply t_tried, k_localHandshake|intros [_|e]]; [by apply t_ret|apply t_abandon].
Qed.

Lemma t_rescued A (m : () + option goerr -> lc W A) (Q : A -> life W -> Prop) X :
  (forall r, triple True I (m r) Q X) -> triple True I (rescue ≫= m) Q X.
Proof. intros Hm. after I; [|exact Hm]. unfold rescue. apply t_bind with (fun _ => I); [apply t_tried, k_fallback|].
  intros [[|]|]; [|by apply t_ret|by apply t_ret]. after I; [|intros _; by apply t_ret].
  apply t_frame; [apply _|auto with frames].
Qed.

Lemma t_connect_route : triple True I connect_route (fun _ => I) (fun _ => T).
Proof.
  unfold connect_route. after I; [by apply t_look|intros r].
  destruct (shouldSkip r); [by apply t_ret|].
  after I; [apply t_tried, k_ensureRouteOnConnect|intros a].
  after I; [intros s Hs; by apply (k_happen I)|intros _].
  destruct a as [[|]|e]; [|by apply t_ret|apply t_abandon].
  after T; [apply t_tear|intros _].
  after T; [apply t_frame; [apply _|auto with frames]|intros _].
  apply t_bind with (fun d => match d with inl _ => I | inr _ => T end).
  { apply t_tried. eapply t_weaken; [apply inv_dial|auto|auto|auto]. }
  intros [_|e]; [|by apply t_fails].
  after I; [apply t_tried, k_awaitRouteActive|intros [v|e]]; [by apply t_ret|].
  destruct (errors_is _ e); [by apply t_ret|].
  apply t_rescued. intros [_|f]; [by apply t_ret|apply t_abandon].
Qed.

Lemma t_connect_version : triple True I connect_version (fun _ => I) (fun _ => T).
Proof.
  unfold connect_version. after I; [apply t_tried; by apply (k_request _ I)|intros [v|e]]; [by apply t_ret|].
  destruct (errors_is _ e); [after I; [by apply t_look|intros b]; apply t_drop|].
  destruct (isUnservedError _); [|by apply t_ret].
  after I; [by apply t_look|intros p].
  after I; [apply t_tried; by apply (k_request _ I)|intros st].
  destruct (isUnservedError _); [|by apply t_ret].
  apply t_rescued. intros [_|f]; [by apply t_ret|apply t_drop].
Qed.

Lemma t_connect_finish C `{!Steady C} X v : triple True I settle (fun _ => C) X ->
  triple True I (connect_finish v) (fun _ => C) X.
Proof.
  intros HC. unfold connect_finish.
  after I; [apply t_frame; [apply _|intros s; destruct v; auto with frames]|intros _].
  after I; [apply t_frame; [apply _|unfold startRuntimeStateWatch; intros s; destruct (_ || _); auto with frames]|intros _].
  after I; [apply t_tried, k_runtimeStateQuietly|intros _].
  after I; [apply t_frame; [apply _|auto with frames]|intros _].
  after C; [exact HC|intros _]. intros s Hs. by apply (k_happen C).
Qed.

(** Connect behind its first dial. *)
Lemma t_connect_rest C `{!Steady C} : triple True I settle (fun _ => C) (fun _ => T) ->
  triple True I (_ ← connect_local; v ← connect_route;
                 v ← (match v with Some _ => mret v | None => connect_version end); connect_finish v)
    (fun _ => C) (fun _ => T).
Proof.
  intros HC. after I; [apply t_connect_local|intros _]. after I; [apply t_connect_route|intros v].
  after I; [destruct v; [by apply t_ret|apply t_connect_version]|intros v']. by apply t_connect_finish.
Qed.

(** Connect ahead of it; [J] is what a session that has not dialled yet has. *)
Lemma t_connect_body (J : life W -> Prop) C `{!Steady J} `{!Steady C} :
  (forall s, J s -> T s) ->
  (forall s, J s -> lf_closedCh s = false -> lf_peerStopped s = false -> J (set_listener true s)) ->
  triple True J connect_dial (fun _ => I) (fun _ => T) ->
  triple True I settle (fun _ => C) (fun _ => T) ->
  triple True J connect_body (fun _ => C) (fun _ => T).
Proof.
  intros HJ HL HD HC. unfold connect_body.
  assert (HE : forall A (m : lc W A), keeps True J m -> triple True J m (fun _ => J) (fun _ => T))
    by (intros A m Hm; eapply t_weaken; [exact Hm|auto..]).
  after J; [apply HE; unfold listen_if_configured; destruct (_ =? 0); [by apply t_ret|by apply k_startPeerListener]|intros _].
  after J; [apply t_frame; [done|unfold localTarget; intros s; destruct (_ && _); auto with frames]|intros _].
  after J; [apply HE|intros _].
  { destruct (_ && _); [|by apply t_ret]. unfold verifyTarget.
    apply (k_bind J); [apply (k_tried J); by apply k_blocking_res|intros [r|e]]; [|by apply t_ret].
    unfold applyTargetCheck. apply (k_bind J); [by apply t_look|intros s].
    destruct (decide _); [by apply t_ret|]. destruct (decide _); [by apply t_fails|by apply t_ret]. }
  after I; [exact HD|intros _]. by apply t_connect_rest.
Qed.
End Inv.
