(* ===== verification/LifeFacts.v ===== *)
(** The invariants of a session's lifecycle: which fields move together, that at most
    one socket is open, and that a closed session stays down. *)
From S2P Require Import Prelude Wire Strconv Defs Ams Fsm Client Route Policies LifeState Lifecycle Connect LifeLogic LifeInv.

Section Facts.
Context {W : Type} `{Env W} `{cfg : config}.
Implicit Types s : life W.

(** ** Releasing and closing *)

Lemma frame_release_symbols hs s : frame s (release_symbols hs s).
Proof.
  revert s. induction hs as [|h hs IH]; intros s; cbn; [apply frame_refl|].
  destruct (isDisconnected _); [apply frame_refl|]. destruct (ev_release h _) as [w err].
  destruct (_ || _); [apply frame_world|]. eapply frame_trans; [apply (frame_world w)|apply IH].
Qed.

Lemma frame_releasePLCResources b s : frame s (releasePLCResources b s).
Proof.
  unfold releasePLCResources, take_handles.
  assert (Hd : forall hs (t : life W), frame t (match hs with [] => t | _ => (bestEffortDelete hs t).1 end)).
  { intros [|h hs] t; [apply frame_refl|]. unfold bestEffortDelete. destruct (ev_delete _ _) as [w n].
    eapply frame_trans; [apply (frame_world w)|auto with frames]. }
  set (s1 := set_handles [] s).
  eapply frame_trans; [apply (ltac:(auto with frames) : frame s s1)|].
  eapply frame_trans; [apply (Hd (lf_handles s))|].
  destruct b; [apply frame_refl|apply frame_release_symbols].
Qed.

(** What shutting the transport down leaves of a state. *)
Record shut s s' : Prop := {
  sh_fsm : lf_fsm s' = lf_fsm s; sh_gen : lf_connectedGen s' = lf_connectedGen s;
  sh_closedCh : lf_closedCh s' = lf_closedCh s; sh_spawned : lf_spawned s <= lf_spawned s';
  sh_conn : lf_conn s' = lf_conn s; sh_ctx : lf_ctx s' = lf_ctx s;
  sh_client : lk_ctx <$> lf_client s' = lk_ctx <$> lf_client s;
  sh_shutdown : lf_shutdown s' = true;
  sh_down : lf_shutdown s = false -> lf_cancelled s' = true /\ lf_listener s' = false /\ lf_peerStopped s' = true
            /\ lf_open s' = match lf_conn s with Some n => lf_open s ∖ {[n]} | None => lf_open s end;
  sh_same : lf_shutdown s = true -> s' = s }.

Lemma markDropped_ctx s : lk_ctx <$> lf_client (markDropped s) = lk_ctx <$> lf_client s.
Proof. cbn. by destruct (lf_client s). Qed.

Lemma shutdownTransport_shut b s : shut s (shutdownTransport b s).
Proof.
  unfold shutdownTransport. destruct (lf_shutdown s) eqn:Hs; [constructor; done || lia || congruence|].
  set (s1 := stopPeerListener (set_shutdown true s)).
  destruct (frame_releasePLCResources b s1) as [F1 F2 F3 F4 F5 F6 F7 F8 F9 F10 F11 F12].
  cbn zeta. set (s2 := releasePLCResources b s1) in *. clearbody s2. cbn in *.
  assert (Hc : lf_conn (set_cancelled true s2) = lf_conn s2) by done.
  unfold close_conn. rewrite Hc, F6. destruct (lf_conn s) as [n|] eqn:Hn; constructor; cbn; try congruence; try lia.
  all: try (destruct (lf_client s2), (lf_client s); cbn in *; congruence).
  all: intros _; repeat split; try congruence; by rewrite Hn, <- F5.
Qed.

(** [Close] and [end_session] in one shape. *)
Lemma Close_shape s : exists s0, s0 = set_closedCh true (set_fsm (transitionToOnce (lf_fsm s) SessionStateClosed).1.1 s) /\
  exists s1, shut s0 s1 /\ Close s = markDropped s1.
Proof. eexists; split; [done|]. eexists; split; [apply shutdownTransport_shut|done]. Qed.

Lemma end_session_shape s : shut (set_closedCh true (set_fsm (transitionToOnce (lf_fsm s) SessionStateClosed).1.1 s)) (end_session s).
Proof. apply shutdownTransport_shut. Qed.

Lemma once_closed f : fsm_value (transitionToOnce f SessionStateClosed).1.1 = SessionStateClosed.
Proof.
  unfold transitionToOnce. destruct (decide _) as [|Hn]; [done|].
  rewrite allowed_to_closed by done. done.
Qed.

(** ** Invariants of the machine's fields only *)

Class Simple (I : life W -> Prop) : Prop := {
  si_core s s' : lf_fsm s' = lf_fsm s -> lf_connectedGen s' = lf_connectedGen s -> lf_spawned s <= lf_spawned s' -> I s -> I s';
  si_fsm s e : e ∈ [EvTo SessionStateDisconnected; EvOnce SessionStateClosed] -> I s -> I (set_fsm (Fsm.step (lf_fsm s) e) s) }.

Lemma si_disc I `{!Simple I} s : I s -> I (transitionState SessionStateDisconnected s).
Proof. intros Hs. apply (si_fsm s (EvTo SessionStateDisconnected)); [set_solver|done]. Qed.

Lemma si_closed I `{!Simple I} s s' :
  shut (set_closedCh true (set_fsm (transitionToOnce (lf_fsm s) SessionStateClosed).1.1 s)) s' -> I s -> I s'.
Proof.
  intros [F1 F2 _ F3 _ _ _ _ _ _] Hs. cbn in *.
  pose proof (si_fsm s (EvOnce SessionStateClosed) ltac:(set_solver) Hs) as Hc. by eapply si_core; [..|exact Hc].
Qed.

Lemma si_trigger I `{!Simple I} s : I s -> I (triggerReconnect s).
Proof.
  intros Hs. unfold triggerReconnect. destruct (isClosed' s); [done|].
  assert (H1 : I (if negb (lf_disconnected s) then transitionState SessionStateDisconnected (set_disconnected true s) else s)).
  { destruct (lf_disconnected s); [done|]. apply (si_disc I). by eapply si_core; [..|exact Hs]. }
  revert H1. cbn zeta. generalize (if negb (lf_disconnected s) then transitionState SessionStateDisconnected (set_disconnected true s) else s).
  intros t Ht.
  assert (H2 : I (if negb (lf_disconnected s) && cf_onDisconnect cfg && negb (isClosed' t)
                  then set_onDisconnectCalls (lf_onDisconnectCalls t + 1) t else t))
    by (destruct (_ && _); [by eapply si_core; [..|exact Ht]|done]).
  revert H2. generalize (if negb (lf_disconnected s) && cf_onDisconnect cfg && negb (isClosed' t)
                  then set_onDisconnectCalls (lf_onDisconnectCalls t + 1) t else t). intros u Hu.
  destruct (lf_connecting u); [done|]. destruct (cf_autoReconnect cfg); eapply si_core; try exact Hu; cbn; lia || done.
Qed.

Lemma close_conn_core s : lf_fsm (close_conn s) = lf_fsm s /\ lf_connectedGen (close_conn s) = lf_connectedGen s
  /\ lf_spawned (close_conn s) = lf_spawned s.
Proof. unfold close_conn. by destruct (lf_conn s). Qed.

#[export] Instance Simple_Steady I `{!Simple I} : Steady I.
Proof.
  split.
  - intros s s' [] Hs. by eapply si_core; [..|exact Hs].
  - intros s [] Hs; cbn.
    + unfold callOnDrop. destruct (lf_client s) as [c|]; [|done]. destruct (ctx_live _ _); [|done].
      assert (Hm : I (markDropped s)) by by eapply si_core; [..|exact Hs].
      destruct (lk_armed c); [by apply si_trigger|done].
    + by eapply si_core; [..|exact Hs].
    + destruct (Close_shape s) as (s0 & -> & s1 & Hsh & ->).
      pose proof (si_closed I s s1 Hsh Hs) as Hc. by eapply si_core; [..|exact Hc].
    + destruct (_ && _); [|done]. by eapply si_core; [..|exact Hs].
Qed.

Lemma si_dialTCP I `{!Simple I} : keeps True I dialTCP.
Proof.
  unfold dialTCP. apply (k_bind I); [by apply k_blocking_res, _|intros ip].
  apply (k_bind I); [by apply t_look|intros n].
  apply (k_bind I); [|intros _; by apply t_ret]. apply t_act. intros s Hs. by eapply si_core; [..|exact Hs].
Qed.

Lemma si_dial I `{!Simple I} : triple True I dialAndStart (fun _ => I) (fun _ => I).
Proof.
  unfold dialAndStart. after I; [by apply si_dialTCP|]. intros [n ip]. apply (k_bind I); [apply t_act; intros s Hs; by eapply si_core; [..|exact Hs]|intros _].
  apply (k_bind I); [by apply t_look|intros [|]].
  - apply (k_bind I); [|intros _; by apply t_fails]. apply t_act. intros s Hs.
    destruct (close_conn_core s) as (E1 & E2 & E3). eapply si_core; [..|exact Hs]; cbn; congruence || lia.
  - apply (k_bind I); [|intros _]; apply t_act; intros s Hs; [|by eapply si_core; [..|exact Hs]].
    destruct (lf_conn s); [by eapply si_core; [..|exact Hs]|done].
Qed.

#[export] Instance Simple_Inv I `{!Simple I} : Inv I I.
Proof.
  split; try apply _; try done.
  - intros s Hs _ _. by eapply si_core; [..|exact Hs].
  - intros s Hs _ _. by eapply si_core; [..|exact Hs].
  - intros s Hs. eapply si_core; [..|exact Hs]; unfold close_conn; cbn; by destruct (lf_conn s).
  - intros s Hs. by eapply si_core; [..|exact Hs].
  - intros s. by apply si_disc.
  - intros s Hs. exact (si_closed I s _ (end_session_shape s) Hs).
  - by apply si_dial.
Qed.

(** ** Sockets, and what Close leaves *)

(** At most one socket is open, the session's current one. *)
Definition one_open s : Prop := lf_open s ⊆ match lf_conn s with Some n => {[n]} | None => ∅ end.

(** The fields a close moves agree; once closed nothing listens and nothing will. *)
Record sane s : Prop := {
  sn_closed : isClosed' s = lf_closedCh s; sn_shut : lf_shutdown s = lf_closedCh s;
  sn_deaf : lf_closedCh s = true -> lf_listener s = false /\ lf_peerStopped s = true;
  sn_one : one_open s }.

(** [up]: a closed session holds no socket.  [torn]: nor does this one.  [half]: a close
    landed while Connect was dialling: the socket is still open, the client on it already
    cancelled, and no request can be answered. *)
Definition up s : Prop := sane s /\ (lf_closedCh s = true -> lf_open s = ∅).
Definition torn s : Prop := sane s /\ lf_open s = ∅.
Definition half s : Prop :=
  sane s /\ (lf_closedCh s = true ->
    lf_open s = ∅ \/ lf_cancelled s = true /\ lk_ctx <$> lf_client s = Some (lf_ctx s)).

Lemma torn_up s : torn s -> up s.
Proof. by intros [? ?]. Qed.
Lemma up_half s : up s -> half s.
Proof. intros [? Hc]. split; [done|]. auto. Qed.

(** Alike up to moves of the machine that neither close nor reopen it. *)
Definition moved s s' : Prop := isClosed' s' = isClosed' s /\ frame (set_connectedGen (lf_connectedGen s') (set_fsm (lf_fsm s') s)) s'.

Lemma moved_frame s s' : frame s s' -> moved s s'.
Proof. intros []. split; [unfold isClosed'; congruence|]. by constructor. Qed.
Lemma moved_trans s1 s2 s3 : moved s1 s2 -> moved s2 s3 -> moved s1 s3.
Proof. intros [E1 []] [E2 []]. cbn in *. split; [congruence|]. constructor; cbn; try congruence; lia. Qed.

Lemma land_closed f w : w <> SessionStateClosed -> isClosed (transitionTo f w).1.1 = isClosed f.
Proof.
  intros Hw. destruct (decide (fsm_value f = SessionStateClosed)) as [E|E].
  - unfold transitionTo. by rewrite decide_False, E, allowed_closed by congruence.
  - unfold isClosed. rewrite !bool_decide_eq_false_2; [done|done|].
    rewrite transitionTo_value. by repeat case_match.
Qed.

Lemma moved_disc s : moved s (transitionState SessionStateDisconnected s).
Proof. split; [by apply land_closed|]. by constructor. Qed.

Lemma moved_trigger s : moved s (triggerReconnect s).
Proof.
  unfold triggerReconnect. destruct (isClosed' s); [apply moved_frame, frame_refl|]. cbn zeta.
  set (s1 := if negb (lf_disconnected s) then _ else s).
  assert (H1 : moved s s1).
  { subst s1. destruct (lf_disconnected s); cbn; [apply moved_frame, frame_refl|].
    eapply moved_trans; [|apply moved_disc]. apply moved_frame. auto with frames. }
  set (s2 := if _ && _ then _ else s1).
  assert (H2 : moved s s2).
  { subst s2. destruct (_ && _); [|done]. eapply moved_trans; [exact H1|]. apply moved_frame. auto with frames. }
  clearbody s2. clear H1 s1. destruct (lf_connecting s2); [done|].
  destruct (cf_autoReconnect cfg); (eapply moved_trans; [exact H2|apply moved_frame; auto with frames]).
Qed.

Lemma moved_dropped s : moved s (markDropped s).
Proof. apply moved_frame. unfold markDropped. apply frame_on_client. done. Qed.

Lemma moved_onDrop s : moved s (callOnDrop s).
Proof.
  unfold callOnDrop. destruct (lf_client s) as [c|]; [|apply moved_frame, frame_refl].
  destruct (ctx_live _ _); [|apply moved_frame, frame_refl].
  destruct (lk_armed c); [|apply moved_dropped]. eapply moved_trans; [apply moved_dropped|apply moved_trigger].
Qed.

Lemma sane_moved s s' : moved s s' -> sane s -> sane s'.
Proof.
  intros [E []] []. cbn in *. split; try congruence.
  - intros Hc. rewrite fr_listener, fr_peerStopped. apply sn_deaf0. congruence.
  - unfold one_open in *. by rewrite fr_open, fr_conn.
Qed.

Lemma torn_moved s s' : moved s s' -> torn s -> torn s'.
Proof. intros Hm [Hs Ho]. split; [by eapply sane_moved|]. destruct Hm as [_ []]. cbn in *. congruence. Qed.
Lemma up_moved s s' : moved s s' -> up s -> up s'.
Proof.
  intros Hm [Hs Ho]. split; [by eapply sane_moved|]. destruct Hm as [_ []]. cbn in *.
  intros Hc. rewrite fr_open. apply Ho. congruence.
Qed.
Lemma half_moved s s' : moved s s' -> half s -> half s'.
Proof.
  intros Hm [Hs Ho]. split; [by eapply sane_moved|]. destruct Hm as [_ []]. cbn in *.
  intros Hc. rewrite fr_open, fr_cancelled, fr_client, fr_ctx. apply Ho. congruence.
Qed.

(** A close either changes nothing any more, or leaves nothing open. *)
Lemma close_sane s s' : sane s ->
  shut (set_closedCh true (set_fsm (transitionToOnce (lf_fsm s) SessionStateClosed).1.1 s)) s' ->
  moved s s' \/ torn s' /\ lf_cancelled s' = true.
Proof.
  intros [S1 S2 S3 S4] Hsh. destruct (lf_closedCh s) eqn:Hc.
  - left. destruct Hsh as [F1 F2 F3 F4 F5 F6 F7 F8 _ F10]. cbn in *. rewrite F10 by done.
    assert (E : (transitionToOnce (lf_fsm s) SessionStateClosed).1.1 = lf_fsm s)
      by (unfold transitionToOnce; rewrite decide_True; [done|by apply bool_decide_eq_true in S1]).
    split; [unfold isClosed'; cbn; by rewrite E|]. constructor; cbn; done || congruence.
  - right. destruct Hsh as [F1 F2 F3 F4 F5 F6 F7 F8 F9 _]. cbn in *.
    destruct F9 as (G1 & G2 & G3 & G4); [congruence|].
    assert (Ho : lf_open s' = ∅).
    { rewrite G4. unfold one_open in S4. destruct (lf_conn s); set_solver. }
    split; [|done]. split; [|done]. split; [|congruence|done|].
    + unfold isClosed'. rewrite F1, F3. apply bool_decide_eq_true, once_closed.
    + unfold one_open. rewrite Ho. set_solver.
Qed.

Lemma close_event (J : life W -> Prop) s :
  (forall s s', moved s s' -> J s -> J s') -> (forall s, torn s -> lf_cancelled s = true -> J s) -> (forall s, J s -> sane s) ->
  (J s -> J (Close s)) /\ (J s -> J (end_session s)).
Proof.
  intros HM HT HS. split; intros Hs.
  - destruct (Close_shape s) as (s0 & -> & s1 & Hsh & ->). apply (HM s1); [apply moved_dropped|].
    destruct (close_sane s s1 (HS s Hs) Hsh) as [|[??]]; eauto.
  - destruct (close_sane s _ (HS s Hs) (end_session_shape s)) as [|[??]]; eauto.
Qed.

Lemma steady_of (J : life W -> Prop) :
  (forall s s', moved s s' -> J s -> J s') -> (forall s, torn s -> lf_cancelled s = true -> J s) -> (forall s, J s -> sane s) -> Steady J.
Proof.
  intros HM HT HS. split.
  - intros s s' Hf. by apply HM, moved_frame.
  - intros s [] Hs; cbn.
    + eapply HM; [apply moved_onDrop|done].
    + eapply HM; [apply moved_frame, frame_seen_ok|done].
    + by apply (close_event J s HM HT HS).
    + destruct (_ && _); [|done]. eapply HM; [apply moved_frame|exact Hs]. auto with frames.
Qed.

#[export] Instance torn_steady : Steady torn.
Proof. apply steady_of; [apply torn_moved|done|by intros s []]. Qed.
#[export] Instance up_steady : Steady up.
Proof. apply steady_of; [apply up_moved|auto using torn_up|by intros s []]. Qed.
#[export] Instance half_steady : Steady half.
Proof. apply steady_of; [apply half_moved|intros; by apply up_half, torn_up|by intros s []]. Qed.

(** [torn], and cancelled when closed: how Connect finds a session it may dial. *)
Definition fresh s : Prop := torn s /\ (lf_closedCh s = true -> lf_cancelled s = true).
#[export] Instance fresh_steady : Steady fresh.
Proof.
  apply steady_of; [|by intros s|by intros s [[]]].
  intros s s' Hm [Ht Hc]. split; [by eapply torn_moved|]. destruct Hm as [_ []]. cbn in *.
  intros ?. rewrite fr_cancelled. apply Hc. congruence.
Qed.

(** ** Dialing *)

(** A socket of ours, [n], is open and the session is otherwise torn down. *)
Definition dialed n s : Prop := sane (set_open ∅ s) /\ lf_open s = {[n]}.

Lemma t_dialTCP (J : life W -> Prop) `{!Steady J} (R : life W -> Prop) :
  (forall s, J s -> torn s /\ R s) -> (forall s n o, R s -> R (set_open o (set_nextSock n s))) ->
  triple True J dialTCP (fun r s => dialed r.1 s /\ R s) (fun _ => J).
Proof.
  intros HJ HR. unfold dialTCP. after J; [by apply k_blocking_res|intros ip].
  apply t_bind with (fun n s => J s /\ n = lf_nextSock s); [by apply t_look|intros n].
  apply t_bind with (fun _ s => dialed n s /\ R s); [|intros _; by apply t_ret].
  apply t_act. intros s [Hs ->]. destruct (HJ s Hs) as [[[S1 S2 S3 S4] Ho] Hr].
  split; [|by apply HR]. split; [|cbn; rewrite Ho; set_solver].
  split; done || (unfold one_open; set_solver).
Qed.

(** The dialled socket becomes the current one. *)
Lemma dialed_conn n s : dialed n s -> sane (set_conn (Some n) s) /\ lf_open (set_conn (Some n) s) = {[n]}.
Proof. intros [[S1 S2 S3 S4] Ho]. split; [|done]. split; try done. unfold one_open. cbn. by rewrite Ho. Qed.

Lemma dial_up : triple True torn dialAndStart (fun _ => up) (fun _ => torn).
Proof.
  unfold dialAndStart. eapply t_bind; [apply (t_dialTCP torn (fun _ => True)); auto|intros [n ip]].
  apply t_bind with (fun _ s => sane s /\ lf_open s = {[n]} /\ lf_conn s = Some n).
  { apply t_act. intros s [Hd _]. destruct (dialed_conn n s Hd) as [??]. done. }
  intros _. apply t_bind with (fun b s => (sane s /\ lf_open s = {[n]} /\ lf_conn s = Some n) /\ b = isClosed' s).
  { by apply t_look. }
  intros [|].
  - after torn; [|intros _; by apply t_fails]. apply t_act. intros s [([S1 S2 S3 S4] & Ho & Hn) _].
    unfold close_conn. rewrite Hn. assert (E : lf_open s ∖ {[n]} = ∅) by (rewrite Ho; set_solver).
    split; [|exact E]. split; try done. unfold one_open. cbn. by rewrite E.
  - assert (Hup : forall s s', frame (set_client (lf_client s') s) s' ->
      (sane s /\ lf_open s = {[n]} /\ lf_conn s = Some n) /\ false = isClosed' s -> up s').
    { intros s s' [] [([S1 S2 S3 S4] & Ho & Hn) Hc]. cbn in *. assert (Hc' : lf_closedCh s = false) by congruence.
      split; [|congruence]. split; [unfold isClosed' in *; congruence|congruence|congruence|].
      unfold one_open. rewrite fr_open, fr_conn, Ho, Hn. done. }
    after (fun s => (sane s /\ lf_open s = {[n]} /\ lf_conn s = Some n) /\ false = isClosed' s).
    + apply t_act. intros s [([S1 S2 S3 S4] & Ho & Hn) Hc]. rewrite Hn. split; [split; [by split|done]|done].
    + intros _. apply t_act. intros s Hs. eapply Hup; [|exact Hs]. by constructor.
Qed.

Lemma sane_listen s : sane s -> lf_closedCh s = false -> sane (set_listener true s).
Proof. intros [] Hc. split; try done. cbn. congruence. Qed.

Lemma half_inv : Inv half torn.
Proof.
  split; try apply _.
  - intros s Hs. by apply up_half, torn_up.
  - intros s [Hs Ho] Hc _. split; [by apply sane_listen|]. cbn. congruence.
  - intros s [Hs Ho] Hc _. split; [by apply sane_listen|done].
  - intros s [[S1 S2 S3 S4] _].
    assert (Ho : lf_open (close_conn (set_cancelled true s)) = ∅).
    { unfold one_open in S4. unfold close_conn. cbn. destruct (lf_conn s); cbn; set_solver. }
    apply (torn_moved (close_conn (set_cancelled true s))); [apply moved_dropped|].
    split; [|exact Ho]. split; [..|unfold one_open; rewrite Ho; set_solver];
      unfold close_conn; cbn; by destruct (lf_conn s).
  - intros s [[S1 S2 S3 S4] Ho]. split; [by split|done].
  - intros s. apply torn_moved, moved_disc.
  - intros s Hs. apply (close_event half s); [apply half_moved|auto using up_half, torn_up|by intros ? []|done].
  - eapply t_weaken; [apply dial_up|done|auto using up_half|done].
Qed.
#[export] Existing Instance half_inv.

#[export] Instance up_inv : Inv up torn.
Proof.
  split; try apply _.
  - apply torn_up.
  - intros s [Hs Ho] Hc _. split; [by apply sane_listen|]. cbn. congruence.
  - apply inv_listen_T.
  - intros s Hs. by apply inv_tear, up_half.
  - apply inv_fresh.
  - apply inv_disc.
  - intros s Hs. apply (close_event up s); [apply up_moved|auto using torn_up|by intros ? []|done].
  - apply dial_up.
Qed.

(** ** The first dial of Connect *)

Lemma frame_deriveSource ip s : frame s (deriveSource ip s).
Proof. unfold deriveSource. destruct (decide _), ip; auto with frames. Qed.

Lemma k_listen_if_known I T `{!Inv I T} X : triple True I listen_if_known (fun _ => I) X.
Proof.
  unfold listen_if_known. after I; [by apply t_look|intros b]. destruct (_ && b); [|by apply t_ret].
  after I; [apply t_tried; by apply (t_listen I T)|intros _; by apply t_ret].
Qed.

Lemma si_connect_dial I `{!Simple I} : keeps True I connect_dial.
Proof.
  unfold connect_dial. apply (k_bind I); [by apply si_dialTCP|intros [n ip]].
  apply (k_bind I); [apply t_act; intros s Hs; by eapply si_core; [..|exact Hs]|intros _].
  apply (k_bind I); [apply t_frame; [apply _|apply frame_deriveSource]|intros _].
  apply (k_bind I); [apply t_act; intros s Hs; destruct (lf_conn s); [by eapply si_core; [..|exact Hs]|done]|intros _].
  apply (k_bind I); [apply t_frame; [apply _|auto with frames]|intros _].
  apply (k_bind I); [by apply k_yield, _|intros _]. by apply (k_listen_if_known I I).
Qed.

Lemma dial_half : triple True fresh connect_dial (fun _ => half) (fun _ => torn).
Proof.
  unfold connect_dial.
  set (live := fun s : life W => lf_closedCh s = true -> lf_cancelled s = true).
  apply t_bind with (fun r s => dialed r.1 s /\ live s).
  { eapply t_weaken; [apply (t_dialTCP fresh live)|auto|auto|by intros ? s []]; [|done]. by intros s []. }
  intros [n ip]. set (R := fun s => sane s /\ lf_conn s = Some n /\ live s).
  after R; [apply t_act; intros s [Hd Hl]; destruct (dialed_conn n s Hd) as [??]; done|intros _].
  after R.
  { apply t_act. intros s (Hs & Hn & Hl). destruct (frame_deriveSource ip s) as [].
    split; [eapply sane_moved; [apply moved_frame, frame_deriveSource|done]|].
    unfold live. split; [congruence|]. intros Hc. rewrite fr_cancelled. apply Hl. congruence. }
  intros _. after half.
  { apply t_act. intros s (Hs & Hn & Hl). rewrite Hn. split; [destruct Hs as [S1 S2 S3 S4]; by split|].
    cbn. intros Hc. right. by rewrite Hl. }
  intros _. after half; [apply t_frame; [apply _|auto with frames]|intros _].
  after half; [intros s Hs; by apply (k_happen half)|intros _]. by apply (k_listen_if_known half torn).
Qed.

Lemma moved_connected s : moved s (enterConnected s).
Proof.
  unfold enterConnected, Fsm.enterConnected.
  pose proof (land_closed (lf_fsm s) SessionStateConnected ltac:(done)) as Hc.
  destruct (transitionTo _ _) as [[f from] [|]]; by split.
Qed.

Lemma k_settle J `{!Steady J} X : (forall s s', moved s s' -> J s -> J s') -> triple True J settle (fun _ => J) X.
Proof.
  intros HM. unfold settle. after J; [apply t_act; intros s; apply HM, moved_connected|intros _].
  apply t_frame; [done|intros s; unfold stamp_connected; auto with frames].
Qed.

Lemma sane_release s : sane s -> sane (releasePeerListener s).
Proof. intros [S1 S2 S3 S4]. split; try done. intros Hc. split; [done|]. by apply S3. Qed.
End Facts.
