(* ===== verification/ConnectFacts.v ===== *)
(** What Connect and Reconnect promise, whatever the other goroutines do meanwhile. *)
From S2P Require Import Prelude Wire Strconv Defs Ams Fsm Client Route Policies LifeState Lifecycle Connect LifeLogic LifeInv LifeFacts.

Section Contracts.
Context {W : Type} `{Env W} `{cfg : config}.
Implicit Types s : life W.

(** ** The machine *)

(** The machine is in one of [S], reached from [f0] by its own transitions; [g] entries
    into Connected so far, and at least [n] reconnects scheduled. *)
Record machine (S : list SessionState) (f0 : sessionFSM) (g n : Z) s : Prop := {
  mc_in : fsm_value (lf_fsm s) ∈ S; mc_run : exists es, lf_fsm s = Fsm.run f0 es;
  mc_gen : lf_connectedGen s = g; mc_spawned : n <= lf_spawned s }.

(** [S] survives a drop and a close. *)
Definition settled_in (S : list SessionState) : bool :=
  forallb (fun x => forallb (fun e => bool_decide (fsm_value (Fsm.step {| fsm_value := x; fsm_epoch := 0 |} e) ∈ S))
                      [EvTo SessionStateDisconnected; EvOnce SessionStateClosed]) S.

Lemma step_value f e : fsm_value (Fsm.step f e) = fsm_value (Fsm.step {| fsm_value := fsm_value f; fsm_epoch := 0 |} e).
Proof. destruct e as [w|w|]; cbn; [| |done]; unfold transitionTo, transitionToOnce; cbn; by repeat case_match. Qed.

Lemma run_step f0 es e : Fsm.step (Fsm.run f0 es) e = Fsm.run f0 (es ++ [e]).
Proof. unfold Fsm.run. by rewrite foldl_app. Qed.

Lemma machine_simple S f0 g n : settled_in S = true -> Simple (machine S f0 g n).
Proof.
  intros HS. split.
  - intros s s' E1 E2 E3 []. split; try congruence; [|lia].
    destruct mc_run0 as [es Hes]. exists es. congruence.
  - intros s e He [Hin [es Hes] Hg Hn]. split; cbn; try done.
    + rewrite step_value. unfold settled_in in HS. rewrite forallb_forall in HS.
      specialize (HS _ (proj1 (list_elem_of_In _ _) Hin)). rewrite forallb_forall in HS.
      eapply bool_decide_eq_true_1, (HS e). by apply list_elem_of_In.
    + exists (es ++ [e]). by rewrite Hes, run_step.
Qed.

(** [P] or [Q], of machines. *)
Lemma steady_or (P Q : life W -> Prop) : Steady P -> Steady Q -> Steady (fun s => P s \/ Q s).
Proof.
  intros HP HQ. split; [intros s s' Hf [?|?]|intros s e [?|?]].
  1: left; by eapply steady_frame. 1: right; by eapply steady_frame.
  all: [> left | right ]; by apply steady_event.
Qed.

(** Entering Connected, or being refused. *)
Definition connected_or (S : list SessionState) f0 g n s : Prop :=
  machine [SessionStateConnected; SessionStateDisconnected; SessionStateClosed] f0 (u64 (g + 1)) n s
  \/ machine S f0 g n s.

Lemma connected_or_steady S f0 g n : settled_in S = true -> Steady (connected_or S f0 g n).
Proof.
  intros HS. apply steady_or; [|by apply Simple_Steady, machine_simple].
  by apply Simple_Steady, machine_simple.
Qed.

(** From [S] Connected is entered by a genuine connect or reconnect, or refused in [S']. *)
Definition settles (S S' : list SessionState) : bool :=
  forallb (fun x => negb (bool_decide (x = SessionStateConnected)) &&
    (if allowed x SessionStateConnected
     then bool_decide (x = SessionStateConnecting) || bool_decide (x = SessionStateReconnecting)
     else bool_decide (x ∈ S'))) S.

Lemma settle_machine S S' f0 g n X : settles S S' = true ->
  triple True (machine S f0 g n) settle (fun _ => connected_or S' f0 g n) X.
Proof.
  intros HS. unfold settle. apply t_bind with (fun _ => connected_or S' f0 g n).
  - apply t_act. intros s [Hin [es Hes] Hg Hn]. unfold settles in HS. rewrite forallb_forall in HS.
    specialize (HS _ (proj1 (list_elem_of_In _ _) Hin)). apply andb_prop in HS as [H1 H2].
    apply negb_true_iff, bool_decide_eq_false_1 in H1.
    assert (Hr : exists es, (transitionTo (lf_fsm s) SessionStateConnected).1.1 = Fsm.run f0 es)
      by (exists (es ++ [EvTo SessionStateConnected]); by rewrite <- run_step, <- Hes).
    unfold enterConnected, Fsm.enterConnected. revert Hr. unfold transitionTo.
    rewrite decide_False by done. destruct (allowed _ _) eqn:Ha; intros Hr.
    + left. split; cbn; [set_solver|done| |done]. rewrite decide_True, Hg; [done|].
      apply orb_prop in H2 as [H2|H2]; apply bool_decide_eq_true_1 in H2; auto.
    + right. apply bool_decide_eq_true_1 in H2. split; cbn; auto.
  - intros _. apply t_act. intros s [[]|[]]; [left|right]; by split.
Qed.

Definition connect_states : list SessionState := [SessionStateConnecting; SessionStateDisconnected; SessionStateClosed].
Definition reconnect_states : list SessionState := [SessionStateReconnecting; SessionStateClosed].

Lemma connect_settle f0 g n X :
  triple True (machine connect_states f0 g n) settle (fun _ => connected_or [SessionStateDisconnected; SessionStateClosed] f0 g n) X.
Proof. by apply settle_machine. Qed.

Lemma reconnect_settle f0 g n X :
  triple True (machine reconnect_states f0 g n) settle (fun _ => connected_or [SessionStateClosed] f0 g n) X.
Proof. by apply settle_machine. Qed.

(** ** Connect *)

Definition refused_in : list SessionState := [SessionStateDisconnected; SessionStateClosed].

(** The body of Connect, from a session whose slot was just taken. *)
Lemma connect_body_sockets : triple True fresh connect_body (fun _ => half) (fun _ => torn).
Proof.
  apply (t_connect_body half torn fresh half).
  - by intros s [].
  - intros s [[Hs Ho] Hc] Hcl Hp. split; [split; [by apply sane_listen|done]|done].
  - apply dial_half.
  - apply k_settle; [apply _|apply half_moved].
Qed.

Lemma connect_body_machine f0 g n :
  triple True (machine connect_states f0 g n) connect_body (fun _ => connected_or refused_in f0 g n)
    (fun _ => machine connect_states f0 g n).
Proof.
  assert (HM : Simple (machine connect_states f0 g n)) by by apply machine_simple.
  assert (HC : Steady (connected_or refused_in f0 g n)) by by apply connected_or_steady.
  apply (t_connect_body (machine connect_states f0 g n) (machine connect_states f0 g n)
    (machine connect_states f0 g n) (connected_or refused_in f0 g n)).
  - done.
  - intros s [] _ _. by split.
  - by apply si_connect_dial.
  - apply connect_settle.
Qed.

Lemma trigger_connecting s : lf_connecting (triggerReconnect s) = lf_connecting s.
Proof.
  unfold triggerReconnect, transitionState. destruct (isClosed' s); [done|]. cbn zeta.
  destruct (lf_disconnected s), (cf_onDisconnect cfg), (cf_autoReconnect cfg), (lf_connecting s) eqn:E; cbn;
    repeat case_match; cbn in *; congruence.
Qed.

(** A state Connect may start from. *)
Definition may_connect s : Prop :=
  torn s /\ (fsm_value (lf_fsm s) = SessionStateConstructed \/ fsm_value (lf_fsm s) = SessionStateDisconnected).

Lemma may_connect_once s : may_connect s ->
  exists f, transitionToOnce (lf_fsm s) SessionStateConnecting = (f, fsm_value (lf_fsm s), true)
    /\ fsm_value f = SessionStateConnecting /\ f = Fsm.run (lf_fsm s) [EvTo SessionStateConnecting]
    /\ lf_closedCh s = false.
Proof.
  intros [[[S1 _ _ _] _] Hv]. unfold transitionToOnce, isClosed', isClosed in *. eexists.
  assert (Ha : allowed (fsm_value (lf_fsm s)) SessionStateConnecting = true) by (by destruct Hv as [-> | ->]).
  assert (Hn : fsm_value (lf_fsm s) <> SessionStateConnecting) by (by destruct Hv as [-> | ->]).
  assert (Hc : bool_decide (fsm_value (lf_fsm s) = SessionStateClosed) = false) by (by destruct Hv as [-> | ->]).
  rewrite decide_False, Ha by done. split; [done|]. split; [done|]. split; [|congruence].
  cbn. unfold transitionTo. by rewrite decide_False, Ha by done.
Qed.

Lemma connect_start s : may_connect s -> exists s0,
  Connect s = deferred adopt_drop (deferred rollback_on_error (deferred release_on_error connect_body)) s0
  /\ fresh s0 /\ machine connect_states (lf_fsm s) (lf_connectedGen s) (lf_spawned s) s0.
Proof.
  intros Hm. destruct (may_connect_once s Hm) as (f & Hf & Hv & Hr & Hc).
  destruct Hm as [[[S1 S2 S3 S4] Ho] _]. exists (set_connecting true (set_fsm f s)).
  unfold Connect. rewrite Hf. cbn. split; [done|]. split.
  - split; [|cbn; congruence]. split; [|done]. split; try done.
    unfold isClosed', isClosed. cbn. by rewrite Hv, Hc.
  - split; cbn; [rewrite Hv; set_solver|by eexists|done|lia].
Qed.

(** C6. A failed Connect: whatever failed, and whatever the other goroutines did meanwhile,
    no socket is left open, the listener is released, the slot is free and the machine is
    back where a new Connect may start, or closed. *)
Theorem failed_connect_is_clean s s' e : may_connect s -> Connect s = (s', Err e) ->
  lf_open s' = ∅ /\ lf_listener s' = false /\ lf_connecting s' = false
  /\ lf_connectedGen s' = lf_connectedGen s
  /\ (may_connect s' \/ fsm_value (lf_fsm s') = SessionStateClosed).
Proof.
  intros Hm Hrun. destruct (connect_start s Hm) as (s0 & E & Hf & Hma). rewrite E in Hrun.
  pose proof (t_and _ _ _ _ _ _ _ _ _ connect_body_sockets (connect_body_machine _ _ _) s0 (conj Hf Hma)) as Hb.
  unfold deferred in Hrun. destruct (connect_body s0) as [s1 [[]|e1|]]; try by destruct (adopt_drop _ _).
  injection Hrun as <- _. destruct Hb as [Ht Hms].
  set (s2 := releasePeerListener s1).
  assert (Ht2 : torn s2) by (destruct Ht; split; [by apply sane_release|done]).
  assert (Hms2 : machine connect_states (lf_fsm s) (lf_connectedGen s) (lf_spawned s) s2) by (destruct Hms; by split).
  cbn [rollback_on_error]. set (s3 := if decide _ then _ else s2).
  assert (H3 : torn s3 /\ lf_listener s3 = false /\ lf_connectedGen s3 = lf_connectedGen s /\
               fsm_value (lf_fsm s3) ∈ refused_in).
  { subst s3. destruct Hms2 as [Hin _ Hg _]. destruct (decide _) as [Hv|Hv].
    - split; [eapply torn_moved; [apply moved_disc|done]|]. split; [done|]. split; [done|].
      unfold transitionState. cbn. rewrite transitionTo_value. cbn in Hv. rewrite Hv. set_solver.
    - repeat (split; [done|]). unfold connect_states, refused_in in *. set_solver. }
  clearbody s3. destruct H3 as (Ht3 & Hl & Hg & Hv). clear -Ht3 Hl Hg Hv.
  destruct Ht3 as [[S1 S2 S3 S4] Ho]. repeat (split; [done|]).
  unfold refused_in in Hv. rewrite elem_of_cons, list_elem_of_singleton in Hv.
  destruct Hv as [Hv|Hv]; [left|by right]. split; [|by right]. split; [by split|done].
Qed.

(** A drop that is on record, the session open and reconnecting by itself. *)
Definition dropped_live s : Prop := cf_autoReconnect cfg = true /\ isClosed' s = false /\ lf_disconnected s = true.

Lemma adopt_drop_ok s : let s' := adopt_drop (A := ()) (Ok tt) s in
  moved s s' /\ lf_fsm s' = lf_fsm s /\ lf_connectedGen s' = lf_connectedGen s /\ lf_connecting s' = false /\
  lf_disconnected s' = lf_disconnected s /\ (dropped_live s' -> lf_spawned s < lf_spawned s').
Proof.
  unfold adopt_drop, dropped_live. cbn zeta. set (s0 := set_connecting false s).
  assert (H0 : moved s s0) by (apply moved_frame; auto with frames).
  destruct (isClosed' s0) eqn:Hc; [cbn; repeat (split; [done|]); intros (_ & Hx & _); change (isClosed' s0 = false) in Hx; congruence|].
  destruct (lf_disconnected s0) eqn:Hd; cbn; [|repeat (split; [done|]); intros (_ & _ & Hx); change (lf_disconnected s0 = true) in Hx; congruence].
  split; [eapply moved_trans; [exact H0|apply moved_trigger]|].
  rewrite trigger_connecting. unfold triggerReconnect. rewrite Hc, Hd. cbn.
  destruct (cf_autoReconnect cfg); cbn; repeat (split; [done|]); [lia|by intros []].
Qed.


(** ** Reconnect fails only for good *)

Definition shutd s : Prop := lf_closedCh s = true \/ isClosed' s = true.

Lemma t_any A P (m : lc W A) : triple True P m (fun _ _ => True) (fun _ _ => True).
Proof. intros s _. by destruct (m s) as [s' [a|e|]]. Qed.

Lemma e_giveUp A P (Q : A -> life W -> Prop) e : triple True P (giveUpReconnecting e) Q (fun _ => shutd).
Proof. intros s _. left. unfold giveUpReconnecting. destruct (end_session_shape s) as []. cbn in *. congruence. Qed.

Definition ends_down {A} (m : lc W A) : Prop := triple True (fun _ => True) m (fun _ _ => True) (fun _ => shutd).

Lemma e_bind A B (m : lc W A) (f : A -> lc W B) : ends_down m -> (forall a, ends_down (f a)) -> ends_down (m ≫= f).
Proof. intros Hm Hf. eapply t_bind; [exact Hm|intros a; exact (Hf a)]. Qed.
Lemma e_tried A (m : lc W A) : ends_down (tried m).
Proof. apply t_tried. apply t_any. Qed.
Lemma e_act f : ends_down (act f). Proof. by apply t_act. Qed.
Lemma e_ret A (a : A) : ends_down (mret a). Proof. by apply t_ret. Qed.
Lemma e_look A (f : life W -> A) : ends_down (look f). Proof. by apply t_look. Qed.
Lemma e_give A e : ends_down (giveUpReconnecting (A := A) e). Proof. apply e_giveUp. Qed.
Lemma e_yield : ends_down yield. Proof. done. Qed.

Lemma e_pause d a c : ends_down (pause d a c).
Proof.
  intros s _. unfold pause, mbind, lc_bind, wait_for. destruct (ev_wait d _) as [w [e|]].
  - by apply (e_giveUp _ (fun _ => True) (fun _ _ => True)).
  - set (t := happen _). destruct (lf_closedCh t) eqn:Hc; cbn; [by left|]. done.
Qed.

Lemma e_tear : ends_down tearDownAndReset.
Proof. unfold tearDownAndReset. by repeat (apply e_bind; [apply e_act || apply e_yield|intros _]); apply e_act. Qed.
Lemma e_reset : ends_down resetForRetry.
Proof. unfold resetForRetry. apply e_bind; [apply e_act|intros _; apply e_tear]. Qed.
Lemma e_settle : ends_down settle.
Proof. unfold settle. apply e_bind; intros; apply e_act. Qed.

Lemma e_retry err l : ends_down (retryAfter err l).
Proof.
  unfold retryAfter, coolDownAfterUnserved, reconnectSleep. apply e_bind; [apply e_look|intros q].
  apply e_bind; [apply e_reset|intros _].
  destruct (_ || q); [destruct (_ <=? _)|]; (apply e_bind; [|intros _; apply e_ret]); try apply e_pause.
  apply e_bind; [apply e_tear|intros _]. apply e_bind; [apply e_act|intros _; apply e_pause].
Qed.

Lemma e_retry_then err l : ends_down (retry err l).
Proof. unfold retry. apply e_bind; [apply e_retry|intros; apply e_ret]. Qed.

Lemma e_round l : ends_down (reconnect_round l).
Proof.
  unfold reconnect_round, reconnectSleep, release_saved. apply e_bind; [apply e_act|intros _].
  apply e_bind; [apply e_tried|intros [_|e]]; [|apply e_bind; [apply e_pause|intros _; apply e_ret]].
  unfold restore, release_saved. apply e_bind; [destruct (cf_local cfg); [apply e_tried|apply e_ret]|intros [_|e]; [|apply e_retry_then]].
  apply e_bind; [apply e_tried|intros [_|e]; [|apply e_retry_then]].
  apply e_bind; [|intros l'].
  { destruct (rc_saved l); [apply e_ret|]. apply e_bind; [|intros; apply e_ret].
    intros s _. by destruct (bestEffortDelete _ s). }
  apply e_bind; [apply e_tried|intros [_|e]; [|apply e_retry_then]].
  apply e_bind; [apply e_tried|intros [_|e]].
  - apply e_bind; [|intros _; apply e_ret]. unfold reconnected.
    apply e_bind; [apply e_act|intros _]. apply e_bind; [apply e_settle|intros _].
    apply e_bind; [apply e_act|intros _; apply e_yield].
  - destruct (errors_is _ e); [|apply e_retry_then].
    apply e_bind; [apply e_reset|intros _]. apply e_bind; [apply e_pause|intros _; apply e_ret].
Qed.

Lemma e_guard l : ends_down (loop_guard l).
Proof.
  intros s _. unfold loop_guard, mbind, lc_bind, look. destruct (isClosed' s) eqn:Hc; cbn; [by right|].
  destruct (ev_ctx _); [by apply (e_giveUp _ (fun _ => True) (fun _ _ => True))|].
  destruct (_ && _); [by apply (e_giveUp _ (fun _ => True) (fun _ _ => True))|done].
Qed.

Lemma e_loop fuel l : ends_down (reconnect_loop fuel l).
Proof.
  revert l. induction fuel as [|fuel IH]; intros l; cbn; [by intros s _|].
  apply e_bind; [apply e_guard|intros l']. apply e_bind; [apply e_round|intros [_|l'']]; [apply e_ret|apply IH].
Qed.

Lemma e_owned fuel : ends_down (reconnect_owned fuel).
Proof.
  unfold reconnect_owned, flap_cooldown. apply e_bind; [apply e_act|intros _].
  apply e_bind; [|intros _].
  { apply e_bind; [apply e_act|intros _]. apply e_bind; [apply e_look|intros n]. destruct (0 <? n); [apply e_pause|apply e_ret]. }
  apply e_bind; [apply e_act|intros _]. apply e_bind; [apply e_look|intros hs]. apply e_bind; [apply e_act|intros _].
  apply e_bind; [apply e_tear|intros _]. apply e_loop.
Qed.

(** ** No drop is lost by a reconnect *)

(** A session found Disconnected has the drop on record. *)
Definition recorded s : Prop := fsm_value (lf_fsm s) = SessionStateDisconnected -> lf_disconnected s = true.

Lemma recorded_trigger s : recorded s -> recorded (triggerReconnect s).
Proof.
  unfold recorded, triggerReconnect. intros Hs. destruct (isClosed' s); [done|]. cbn zeta.
  destruct (lf_disconnected s) eqn:Hd; cbn.
  - destruct (lf_connecting s), (cf_autoReconnect cfg); cbn; congruence || done.
  - repeat case_match; cbn; done || (intros _; repeat case_match; done).
Qed.

Lemma Close_closed s : fsm_value (lf_fsm (Close s)) = SessionStateClosed.
Proof.
  destruct (Close_shape s) as (s0 & -> & s1 & [F1 _ _ _ _ _ _ _ _ _] & ->). cbn in *.
  rewrite F1. apply once_closed.
Qed.

Lemma recorded_event s e : recorded s -> recorded (apply_event s e).
Proof.
  intros Hs. destruct e; cbn.
  - unfold callOnDrop. destruct (lf_client s) as [c|]; [|done]. destruct (ctx_live _ _); [|done].
    destruct (lk_armed c); [by apply recorded_trigger|done].
  - done.
  - unfold recorded. by rewrite Close_closed.
  - by destruct (_ && _).
Qed.

Lemma enterConnected_value s :
  fsm_value (lf_fsm (enterConnected s)) = fsm_value (transitionTo (lf_fsm s) SessionStateConnected).1.1.
Proof. unfold enterConnected, Fsm.enterConnected. by destruct (transitionTo _ _) as [[f from] [|]]. Qed.

Lemma reconnected_recorded f0 g n :
  triple True (machine reconnect_states f0 g n) reconnected
    (fun _ s => connected_or [SessionStateClosed] f0 g n s /\ recorded s) (fun _ => machine reconnect_states f0 g n).
Proof.
  assert (HM : Simple (machine reconnect_states f0 g n)) by by apply machine_simple.
  assert (HC : Steady (connected_or [SessionStateClosed] f0 g n)) by by apply connected_or_steady.
  assert (H1 : triple True (machine reconnect_states f0 g n) reconnected
    (fun _ => connected_or [SessionStateClosed] f0 g n) (fun _ => machine reconnect_states f0 g n)).
  { apply (t_reconnected (machine reconnect_states f0 g n) (machine reconnect_states f0 g n)); [done|].
    apply reconnect_settle. }
  assert (H2 : triple True (machine reconnect_states f0 g n) reconnected (fun _ => recorded) (fun _ => machine reconnect_states f0 g n)).
  { intros s [Hin _ _ _]. unfold reconnected, settle, mbind, lc_bind, act, yield. cbn.
    apply happen_ind; [done|apply recorded_event|].
    set (s1 := enterConnected _). assert (Hv : fsm_value (lf_fsm s1) <> SessionStateDisconnected).
    { subst s1. rewrite enterConnected_value, transitionTo_value. cbn. unfold reconnect_states in Hin.
      rewrite elem_of_cons, list_elem_of_singleton in Hin. destruct Hin as [-> | ->]; vm_compute; discriminate. }
    unfold announce. by destruct (_ && _); intros E; destruct Hv. }
  intros s Hs. specialize (H1 s Hs). specialize (H2 s Hs). by destruct (reconnected s) as [s1 [a|e|]].
Qed.

(** ** Reconnect *)

Definition reconnect_from : list SessionState :=
  [SessionStateConnecting; SessionStateConnected; SessionStateDisconnected; SessionStateReconnecting].

Lemma owned_machine f0 g n fuel :
  triple True (machine reconnect_states f0 g n) (reconnect_owned fuel)
    (fun _ s => connected_or [SessionStateClosed] f0 g n s /\ recorded s) (fun _ => machine reconnect_states f0 g n).
Proof.
  assert (HM : Simple (machine reconnect_states f0 g n)) by by apply machine_simple.
  apply (t_owned (machine reconnect_states f0 g n) (machine reconnect_states f0 g n)).
  intros l. apply (t_round (machine reconnect_states f0 g n) (machine reconnect_states f0 g n)).
  apply reconnected_recorded.
Qed.

Lemma owned_sockets fuel : triple True up (reconnect_owned fuel) (fun _ => up) (fun _ => up).
Proof.
  apply (t_owned up torn). intros l. apply (t_round up torn). apply (t_reconnected up torn); [apply _|].
  apply k_settle; [apply _|apply up_moved].
Qed.

Lemma hand_off_moved A (r : res A) s : moved s (hand_off r s) /\ lf_fsm (hand_off r s) = lf_fsm s /\
  lf_connectedGen (hand_off r s) = lf_connectedGen s /\ lf_owner (hand_off r s) = false /\
  lf_reconnectDone (hand_off r s) = false /\ lf_disconnected (hand_off r s) = lf_disconnected s /\
  lf_spawned s <= lf_spawned (hand_off r s) /\ (dropped_live s -> lf_spawned s < lf_spawned (hand_off r s)).
Proof.
  unfold hand_off, dropped_live. cbn zeta. set (s0 := set_owner false _).
  assert (H0 : moved s s0) by (apply moved_frame; auto with frames).
  change (isClosed' s0) with (isClosed' s). change (lf_disconnected s0) with (lf_disconnected s).
  destruct (cf_autoReconnect cfg), (isClosed' s), (lf_disconnected s) eqn:Hd; cbn;
    (split; [first [exact H0 | eapply moved_trans; [exact H0|apply moved_frame; auto with frames]]|]);
    repeat (split; [done || lia|]); try lia; intros (? & ? & ?); done || lia.
Qed.

Lemma reconnect_start s fuel : up s -> fsm_value (lf_fsm s) ∈ reconnect_from -> lf_owner s = false ->
  exists s0, Reconnect fuel s = deferred hand_off (reconnect_owned fuel) s0 /\ up s0
    /\ machine reconnect_states (lf_fsm s) (lf_connectedGen s) (lf_spawned s) s0.
Proof.
  intros Hup Hv Ho. assert (Hc : isClosed' s = false).
  { apply bool_decide_eq_false_2. intros E. rewrite E in Hv. unfold reconnect_from in Hv. set_solver. }
  unfold Reconnect. rewrite Hc, Ho.
  assert (Ht : exists f ok, transitionToOnce (lf_fsm s) SessionStateReconnecting = (f, fsm_value (lf_fsm s), ok)
    /\ fsm_value f = SessionStateReconnecting /\ (exists es, f = Fsm.run (lf_fsm s) es)
    /\ negb ok && negb (bool_decide (fsm_value (lf_fsm s) = SessionStateReconnecting)) = false).
  { unfold transitionToOnce. destruct (decide (fsm_value (lf_fsm s) = SessionStateReconnecting)) as [E|E].
    - eexists _, _. split; [done|]. split; [done|]. split; [by exists []|]. by rewrite E.
    - assert (Ha : allowed (fsm_value (lf_fsm s)) SessionStateReconnecting = true).
      { unfold reconnect_from in Hv. rewrite !elem_of_cons in Hv. destruct (fsm_value (lf_fsm s)); try done; exfalso; naive_solver set_solver. }
      rewrite Ha. eexists _, _. split; [done|]. split; [done|]. split; [|done].
      exists [EvTo SessionStateReconnecting]. cbn. unfold transitionTo. by rewrite decide_False, Ha by done. }
  destruct Ht as (f & ok & Hf & Hfv & Hr & Hb). cbn. exists (set_fsm f (set_owner true s)).
  split; [unfold deferred; cbn; rewrite Hf, Hb; done|]. split.
  - eapply up_moved; [|exact Hup]. split; [|by split].
    unfold isClosed', isClosed in *. cbn. rewrite Hfv. symmetry. exact Hc.
  - split; cbn; [rewrite Hfv; set_solver|done|done|lia].
Qed.


(** ** Refinement of the machine *)

Definition ran f0 s : Prop := exists es, lf_fsm s = Fsm.run f0 es.

Lemma ran_simple f0 : Simple (ran f0).
Proof.
  split.
  - intros s s' E _ _ [es Hes]. exists es. congruence.
  - intros s e _ [es Hes]. exists (es ++ [e]). cbn. by rewrite Hes, run_step.
Qed.
Existing Instance ran_simple.

Lemma ran_settle f0 X : triple True (ran f0) settle (fun _ => ran f0) X.
Proof.
  unfold settle. after (ran f0); [|intros _; by apply t_act].
  apply t_act. intros s [es Hes]. exists (es ++ [EvTo SessionStateConnected]). rewrite <- run_step, <- Hes.
  unfold enterConnected, Fsm.enterConnected. cbn. by destruct (transitionTo _ _) as [[f from] [|]].
Qed.

Lemma ran_once s w : ran (lf_fsm s) (set_fsm (transitionToOnce (lf_fsm s) w).1.1 s).
Proof. by exists [EvOnce w]. Qed.

Lemma ran_adopt A f0 (r : res A) s : ran f0 s -> ran f0 (adopt_drop r s).
Proof.
  intros Hs. unfold adopt_drop. cbn zeta. assert (H0 : ran f0 (set_connecting false s)) by done.
  destruct r; [|done..]. destruct (_ && _); [by apply (si_trigger (ran f0))|done].
Qed.

Lemma ran_Connect s : triple True (eq s) Connect (fun _ => ran (lf_fsm s)) (fun _ => ran (lf_fsm s)).
Proof.
  intros s' <-. unfold Connect. pose proof (ran_once s SessionStateConnecting) as Hr.
  destruct (transitionToOnce _ _) as [[f from] [|]]; cbn; [|by exists []].
  refine (t_run True _ (ran (lf_fsm s)) _ _ _ (set_connecting true (set_fsm f s)) _ Hr).
  assert (Hb : triple True (ran (lf_fsm s)) connect_body (fun _ => ran (lf_fsm s)) (fun _ => ran (lf_fsm s))).
  { apply (t_connect_body (ran (lf_fsm s)) (ran (lf_fsm s)) (ran (lf_fsm s)) (ran (lf_fsm s))).
    - done.
    - by intros t [es Hes] _ _; exists es.
    - by apply si_connect_dial, _.
    - apply ran_settle. }
  apply t_deferred, t_deferred, t_deferred. eapply t_weaken; [exact Hb|auto|..].
  - intros a t Ht. by apply ran_adopt.
  - intros e t Ht. apply ran_adopt. unfold rollback_on_error.
    destruct (decide _); [by apply (si_disc (ran (lf_fsm s)))|done].
Qed.

Lemma ran_Reconnect fuel s : triple True (eq s) (Reconnect fuel) (fun _ => ran (lf_fsm s)) (fun _ => ran (lf_fsm s)).
Proof.
  intros s' <-. unfold Reconnect. destruct (isClosed' s); [by exists []|]. destruct (lf_owner s); [by exists []|].
  set (m := fun t => _). enough (Hm : triple True (eq (set_owner true s)) m (fun _ => ran (lf_fsm s)) (fun _ => ran (lf_fsm s))).
  { assert (Hd : forall A (r : res A) t, ran (lf_fsm s) t -> ran (lf_fsm s) (hand_off r t))
      by (intros A r t [es Hes]; exists es; by rewrite (proj1 (proj2 (hand_off_moved A r t)))).
    apply (t_deferred True _ (eq (set_owner true s)) m hand_off (fun _ => ran (lf_fsm s)) (fun _ => ran (lf_fsm s))); [|done].
    eapply t_weaken; [exact Hm|auto| |]; intros; by apply Hd. }
  subst m. intros t <-. pose proof (ran_once s SessionStateReconnecting) as Hr. cbn.
  destruct (transitionToOnce _ _) as [[f from] ok]. destruct (negb ok && _); [by exists []|].
  refine (t_run True _ (ran (lf_fsm s)) _ _ _ (set_fsm f (set_owner true s)) _ Hr).
  apply (t_owned (ran (lf_fsm s)) (ran (lf_fsm s))). intros l. apply (t_round (ran (lf_fsm s)) (ran (lf_fsm s))).
  apply (t_reconnected (ran (lf_fsm s)) (ran (lf_fsm s))); [apply _|apply ran_settle].
Qed.

End Contracts.
