(* ===== verification/ReconnectFacts.v ===== *)
(** Liveness of Reconnect: once the PLC is reachable again, it gets through, after
    exactly as many dials as the outage took. *)
From S2P Require Import Prelude Wire Strconv Defs Ams Fsm Client Route Policies LifeState Lifecycle Connect LifeLogic LifeInv LifeFacts ConnectFacts.

(** An environment in which the next [down w] dials fail and everything else works: no
    other goroutine interferes, waits elapse, requests are answered. *)
Class Recovering (W : Type) `{Env W} (down : W -> nat) : Prop := {
  rv_happen w : (ev_happen w).2 = [] /\ down (ev_happen w).1 = down w;
  rv_ctx w : ev_ctx w = None;
  rv_wait d w : (ev_wait d w).2 = None /\ down (ev_wait d w).1 = down w;
  rv_dial w : match down w with
              | O => (exists ip, (ev_dial w).2 = Ok ip) /\ down (ev_dial w).1 = O
              | S n => (exists e, (ev_dial w).2 = Err e) /\ down (ev_dial w).1 = n
              end;
  rv_version w : (exists v, (ev_version w).2 = Ok v) /\ down (ev_version w).1 = down w;
  rv_local w : (exists b a rest, (ev_local w).2 = Ok b /\ read_addr b = Ok (a, rest)) /\ down (ev_local w).1 = down w;
  rv_addRoute w : (ev_addRoute w).2 = None /\ down (ev_addRoute w).1 = down w;
  rv_delete hs w : down (ev_delete hs w).1 = down w;
  rv_reload w : (ev_reload w).2 = Ok tt /\ down (ev_reload w).1 = down w;
  rv_resubscribe w : (ev_resubscribe w).2 = Ok tt /\ down (ev_resubscribe w).1 = down w }.

Section Liveness.
Context {W : Type} `{Env W} `{cfg : config} (down : W -> nat) `{!Recovering W down}.
Implicit Types s : life W.

(** A run that cannot fail. *)
Notation sure P m Q := (triple False P m Q (fun _ _ => False)).

(** A reconnect in progress: [k] dials will fail, [d] were made, [n] reconnects scheduled. *)
Record trying (k : nat) (d n : Z) s : Prop := {
  tr_state : fsm_value (lf_fsm s) = SessionStateReconnecting; tr_open : lf_closedCh s = false;
  tr_down : down (lf_world s) = k; tr_dials : lf_dials s = d; tr_spawned : lf_spawned s = n }.

(** Up again: the client is current and alive. *)
Record ready (d n : Z) s : Prop := {
  rd_trying : trying 0 d n s; rd_up : lf_disconnected s = false; rd_live : lf_cancelled s = false;
  rd_client : exists c, lf_client s = Some c /\ lk_dropped c = false /\ lk_ctx c = lf_ctx s }.

(** Everything a triple below looks at. *)
Record alike s s' : Prop := {
  al_fsm : lf_fsm s' = lf_fsm s; al_closedCh : lf_closedCh s' = lf_closedCh s; al_dials : lf_dials s' = lf_dials s;
  al_spawned : lf_spawned s' = lf_spawned s; al_disc : lf_disconnected s' = lf_disconnected s;
  al_cancelled : lf_cancelled s' = lf_cancelled s; al_ctx : lf_ctx s' = lf_ctx s;
  al_client : (fun c => (lk_dropped c, lk_ctx c)) <$> lf_client s' = (fun c => (lk_dropped c, lk_ctx c)) <$> lf_client s;
  al_down : down (lf_world s') = down (lf_world s) }.

Lemma trying_alike k d n s s' : alike s s' -> trying k d n s -> trying k d n s'.
Proof. intros [] []. split; congruence. Qed.

Lemma ready_alike d n s s' : alike s s' -> ready d n s -> ready d n s'.
Proof.
  intros Ha [Ht Hu Hl (c & Hc & Hd & Hx)]. split; [by eapply trying_alike|destruct Ha; congruence..|].
  destruct Ha. rewrite Hc in al_client0. destruct (lf_client s') as [c'|]; [|done]. cbn in *.
  exists c'. split; [done|]. injection al_client0 as E1 E2. split; congruence.
Qed.

Lemma alike_happen s : alike s (happen s).
Proof.
  unfold happen. destruct (rv_happen (lf_world s)) as [E1 E2]. destruct (ev_happen _) as [w evs].
  cbn in *. subst evs. by split.
Qed.

Lemma alike_world w s : down w = down (lf_world s) -> alike s (set_world w s).
Proof. by split. Qed.

Lemma alike_trans s1 s2 s3 : alike s1 s2 -> alike s2 s3 -> alike s1 s3.
Proof. intros [] []. split; congruence. Qed.

Lemma alike_on_client f s : (forall c, lk_dropped (f c) = lk_dropped c /\ lk_ctx (f c) = lk_ctx c) -> alike s (on_client f s).
Proof. intros Hf. split; try done. cbn. destruct (lf_client s) as [c|]; cbn; [|done]. by destruct (Hf c) as [-> ->]. Qed.

(** A predicate that reads no more than [alike] keeps. *)
Class Calm (P : life W -> Prop) : Prop := calm s s' : alike s s' -> P s -> P s'.
#[local] Instance trying_calm k d n : Calm (trying k d n).
Proof. intros s s'. apply trying_alike. Qed.
#[local] Instance ready_calm d n : Calm (ready d n).
Proof. intros s s'. apply ready_alike. Qed.

Lemma r_act P `{!Calm P} f : (forall s, alike s (f s)) -> sure P (act f) (fun _ => P).
Proof. intros Hf. apply t_act. intros s. apply calm, Hf. Qed.

Lemma r_look A P (f : life W -> A) : sure P (look f) (fun _ => P).
Proof. by apply t_look. Qed.

Lemma r_blocking_res A P `{!Calm P} (op : W -> W * res A) :
  (forall w, (exists a, (op w).2 = Ok a) /\ down (op w).1 = down w) -> sure P (blocking_res op) (fun _ => P).
Proof.
  intros Hop s Hs. unfold blocking_res, blocking, mbind, lc_bind, lift_res.
  destruct (Hop (lf_world s)) as [[a E1] E2]. destruct (op _) as [w r]. cbn in *. subst r. cbn.
  eapply calm; [|exact Hs]. eapply alike_trans; [by apply alike_world|apply alike_happen].
Qed.

Lemma r_request A k d n (op : W -> W * res A) :
  (forall w, (exists a, (op w).2 = Ok a) /\ down (op w).1 = down w) -> sure (ready d n) (request k op) (fun _ => ready d n).
Proof.
  intros Hop s Hs. unfold request. destruct Hs as [Ht Hu Hl (c & Hc & Hd & Hx)] eqn:Eq. clear Eq.
  rewrite Hc, Hu, Hd. assert (E : lifecycle_done k s = false) by (by destruct k). rewrite E.
  unfold ctx_live. rewrite Hx, Hl, Z.eqb_refl. cbn.
  by apply (r_blocking_res A (ready d n) op Hop).
Qed.

Lemma r_tear k d n : sure (trying k d n) tearDownAndReset (fun _ s => trying k d n s /\ lf_cancelled s = false).
Proof.
  unfold tearDownAndReset. after (trying k d n).
  { apply t_act. intros s []. unfold close_conn. cbn. by destruct (lf_conn s). }
  intros _. after (trying k d n); [intros s Hs; eapply calm; [apply alike_happen|done]|intros _].
  apply t_act. intros s []. by split.
Qed.

Lemma r_pause k d n dl a c : sure (trying k d n) (pause dl a c) (fun _ => trying k d n).
Proof.
  intros s Hs. unfold pause, mbind, lc_bind, wait_for. destruct (rv_wait dl (lf_world s)) as [E1 E2].
  destruct (ev_wait _ _) as [w e]. cbn in *. subst e.
  assert (Ht : trying k d n (happen (set_world w s)))
    by (eapply calm; [eapply alike_trans; [by apply alike_world|apply alike_happen]|exact Hs]).
  rewrite (tr_open _ _ _ _ Ht). done.
Qed.

(** Torn down and about to dial. *)
Definition dialling k d n s : Prop := trying k d n s /\ lf_cancelled s = false.
#[local] Instance dialling_calm k d n : Calm (dialling k d n).
Proof. intros s s' Ha [Ht Hc]. split; [by eapply trying_alike|]. destruct Ha. congruence. Qed.

Lemma r_dial k d n :
  triple False (dialling k d n) dialAndStart (fun _ s => k = O /\ ready d n s)
    (fun _ s => exists k', k = S k' /\ dialling k' d n s).
Proof.
  intros s [Ht Hc]. pose proof (rv_dial (lf_world s)) as Hd. rewrite (tr_down _ _ _ _ Ht) in Hd.
  unfold dialAndStart, dialTCP, blocking_res, blocking, mbind, lc_bind, lift_res, look, act.
  destruct (ev_dial (lf_world s)) as [w r]. cbn in Hd.
  assert (Hh : forall k', down w = k' -> dialling k' d n (happen (set_world w s))).
  { intros k' Hk. eapply calm; [apply alike_happen|]. by destruct Ht; split. }
  destruct k as [|k'].
  - destruct Hd as [[ip ->] Hw]. specialize (Hh O Hw). set (t := happen _) in *. clearbody t.
    destruct Hh as [[Hs Ho Hdn Hdl Hsp] Hca]. cbn.
    assert (E : isClosed' (set_conn (Some (lf_nextSock t))
      (set_open ({[lf_nextSock t]} ∪ lf_open t) (set_nextSock (lf_nextSock t + 1) t))) = false)
      by (apply bool_decide_eq_false_2; cbn; congruence).
    rewrite E. cbn. split; [done|]. split; [by split|done|done|]. by eexists.
  - destruct Hd as [[e ->] Hw]. cbn. eexists. split; [done|]. by apply Hh.
Qed.

Lemma r_handshake A d n (m : lc W A) : sure (ready d n) m (fun _ => ready d n) -> sure (ready d n) (handshake m) (fun _ => ready d n).
Proof.
  intros Hm. unfold handshake. after (ready d n).
  - apply t_act. intros s. apply calm. eapply alike_trans; by apply alike_on_client.
  - intros _. apply t_deferred. eapply t_weaken; [exact Hm|auto| |done].
    intros a s. apply calm. eapply alike_trans; by apply alike_on_client.
Qed.

Lemma r_set_failures P `{!Calm P} x : sure P (act (set_failures x)) (fun _ => P).
Proof. apply r_act; [done|]. by split. Qed.

Lemma r_probe k d n : sure (ready d n) (tried (probeRouteVersion k)) (fun r s => ready d n s /\ exists v, r = inl v).
Proof.
  apply t_tried. eapply t_weaken; [apply (r_request Z k d n ev_version); apply rv_version|auto|by eauto|done].
Qed.

Lemma r_awaitRouteActive k d n : sure (ready d n) (awaitRouteActive k) (fun _ => ready d n).
Proof.
  unfold awaitRouteActive. apply r_handshake.
  after (ready d n); [apply r_look|intros r]. after (ready d n); [apply r_look|intros w].
  unfold activation_fuel. rewrite Nat.add_comm. cbn [Nat.add activation_loop].
  apply t_bind with (fun b s => ready d n s /\ b = false).
  { apply t_look. intros s Hs. split; [done|]. apply bool_decide_eq_false_2.
    rewrite (tr_state _ _ _ _ (rd_trying _ _ _ Hs)). done. }
  intros [|]; [by intros s []|]. apply t_bind with (fun r s => ready d n s /\ exists v, r = inl v).
  { eapply t_weaken; [apply r_probe|by intros s []|auto|done]. }
  intros [v|e]; [|by intros s [_ [v ?]]].
  apply t_given with (ready d n); [by intros s []|]. 
  after (ready d n); [apply (r_set_failures (ready d n))|intros _].
  by apply t_ret.
Qed.

Lemma r_AddRoute P `{!Calm P} : sure P AddRoute (fun _ => P).
Proof.
  intros s Hs. unfold AddRoute, blocking, mbind, lc_bind, act. destruct (rv_addRoute (lf_world s)) as [E1 E2].
  destruct (ev_addRoute _) as [w r]. cbn in *. subst r.
  eapply calm; [|exact Hs]. eapply alike_trans; [by apply (alike_world w)|].
  eapply alike_trans; [apply alike_happen|]. by split.
Qed.

Lemma r_ensureRoute d n : sure (ready d n) ensureRoute (fun _ => ready d n).
Proof.
  unfold ensureRoute. after (ready d n); [apply r_look|intros r]. destruct (shouldSkip r); [by apply t_ret|].
  apply t_bind with (fun b s => ready d n s /\ b = false).
  { apply t_look. intros s Hs. split; [done|]. apply bool_decide_eq_false_2.
    rewrite (tr_state _ _ _ _ (rd_trying _ _ _ Hs)). done. }
  intros [|]; [by intros s []|].
  apply t_given with (ready d n); [by intros s []|].
  destruct (_ || _).
  - destruct (_ && _); [after (ready d n); [apply r_awaitRouteActive|intros _; by apply t_ret]|].
    apply t_bind with (fun r s => ready d n s /\ r = inl ()).
    { apply t_tried. eapply t_weaken; [apply (r_AddRoute (ready d n))|auto|by intros []|done]. }
    intros [[]|e]; [|by intros s []]. apply t_given with (ready d n); [by intros s []|].
    after (ready d n); [apply r_awaitRouteActive|intros _]. apply (r_set_failures (ready d n)).
  - apply t_bind with (fun r s => ready d n s /\ exists v, r = inl v); [apply r_probe|]. intros [v|e]; [|by intros s [_ [v ?]]].
    apply t_given with (ready d n); [by intros s []|]. apply (r_set_failures (ready d n)).
Qed.

Lemma r_localHandshake d n : sure (ready d n) localHandshake (fun _ => ready d n).
Proof.
  intros s Hs. unfold localHandshake, tried, mbind, lc_bind, send_local.
  destruct (rd_client _ _ _ Hs) as (c & Hc & Hd & Hx). rewrite Hc, Hd. unfold ctx_live.
  rewrite Hx, (rd_live _ _ _ Hs), Z.eqb_refl. cbn.
  unfold blocking_res, blocking, mbind, lc_bind, lift_res.
  destruct (rv_local (lf_world s)) as [(b & a & rest & E1 & E2) E3]. destruct (ev_local _) as [w r]. cbn in *. subst r.
  rewrite E2. eapply calm; [|exact Hs].
  eapply alike_trans; [by apply (alike_world w)|]. eapply alike_trans; [apply alike_happen|]. by split.
Qed.

Lemma r_release_saved d n l : sure (ready d n) (release_saved l) (fun l' s => ready d n s).
Proof.
  unfold release_saved. destruct (rc_saved l) as [|h hs]; [by apply t_ret|].
  after (ready d n); [|intros; by apply t_ret]. intros s Hs. unfold bestEffortDelete.
  pose proof (rv_delete (h :: hs) (lf_world s)) as E. destruct (ev_delete _ _) as [w m]. cbn in *.
  eapply calm; [|exact Hs]. eapply alike_trans; [|apply alike_happen].
  eapply alike_trans; [by apply (alike_world w)|by split].
Qed.

(** What the recovered session looks like. *)
Record recovered d n s : Prop := {
  rcv_state : fsm_value (lf_fsm s) = SessionStateConnected; rcv_up : lf_disconnected s = false;
  rcv_dials : lf_dials s = d; rcv_spawned : lf_spawned s = n }.

Lemma r_reconnected d n : sure (ready d n) reconnected (fun _ => recovered d n).
Proof.
  intros s [[Hs Ho Hw Hd Hn] Hu Hl _]. unfold reconnected, settle, mbind, lc_bind, act, yield. cbn.
  set (t := announce _). assert (Ht : recovered d n t).
  { subst t. unfold announce. set (u := stamp_connected _).
    assert (Hr : recovered d n u).
    { subst u. split; cbn; [rewrite enterConnected_value, transitionTo_value; cbn; by rewrite Hs|..];
        unfold enterConnected; by destruct (Fsm.enterConnected _ _). }
    destruct (_ && _); [by destruct Hr|done]. }
  destruct (alike_happen t) as [E1 _ E3 E4 E5 _ _ _ _]. destruct Ht. split; congruence.
Qed.

Lemma r_tried_sure A P (m : lc W A) Q : sure P m (fun _ => Q) -> sure P (tried m) (fun r s => Q s /\ exists a, r = inl a).
Proof. intros Hm. apply t_tried. eapply t_weaken; [exact Hm|auto|by eauto|done]. Qed.

(** One round: connected when the dial gets through, otherwise one failure fewer to go. *)
Lemma r_round k d n l : sure (dialling k d n) (reconnect_round l) (fun r s =>
  match k with
  | O => r = inl tt /\ recovered (d + 1) n s
  | S k' => exists l', r = inr l' /\ rc_attempts l' = rc_attempts l /\ dialling k' (d + 1) n s
  end).
Proof.
  unfold reconnect_round. after (dialling k (d + 1) n).
  { apply t_act. intros s [[Hs Ho Hw Hd Hn] Hc]. split; [split; try done; cbn; lia|done]. }
  intros _. apply t_bind with (fun r s => match r with
    | inl _ => k = O /\ ready (d + 1) n s
    | inr _ => exists k', k = S k' /\ dialling k' (d + 1) n s
    end); [apply t_tried, r_dial|].
  intros [_|e].
  - destruct k; [|by intros s []]. set (R := ready (d + 1) n).
    apply t_given with R; [by intros s []|].
    unfold restore. apply t_bind with (fun r s => R s /\ exists a, r = inl a).
    { destruct (cf_local cfg); [apply r_tried_sure, r_localHandshake|by apply t_ret; eauto]. }
    intros [[]|e]; [|by intros s [_ [? ?]]]. apply t_given with R; [by intros s []|].
    apply t_bind with (fun r s => R s /\ exists a, r = inl a); [apply r_tried_sure, r_ensureRoute|].
    intros [[]|e]; [|by intros s [_ [? ?]]]. apply t_given with R; [by intros s []|].
    after R; [apply r_release_saved|intros l'].
    apply t_bind with (fun r s => R s /\ exists a, r = inl a).
    { apply r_tried_sure, r_blocking_res; [apply _|]. intros w. destruct (rv_reload w). eauto. }
    intros [[]|e]; [|by intros s [_ [? ?]]]. apply t_given with R; [by intros s []|].
    apply t_bind with (fun r s => R s /\ exists a, r = inl a).
    { apply r_tried_sure, r_blocking_res; [apply _|]. intros w. destruct (rv_resubscribe w). eauto. }
    intros [[]|e]; [|by intros s [_ [? ?]]]. apply t_given with R; [by intros s []|].
    after (recovered (d + 1) n); [apply r_reconnected|intros _]. by apply t_ret.
  - destruct k as [|k']; [by intros s (? & ? & _)|]. apply t_given with (dialling k' (d + 1) n).
    { by intros s (? & [= <-] & ?). }
    after (dialling k' (d + 1) n); [|intros _; apply t_ret; by eauto].
    intros s [Ht Hc]. pose proof (r_pause k' (d + 1) n (reconnectBackoff (cf_backoff cfg) (rc_attempts l))
      "reconnect aborted during backoff" "connection closed during reconnect" s Ht) as Hp.
    unfold reconnectSleep. revert Hp. unfold pause, mbind, lc_bind, wait_for.
    destruct (rv_wait (reconnectBackoff (cf_backoff cfg) (rc_attempts l)) (lf_world s)) as [E1 E2].
    destruct (ev_wait _ _) as [w e']. cbn in *. subst e'. destruct (lf_closedCh _); [done|]. cbn.
    intros Hp. split; [done|]. destruct (alike_happen (set_world w s)). cbn in *. congruence.
Qed.

(** Rounds left: none of the maximum is exceeded. *)
Definition affords (a : Z) (k : nat) : Prop := cf_maxReconnectAttempts cfg <= 0 \/ a + Z.of_nat k + 1 <= cf_maxReconnectAttempts cfg.

Lemma r_guard k d n l : affords (rc_attempts l) k ->
  sure (dialling k d n) (loop_guard l) (fun l' s => rc_attempts l' = rc_attempts l + 1 /\ dialling k d n s).
Proof.
  intros Ha s [Ht Hc]. unfold loop_guard, mbind, lc_bind, look.
  assert (E : isClosed' s = false) by (apply bool_decide_eq_false_2; rewrite (tr_state _ _ _ _ Ht); done).
  rewrite E, rv_ctx. cbn.
  assert (Em : (0 <? cf_maxReconnectAttempts cfg) && (cf_maxReconnectAttempts cfg <? rc_attempts l + 1) = false)
    by (unfold affords in Ha; lia).
  rewrite Em. done.
Qed.

Lemma r_loop k : forall fuel d n l, (k < fuel)%nat -> affords (rc_attempts l) k ->
  sure (dialling k d n) (reconnect_loop fuel l) (fun _ => recovered (d + Z.of_nat k + 1) n).
Proof.
  induction k as [|k IH]; intros fuel d n l Hf Ha; (destruct fuel as [|fuel]; [lia|]); cbn [reconnect_loop];
    (eapply t_bind; [by apply r_guard|intros l']); cbn beta.
  - apply t_pre. intros s0 [Ha' Hs0]. apply t_given with (dialling 0 d n); [by intros s <-|].
    eapply t_bind; [apply (r_round 0 d n l')|]. intros r. cbn beta iota.
    apply t_pre. intros s1 [-> Hr]. apply t_ret. intros s <-. rewrite Z.add_0_r. exact Hr.
  - apply t_pre. intros s0 [Ha' Hs0]. apply t_given with (dialling (S k) d n); [by intros s <-|].
    eapply t_bind; [apply (r_round (S k) d n l')|]. intros r. cbn beta iota.
    apply t_pre. intros s1 (l'' & -> & Ha'' & Hr). apply t_given with (dialling k (d + 1) n); [by intros s <-|].
    replace (d + Z.of_nat (S k) + 1) with (d + 1 + Z.of_nat k + 1) by lia.
    apply IH; [lia|]. unfold affords in *. lia.
Qed.

(** C8. A dropped session whose next [k] dials fail and whose PLC then answers again is
    Connected after [k + 1] dials, no error, no drop on record and no other reconnect
    scheduled, provided the attempt limit, if there is one, allows that many. *)
Theorem Reconnect_recovers k fuel s :
  fsm_value (lf_fsm s) ∈ [SessionStateDisconnected; SessionStateReconnecting] -> lf_closedCh s = false -> lf_owner s = false ->
  down (lf_world s) = k -> (k < fuel)%nat -> affords 0 k ->
  exists s', Reconnect fuel s = (s', Ok tt)
    /\ fsm_value (lf_fsm s') = SessionStateConnected /\ lf_disconnected s' = false /\ lf_owner s' = false
    /\ lf_dials s' = lf_dials s + Z.of_nat k + 1 /\ lf_spawned s' = lf_spawned s.
Proof.
  intros Hv Hc Ho Hk Hf Ha.
  assert (Ht : exists f ok, transitionToOnce (lf_fsm s) SessionStateReconnecting = (f, fsm_value (lf_fsm s), ok)
    /\ fsm_value f = SessionStateReconnecting
    /\ negb ok && negb (bool_decide (fsm_value (lf_fsm s) = SessionStateReconnecting)) = false /\ isClosed' s = false).
  { unfold transitionToOnce, isClosed', isClosed. rewrite elem_of_cons, list_elem_of_singleton in Hv.
    destruct Hv as [E|E]; rewrite E; cbn; eexists _, _; repeat (split; [done|]); by rewrite ?E. }
  destruct Ht as (f & ok & Hf1 & Hf2 & Hf3 & Hcl). unfold Reconnect. rewrite Hcl, Ho. unfold deferred. cbn. rewrite Hf1, Hf3.
  set (s0 := set_fsm f (set_owner true s)).
  assert (Hs0 : trying k (lf_dials s) (lf_spawned s) s0) by (by split).
  assert (Hrun : sure (trying k (lf_dials s) (lf_spawned s)) (reconnect_owned fuel)
    (fun _ => recovered (lf_dials s + Z.of_nat k + 1) (lf_spawned s))).
  { unfold reconnect_owned, flap_cooldown. set (P := trying k (lf_dials s) (lf_spawned s)).
    after P; [apply t_act; intros t []; by split|intros _].
    after P.
    { after P; [apply t_act; intros t []; by split|intros _]. after P; [apply r_look|intros c].
      destruct (0 <? c); [apply r_pause|by apply t_ret]. }
    intros _. after P; [apply t_act; intros t []; by split|intros _]. after P; [apply r_look|intros hs].
    after P; [apply t_act; intros t []; by split|intros _].
    after (dialling k (lf_dials s) (lf_spawned s)); [apply r_tear|intros _]. by apply r_loop. }
  specialize (Hrun s0 Hs0). destruct (reconnect_owned fuel s0) as [s1 [[]|e|]]; [|done..].
  destruct Hrun as [H1 H2 H3 H4]. eexists. split; [done|]. unfold hand_off. cbn.
  assert (E : cf_autoReconnect cfg && negb (isClosed' (set_owner false (set_reconnectDone false s1))) && lf_disconnected s1 = false)
    by (rewrite H2; apply andb_false_r).
  rewrite E. cbn. by repeat (split; [done|]).
Qed.
End Liveness.
