(* ===== verification/LifeTerm.v ===== *)
(** Connect and Reconnect return: with a clock that the waits advance, the fuel given to
    their loops is enough, and nothing panics. *)
From S2P Require Import Prelude Wire Strconv Defs Ams Fsm Client Route Policies LifeState Lifecycle Connect LifeLogic LifeInv LifeFacts.

(** Time does not run backwards, a wait that elapsed took its time, and what the
    environment answers is an answer. *)
Class Honest (W : Type) `{Env W} : Prop := {
  hn_happen w : ev_now w <= ev_now (ev_happen w).1;
  hn_wait d w : ev_now w <= ev_now (ev_wait d w).1 /\ ((ev_wait d w).2 = None -> ev_now w + d <= ev_now (ev_wait d w).1);
  hn_dial w : ev_now w <= ev_now (ev_dial w).1 /\ (ev_dial w).2 <> Panic;
  hn_listen w : ev_now w <= ev_now (ev_listen w).1 /\ (ev_listen w).2 <> Panic;
  hn_identify w : ev_now w <= ev_now (ev_identify w).1 /\ (ev_identify w).2 <> Panic;
  hn_udp w : ev_now w <= ev_now (ev_udp_identify w).1;
  hn_version w : ev_now w <= ev_now (ev_version w).1 /\ (ev_version w).2 <> Panic;
  hn_state p w : ev_now w <= ev_now (ev_state p w).1 /\ (ev_state p w).2 <> Panic;
  hn_local w : ev_now w <= ev_now (ev_local w).1 /\ (ev_local w).2 <> Panic;
  hn_addRoute w : ev_now w <= ev_now (ev_addRoute w).1;
  hn_delete hs w : ev_now w <= ev_now (ev_delete hs w).1;
  hn_release h w : ev_now w <= ev_now (ev_release h w).1;
  hn_reload w : ev_now w <= ev_now (ev_reload w).1 /\ (ev_reload w).2 <> Panic;
  hn_resubscribe w : ev_now w <= ev_now (ev_resubscribe w).1 /\ (ev_resubscribe w).2 <> Panic }.

Section Term.
Context {W : Type} `{Env W} `{cfg : config} `{!Honest W}.
Implicit Types s : life W.

(** Not before [t], and with a client once [b]. *)
Definition late (b : bool) (t : Z) s : Prop := t <= ev_now (lf_world s) /\ (b = true -> is_Some (lf_client s)).

(** What keeps that. *)
Record later s s' : Prop := {
  la_now : ev_now (lf_world s) <= ev_now (lf_world s'); la_client : is_Some (lf_client s) -> is_Some (lf_client s') }.

Lemma late_later b t s s' : later s s' -> late b t s -> late b t s'.
Proof. intros [Hn Hc] [Ht Hb]. split; [lia|auto]. Qed.
Lemma later_refl s : later s s.
Proof. by split. Qed.
Lemma later_trans s1 s2 s3 : later s1 s2 -> later s2 s3 -> later s1 s3.
Proof. intros [] []. split; [lia|auto]. Qed.
Lemma later_world w s : ev_now (lf_world s) <= ev_now w -> later s (set_world w s).
Proof. by split. Qed.
Lemma later_on_client f s : later s (on_client f s).
Proof. split; [done|]. cbn. by intros [c ->]. Qed.

Lemma later_trigger s : later s (triggerReconnect s).
Proof.
  unfold triggerReconnect, transitionState. destruct (isClosed' s); [by split|]. cbn zeta.
  destruct (lf_disconnected s); repeat case_match; by split.
Qed.

Lemma later_onDrop s : later s (callOnDrop s).
Proof.
  unfold callOnDrop. destruct (lf_client s) as [c|]; [|by split]. destruct (ctx_live _ _); [|by split].
  destruct (lk_armed c); [|apply later_on_client]. eapply later_trans; [apply later_on_client|apply later_trigger].
Qed.

Lemma later_release hs s : later s (release_symbols hs s).
Proof.
  revert s. induction hs as [|h hs IH]; intros s; cbn; [by split|]. destruct (isDisconnected _); [by split|].
  pose proof (hn_release h (lf_world s)) as Hn. destruct (ev_release h _) as [w err]. cbn in Hn.
  destruct (_ || _); [by apply later_world|]. eapply later_trans; [by apply (later_world w)|apply IH].
Qed.

Lemma later_delete hs s : later s (bestEffortDelete hs s).1.
Proof.
  unfold bestEffortDelete. pose proof (hn_delete hs (lf_world s)) as Hn. destruct (ev_delete _ _) as [w n]. by split.
Qed.

Lemma later_shutdown b s : later s (shutdownTransport b s).
Proof.
  unfold shutdownTransport. destruct (lf_shutdown s); [by split|]. cbn zeta.
  set (s1 := stopPeerListener _). assert (H1 : later s s1) by (by split). clearbody s1.
  unfold releasePLCResources, take_handles. set (s2 := match lf_handles s1 with [] => _ | _ => _ end).
  assert (H2 : later s s2).
  { eapply later_trans; [exact H1|]. subst s2. destruct (lf_handles s1); [by split|].
    eapply later_trans; [|apply later_delete]. by split. }
  clearbody s2. set (s3 := if b then s2 else _).
  assert (H3 : later s s3) by (subst s3; destruct b; [done|]; eapply later_trans; [exact H2|apply later_release]).
  clearbody s3. eapply later_trans; [exact H3|]. eapply later_trans; [|apply later_on_client].
  unfold close_conn. cbn. destruct (lf_conn s3); by split.
Qed.

Lemma later_Close s : later s (Close s).
Proof.
  unfold Close. eapply later_trans; [|apply later_on_client].
  eapply later_trans; [|apply later_shutdown]. by split.
Qed.

Lemma later_giveup s : later s (end_session s).
Proof. unfold end_session. eapply later_trans; [|apply later_shutdown]. by split. Qed.

Lemma later_happen s : later s (happen s).
Proof.
  unfold happen. pose proof (hn_happen (lf_world s)) as Hn. destruct (ev_happen _) as [w evs]. cbn in Hn.
  eapply later_trans; [by apply (later_world w)|]. generalize (set_world w s). clear s w Hn.
  induction evs as [|e evs IH]; intros s; cbn; [by split|]. eapply later_trans; [|apply IH].
  destruct e; cbn; [apply later_onDrop|apply later_on_client|apply later_Close|].
  destruct (_ && _); by split.
Qed.

(** An operation that ends, and not before it started. *)
Definition ends {A} (b : bool) (m : lc W A) : Prop :=
  forall t, triple False (late b t) m (fun _ => late b t) (fun _ => late b t).

Lemma n_bind A B b (m : lc W A) (f : A -> lc W B) : ends b m -> (forall a, ends b (f a)) -> ends b (m ≫= f).
Proof. intros Hm Hf t. eapply t_bind; [apply (Hm t)|intros a; apply Hf]. Qed.
Lemma n_ret A b (a : A) : ends b (mret a).
Proof. intros t. by apply t_ret. Qed.
Lemma n_fails A b e : ends b (fails (A := A) e).
Proof. intros t. by apply t_fails. Qed.
Lemma n_look A b (f : life W -> A) : ends b (look f).
Proof. intros t. by apply t_look. Qed.
Lemma n_act b f : (forall s, later s (f s)) -> ends b (act f).
Proof. intros Hf t. apply t_act. intros s Hs. by eapply late_later. Qed.
Lemma n_tried A b (m : lc W A) : ends b m -> ends b (tried m).
Proof. intros Hm t. apply t_tried. apply Hm. Qed.
Lemma n_deferred A b fin (m : lc W A) : (forall r s, later s (fin r s)) -> ends b m -> ends b (deferred fin m).
Proof.
  intros Hf Hm t. apply t_deferred. eapply t_weaken; [apply (Hm t)|done|..]; intros; by (eapply late_later; [apply Hf|]).
Qed.
Lemma n_lift A b (r : res A) : r <> Panic -> ends b (lift_res r).
Proof. intros Hr t. apply t_lift_res. intros s Hs. by destruct r. Qed.
Lemma n_yield b : ends b yield.
Proof. intros t s Hs. eapply late_later; [apply later_happen|done]. Qed.
Lemma n_blocking A b (op : W -> W * A) : (forall w, ev_now w <= ev_now (op w).1) -> ends b (blocking op).
Proof.
  intros Ho t s Hs. unfold blocking. specialize (Ho (lf_world s)). destruct (op _) as [w a]. cbn in Ho.
  eapply late_later; [|exact Hs]. eapply later_trans; [by apply (later_world w)|apply later_happen].
Qed.
Lemma n_blocking_res A b (op : W -> W * res A) :
  (forall w, ev_now w <= ev_now (op w).1 /\ (op w).2 <> Panic) -> ends b (blocking_res op).
Proof.
  intros Ho t s Hs. unfold blocking_res, blocking, mbind, lc_bind, lift_res. destruct (Ho (lf_world s)) as [H1 H2].
  destruct (op _) as [w r]. cbn in *.
  assert (Hl : late b t (happen (set_world w s)))
    by (eapply late_later; [|exact Hs]; eapply later_trans; [by apply (later_world w)|apply later_happen]).
  by destruct r.
Qed.
Lemma n_request A k (op : W -> W * res A) :
  (forall w, ev_now w <= ev_now (op w).1 /\ (op w).2 <> Panic) -> ends true (request k op).
Proof.
  intros Ho t s Hs. unfold request. destruct (lf_client s) as [c|] eqn:Hc.
  - destruct (lf_disconnected s); [done|]. destruct (lifecycle_done k s); [done|]. destruct (lk_dropped c); [done|].
    destruct (ctx_live s _); [by apply (n_blocking_res A true op Ho t)|]. eapply late_later; [apply later_happen|done].
  - destruct Hs as [_ Hb]. destruct (Hb eq_refl) as [? E]. congruence.
Qed.

(** A wait that elapsed took [d]. *)
Lemma n_wait_for b k d t : triple False (late b t) (wait_for k d)
  (fun r => late b (match r with Elapsed => t + d | _ => t end)) (fun _ => late b t).
Proof.
  intros s [Ht Hb]. unfold wait_for. destruct (hn_wait d (lf_world s)) as [H1 H2].
  destruct (ev_wait _ _) as [w e]. cbn in *. destruct (later_happen (set_world w s)) as [Hn Hc]. cbn in *.
  destruct e as [e|]; [by split; [lia|auto]|]. specialize (H2 eq_refl).
  destruct (lf_closedCh _); [by split; [lia|auto]|]. destruct (lifecycle_done _ _); [by split; [lia|auto]|].
  split; [lia|auto].
Qed.
Lemma n_wait b d t : triple False (late b t) (blocking (ev_wait d))
  (fun r => late b (match r with None => t + d | _ => t end)) (fun _ => late b t).
Proof.
  intros s [Ht Hb]. unfold blocking. destruct (hn_wait d (lf_world s)) as [H1 H2].
  destruct (ev_wait _ _) as [w e]. cbn in *. destruct (later_happen (set_world w s)) as [Hn Hc]. cbn in *.
  destruct e as [e|]; [by split; [lia|auto]|]. specialize (H2 eq_refl). split; [lia|auto].
Qed.
End Term.

Create HintDb ends.
#[export] Hint Resolve n_ret n_fails n_look n_yield hn_dial hn_listen hn_identify hn_udp hn_version hn_state hn_local
  hn_addRoute hn_reload hn_resubscribe later_on_client later_trigger later_Close later_giveup : ends.
#[export] Hint Resolve n_request n_blocking_res n_blocking : ends.
#[export] Hint Extern 4 (later _ _) => split; cbn; [lia | done] : ends.

Ltac ends_step :=
  first [ solve [eauto 3 with ends nocore]
        | apply n_bind; [|intros]
        | apply n_tried
        | apply n_act; intros; solve [eauto 3 with ends nocore]
        | apply n_lift; discriminate
        | match goal with |- ends _ (match ?x with _ => _ end) => destruct x end ].
Ltac ends_tac := repeat ends_step.

Section Ops.
Context {W : Type} `{Env W} `{cfg : config} `{!Honest W}.
Implicit Types s : life W.

Lemma later_dropped_conn s : later s (markDropped (close_conn (set_cancelled true s))).
Proof. eapply later_trans; [|apply later_on_client]. unfold close_conn. cbn. destruct (lf_conn s); by split. Qed.
Hint Resolve later_dropped_conn : ends.

Lemma n_tear b : ends b tearDownAndReset.
Proof. unfold tearDownAndReset. ends_tac. Qed.
Lemma n_reset b : ends b resetForRetry.
Proof. unfold resetForRetry. pose proof (n_tear b). ends_tac. Qed.
Hint Resolve n_tear n_reset : ends.

Lemma n_dialTCP b : ends b dialTCP.
Proof. unfold dialTCP. ends_tac. Qed.

(** After a dial that worked there is a client. *)
Lemma n_dial b t : triple False (late b t) dialAndStart (fun _ => late true t) (fun _ => late b t).
Proof.
  unfold dialAndStart. after (late b t); [apply n_dialTCP|intros [n ip]].
  set (R := fun s => late b t s /\ lf_conn s = Some n). after R.
  { apply t_act. intros s Hs. split; [|done]. eapply late_later; [|exact Hs]. by split. }
  intros _. after R; [by apply t_look|intros [|]].
  - after (late b t); [|intros _; by apply t_fails]. apply t_act. intros s [Hs _].
    eapply late_later; [|exact Hs]. unfold close_conn. destruct (lf_conn s); by split.
  - after (late true t); [|intros _; apply t_act; intros s [? ?]; by split].
    apply t_act. intros s [[Ht _] Hn]. rewrite Hn. by split.
Qed.
Lemma n_dial_true : ends true dialAndStart.
Proof. intros t. apply n_dial. Qed.
Hint Resolve n_dial_true : ends.

Lemma n_redial : ends true redialDuringHandshake.
Proof. unfold redialDuringHandshake. ends_tac. apply n_act. intros s. eapply later_trans; apply later_on_client. Qed.

Lemma n_handshake A b (m : lc W A) : ends b m -> ends b (handshake m).
Proof.
  intros Hm. unfold handshake. apply n_bind; [apply n_act; intros s; eapply later_trans; apply later_on_client|intros _].
  apply n_deferred; [|done]. intros _ s. eapply later_trans; apply later_on_client.
Qed.

Lemma n_listen b : ends b startPeerListener.
Proof.
  intros t s Hs. unfold startPeerListener, look, mbind, lc_bind, id. destruct (lf_listener s); [done|].
  destruct (lf_peerStopped s); [done|]. destruct (lf_closedCh s); [done|].
  destruct (hn_listen (lf_world s)) as [H1 H2]. destruct (ev_listen _) as [w r]. cbn in *.
  assert (Hl : late b t (set_world w s)) by (eapply late_later; [by apply (later_world w)|done]).
  destruct r; [|done..]. eapply late_later; [|exact Hl]. by split.
Qed.
Hint Resolve n_redial n_listen : ends.

Lemma n_wait_any b d : ends b (blocking (ev_wait d)).
Proof. apply n_blocking. intros w. by destruct (hn_wait d w). Qed.
Hint Resolve n_wait_any : ends.

Lemma n_peer_probes n : ends true (peer_probes n).
Proof. induction n; cbn; ends_tac. Qed.
Hint Resolve n_peer_probes : ends.
Lemma n_fallback : ends true tryPeerFallback.
Proof. unfold tryPeerFallback. ends_tac. Qed.
Lemma n_AddRoute b : ends b AddRoute.
Proof. unfold AddRoute. ends_tac. Qed.
Lemma n_set_failures b x : ends b (act (set_failures x)).
Proof. apply n_act. by split. Qed.
Hint Resolve n_fallback n_AddRoute n_set_failures : ends.

(** ** The loops with a deadline *)

Lemma late_mono b t t' s : t' <= t -> late b t s -> late b t' s.
Proof. intros Hle [Ht Hb]. split; [lia|done]. Qed.

Notation ends_at b t m := (triple False (late b t) m (fun _ => late b t) (fun _ => late b t)).

(** After a wait that elapsed the clock reads [d] more; the rest is [m]. *)
Lemma n_wait_then A b d t (m : option goerr -> lc W A) : 0 <= d ->
  (forall e, m (Some e) = fails e \/ exists g, m (Some e) = fails (g e)) ->
  ends_at b (t + d) (m None) -> ends_at b t (blocking (ev_wait d) ≫= m).
Proof.
  intros Hd HS HN. eapply t_bind; [apply n_wait|intros [e|]].
  - destruct (HS e) as [-> | [g ->]]; by apply t_fails.
  - eapply t_weaken; [exact HN|done|..]; intros ? s Hs; (apply (late_mono b (t + d)); [lia|exact Hs]).
Qed.

Lemma n_router_awake b fuel : forall deadline t, (1 <= fuel)%nat -> deadline < t + (Z.of_nat fuel - 1) * routerAwakePoll ->
  ends_at b t (router_awake_loop fuel deadline).
Proof.
  induction fuel as [|fuel IH]; intros deadline t Hf Hd; [lia|]. cbn [router_awake_loop].
  after (late b t); [apply n_blocking, hn_udp|intros [e|]]; [|by apply t_ret].
  apply t_bind with (fun w s => late b t s /\ w = lf_world s); [by apply t_look|intros w].
  destruct (ev_ctx w); [by apply t_fails; intros s []|].
  destruct (deadline <? ev_now w) eqn:E; [by apply t_fails; intros s []|].
  apply t_pre. intros s [Hl ->]. apply t_given with (late b t); [by intros ? <-|].
  apply n_wait_then; [done|by right; eexists|]. apply IH.
  - destruct fuel; [|lia]. destruct Hl as [Ht _]. lia.
  - lia.
Qed.

Lemma n_awaitRouterAwake b : ends b awaitRouterAwake.
Proof.
  intros t. unfold awaitRouterAwake. apply t_bind with (fun w s => late b t s /\ w = lf_world s); [by apply t_look|intros w].
  apply t_pre. intros s [Hl ->]. apply t_given with (late b (ev_now (lf_world s))).
  { intros s' <-. by destruct Hl; split. }
  change (Z.to_nat (routerDeafGrace / routerAwakePoll) + 2)%nat with 22%nat. destruct Hl as [Ht _].
  eapply t_weaken; [apply n_router_awake; [lia|]|done|..].
  - unfold routerDeafGrace, routerAwakePoll, Second. lia.
  - intros ? s' Hs'. by eapply late_mono.
  - intros ? s' Hs'. by eapply late_mono.
Qed.

Lemma n_probe_retry fuel : forall deadline t, (1 <= fuel)%nat -> deadline < t + Z.of_nat fuel * routeProbeRetryDelay ->
  ends_at true t (probe_retry_loop fuel deadline).
Proof.
  induction fuel as [|fuel IH]; intros deadline t Hf Hd; [lia|]. cbn [probe_retry_loop].
  apply n_wait_then; [done|by right; eexists|]. set (t' := t + routeProbeRetryDelay).
  after (late true t'); [apply n_tried, n_redial|intros [_|e]]; [|by apply t_fails].
  after (late true t'); [apply n_look|intros [|]]; [by apply t_fails|].
  after (late true t'); [apply n_tried; unfold probeRouteVersion; ends_tac|intros [v|e]].
  { after (late true t'); [apply n_set_failures|intros _; by apply t_ret]. }
  apply t_bind with (fun w s => late true t' s /\ w = lf_world s); [by apply t_look|intros w].
  apply t_pre. intros s [Hl ->]. apply t_given with (late true t'); [by intros ? <-|].
  destruct (negb _ || (deadline <? ev_now (lf_world s))) eqn:E; [by apply t_ret|].
  apply orb_false_iff in E as [_ E]. destruct Hl as [Ht _]. subst t'. apply IH; [destruct fuel; lia|lia].
Qed.

Lemma n_ensureRouteOnConnect : ends true ensureRouteOnConnect.
Proof.
  unfold ensureRouteOnConnect. apply n_bind; [apply n_look|intros [|]; [apply n_fails|]]. apply n_handshake.
  apply n_bind; [apply n_look|intros r]. destruct (forceRouteRegistration r); [ends_tac|].
  unfold probeRouteVersion, register_after_probe. pose proof (n_awaitRouterAwake true) as Ha.
  apply n_bind; [ends_tac|intros [v|e]]; [ends_tac|]. apply n_bind; [apply n_look|intros [|]; [apply n_fails|]].
  destruct (isProbeRetryable e); [|ends_tac]. apply n_bind; [exact Ha|intros _].
  intros t. apply t_bind with (fun w s => late true t s /\ w = lf_world s); [by apply t_look|intros w].
  after (late true t).
  - apply t_pre. intros s [Hl ->]. apply t_given with (late true (ev_now (lf_world s))).
    { intros s' <-. by destruct Hl; split. }
    change (Z.to_nat (routeProbeGrace / routeProbeRetryDelay) + 2)%nat with 62%nat. destruct Hl as [Ht _].
    eapply t_weaken; [apply n_probe_retry; [lia|]|done|..].
    + unfold routeProbeGrace, routeProbeRetryDelay, Second, Millisecond. lia.
    + intros ? s' Hs'. by eapply late_mono.
    + intros ? s' Hs'. by eapply late_mono.
  - intros q. assert (He : ends true (match q with inl _ => mret false | inr _ =>
      _ ← act (fun s => set_failures (i32 (routeProbeFailures (lf_route s) + 1)) s);
      r ← look lf_route; if negb (mayRegister r) then mret false else _ ← AddRoute; mret true end : lc W bool)) by ends_tac.
    apply He.
Qed.

Lemma redialBackoff_least n : 0 <= n -> routeActivationPollDelay <= redialBackoff n.
Proof.
  intros Hn. unfold redialBackoff, routeActivationPollDelay. destruct (n <? 0) eqn:E0; [lia|].
  set (k := if maxFailureBackoffShift <? n then maxFailureBackoffShift else n).
  assert (Hk : 0 <= k <= 6) by (subst k; unfold maxFailureBackoffShift; destruct (_ <? n) eqn:E; lia).
  clearbody k. assert (Hc : k = 0 \/ k = 1 \/ k = 2 \/ k = 3 \/ k = 4 \/ k = 5 \/ k = 6) by lia.
  by destruct Hc as [-> | [-> | [-> | [-> | [-> | [-> | ->]]]]]].
Qed.

Lemma n_waitDuring_then A k d t (m : () -> lc W A) : 0 <= d ->
  ends_at true (t + d) (m tt) -> ends_at true t (waitDuringActivation k d ≫= m).
Proof.
  intros Hd HN. apply t_bind with (fun _ => late true (t + d)).
  - unfold waitDuringActivation. eapply t_bind; [apply n_wait_for|intros [|e|]]; [by apply t_ret|by apply t_fails..].
  - intros []. eapply t_weaken; [exact HN|done|..]; intros ? s Hs; (apply (late_mono true (t + d)); [lia|exact Hs]).
Qed.

Lemma n_activation k fuel : forall deadline redials t, (1 <= fuel)%nat -> 0 <= redials ->
  deadline <= t + (Z.of_nat fuel - 1) * routeActivationPollDelay ->
  ends_at true t (activation_loop k fuel deadline redials).
Proof.
  induction fuel as [|fuel IH]; intros deadline redials t Hf Hr Hd; [lia|]. cbn [activation_loop].
  after (late true t); [apply n_look|intros [|]]; [by apply t_fails|].
  after (late true t); [apply n_tried; unfold probeRouteVersion; ends_tac|intros [v|lastErr]].
  { after (late true t); [apply n_set_failures|intros _; by apply t_ret]. }
  after (late true t); [apply n_tried; apply n_request; apply hn_state|intros st].
  after (late true t); [destruct st; unfold recordRuntimeState; [apply n_bind; [apply n_act; by split|intros _; apply n_ret]|apply n_ret]|].
  intros [|].
  { after (late true t); [apply n_set_failures|intros _; by apply t_fails]. }
  apply t_bind with (fun w s => late true t s /\ w = lf_world s); [by apply t_look|intros w].
  apply t_pre. intros s [[Ht Hb] ->]. apply t_given with (late true t); [by intros ? <-|].
  destruct (ev_now (lf_world s) <? deadline) eqn:E; cbn [negb]; [|by apply t_fails].
  assert (Hf' : (1 <= fuel)%nat) by (destruct fuel; lia).
  assert (Hp : 0 <= routeActivationPollDelay) by done.
  destruct (isProbeRetryable lastErr).
  - destruct (_ && _); [by apply t_fails|]. pose proof (redialBackoff_least redials Hr).
    apply n_waitDuring_then; [lia|]. set (t' := t + redialBackoff redials).
    after (late true t'); [apply n_look|intros [|]]; [by apply t_fails|].
    after (late true t'); [apply n_tried, n_redial|intros [_|e]]; [|by apply t_fails].
    subst t'. apply IH; lia.
  - apply n_waitDuring_then; [done|]. apply IH; lia.
Qed.

Lemma n_awaitRouteActive k : ends true (awaitRouteActive k).
Proof.
  unfold awaitRouteActive. apply n_handshake. apply n_bind; [apply n_look|intros r]. intros t.
  apply t_bind with (fun w s => late true t s /\ w = lf_world s); [by apply t_look|intros w].
  apply t_pre. intros s [Hl ->]. apply t_given with (late true (ev_now (lf_world s))).
  { intros s' <-. by destruct Hl; split. }
  set (total := (routeActivationBudget (activationTimeout r)).1).
  assert (Ht : 0 < total).
  { subst total. unfold routeActivationBudget, defaultRouteActivationTimeout, Second. cbn. destruct (_ <=? 0) eqn:E; lia. }
  unfold activation_fuel. destruct Hl as [Hlt _].
  eapply t_weaken; [apply n_activation; [lia|lia|]|done|..].
  - unfold routeActivationPollDelay, Millisecond. pose proof (Z.div_mod total (250 * 1000000)).
    pose proof (Z.mod_pos_bound total (250 * 1000000)). lia.
  - intros ? s' Hs'. by eapply late_mono.
  - intros ? s' Hs'. by eapply late_mono.
Qed.

Lemma n_ensureRoute : ends true ensureRoute.
Proof. unfold ensureRoute, probeRouteVersion. pose proof n_awaitRouteActive. ends_tac. Qed.

(** ** Connect *)

Lemma read_addr_total b : read_addr b <> Panic.
Proof.
  unfold read_addr, read_u16, read_uint, read_full, mbind, res_bind.
  intros E. repeat (case_match; simplify_eq; try discriminate).
Qed.

Lemma n_localHandshake : ends true localHandshake.
Proof.
  unfold localHandshake. apply n_bind; [apply n_tried|intros [resp|e]; [|apply n_fails]].
  - intros t s Hs. unfold send_local. destruct (lf_client s) as [c|] eqn:Hc.
    + destruct (lk_dropped c); [done|]. destruct (ctx_live _ _); [|done]. by apply (n_blocking_res bytes true ev_local hn_local t).
    + destruct Hs as [_ Hb]. destruct (Hb eq_refl) as [? E]. congruence.
  - destruct (read_addr resp) as [[a rest]|e|] eqn:E; [ends_tac|apply n_fails|].
    by destruct (read_addr_total resp).
Qed.

Lemma n_rescue : ends true rescue.
Proof. unfold rescue. ends_tac. Qed.
Hint Resolve n_localHandshake n_rescue n_ensureRouteOnConnect n_awaitRouteActive n_ensureRoute : ends.

Lemma n_connect_route : ends true connect_route.
Proof. unfold connect_route, abandon. ends_tac. Qed.

Lemma n_connect_version : ends true connect_version.
Proof. unfold connect_version, drop_to_disconnected. ends_tac. Qed.

Lemma later_enterConnected s : later s (enterConnected s).
Proof. unfold enterConnected. destruct (Fsm.enterConnected _ _). by split. Qed.
Hint Resolve n_connect_route n_connect_version later_enterConnected : ends.

Lemma n_connect_finish v : ends true (connect_finish v).
Proof.
  unfold connect_finish, settle, runtimeStateQuietly, recordRuntimeState.
  apply n_bind; [apply n_act; destruct v; by split|intros _].
  apply n_bind; [apply n_act; intros s; unfold startRuntimeStateWatch; destruct (_ || _); by split|intros _].
  apply n_bind; [apply n_tried|intros _].
  { apply n_bind; [ends_tac|intros _]. apply n_bind; [|intros; ends_tac].
    apply n_deferred; [intros; apply later_on_client|ends_tac]. }
  apply n_bind; [apply n_act; intros s; unfold forgetPeerRouteHostIfUnused; destruct (_ =? 0); by split|intros _]. ends_tac.
Qed.
Hint Resolve n_connect_finish : ends.

Lemma n_connect_rest : ends true (_ ← connect_local; v ← connect_route;
  v ← (match v with Some _ => mret v | None => connect_version end); connect_finish v).
Proof. unfold connect_local, abandon. ends_tac. Qed.

Lemma n_connect_dial t : triple False (late false t) connect_dial (fun _ => late true t) (fun _ => late false t).
Proof.
  unfold connect_dial. after (late false t); [apply n_dialTCP|intros [n ip]].
  set (R := fun s => late false t s /\ lf_conn s = Some n).
  after R; [apply t_act; intros s [? ?]; by split|intros _].
  after R. { apply t_act. intros s [[? ?] ?]. unfold deriveSource. destruct (decide _), ip; by split. }
  intros _. after (late true t); [apply t_act; intros s [[Ht _] Hn]; rewrite Hn; by split|intros _].
  after (late true t); [apply t_act; intros s [? ?]; by split|intros _].
  after (late true t); [intros s Hs; eapply late_later; [apply later_happen|done]|intros _].
  unfold listen_if_known. after (late true t); [by apply t_look|intros b].
  destruct (_ && b); [|by apply t_ret]. after (late true t); [apply t_tried, n_listen|intros _; by apply t_ret].
Qed.

Lemma n_connect_body t : triple False (late false t) connect_body (fun _ => late false t) (fun _ => late false t).
Proof.
  unfold connect_body. after (late false t); [|intros _].
  { unfold listen_if_configured. destruct (_ =? 0); [by apply t_ret|apply n_listen]. }
  after (late false t); [apply n_act; intros s; unfold localTarget; destruct (_ && _); by split|intros _].
  after (late false t); [|intros _].
  { destruct (_ && _); [|by apply t_ret]. unfold verifyTarget, applyTargetCheck.
    assert (He : ends false (r ← tried (blocking_res ev_identify); match r with
      | inl reported => s ← look id; if decide (reported = NetID (lf_target s)) then mret tt
                        else if decide (cf_targetCheck cfg = TargetCheckError)
                        then fails (EMsg "target NetID does not match the NetID reported") else mret tt
      | inr _ => mret tt end : lc W ())) by ends_tac.
    apply He. }
  after (late true t); [apply n_connect_dial|intros _].
  eapply t_weaken; [apply n_connect_rest|done|..]; intros ? s [Ht _]; by split.
Qed.

(** ** Reconnect *)

Lemma n_pause b d a c : ends b (pause d a c).
Proof.
  intros t. unfold pause. apply t_bind with (fun _ => late b t).
  - intros s Hs. unfold wait_for. destruct (hn_wait d (lf_world s)) as [H1 _]. destruct (ev_wait _ _) as [w e]. cbn in *.
    eapply late_later; [|exact Hs]. eapply later_trans; [by apply (later_world w)|apply later_happen].
  - intros [|e|]; [by apply t_ret| |by apply t_fails]. intros s Hs. cbn. eapply late_later; [apply later_giveup|done].
Qed.
Hint Resolve n_pause : ends.

Lemma n_giveUp A b e : ends b (giveUpReconnecting (A := A) e).
Proof. intros t s Hs. cbn. eapply late_later; [apply later_giveup|done]. Qed.
Hint Resolve n_giveUp : ends.

Lemma later_healing s : later s (healing s).
Proof. unfold healing. destruct (shouldSkip _); by split. Qed.
Lemma later_announce s : later s (announce s).
Proof. unfold announce. destruct (_ && _); by split. Qed.
Hint Resolve later_healing later_announce : ends.

Lemma n_retryAfter b err l : ends b (retryAfter err l).
Proof. unfold retryAfter, coolDownAfterUnserved, reconnectSleep. ends_tac. Qed.
Hint Resolve n_retryAfter : ends.

Lemma n_release_saved b l : ends b (release_saved l).
Proof.
  unfold release_saved. destruct (rc_saved l) as [|h hs]; [ends_tac|]. apply n_bind; [|intros; ends_tac].
  intros t s Hs. pose proof (later_delete (h :: hs) s) as Hl. destruct (bestEffortDelete _ s) as [s' n].
  eapply late_later; [|exact Hs]. eapply later_trans; [exact Hl|apply later_happen].
Qed.
Hint Resolve n_release_saved : ends.

Lemma n_restore l : ends true (restore l).
Proof. unfold restore, retry, reconnected, settle, reconnectSleep. ends_tac. Qed.

Lemma n_round b l : ends b (reconnect_round l).
Proof.
  intros t. unfold reconnect_round. after (late b t); [apply n_act; by split|intros _].
  apply t_bind with (fun d => match d with inl _ => late true t | inr _ => late b t end).
  { apply t_tried, n_dial. }
  intros [_|e]; [|apply (n_bind _ _ b); [apply n_pause|intros; apply n_ret]].
  eapply t_weaken; [apply n_restore|done|..]; intros ? s [Ht Hb]; split; auto.
Qed.

Lemma n_guard b l : ends b (loop_guard l).
Proof. unfold loop_guard. ends_tac. Qed.

(** ** The theorems *)

(** C28. Connect returns, from any state: every wait and retry in it is bounded. *)
Theorem Connect_returns s : (Connect s).2 <> Panic.
Proof.
  unfold Connect. destruct (transitionToOnce _ _) as [[f from] [|]]; [|done]. cbn [negb].
  set (s0 := set_connecting true (set_fsm f s)). assert (Hl : late false (ev_now (lf_world s0)) s0) by by split.
  assert (Hr : (deferred adopt_drop (deferred rollback_on_error (deferred release_on_error connect_body)) s0).2
    = (connect_body s0).2).
  { unfold deferred. by destruct (connect_body s0). }
  rewrite Hr. pose proof (n_connect_body _ s0 Hl) as Hb. destruct (connect_body s0) as [s1 [a|e|]]; done.
Qed.

(** Every resubscription that fails, fails for a reason that costs an attempt. *)
Definition runtime_up : Prop := forall (w : W) e, (ev_resubscribe w).2 = Err e -> errors_is ErrRuntimeNotRunning e = false.

Lemma resubscribe_error : runtime_up ->
  triple True (fun _ => True) (tried (blocking_res ev_resubscribe))
    (fun r _ => match r with inr e => errors_is ErrRuntimeNotRunning e = false | inl _ => True end) (fun _ _ => True).
Proof.
  intros Hr s _. unfold tried, blocking_res, blocking, mbind, lc_bind, lift_res.
  pose proof (Hr (lf_world s)) as He. destruct (ev_resubscribe _) as [w [a|e|]]; cbn in *; auto.
Qed.

Definition keeps_attempts (l : rounds) (m : lc W (() + rounds)) : Prop :=
  triple True (fun _ => True) m (fun r _ => match r with inr l' => rc_attempts l' = rc_attempts l | inl _ => True end) (fun _ _ => True).

Lemma a_any A (m : lc W A) : triple True (fun _ => True) m (fun _ _ => True) (fun _ _ => True).
Proof. intros s _. by destruct (m s) as [s' [a|e|]]. Qed.
Lemma a_bind A l (m : lc W A) f : (forall a, keeps_attempts l (f a)) -> keeps_attempts l (m ≫= f).
Proof. intros Hf. eapply t_bind; [apply a_any|intros a; apply Hf]. Qed.

Lemma a_retryAfter e l :
  triple True (fun _ => True) (retryAfter e l) (fun l' _ => rc_attempts l' = rc_attempts l) (fun _ _ => True).
Proof.
  unfold retryAfter. eapply t_bind; [apply a_any|intros q]. eapply t_bind; [apply a_any|intros ?].
  destruct (_ || q); [destruct (_ <=? _)|]; (eapply t_bind; [apply a_any|intros ?]; by apply t_ret).
Qed.

Lemma a_retry e l : keeps_attempts l (retry e l).
Proof. unfold retry. eapply t_bind; [apply a_retryAfter|intros l']. by apply t_ret. Qed.

Lemma a_release_saved l :
  triple True (fun _ => True) (release_saved l) (fun l' _ => rc_attempts l' = rc_attempts l) (fun _ _ => True).
Proof.
  unfold release_saved. destruct (rc_saved l); [by apply t_ret|].
  eapply t_bind; [apply a_any|intros d]. by apply t_ret.
Qed.

Lemma a_round l : runtime_up -> keeps_attempts l (reconnect_round l).
Proof.
  intros Hr. unfold reconnect_round. apply a_bind; intros _. apply a_bind. intros [_|e]; [|apply a_bind; intros _; by apply t_ret].
  unfold restore. apply a_bind. intros [_|e]; [|apply a_retry]. apply a_bind. intros [_|e]; [|apply a_retry].
  eapply t_bind; [apply a_release_saved|intros l']. apply t_pre. intros s Hl. rewrite <- Hl.
  apply t_given with (fun _ => True); [done|].
  apply a_bind. intros [_|e]; [|apply a_retry].
  eapply t_bind; [by apply resubscribe_error|]. intros [_|e].
  - eapply t_bind; [apply a_any|intros ?]. by apply t_ret.
  - apply t_pre. intros s2 He. rewrite He. apply t_given with (fun _ => True); [done|]. apply a_retry.
Qed.

Lemma n_loop b t fuel : forall l, runtime_up -> 0 < cf_maxReconnectAttempts cfg ->
  cf_maxReconnectAttempts cfg - rc_attempts l < Z.of_nat fuel ->
  0 <= cf_maxReconnectAttempts cfg - rc_attempts l ->
  ends_at b t (reconnect_loop fuel l).
Proof.
  induction fuel as [|fuel IH]; intros l Hr Hm Hf Hl; [lia|]. cbn [reconnect_loop].
  apply t_bind with (fun l' s => late b t s /\ rc_attempts l' = rc_attempts l + 1 /\ rc_attempts l' <= cf_maxReconnectAttempts cfg).
  { intros s Hs. pose proof (n_guard b l t s Hs) as Hg. unfold loop_guard, mbind, lc_bind, look in *.
    destruct (isClosed' s); [done|]. cbn in *. destruct (ev_ctx _); [done|].
    destruct ((0 <? cf_maxReconnectAttempts cfg) && (cf_maxReconnectAttempts cfg <? rc_attempts l + 1)) eqn:E; [done|].
    cbn in *. split; [done|]. split; [done|]. lia. }
  intros l'. apply t_pre. intros s (Hs & Ha & Hb). apply t_given with (late b t); [by intros ? <-|].
  apply t_bind with (fun r s => late b t s /\ match r with inr l'' => rc_attempts l'' = rc_attempts l' | inl _ => True end).
  { intros s1 Hs1. pose proof (n_round b l' t s1 Hs1) as H1. pose proof (a_round l' Hr s1 I) as H2.
    by destruct (reconnect_round l' s1) as [s2 [a|e|]]. }
  intros [[]|l'']; [by apply t_ret; intros ? []|].
  apply t_pre. intros s2 [Hs2 Ha2]. apply t_given with (late b t); [by intros ? <-|]. apply IH; lia || done.
Qed.

(** C29. With an attempt limit, and a PLC whose runtime runs, Reconnect returns within that
    many rounds: connected, or given up. *)
Theorem Reconnect_returns fuel s : runtime_up -> 0 < cf_maxReconnectAttempts cfg ->
  cf_maxReconnectAttempts cfg < Z.of_nat fuel -> (Reconnect fuel s).2 <> Panic.
Proof.
  intros Hr Hm Hf. unfold Reconnect. destruct (isClosed' s); [done|]. destruct (lf_owner s); [done|].
  unfold deferred. cbn. destruct (transitionToOnce _ _) as [[f from] ok]. destruct (negb ok && _); [done|].
  set (s0 := set_fsm f (set_owner true s)). set (t := ev_now (lf_world s0)).
  assert (Ho : ends_at false t (reconnect_owned fuel)).
  { unfold reconnect_owned. after (late false t); [apply n_act; by split|intros _].
    after (late false t).
    { assert (He : ends false flap_cooldown) by (unfold flap_cooldown; apply n_bind; [apply n_act; by split|intros _]; ends_tac).
      apply He. }
    intros _. after (late false t); [apply n_act; by split|intros _]. after (late false t); [apply n_look|intros hs].
    after (late false t); [apply n_act; by split|intros _]. after (late false t); [apply n_tear|intros _].
    apply n_loop; cbn; lia || done. }
  specialize (Ho s0 ltac:(by split)). destruct (reconnect_owned fuel s0) as [s1 [a|e|]]; done.
Qed.
End Ops.
