(* ===== verification/LifeWitness.v ===== *)
(** Concrete environments: a scripted one, in which the theorems on Connect and Reconnect
    are applied and three interleavings are played out, and one with a clock and a number
    of dials still to fail. *)
From S2P Require Import Prelude Wire Strconv Defs Ams Fsm Client Route Policies LifeState Lifecycle Connect LifeLogic LifeInv LifeFacts ConnectFacts ReconnectFacts LifeTerm.

(** ** A scripted world *)

(** The answers still to come, of each kind; healthy ones when a script runs out.
    [sc_events] are the events of the blocking points, in order. *)
Record script : Type := {
  sc_now : Z; sc_events : list (list Lifecycle.event); sc_dials : list (res (option bytes)); sc_versions : list (res Z) }.

Definition healthy : script := {| sc_now := 0; sc_events := []; sc_dials := []; sc_versions := [] |}.
Definition tick (d : Z) (w : script) : script :=
  {| sc_now := sc_now w + d; sc_events := sc_events w; sc_dials := sc_dials w; sc_versions := sc_versions w |}.

#[export] Instance script_env : Env script := {|
  ev_happen w := ({| sc_now := sc_now w; sc_events := List.tl (sc_events w); sc_dials := sc_dials w; sc_versions := sc_versions w |},
                  List.hd [] (sc_events w));
  ev_now := sc_now;
  ev_dial w := ({| sc_now := sc_now w; sc_events := sc_events w; sc_dials := List.tl (sc_dials w); sc_versions := sc_versions w |},
                List.hd (Ok (Some (map byte_of_Z [10; 0; 0; 7]))) (sc_dials w));
  ev_listen w := (w, Ok tt);
  ev_identify w := (w, Ok (map byte_of_Z [5; 1; 2; 3; 1; 1]));
  ev_udp_identify w := (w, None);
  ev_version w := ({| sc_now := sc_now w; sc_events := sc_events w; sc_dials := sc_dials w; sc_versions := List.tl (sc_versions w) |},
                   List.hd (Ok 3) (sc_versions w));
  ev_state _ w := (w, Ok ADSStateRun);
  ev_local w := (w, Ok (repeat Byte.x01 8));
  ev_addRoute w := (w, None);
  ev_delete hs w := (w, len hs);
  ev_release _ w := (w, None);
  ev_reload w := (w, Ok tt);
  ev_resubscribe w := (w, Ok tt);
  ev_wait d w := (tick (Z.max 0 d) w, None);
  ev_ctx _ := None |}.

Definition options (auto : bool) : config :=
  {| cf_local := false; cf_peerListenPort := 0; cf_peerFallbackDisabled := true; cf_targetCheck := TargetCheckOff;
     cf_callback := None; cf_autoReconnect := auto; cf_maxReconnectAttempts := 5; cf_backoff := DefaultBackoffConfig;
     cf_unservedCooldown := 0; cf_stateWatchDisabled := true; cf_onDisconnect := false; cf_onReconnect := false |}.

Definition route_named (name : string) : routeManager :=
  {| rm_name := name; rm_username := "u"; rm_password := "p"; forceRouteRegistration := false; activationTimeout := 0;
     skipRegistration := false; routeProbeFailures := 0; registered := false |}.

(** A session as [NewSession] leaves it. *)
Definition session {W} (w : W) (route : string) : life W :=
  Build_life w initial_fsm 0 false false false false false false None ∅ 0 0 false None 0 None 0 (route_named route)
    false false 0 false {| NetID := map byte_of_Z [5; 1; 2; 3; 1; 1]; Port := 851 |} {| NetID := no_netid; Port := 10500 |}
    [] [] [] 0 (0, 0) 0 0 0 0 false.

Lemma session_may_connect {W} (w : W) route : may_connect (session w route).
Proof. split; [split; [split; done|done]|by left]. Qed.

(** ** Interleavings *)

Definition during (evs : list (list Lifecycle.event)) : script :=
  {| sc_now := 0; sc_events := evs; sc_dials := []; sc_versions := [] |}.

(** A drop between the publication of the client and the route probe: Connect redials,
    gets its answers, returns nil - and leaves the session Disconnected: the drop is
    forgotten, the new socket open and working, and no reconnect scheduled although the
    session reconnects by itself. *)
Theorem early_drop_strands_the_session :
  let '(s, r) := Connect (cfg := options true) (session (during [[]; [Lifecycle.EvDrop]]) "host") in
  r = Ok tt /\ fsm_value (lf_fsm s) = SessionStateDisconnected /\ lf_disconnected s = false
  /\ lf_spawned s = 0 /\ lf_reconnectDone s = false /\ elements (lf_open s) = [1].
Proof. by vm_compute. Qed.

(** Without automatic reconnection the caller connects again after a drop: the socket of
    the first connection stays open. *)
Theorem second_connect_leaks_the_first_socket :
  let first := (Connect (cfg := options false) (session healthy "")).1 in
  let dropped := apply_event (cfg := options false) first Lifecycle.EvDrop in
  let '(s, r) := Connect (cfg := options false) dropped in
  fsm_value (lf_fsm dropped) = SessionStateDisconnected /\ r = Ok tt
  /\ fsm_value (lf_fsm s) = SessionStateConnected /\ size (lf_open s) = 2%nat.
Proof. by vm_compute. Qed.

(** A close during the dial, and another while the first request waits: the second
    opinion is refused as on a dead transport, which is taken for an answer, and Connect
    returns nil on a closed session whose socket is still open. *)
Theorem closed_twice_during_connect_leaks :
  let '(s, r) := Connect (cfg := options true) (session (during [[Lifecycle.EvClose]; []; [Lifecycle.EvClose]]) "") in
  r = Ok tt /\ fsm_value (lf_fsm s) = SessionStateClosed /\ lf_open s <> ∅.
Proof. by vm_compute. Qed.

(** ** An outage *)

(** The clock and the number of dials that will still fail. *)
Definition outage : Type := Z * nat.

#[export] Instance outage_env : Env outage := {|
  ev_happen w := (w, []);
  ev_now := fst;
  ev_dial w := match w.2 with
               | O => (w, Ok (Some (map byte_of_Z [10; 0; 0; 7])))
               | S n => ((w.1, n), Err (EMsg "connection refused"))
               end;
  ev_listen w := (w, Ok tt);
  ev_identify w := (w, Ok (map byte_of_Z [5; 1; 2; 3; 1; 1]));
  ev_udp_identify w := (w, None);
  ev_version w := (w, Ok 3);
  ev_state _ w := (w, Ok ADSStateRun);
  ev_local w := (w, Ok (repeat Byte.x01 8));
  ev_addRoute w := (w, None);
  ev_delete hs w := (w, len hs);
  ev_release _ w := (w, None);
  ev_reload w := (w, Ok tt);
  ev_resubscribe w := (w, Ok tt);
  ev_wait d w := ((w.1 + Z.max 0 d, w.2), None);
  ev_ctx _ := None |}.

#[export] Instance outage_recovers : Recovering outage snd.
Proof.
  split; try (intros; cbn; done || by eauto).
  - intros [c [|n]]; cbn; by eauto.
  - intros w. split; [|done]. exists (repeat Byte.x01 8). by do 2 eexists.
Qed.

#[export] Instance outage_honest : Honest outage.
Proof.
  split; try (intros; cbn; done || (split; [reflexivity|done]) || reflexivity).
  - intros d w. cbn. split; [|intros _]; lia.
  - intros [c [|n]]; cbn; (split; [reflexivity|done]).
Qed.

(** A session that was connected, lost its link, and has [n] dials to fail. *)
Definition lost (n : nat) : life outage :=
  set_world (0, n) (apply_event (cfg := options true) (Connect (cfg := options true) (session (0, O) "")).1 Lifecycle.EvDrop).

Lemma lost_up n : up (lost n).
Proof.
  assert (Ec : lf_closedCh (lost n) = false) by (vm_compute; reflexivity).
  split; [split|]; [vm_compute; reflexivity|vm_compute; reflexivity|rewrite Ec; discriminate| |rewrite Ec; discriminate].
  unfold one_open. assert (E : lf_conn (lost n) = Some 0) by (vm_compute; reflexivity).
  rewrite E. apply (bool_decide_unpack _). vm_compute. exact I.
Qed.

Lemma failed_connect_is_clean_witness :
  let s := session ((0, 1%nat) : outage) "" in
  exists s' e, Connect (cfg := options true) s = (s', Err e) /\ lf_open s' = ∅ /\ lf_listener s' = false
    /\ lf_connecting s' = false /\ lf_connectedGen s' = lf_connectedGen s
    /\ (may_connect s' \/ fsm_value (lf_fsm s') = SessionStateClosed).
Proof.
  cbv zeta. destruct (Connect (cfg := options true) (session ((0, 1%nat) : outage) "")) as [s' r] eqn:E.
  destruct r as [[]|e|]; [exfalso; revert E; vm_compute; discriminate| |exfalso; revert E; vm_compute; discriminate].
  exists s', e. split; [done|]. apply (failed_connect_is_clean _ _ e (session_may_connect _ _) E).
Defined.



Lemma Reconnect_recovers_witness :
  exists s', Reconnect (cfg := options true) 3 (lost 2) = (s', Ok tt)
    /\ fsm_value (lf_fsm s') = SessionStateConnected /\ lf_disconnected s' = false /\ lf_owner s' = false
    /\ lf_dials s' = lf_dials (lost 2) + Z.of_nat 2 + 1 /\ lf_spawned s' = lf_spawned (lost 2).
Proof.
  apply (Reconnect_recovers (cfg := options true) snd 2 3 (lost 2)); [|vm_compute; reflexivity..|lia|].
  - apply (bool_decide_unpack _). vm_compute. exact I.
  - right. cbn. lia.
Defined.

Lemma Reconnect_returns_witness : (Reconnect (cfg := options true) 6 (lost 2)).2 <> Panic.
Proof.
  apply (Reconnect_returns (cfg := options true) 6 (lost 2)); [|reflexivity|reflexivity].
  intros w e He. discriminate He.
Defined.


Lemma Connect_returns_witness : (Connect (cfg := options true) (session ((0, 3%nat) : outage) "host")).2 <> Panic.
Proof. apply (Connect_returns (cfg := options true) (session ((0, 3%nat) : outage) "host")). Defined.
