(* ===== verification/Browse.v ===== *)
(** browse.go: the symbol table as a tree to walk.

    [BrowseSymbols] ranges over Go maps, in an order that changes from call to call:
    [maporder] is the order of one call.  The cache lock is held throughout, so a call
    sees one state of the session. *)
From Stdlib Require Import Ascii.
From stdpp Require Import sorting.
From S2P Require Import Prelude Wire Strconv Defs Ams Client SymbolTable Access.

(** ** Strings *)

Fixpoint str_take (n : nat) (s : string) : string :=
  match n, s with S n, String c s => String c (str_take n s) | _, _ => "" end.
Fixpoint str_drop (n : nat) (s : string) : string :=
  match n, s with S n, String _ s => str_drop n s | _, _ => s end.

(** [strings.IndexByte(s, '.')]. *)
Fixpoint index_dot (s : string) : option nat :=
  match s with
  | EmptyString => None
  | String c s => if Ascii.eqb c "."%char then Some O else S <$> index_dot s
  end.

(** ** Entries *)

Record SymbolBrowseEntry : Type := {
  br_Name : string; br_FullName : string; br_DataType : string; br_Size : Z; br_HasChildren : bool;
  br_Comment : string }.

Definition symbol_entry (d : symbolData) (HasChildren : bool) : SymbolBrowseEntry :=
  {| br_Name := sy_Name d; br_FullName := sy_FullName d; br_DataType := sy_DataType d; br_Size := sy_Length d;
     br_HasChildren := HasChildren; br_Comment := sy_Comment d |}.

(** A prefix that names no symbol. *)
Definition grouping (Name FullName : string) : SymbolBrowseEntry :=
  {| br_Name := Name; br_FullName := FullName; br_DataType := ""; br_Size := 0; br_HasChildren := true;
     br_Comment := "" |}.

(** [slices.SortFunc(entries, ...)] by full name. *)
Definition name_le (a b : SymbolBrowseEntry) : Prop := String.le (br_FullName a) (br_FullName b).
#[export] Instance name_le_dec : RelDecision name_le.
Proof. intros a b. unfold name_le. apply _. Defined.
#[export] Instance name_le_total : Total name_le.
Proof. intros a b. apply (total String.le). Qed.
#[export] Instance name_le_trans : Transitive name_le.
Proof. intros a b c. unfold name_le. apply transitivity. Qed.

Definition sort_entries (l : list SymbolBrowseEntry) : list SymbolBrowseEntry := merge_sort name_le l.

(** The order in which one call meets the entries of the table, and of the children of
    a symbol. *)
Record maporder : Type := { mo_table : list (string * entry); mo_children : symbol -> list (string * symbol) }.

Section Browse.
Context {W : Type} (s : session W) (o : maporder).

Definition symbolHasChildren (sym : symbol) : bool :=
  match sy_children sym with
  | _ :: _ => true
  | [] =>
      match if ss_datatypesLoaded s then ss_datatypes s !! sy_DataType (sy_data sym) else None with
      | Some dt => bool_decide (dt_children dt <> [])
      | None => negb (String.eqb (sy_DataType (sy_data sym)) "") && negb (parseable (sy_DataType (sy_data sym)))
      end
  end.

(** ** The root *)

Definition root_entry (root : string) (d : symbolData) : SymbolBrowseEntry :=
  match ss_symbols s !! symbolKey root with
  | Some e => symbol_entry (en_data e) true
  | None =>
      let origRoot :=
        if (String.length root <=? String.length (sy_FullName d))%nat
        then str_take (String.length root) (sy_FullName d) else root in
      grouping origRoot origRoot
  end.

Fixpoint root_loop (l : list (string * entry)) (roots : gset string) : list SymbolBrowseEntry :=
  match l with
  | [] => []
  | (name, e) :: l =>
      if is_Some_b (sy_Parent (en_data e)) then root_loop l roots
      else
        match index_dot name with
        | None =>
            if decide (name ∈ roots) then root_loop l roots
            else symbol_entry (en_data e) (symbolHasChildren (en_sym e)) :: root_loop l ({[name]} ∪ roots)
        | Some dot =>
            let root := str_take dot name in
            if decide (root ∈ roots) then root_loop l roots
            else root_entry root (en_data e) :: root_loop l ({[root]} ∪ roots)
        end
  end.

Definition browseRoot : list SymbolBrowseEntry := sort_entries (root_loop (mo_table o) ∅).

(** ** Below a path *)

Definition segment_of (rest : string) : string :=
  match index_dot rest with None => rest | Some dot => str_take dot rest end.

Definition child_entry (prefix segment : string) (d : symbolData) : SymbolBrowseEntry :=
  let childFullName := (prefix ++ segment)%string in
  match ss_symbols s !! symbolKey childFullName with
  | Some e => symbol_entry (en_data e) (symbolHasChildren (en_sym e))
  | None =>
      let p := String.length prefix in
      let n := String.length segment in
      if (p + n <=? String.length (sy_FullName d))%nat
      then grouping (str_take n (str_drop p (sy_FullName d))) (str_take (p + n) (sy_FullName d))
      else grouping segment childFullName
  end.

Fixpoint child_loop (prefix : string) (l : list (string * entry)) (seen : gset string) : list SymbolBrowseEntry :=
  match l with
  | [] => []
  | (name, e) :: l =>
      if negb (has_prefix prefix name) then child_loop prefix l seen
      else
        let segment := segment_of (str_drop (String.length prefix) name) in
        let childFullName := (prefix ++ segment)%string in
        if decide (childFullName ∈ seen) then child_loop prefix l seen
        else child_entry prefix segment (en_data e) :: child_loop prefix l ({[childFullName]} ∪ seen)
  end.

Definition expanded (sym : symbol) : list SymbolBrowseEntry :=
  (fun '(_, child) => symbol_entry (sy_data child) (symbolHasChildren child)) <$> mo_children o sym.

Definition scan (path : string) : list SymbolBrowseEntry :=
  child_loop (symbolKey path ++ ".")%string (mo_table o) ∅.

Definition browseChildren (path : string) : list SymbolBrowseEntry :=
  let sym := en_sym <$> ss_symbols s !! symbolKey path in
  match sym with
  | Some (MkSymbol d (_ :: _) as sym) => sort_entries (expanded sym)
  | _ =>
      sort_entries match scan path, sym with
                   | [], Some sym => [symbol_entry (sy_data sym) false]
                   | entries, _ => entries
                   end
  end.

Definition BrowseSymbols (path : string) : res (list SymbolBrowseEntry) :=
  if negb (ss_listLoaded s) && negb (ss_fullyLoaded s)
  then Err (EMsg "symbol list not loaded; call LoadSymbolList() or LoadSymbols() first")
  else Ok (if String.eqb path "" then browseRoot else browseChildren path).
End Browse.
