(* ===== verification/BrowseFacts.v ===== *)
(** Browsing (Browse.v): the answer does not depend on the order in which Go ranges over
    the maps, and every symbol of the table is found by walking down from the root. *)
From Stdlib Require Import Ascii.
From stdpp Require Import sorting.
From S2P Require Import Prelude Wire Strconv Defs Ams Client SymbolTable SymbolTableFacts Access Browse.

(** ** Strings *)

Lemma str_app_cons c a b : (String c a ++ b)%string = String c (a ++ b)%string.
Proof. done. Qed.
Lemma str_app_assoc a b c : ((a ++ b) ++ c)%string = (a ++ (b ++ c))%string.
Proof. induction a as [|x a IH]; [done|]. by rewrite !str_app_cons, IH. Qed.
Lemma str_app_nil a : (a ++ "")%string = a.
Proof. induction a as [|x a IH]; [done|]. by rewrite str_app_cons, IH. Qed.
Lemma str_length_app a b : String.length (a ++ b)%string = (String.length a + String.length b)%nat.
Proof. induction a as [|x a IH]; [done|]. rewrite str_app_cons. cbn. by rewrite IH. Qed.
Lemma to_lower_app a b : to_lower (a ++ b)%string = (to_lower a ++ to_lower b)%string.
Proof. induction a as [|x a IH]; [done|]. rewrite str_app_cons. cbn. by rewrite IH, str_app_cons. Qed.

Lemma str_take_app a b : str_take (String.length a) (a ++ b)%string = a.
Proof. induction a as [|x a IH]; [by destruct b|]. rewrite str_app_cons. cbn. by rewrite IH. Qed.
Lemma str_drop_app a b : str_drop (String.length a) (a ++ b)%string = b.
Proof. induction a as [|x a IH]; [by destruct b|]. rewrite str_app_cons. cbn. by rewrite IH. Qed.
Lemma str_take_drop n s : (str_take n s ++ str_drop n s)%string = s.
Proof. revert s. induction n as [|n IH]; intros [|c s]; try done. cbn. by rewrite str_app_cons, IH. Qed.
Lemma str_take_length n s : (n <= String.length s)%nat -> String.length (str_take n s) = n.
Proof. revert s. induction n as [|n IH]; intros [|c s]; cbn; intros; try lia. rewrite IH; lia. Qed.
Lemma to_lower_take n s : to_lower (str_take n s) = str_take n (to_lower s).
Proof. revert s. induction n as [|n IH]; intros [|c s]; cbn; by rewrite ?IH. Qed.
Lemma str_take_plus n m s : str_take (n + m) s = (str_take n s ++ str_take m (str_drop n s))%string.
Proof. revert s. induction n as [|n IH]; intros [|c s]; cbn; try done; [by destruct m|]. by rewrite IH, str_app_cons. Qed.

Lemma prefix_app p s : has_prefix p s = true <-> exists r, s = (p ++ r)%string.
Proof.
  unfold has_prefix. revert s. induction p as [|x p IH]; intros s; [by split; [exists s|destruct s]|].
  destruct s as [|y s]; cbn; [split; [done|by intros [? ?]]|].
  destruct (ascii_dec x y) as [->|Hn].
  - rewrite IH. setoid_rewrite str_app_cons. naive_solver.
  - setoid_rewrite str_app_cons. naive_solver.
Qed.

(** A name without a dot. *)
Definition plain (s : string) : Prop := index_dot s = None.

Lemma index_dot_Some s n : index_dot s = Some n <-> plain (str_take n s) /\ exists r, s = (str_take n s ++ "." ++ r)%string /\ n = String.length (str_take n s).
Proof.
  unfold plain. revert n. induction s as [|c s IH]; intros n; cbn.
  - split; [done|]. destruct n; cbn; by intros (_ & r & ? & ?).
  - destruct (Ascii.eqb_spec c ".") as [->|Hc].
    + split; [intros [= <-]; cbn; split; [done|by exists s]|].
      destruct n as [|n]; [done|]. cbn. by intros [? _].
    + destruct n as [|n]; cbn.
      * split; [by destruct (index_dot s)|]. intros (_ & r & [= ? ?] & _). congruence.
      * destruct (Ascii.eqb_spec c "."); [congruence|]. rewrite fmap_None. setoid_rewrite str_app_cons.
        destruct (index_dot s) as [k|] eqn:E; cbn; split.
        -- intros [= ->]. destruct (proj1 (IH n) eq_refl) as (? & r & ? & ?). split; [done|]. exists r. split; congruence.
        -- intros (? & r & [= ?] & [= ?]). f_equal. f_equal. assert (Some k = Some n) as [= ->]; [|done]. apply IH. eauto.
        -- done.
        -- intros (? & r & [= ?] & [= ?]). enough (@None nat = Some n) by done. apply IH. eauto.
Qed.

Lemma index_dot_app a b : plain a -> index_dot (a ++ "." ++ b)%string = Some (String.length a).
Proof.
  unfold plain. induction a as [|c a IH]; [done|]. rewrite str_app_cons. cbn.
  destruct (Ascii.eqb c "."); [done|]. rewrite fmap_None. intros Ha. by rewrite IH.
Qed.

(** The first segment of a name, and what is left of it. *)
Lemma segments s : plain s \/ exists a b, plain a /\ s = (a ++ "." ++ b)%string.
Proof.
  destruct (index_dot s) as [n|] eqn:E; [right|by left]. apply index_dot_Some in E as (? & r & ? & _). eauto.
Qed.
Lemma segment_of_plain a : plain a -> segment_of a = a.
Proof. unfold segment_of, plain. by intros ->. Qed.
Lemma segment_of_app a b : plain a -> segment_of (a ++ "." ++ b)%string = a.
Proof. intros Ha. unfold segment_of. rewrite index_dot_app by done. apply str_take_app. Qed.

(** ** The first of each kind *)

Section Firsts.
Context {A B : Type} (key : A -> option string) (mk : A -> B).
Implicit Types (l : list A) (seen : gset string).

(** The shape of both loops: one entry for the first element of each key. *)
Fixpoint firsts l seen : list B :=
  match l with
  | [] => []
  | a :: l =>
      match key a with
      | None => firsts l seen
      | Some k => if decide (k ∈ seen) then firsts l seen else mk a :: firsts l ({[k]} ∪ seen)
      end
  end.

Lemma firsts_sound l seen b : b ∈ firsts l seen -> exists a k, a ∈ l /\ key a = Some k /\ k ∉ seen /\ b = mk a.
Proof.
  revert seen. induction l as [|a l IH]; intros seen; cbn; [by intros ?%not_elem_of_nil|].
  assert (forall S, seen ⊆ S -> b ∈ firsts l S -> exists a' k, a' ∈ a :: l /\ key a' = Some k /\ k ∉ seen /\ b = mk a') as Hl.
  { intros S HS (a' & k & ? & ? & ? & ?)%IH. exists a', k. split_and!; [by right|done|set_solver|done]. }
  destruct (key a) as [k|] eqn:E; [|by apply Hl]. case_decide; [by apply Hl|].
  intros [-> | Hb]%elem_of_cons; [|by apply (Hl ({[k]} ∪ seen)); [set_solver|]].
  exists a, k. split_and!; [by left|done..].
Qed.

Lemma firsts_complete l seen a k :
  a ∈ l -> key a = Some k -> k ∉ seen -> exists a', a' ∈ l /\ key a' = Some k /\ mk a' ∈ firsts l seen.
Proof.
  revert seen. induction l as [|x l IH]; intros seen Ha Hk Hs; [by apply not_elem_of_nil in Ha|]. cbn.
  destruct (decide (key x = Some k)) as [Hx|Hx].
  - exists x. rewrite Hx. rewrite decide_False by done. split_and!; [by left|done|by left].
  - apply elem_of_cons in Ha as [<- |Ha]; [done|].
    assert (forall S, k ∉ S -> exists a', a' ∈ x :: l /\ key a' = Some k /\ mk a' ∈ firsts l S) as Hl.
    { intros S HS. destruct (IH S Ha Hk HS) as (a' & ? & ? & ?). exists a'. split_and!; [by right|done..]. }
    destruct (key x) as [k'|]; [|by apply Hl]. case_decide; [by apply Hl|].
    destruct (Hl ({[k']} ∪ seen)) as (a' & ? & ? & ?); [set_solver|]. exists a'. split_and!; [done..|by right].
Qed.

Lemma firsts_keys (name : B -> string) l seen :
  (forall a k, a ∈ l -> key a = Some k -> to_lower (name (mk a)) = k) -> NoDup (name <$> firsts l seen).
Proof.
  intros Hn. revert seen. induction l as [|a l IH]; intros seen; cbn; [constructor|].
  assert (forall S, NoDup (name <$> firsts l S)) as Hl by (intros; apply IH; intros; apply Hn; [by right|done]).
  destruct (key a) as [k|] eqn:E; [|done]. case_decide; [done|]. cbn. constructor; [|done].
  intros (b & Hb & (a' & k' & Ha' & Hk' & Hs & ->)%firsts_sound)%list_elem_of_fmap.
  apply (Hn a k) in E as Ea; [|by left]. apply (Hn a' k') in Hk'; [|by right]. rewrite <- Hb, Ea in Hk'. set_solver.
Qed.

Lemma firsts_perm (name : B -> string) l l' seen :
  (forall a k, a ∈ l -> key a = Some k -> to_lower (name (mk a)) = k) ->
  (forall a a' k, a ∈ l -> a' ∈ l -> key a = Some k -> key a' = Some k -> mk a = mk a') ->
  l ≡ₚ l' -> firsts l seen ≡ₚ firsts l' seen.
Proof.
  intros Hn Hm Hp.
  assert (forall l1 l2, l1 ≡ₚ l -> l2 ≡ₚ l -> forall b, b ∈ firsts l1 seen -> b ∈ firsts l2 seen) as Hsub.
  { intros l1 l2 H1 H2 b (a & k & Ha & Hk & Hs & ->)%firsts_sound. rewrite H1 in Ha.
    destruct (firsts_complete l2 seen a k) as (a' & Ha' & Hk' & Hb); [by rewrite H2|done..|].
    rewrite H2 in Ha'. by rewrite (Hm a a' k). }
  apply NoDup_Permutation.
  - eapply NoDup_fmap_1, firsts_keys, Hn.
  - eapply NoDup_fmap_1, (firsts_keys name). intros a k. rewrite <- Hp. apply Hn.
  - intros b. split; by apply Hsub.
Qed.
End Firsts.

Lemma sort_entries_perm l : sort_entries l ≡ₚ l.
Proof. apply merge_sort_Permutation. Qed.
Lemma elem_of_sort b l : b ∈ sort_entries l <-> b ∈ l.
Proof. by rewrite sort_entries_perm. Qed.

(** Sorting forgets the order, when the names differ. *)
Lemma sort_entries_unique l l' : NoDup (br_FullName <$> l) -> l ≡ₚ l' -> sort_entries l = sort_entries l'.
Proof.
  intros Hd Hp. apply (StronglySorted_unique_strong name_le).
  - intros a b Ha%(proj1 (elem_of_sort _ _)) Hb%(proj1 (elem_of_sort _ _)) Hab Hba. rewrite <- Hp in Hb.
    assert (br_FullName a = br_FullName b) as E by (by apply (anti_symm String.le)).
    apply list_elem_of_lookup in Ha as [i Hi]. apply list_elem_of_lookup in Hb as [j Hj].
    assert (i = j) as ->; [|congruence].
    eapply (NoDup_lookup (br_FullName <$> l)); [done| |]; rewrite list_lookup_fmap; [by rewrite Hi|by rewrite Hj; cbn; rewrite E].
  - apply (StronglySorted_merge_sort name_le).
  - apply (StronglySorted_merge_sort name_le).
  - by rewrite !sort_entries_perm.
Qed.

(** ** Tables *)

(** What the loaders install for a device whose symbols are not nested in one another:
    an entry is filed under its own name, names that share a prefix spell it alike, no
    symbol that was not expanded from another lies below a symbol, and the members of a
    symbol have distinct names. *)
Record browsable {W} (s : session W) : Prop := {
  bw_key k e : ss_symbols s !! k = Some e -> symbolKey (sy_FullName (en_data e)) = k;
  bw_casing p k1 e1 r1 k2 e2 r2 :
    ss_symbols s !! k1 = Some e1 -> k1 = (p ++ "." ++ r1)%string ->
    ss_symbols s !! k2 = Some e2 -> k2 = (p ++ "." ++ r2)%string ->
    str_take (String.length p) (sy_FullName (en_data e1)) = str_take (String.length p) (sy_FullName (en_data e2));
  bw_roots k e p r :
    ss_symbols s !! k = Some e -> sy_Parent (en_data e) = None -> k = (p ++ "." ++ r)%string -> ss_symbols s !! p = None;
  bw_children k e :
    ss_symbols s !! k = Some e -> NoDup ((fun '(_, c) => sy_FullName (sy_data c)) <$> sy_children (en_sym e)) }.

(** An order in which a call may range over the maps of the session. *)
Record order_of {W} (s : session W) (o : maporder) : Prop := {
  oo_table : mo_table o ≡ₚ map_to_list (ss_symbols s);
  oo_children sym : mo_children o sym ≡ₚ sy_children sym }.

Lemma str_take_of_drop n p s : str_take n (str_drop p s) = str_drop p (str_take (p + n) s).
Proof.
  revert s. induction p as [|p IH]; intros [|c s]; cbn; try done. by destruct n.
Qed.

Section Facts.
Context {W : Type} (s : session W) (Hs : browsable s).

Definition root_key (a : string * entry) : option string :=
  if is_Some_b (sy_Parent (en_data a.2)) then None else Some (segment_of a.1).
Definition root_mk (a : string * entry) : SymbolBrowseEntry :=
  match index_dot a.1 with
  | None => symbol_entry (en_data a.2) (symbolHasChildren s (en_sym a.2))
  | Some dot => root_entry s (str_take dot a.1) (en_data a.2)
  end.
Definition child_key (prefix : string) (a : string * entry) : option string :=
  if has_prefix prefix a.1 then Some (prefix ++ segment_of (str_drop (String.length prefix) a.1))%string else None.
Definition child_mk (prefix : string) (a : string * entry) : SymbolBrowseEntry :=
  child_entry s prefix (segment_of (str_drop (String.length prefix) a.1)) (en_data a.2).

Lemma root_loop_firsts l seen : root_loop s l seen = firsts root_key root_mk l seen.
Proof.
  revert seen. induction l as [|[n e] l IH]; intros seen; [done|]. cbn. unfold root_key, root_mk, segment_of. cbn.
  destruct (is_Some_b _); [apply IH|]. destruct (index_dot n); case_decide; by rewrite !IH.
Qed.

Lemma child_loop_firsts prefix l seen : child_loop s prefix l seen = firsts (child_key prefix) (child_mk prefix) l seen.
Proof.
  revert seen. induction l as [|[n e] l IH]; intros seen; [done|]. cbn [child_loop firsts].
  unfold child_key at 1. cbn [fst snd]. destruct (has_prefix _ _); cbn [negb]; [|apply IH]. case_decide; by rewrite !IH.
Qed.

(** Keys are in lower case, and as long as the names they stand for. *)
Lemma key_lower k e : ss_symbols s !! k = Some e -> to_lower k = k.
Proof. intros <- %(bw_key s Hs). apply to_lower_idem. Qed.
Lemma key_length k e : ss_symbols s !! k = Some e -> String.length (sy_FullName (en_data e)) = String.length k.
Proof. intros E%(bw_key s Hs). rewrite <- E. symmetry. apply to_lower_length. Qed.
Lemma prefix_lower p r k e : ss_symbols s !! k = Some e -> k = (p ++ r)%string -> symbolKey p = p.
Proof.
  intros Hk%key_lower ->. rewrite to_lower_app in Hk.
  rewrite <- (str_take_app p r) at 2. rewrite <- Hk at 1. unfold symbolKey.
  by rewrite <- (to_lower_length p), str_take_app.
Qed.
Lemma name_prefix p r k e :
  ss_symbols s !! k = Some e -> k = (p ++ r)%string -> to_lower (str_take (String.length p) (sy_FullName (en_data e))) = p.
Proof.
  intros Hk ->. rewrite to_lower_take. apply (bw_key s Hs) in Hk. unfold symbolKey in Hk. rewrite Hk. apply str_take_app.
Qed.

(** The entry shown for a segment of a symbol's name: the symbol there, or a grouping. *)
Lemma root_mk_plain k e : plain k -> root_mk (k, e) = symbol_entry (en_data e) (symbolHasChildren s (en_sym e)).
Proof. unfold root_mk, plain. cbn. by intros ->. Qed.

Lemma root_mk_group k e p r :
  ss_symbols s !! k = Some e -> sy_Parent (en_data e) = None -> k = (p ++ "." ++ r)%string -> plain p ->
  root_mk (k, e) = grouping (str_take (String.length p) (sy_FullName (en_data e))) (str_take (String.length p) (sy_FullName (en_data e))).
Proof.
  intros Hk Hp E Hpl. unfold root_mk. cbn [fst snd]. rewrite E, index_dot_app by done. rewrite str_take_app.
  unfold root_entry. rewrite (prefix_lower p ("." ++ r) k e) by done. rewrite (bw_roots s Hs k e p r) by done.
  rewrite (proj2 (Nat.leb_le _ _)); [done|]. rewrite (key_length k e), E, str_length_app by done. lia.
Qed.

Lemma child_mk_group k e path seg r :
  ss_symbols s !! k = Some e -> k = (path ++ "." ++ seg ++ "." ++ r)%string -> plain seg ->
  ss_symbols s !! (path ++ "." ++ seg)%string = None ->
  let p := (path ++ "." ++ seg)%string in
  child_mk (path ++ ".") (k, e) =
    grouping (str_drop (String.length (path ++ ".")) (str_take (String.length p) (sy_FullName (en_data e))))
      (str_take (String.length p) (sy_FullName (en_data e))).
Proof.
  intros Hk E Hpl Hn p. assert (k = (path ++ ".") ++ seg ++ "." ++ r)%string as E' by (by rewrite E, str_app_assoc).
  unfold child_mk. cbn [fst snd]. rewrite E', str_drop_app, segment_of_app by done. unfold child_entry.
  assert (((path ++ ".") ++ seg) = p)%string as Ep by (apply str_app_assoc). rewrite Ep.
  rewrite (prefix_lower p ("." ++ r) k e) by (done || (by unfold p; rewrite E, !str_app_assoc)). unfold p. rewrite Hn. fold p.
  rewrite <- str_length_app, Ep. rewrite (proj2 (Nat.leb_le _ _)).
  - f_equal. by rewrite str_take_of_drop, <- str_length_app, Ep.
  - rewrite (key_length k e), E', <- str_app_assoc, Ep, str_length_app by done. lia.
Qed.

Lemma child_mk_symbol prefix seg a e :
  segment_of (str_drop (String.length prefix) a.1) = seg -> ss_symbols s !! (prefix ++ seg)%string = Some e ->
  child_mk prefix a = symbol_entry (en_data e) (symbolHasChildren s (en_sym e)).
Proof.
  intros <- He. unfold child_mk, child_entry.
  rewrite (prefix_lower (prefix ++ _) "" _ e He) by (by rewrite str_app_nil). by rewrite He.
Qed.

(** ** One entry for each segment *)

Section Loops.
Context (o : maporder) (Ho : order_of s o).

Lemma elem_of_table k e : (k, e) ∈ mo_table o <-> ss_symbols s !! k = Some e.
Proof. rewrite (oo_table s o Ho). apply elem_of_map_to_list. Qed.

Lemma root_key_Some n e k : root_key (n, e) = Some k ->
  sy_Parent (en_data e) = None /\ plain k /\ (n = k \/ exists r, n = (k ++ "." ++ r)%string).
Proof.
  unfold root_key. cbn. destruct (sy_Parent (en_data e)); cbn; [done|]. intros [= <-]. split; [done|].
  destruct (segments n) as [Hn|(a & b & Ha & ->)].
  - rewrite segment_of_plain by done. auto.
  - rewrite segment_of_app by done. eauto.
Qed.

Lemma root_mk_name n e k : (n, e) ∈ mo_table o -> root_key (n, e) = Some k -> to_lower (br_FullName (root_mk (n, e))) = k.
Proof.
  intros Hn%elem_of_table (Hp & Hk & [-> | (r & E)])%root_key_Some.
  - rewrite root_mk_plain by done. by apply (bw_key s Hs).
  - rewrite (root_mk_group n e k r) by done. by apply (name_prefix k ("." ++ r) n e).
Qed.

Lemma root_mk_same n e n' e' k :
  (n, e) ∈ mo_table o -> (n', e') ∈ mo_table o -> root_key (n, e) = Some k -> root_key (n', e') = Some k ->
  root_mk (n, e) = root_mk (n', e').
Proof.
  intros Hn%elem_of_table Hn'%elem_of_table (Hp & Hk & Hc)%root_key_Some (Hp' & _ & Hc')%root_key_Some.
  destruct Hc as [-> | (r & E)], Hc' as [-> | (r' & E')].
  - congruence.
  - pose proof (bw_roots s Hs n' e' k r'). naive_solver.
  - pose proof (bw_roots s Hs n e k r). naive_solver.
  - rewrite (root_mk_group n e k r), (root_mk_group n' e' k r') by done.
    by rewrite (bw_casing s Hs k n e r n' e' r') by done.
Qed.

(** A symbol below [path], seen from [path]: its own name, or a segment of it. *)
Lemma child_key_Some path n e k : child_key (path ++ ".") (n, e) = Some k ->
  exists seg, plain seg /\ k = (path ++ "." ++ seg)%string /\ segment_of (str_drop (String.length (path ++ ".")) n) = seg /\
    (n = k \/ exists r, n = (k ++ "." ++ r)%string).
Proof.
  unfold child_key. cbn [fst snd]. destruct (has_prefix (path ++ ".") n) eqn:E; [|done]. apply prefix_app in E as [rest ->]. intros [= <-].
  rewrite str_drop_app. exists (segment_of rest). rewrite str_app_assoc.
  destruct (segments rest) as [Hr|(a & b & Ha & ->)].
  - rewrite segment_of_plain, str_app_assoc by done. auto.
  - rewrite segment_of_app by done. split_and!; [done..|]. right. exists b. by rewrite !str_app_assoc.
Qed.

Lemma child_mk_cases path n e k : (n, e) ∈ mo_table o -> child_key (path ++ ".") (n, e) = Some k ->
  match ss_symbols s !! k with
  | Some c => child_mk (path ++ ".") (n, e) = symbol_entry (en_data c) (symbolHasChildren s (en_sym c))
  | None => child_mk (path ++ ".") (n, e) =
      grouping (str_drop (String.length (path ++ ".")) (str_take (String.length k) (sy_FullName (en_data e))))
        (str_take (String.length k) (sy_FullName (en_data e))) /\ exists r, n = (k ++ "." ++ r)%string
  end.
Proof.
  intros Hn%elem_of_table (seg & Hpl & -> & Hseg & Hc)%child_key_Some.
  destruct (ss_symbols s !! (path ++ "." ++ seg)%string) as [c|] eqn:El.
  - apply (child_mk_symbol _ seg); [done|]. by rewrite str_app_assoc.
  - destruct Hc as [-> | (r & ->)]; [congruence|]. split; [|eauto].
    apply (child_mk_group _ e path seg r); [done|by rewrite !str_app_assoc|done..].
Qed.

Lemma child_mk_name path n e k :
  (n, e) ∈ mo_table o -> child_key (path ++ ".") (n, e) = Some k -> to_lower (br_FullName (child_mk (path ++ ".") (n, e))) = k.
Proof.
  intros Hn Hk. pose proof (child_mk_cases path n e k Hn Hk) as Hc. apply elem_of_table in Hn.
  destruct (ss_symbols s !! k) as [c|] eqn:El.
  - rewrite Hc. by apply (bw_key s Hs).
  - destruct Hc as [-> [r E]]. cbn. by apply (name_prefix k ("." ++ r) n e).
Qed.

Lemma child_mk_same path n e n' e' k :
  (n, e) ∈ mo_table o -> (n', e') ∈ mo_table o -> child_key (path ++ ".") (n, e) = Some k ->
  child_key (path ++ ".") (n', e') = Some k -> child_mk (path ++ ".") (n, e) = child_mk (path ++ ".") (n', e').
Proof.
  intros Hn Hn' Hk Hk'. pose proof (child_mk_cases path n e k Hn Hk) as Hc.
  pose proof (child_mk_cases path n' e' k Hn' Hk') as Hc'. apply elem_of_table in Hn, Hn'.
  destruct (ss_symbols s !! k) as [c|]; [by rewrite Hc, Hc'|].
  destruct Hc as [-> [r E]], Hc' as [-> [r' E']]. by rewrite (bw_casing s Hs k n e r n' e' r').
Qed.
End Loops.

(** ** The order of the maps does not show *)

Lemma order_perm o o' : order_of s o -> order_of s o' -> mo_table o ≡ₚ mo_table o'.
Proof. intros [E _] [E' _]. by rewrite E, E'. Qed.

Lemma browseRoot_order o o' : order_of s o -> order_of s o' -> browseRoot s o = browseRoot s o'.
Proof.
  intros Ho Ho'. unfold browseRoot. rewrite !root_loop_firsts. apply sort_entries_unique.
  - apply (firsts_keys _ _ br_FullName). intros [n e] k. by apply root_mk_name.
  - apply (firsts_perm _ _ br_FullName); [| |by apply order_perm].
    + intros [n e] k. by apply root_mk_name.
    + intros [n e] [n' e'] k. by apply (root_mk_same o Ho).
Qed.

Lemma scan_order o o' path : order_of s o -> order_of s o' ->
  scan s o path ≡ₚ scan s o' path /\ NoDup (br_FullName <$> scan s o path).
Proof.
  intros Ho Ho'. unfold scan. rewrite !child_loop_firsts. split.
  - apply (firsts_perm _ _ br_FullName); [| |by apply order_perm].
    + intros [n e] k. by apply child_mk_name.
    + intros [n e] [n' e'] k. by apply (child_mk_same o Ho).
  - apply (firsts_keys _ _ br_FullName). intros [n e] k. by apply child_mk_name.
Qed.

Lemma expanded_order o o' k e : order_of s o -> order_of s o' -> ss_symbols s !! k = Some e ->
  expanded s o (en_sym e) ≡ₚ expanded s o' (en_sym e) /\ NoDup (br_FullName <$> expanded s o (en_sym e)).
Proof.
  intros [_ Hc] [_ Hc'] Hk. unfold expanded. split; [by rewrite Hc, Hc'|].
  rewrite Hc, <- list_fmap_compose. pose proof (bw_children s Hs k e Hk) as Hd.
  erewrite list_fmap_ext; [exact Hd|]. by intros ? [n c].
Qed.

Lemma browseChildren_order o o' path : order_of s o -> order_of s o' -> browseChildren s o path = browseChildren s o' path.
Proof.
  intros Ho Ho'. unfold browseChildren. destruct (scan_order o o' path Ho Ho') as [Hp Hd].
  assert (forall sym, sort_entries match scan s o path, sym with [], Some sym => [symbol_entry (sy_data sym) false] | l, _ => l end =
    sort_entries match scan s o' path, sym with [], Some sym => [symbol_entry (sy_data sym) false] | l, _ => l end) as Hscan.
  { intros sym. destruct (scan s o path) eqn:E, (scan s o' path) eqn:E'.
    - done. - by apply Permutation_nil_cons in Hp. - by apply Permutation_sym, Permutation_nil_cons in Hp.
    - by apply sort_entries_unique. }
  destruct (ss_symbols s !! symbolKey path) as [e|] eqn:El; cbn; [|exact (Hscan None)].
  destruct (expanded_order o o' _ e Ho Ho' El) as [? ?].
  destruct (en_sym e) as [d [|c cs]] eqn:Es; [exact (Hscan (Some (MkSymbol d [])))|]. by apply sort_entries_unique.
Qed.
(** ** Walking down *)

Context (o : maporder) (Ho : order_of s o).

(** What a user who opens what has children gets to see. *)
Inductive reachable : SymbolBrowseEntry -> Prop :=
| reach_root l b : BrowseSymbols s o "" = Ok l -> b ∈ l -> reachable b
| reach_below a l b :
    reachable a -> br_HasChildren a = true -> BrowseSymbols s o (br_FullName a) = Ok l -> b ∈ l -> reachable b.

(** No name starts with a dot, and a member's parent is in the table and knows it. *)
Record walkable : Prop := {
  wk_loaded : ss_listLoaded s = true \/ ss_fullyLoaded s = true;
  wk_dot r : ss_symbols s !! ("." ++ r)%string = None;
  wk_parent k e p : ss_symbols s !! k = Some e -> sy_Parent (en_data e) = Some p ->
    p <> "" /\ (String.length p < String.length k)%nat /\
    exists pe n c, ss_symbols s !! symbolKey p = Some pe /\ (n, c) ∈ sy_children (en_sym pe) /\
      sy_FullName (sy_data c) = sy_FullName (en_data e) /\ (sy_children (en_sym e) <> [] -> sy_children c <> []) }.
Hypothesis Hw : walkable.

Lemma BrowseSymbols_loaded path :
  BrowseSymbols s o path = Ok (if String.eqb path "" then browseRoot s o else browseChildren s o path).
Proof. unfold BrowseSymbols. destruct (wk_loaded Hw) as [-> | ->]; by rewrite ?andb_false_r. Qed.

Lemma to_lower_nil x : to_lower x = "" -> x = "".
Proof. by destruct x. Qed.

(** One level of [BrowseSymbols] below a prefix that names no symbol. *)
Lemma browse_scan b pre k e seg : reachable b -> br_HasChildren b = true -> to_lower (br_FullName b) = pre -> pre <> "" ->
  ss_symbols s !! pre = None -> (k, e) ∈ mo_table o -> child_key (pre ++ ".") (k, e) = Some seg ->
  reachable (child_mk (pre ++ ".") (k, e)).
Proof.
  intros Hb Hc E Hne Hn Hk Hseg. eapply reach_below; [exact Hb|done|apply BrowseSymbols_loaded|].
  assert (br_FullName b <> "") as Hne' by (intros Hx; rewrite Hx in E; by subst pre).
  rewrite (proj2 (String.eqb_neq _ _)) by done. unfold browseChildren, symbolKey. rewrite E, Hn. cbn.
  apply elem_of_sort. unfold scan, symbolKey. rewrite E, child_loop_firsts.
  destruct (firsts_complete (child_key (pre ++ ".")) (child_mk (pre ++ ".")) (mo_table o) ∅ (k, e) seg)
    as ([k' e'] & Hk' & Hseg' & Hin); [done|done|set_solver|].
  rewrite (child_mk_same o Ho pre k e k' e' seg) by done. by destruct (firsts _ _ _ _); [apply not_elem_of_nil in Hin|].
Qed.

Lemma child_key_app pre seg r k e : plain seg -> k = (pre ++ "." ++ seg)%string \/ k = (pre ++ "." ++ seg ++ "." ++ r)%string ->
  child_key (pre ++ ".") (k, e) = Some (pre ++ "." ++ seg)%string.
Proof.
  intros Hp Hk. unfold child_key. cbn [fst].
  assert (exists x, k = ((pre ++ ".") ++ x)%string /\ segment_of x = seg) as (x & -> & Hx).
  { destruct Hk as [-> | ->]; eexists; (split; [by rewrite str_app_assoc|]);
      [by apply segment_of_plain|by apply segment_of_app]. }
  rewrite (proj2 (prefix_app _ _)) by eauto. by rewrite str_drop_app, Hx, str_app_assoc.
Qed.

Lemma descend k e rest : ss_symbols s !! k = Some e -> sy_Parent (en_data e) = None ->
  forall pre b, k = (pre ++ "." ++ rest)%string -> reachable b -> br_HasChildren b = true ->
  to_lower (br_FullName b) = pre -> pre <> "" ->
  reachable (symbol_entry (en_data e) (symbolHasChildren s (en_sym e))).
Proof.
  intros Hk Hp. remember (String.length rest) as n eqn:En. revert rest En.
  induction (Nat.lt_wf_0 n) as [n _ IH]. intros rest -> pre b E Hb Hc Hl Hne.
  pose proof (proj2 (elem_of_table o Ho k e) Hk) as Hin. pose proof (bw_roots s Hs k e pre rest Hk Hp E) as Hn.
  destruct (segments rest) as [Hr|(seg & r & Hr & ->)].
  - pose proof (child_key_app pre rest "" k e Hr (or_introl E)) as Hkey.
    pose proof (child_mk_cases o Ho pre k e _ Hin Hkey) as Hm. rewrite <- E, Hk in Hm. rewrite <- Hm.
    by eapply browse_scan.
  - pose proof (child_key_app pre seg r k e Hr (or_intror E)) as Hkey.
    assert (k = ((pre ++ "." ++ seg) ++ "." ++ r)%string) as E' by (by rewrite E, !str_app_assoc).
    pose proof (child_mk_cases o Ho pre k e _ Hin Hkey) as Hm. rewrite (bw_roots s Hs k e _ r Hk Hp E') in Hm.
    apply (IH (String.length r)) with (rest := r) (pre := (pre ++ "." ++ seg)%string) (b := child_mk (pre ++ ".") (k, e)).
    + rewrite !str_length_app. cbn. lia.
    + done.
    + done.
    + by eapply browse_scan.
    + by destruct Hm as [-> _].
    + by apply (child_mk_name o Ho).
    + by destruct pre.
Qed.

Lemma reach_segment k e n : ss_symbols s !! k = Some e -> root_key (k, e) = Some n -> reachable (root_mk (k, e)).
Proof.
  intros Hk Hn. eapply reach_root; [apply BrowseSymbols_loaded|]. cbn. apply elem_of_sort. rewrite root_loop_firsts.
  apply (elem_of_table o Ho) in Hk.
  destruct (firsts_complete root_key root_mk (mo_table o) ∅ (k, e) n) as ([k' e'] & Hk' & Hn' & Hin); [done|done|set_solver|].
  by rewrite (root_mk_same o Ho k e k' e' n).
Qed.

Lemma reach_parentless k e : ss_symbols s !! k = Some e -> sy_Parent (en_data e) = None ->
  reachable (symbol_entry (en_data e) (symbolHasChildren s (en_sym e))).
Proof.
  intros Hk Hp. destruct (root_key (k, e)) as [n|] eqn:Hn; [|unfold root_key in Hn; cbn in Hn; by rewrite Hp in Hn].
  pose proof (reach_segment k e n Hk Hn) as Hr. apply root_key_Some in Hn as Hs'. destruct Hs' as (_ & Hpl & [-> | (r & E)]).
  - by rewrite root_mk_plain in Hr.
  - assert (n <> "") as Hne by (intros ->; pose proof (wk_dot Hw r) as Hd; rewrite E in Hk; exact (eq_None_ne_Some_1 _ _ Hd Hk)).
    eapply (descend k e r Hk Hp n); [done|exact Hr| | |done].
    + by rewrite (root_mk_group k e n r).
    + by apply (root_mk_name o Ho); [apply elem_of_table|].
Qed.

(** Every symbol is reached, as an entry of its own name that can be opened if it has members. *)
Lemma reach_all k e : ss_symbols s !! k = Some e ->
  exists b, reachable b /\ br_FullName b = sy_FullName (en_data e) /\ (sy_children (en_sym e) <> [] -> br_HasChildren b = true).
Proof.
  assert (forall sym, sy_children sym <> [] -> symbolHasChildren s sym = true) as Hhas.
  { intros sym. unfold symbolHasChildren. by destruct (sy_children sym). }
  remember (String.length k) as n eqn:En. revert k e En. induction (Nat.lt_wf_0 n) as [n _ IH]. intros k e -> Hk.
  destruct (sy_Parent (en_data e)) as [p|] eqn:Hp.
  - destruct (wk_parent Hw k e p Hk Hp) as (Hne & Hlt & pe & x & c & Hpe & Hc & Hname & Hcs).
    rewrite <- (to_lower_length p) in Hlt. destruct (IH _ Hlt _ pe eq_refl Hpe) as (b & Hb & Hbn & Hbc).
    exists (symbol_entry (sy_data c) (symbolHasChildren s c)). split_and!; [|done|by intros ?%Hcs%Hhas].
    assert (sy_children (en_sym pe) <> []) as Hpc by (intros Hx; rewrite Hx in Hc; by apply not_elem_of_nil in Hc).
    pose proof (bw_key s Hs _ _ Hpe) as Hkey. rewrite <- Hbn in Hkey.
    eapply reach_below; [exact Hb|by apply Hbc|apply BrowseSymbols_loaded|].
    rewrite (proj2 (String.eqb_neq _ _)) by (intros Hx; rewrite Hx in Hkey; symmetry in Hkey; by apply to_lower_nil in Hkey).
    unfold browseChildren. rewrite Hkey, Hpe. cbn. destruct (en_sym pe) as [d [|c0 cs]] eqn:Epe; [done|].
    apply elem_of_sort, list_elem_of_fmap. exists (x, c). split; [done|]. by rewrite (oo_children s o Ho).
  - eexists. split; [by apply (reach_parentless k)|]. split; [done|]. apply Hhas.
Qed.
End Facts.

(** ** Checking a table *)

Definition is_nil {A} (l : list A) : bool := match l with [] => true | _ => false end.

(** Where the keys agree, so do the names. *)
Definition agree (key name key' name' : string) : bool :=
  forallb (fun n => negb (String.eqb (str_take n key) (str_take n key'))
    || String.eqb (str_take n name) (str_take n name')) (seq 0 (String.length key)).

Lemma is_nil_spec {A} (l : list A) : is_nil l = true <-> l = [].
Proof. by destruct l. Qed.
Lemma below_check (f : nat -> bool) (p r : string) :
  forallb f (seq 0 (String.length (p ++ "." ++ r))) = true -> f (String.length p) = true.
Proof. intros Hf. rewrite forallb_forall in Hf. apply Hf, in_seq. rewrite !str_length_app. cbn. lia. Qed.
Lemma agree_sound p r name r' name' : agree (p ++ "." ++ r) name (p ++ "." ++ r') name' = true ->
  str_take (String.length p) name = str_take (String.length p) name'.
Proof. intros H%below_check. rewrite !str_take_app, String.eqb_refl in H. by apply String.eqb_eq. Qed.

(** [browsable] and [walkable], decided. *)
Section Checks.
Context {W : Type} (s : session W).
Let T : list (string * entry) := map_to_list (ss_symbols s).

Definition common_prefixes_agree (a b : string * entry) : bool :=
  agree a.1 (sy_FullName (en_data a.2)) b.1 (sy_FullName (en_data b.2)).
Definition not_nested (a : string * entry) : bool :=
  is_Some_b (sy_Parent (en_data a.2))
  || forallb (fun n => negb (has_prefix "." (str_drop n a.1)) || negb (is_Some_b (ss_symbols s !! str_take n a.1)))
       (seq 0 (String.length a.1)).
Definition browsable_b : bool :=
  forallb (fun '(k, e) => String.eqb (symbolKey (sy_FullName (en_data e))) k
    && not_nested (k, e) && forallb (common_prefixes_agree (k, e)) T
    && bool_decide (NoDup ((fun '(_, c) => sy_FullName (sy_data c)) <$> sy_children (en_sym e)))) T.

Definition known_to_parent (k : string) (e : entry) : bool :=
  match sy_Parent (en_data e) with
  | None => true
  | Some p =>
      negb (String.eqb p "") && (String.length p <? String.length k)%nat
      && match ss_symbols s !! symbolKey p with
         | None => false
         | Some pe => existsb (fun '(_, c) => String.eqb (sy_FullName (sy_data c)) (sy_FullName (en_data e))
             && (is_nil (sy_children (en_sym e)) || negb (is_nil (sy_children c)))) (sy_children (en_sym pe))
         end
  end.
Definition walkable_b : bool :=
  (ss_listLoaded s || ss_fullyLoaded s) && forallb (fun '(k, e) => negb (has_prefix "." k) && known_to_parent k e) T.

Lemma table_check (f : string * entry -> bool) k e : forallb f T = true -> ss_symbols s !! k = Some e -> f (k, e) = true.
Proof. intros Hf Hk. rewrite forallb_forall in Hf. by apply Hf, list_elem_of_In, elem_of_map_to_list. Qed.

Lemma browsable_b_sound : browsable_b = true -> browsable s.
Proof.
  intros Hc. assert (forall k e, ss_symbols s !! k = Some e -> (symbolKey (sy_FullName (en_data e)) = k /\
    not_nested (k, e) = true) /\ forallb (common_prefixes_agree (k, e)) T = true /\
    NoDup ((fun '(_, c) => sy_FullName (sy_data c)) <$> sy_children (en_sym e))) as H.
  { intros k e Hk. pose proof (table_check _ k e Hc Hk) as H. cbn in H.
    apply andb_prop in H as [H ?%bool_decide_eq_true]. apply andb_prop in H as [H ?].
    by apply andb_prop in H as [->%String.eqb_eq ?]. }
  constructor.
  - intros k e Hk. by apply H.
  - intros p k1 e1 r1 k2 e2 r2 H1 -> H2 ->. apply H in H1 as (_ & Ha & _).
    by apply (table_check _ _ e2 Ha), agree_sound in H2.
  - intros k e p r Hk Hp ->. apply H in Hk as [[_ Hn] _]. unfold not_nested in Hn. cbn [fst snd] in Hn.
    rewrite Hp in Hn. apply below_check in Hn. rewrite str_drop_app, str_take_app in Hn.
    rewrite (proj2 (prefix_app "." _)) in Hn by (by exists r). by destruct (ss_symbols s !! p).
  - intros k e Hk. by destruct (H k e Hk) as (_ & _ & ?).
Qed.

Lemma walkable_b_sound : walkable_b = true -> walkable s.
Proof.
  intros [Hl%orb_prop Hc]%andb_prop. constructor; [done| |].
  - intros r. destruct (ss_symbols s !! ("." ++ r)%string) as [e|] eqn:E; [|done].
    pose proof (table_check _ _ e Hc E) as H. cbv beta iota in H. rewrite (proj2 (prefix_app "." _)) in H by (by exists r). done.
  - intros k e p Hk Hp. pose proof (table_check _ k e Hc Hk) as H. apply andb_prop in H as [_ H].
    unfold known_to_parent in H. rewrite Hp in H. apply andb_prop in H as [[H1 H2]%andb_prop H].
    apply negb_true_iff, String.eqb_neq in H1. apply Nat.ltb_lt in H2. split_and!; [done..|].
    destruct (ss_symbols s !! symbolKey p) as [pe|]; [|done].
    apply existsb_exists in H as ([n c] & Hin%list_elem_of_In & [Hn%String.eqb_eq H]%andb_prop).
    exists pe, n, c. split_and!; [done..|]. intros Hne Hnc. apply orb_prop in H as [H|H].
    + by apply is_nil_spec in H.
    + by rewrite Hnc in H.
Qed.
End Checks.

(** ** The properties *)

(** Go ranges over its maps in an order of its own, in every call.  On a table whose
    symbols are not nested in one another [BrowseSymbols] answers the same whatever the
    order, at the root and below any path. *)
Theorem BrowseSymbols_order {W} (s : session W) o o' path :
  browsable s -> order_of s o -> order_of s o' -> BrowseSymbols s o path = BrowseSymbols s o' path.
Proof.
  intros Hs Ho Ho'. unfold BrowseSymbols. by rewrite (browseRoot_order s Hs o o'), (browseChildren_order s Hs o o').
Qed.

(** Walking down from the root, opening only what is marked as having children and
    asking only for the full names shown, every symbol of the table is found, under the
    name the PLC gave it; a symbol with members can be opened in turn. *)
Theorem browse_reaches_every_symbol {W} (s : session W) o k e :
  browsable s -> walkable s -> order_of s o -> ss_symbols s !! k = Some e ->
  exists b, reachable s o b /\ br_FullName b = sy_FullName (en_data e) /\
    (sy_children (en_sym e) <> [] -> br_HasChildren b = true).
Proof. intros Hs Hw Ho. by apply reach_all. Qed.

(** A listing, as [LoadSymbolList] without datatypes installs it. *)
Lemma listed_lookup us m0 k sym :
  fold_left (add_entry ∅) us m0 !! k = Some sym ->
  m0 !! k = Some sym \/ exists u, u ∈ us /\ k = symbolKey (us_name u) /\ sym = addSymbol ∅ u.
Proof.
  revert m0. induction us as [|u us IH]; intros m0; cbn; [by left|]. intros [H|(v & ? & ? & ?)]%IH.
  - unfold add_entry in H. unfold addSymbol in H at 1. rewrite lookup_empty in H. cbn in H.
    destruct (decide (symbolKey (us_name u) = k)) as [<- |Hn].
    + rewrite lookup_insert_eq in H. injection H as <-. right. exists u. split_and!; [by left|done..].
    + rewrite lookup_insert_ne in H by done. by left.
  - right. exists v. split_and!; [by right|done..].
Qed.

Lemma listed_keeps us m0 k sym : m0 !! k = Some sym -> (forall u, u ∈ us -> symbolKey (us_name u) <> k) ->
  fold_left (add_entry ∅) us m0 !! k = Some sym.
Proof.
  revert m0. induction us as [|u us IH]; intros m0 Hm Hk; cbn; [done|]. apply IH.
  - unfold add_entry. unfold addSymbol at 1. rewrite lookup_empty. cbn.
    rewrite lookup_insert_ne; [done|]. apply Hk. by left.
  - intros v Hv. apply Hk. by right.
Qed.

Lemma listed_has us m0 u : NoDup (symbolKey ∘ us_name <$> us) -> u ∈ us ->
  fold_left (add_entry ∅) us m0 !! symbolKey (us_name u) = Some (addSymbol ∅ u).
Proof.
  revert m0. induction us as [|v us IH]; intros m0 Hd Hu; [by apply not_elem_of_nil in Hu|].
  apply NoDup_cons in Hd as [Hv Hd]. apply elem_of_cons in Hu as [-> |Hu]; cbn; [|by apply IH].
  apply listed_keeps.
  - unfold add_entry. unfold addSymbol at 1. rewrite lookup_empty. apply lookup_insert_eq.
  - intros w Hw E. apply Hv, list_elem_of_fmap. by exists w.
Qed.

(** The names of a listing: distinct, not nested in one another, none starting with a
    dot, and alike where they share a prefix. *)
Record names_ok (us : list symbolUploadSymbol) : Prop := {
  no_distinct : NoDup (symbolKey ∘ us_name <$> us);
  no_dot u r : u ∈ us -> symbolKey (us_name u) <> ("." ++ r)%string;
  no_nested u v r : u ∈ us -> v ∈ us -> symbolKey (us_name u) <> (symbolKey (us_name v) ++ "." ++ r)%string;
  no_casing u v p r r' : u ∈ us -> v ∈ us -> symbolKey (us_name u) = (p ++ "." ++ r)%string ->
    symbolKey (us_name v) = (p ++ "." ++ r')%string ->
    str_take (String.length p) (us_name u) = str_take (String.length p) (us_name v) }.

Definition names_ok_b (us : list symbolUploadSymbol) : bool :=
  bool_decide (NoDup (symbolKey ∘ us_name <$> us))
  && forallb (fun u => negb (has_prefix "." (symbolKey (us_name u)))
    && forallb (fun v => negb (has_prefix (symbolKey (us_name v) ++ ".") (symbolKey (us_name u)))
         && agree (symbolKey (us_name u)) (us_name u) (symbolKey (us_name v)) (us_name v)) us) us.

Lemma names_ok_b_sound us : names_ok_b us = true -> names_ok us.
Proof.
  intros [Hd%bool_decide_eq_true Hc]%andb_prop. rewrite forallb_forall in Hc.
  assert (forall u, u ∈ us -> has_prefix "." (symbolKey (us_name u)) = false /\
    forall v, v ∈ us -> has_prefix (symbolKey (us_name v) ++ ".") (symbolKey (us_name u)) = false /\
      agree (symbolKey (us_name u)) (us_name u) (symbolKey (us_name v)) (us_name v) = true) as H.
  { intros u Hu%list_elem_of_In%Hc. apply andb_prop in Hu as [Hu%negb_true_iff Hv]. split; [done|].
    intros v Hin%list_elem_of_In. rewrite forallb_forall in Hv. by apply Hv, andb_prop in Hin as [?%negb_true_iff ?]. }
  constructor; [done| | |].
  - intros u r Hu E. apply H in Hu as [Hu _]. rewrite (proj2 (prefix_app _ _)) in Hu; [done|eauto].
  - intros u v r Hu Hv E. destruct (proj2 (H u Hu) v Hv) as [Hn _].
    rewrite (proj2 (prefix_app _ _)) in Hn; [done|]. exists r. by rewrite str_app_assoc.
  - intros u v p r r' Hu Hv E E'. destruct (proj2 (H u Hu) v Hv) as [_ Ha]. rewrite E, E' in Ha. by apply agree_sound in Ha.
Qed.

Lemma listing_walkable {W} us (s : session W) : names_ok us -> ss_listLoaded s = true ->
  en_sym <$> ss_symbols s = fold_left (add_entry ∅) us ∅ -> browsable s /\ walkable s.
Proof.
  intros Hn Hl Hm.
  assert (forall k e, ss_symbols s !! k = Some e -> exists u, u ∈ us /\ k = symbolKey (us_name u) /\ en_sym e = addSymbol ∅ u) as H.
  { intros k e Hk. assert ((en_sym <$> ss_symbols s) !! k = Some (en_sym e)) as E by (by rewrite lookup_fmap, Hk).
    rewrite Hm in E. apply listed_lookup in E as [E|E]; [by rewrite lookup_empty in E|done]. }
  split; constructor; unfold en_data.
  - intros k e (u & _ & -> & ->)%H. done.
  - intros p k e r k' e' r' (u & Hu & Ek & ->)%H -> (v & Hv & Ek' & ->)%H ->. by apply (no_casing us Hn u v p r r').
  - intros k e p r (u & Hu & -> & _)%H _ Ek. destruct (ss_symbols s !! p) as [pe|] eqn:Hp; [|done].
    apply H in Hp as (v & Hv & -> & _). by apply (no_nested us Hn u v r) in Ek.
  - intros k e (u & _ & _ & ->)%H. unfold addSymbol. rewrite lookup_empty. constructor.
  - by left.
  - intros r. destruct (ss_symbols s !! _) as [e|] eqn:E; [|done]. apply H in E as (u & Hu & E & _).
    by destruct (no_dot us Hn u r Hu).
  - intros k e p (u & _ & _ & E)%H Hp. by rewrite E in Hp.
Qed.

(** Each entry of a listing is reached, with what the PLC sent of it. *)
Lemma listing_finds {W} ws (s : session W) o w :
  names_ok (map item_of ws) -> ss_listLoaded s = true ->
  en_sym <$> ss_symbols s = fold_left (add_entry ∅) (map item_of ws) ∅ -> order_of s o -> w ∈ ws ->
  exists b, reachable s o b /\ br_FullName b = cString (ws_name w) /\
    br_DataType b = normalizeStringDataType (cString (ws_type w)) /\
    br_Size b = se_Size (ws_entry w) /\ br_Comment b = cString (ws_comment w).
Proof.
  intros Hn Hl Hs Ho Hin. destruct (listing_walkable _ s Hn Hl Hs) as [Hb Hk].
  pose proof (listed_has _ ∅ (item_of w) (no_distinct _ Hn) ltac:(apply list_elem_of_fmap; eauto)) as He.
  rewrite <- Hs, lookup_fmap in He. destruct (ss_symbols s !! _) as [e|] eqn:E; [|done]. injection He as He.
  exists (symbol_entry (en_data e) (symbolHasChildren s (en_sym e))). split.
  - apply (reach_parentless s Hb o Ho Hk _ e E). unfold en_data. by rewrite He.
  - unfold en_data. rewrite He. done.
Qed.

(** ** Concrete tables *)

Definition browse_entry (sym : symbol) : entry := {| en_id := 1; en_sym := sym; en_updated := 0; en_interval := 0 |}.
Definition browse_session (dts : datatypes) (m : symbols) : session unit :=
  {| ss_client := None; ss_symbols := browse_entry <$> m; ss_onDemand := ∅; ss_datatypes := dts;
     ss_fullyLoaded := false; ss_listLoaded := true; ss_datatypesLoaded := bool_decide (dts <> ∅); ss_version := 0;
     ss_runtime := (0, 0); ss_strictFailures := 0; ss_epoch := 0; ss_now := 0; ss_nextId := 2; ss_detected := [] |}.
Definition map_order {W} (s : session W) : maporder :=
  {| mo_table := map_to_list (ss_symbols s); mo_children := sy_children |}.
Definition backwards (o : maporder) : maporder :=
  {| mo_table := reverse (mo_table o); mo_children := fun sym => reverse (mo_children o sym) |}.

Lemma map_order_of {W} (s : session W) : order_of s (map_order s).
Proof. by constructor. Qed.
Lemma backwards_of {W} (s : session W) o : order_of s o -> order_of s (backwards o).
Proof. intros [H1 H2]. constructor; intros; cbn; rewrite reverse_Permutation; auto. Qed.

(** A structure with its two members. *)
Definition struct_table : session unit :=
  browse_session sample_datatypes (add_entry sample_datatypes ∅ (item_of sample_symbol)).

Lemma struct_table_ok : browsable_b struct_table && walkable_b struct_table = true.
Proof. vm_compute. reflexivity. Qed.

Lemma BrowseSymbols_order_witness :
  BrowseSymbols struct_table (map_order struct_table) "main.POS" =
  BrowseSymbols struct_table (backwards (map_order struct_table)) "main.POS".
Proof.
  apply (BrowseSymbols_order struct_table).
  - apply browsable_b_sound. by destruct (andb_prop _ _ struct_table_ok).
  - apply map_order_of.
  - apply backwards_of, map_order_of.
Defined.

Lemma browse_reaches_every_symbol_witness :
  exists e, ss_symbols struct_table !! "main.pos.x"%string = Some e /\
  exists b, reachable struct_table (map_order struct_table) b /\ br_FullName b = sy_FullName (en_data e) /\
    (sy_children (en_sym e) <> [] -> br_HasChildren b = true).
Proof.
  destruct (ss_symbols struct_table !! "main.pos.x"%string) as [e|] eqn:E; [|vm_compute in E; discriminate].
  exists e. split; [reflexivity|].
  apply (browse_reaches_every_symbol struct_table (map_order struct_table) "main.pos.x" e).
  - apply browsable_b_sound. by destruct (andb_prop _ _ struct_table_ok).
  - apply walkable_b_sound. by destruct (andb_prop _ _ struct_table_ok).
  - apply map_order_of.
  - exact E.
Defined.

(** TwinCAT 2 names its global variables with a leading dot.  The root then shows a
    grouping with an empty name, and asking for what is below it answers with the root
    again: nothing else is ever shown. *)
Definition global_symbol : symbolUploadSymbol :=
  {| us_entry := ws_entry sample_symbol; us_name := ".speed"; us_type := "INT"; us_comment := "" |}.
Definition globals_session : session unit := browse_session ∅ (add_entry ∅ ∅ global_symbol).

Theorem twincat2_globals_unreachable b :
  reachable globals_session (map_order globals_session) b -> b = grouping "" "".
Proof.
  assert (BrowseSymbols globals_session (map_order globals_session) "" = Ok [grouping "" ""]) as E
    by (vm_compute; reflexivity).
  intros H. induction H as [l b Hl Hb|a l b _ IH _ Hl Hb].
  - rewrite E in Hl. injection Hl as <-. by apply list_elem_of_singleton in Hb.
  - rewrite IH in Hl. change (br_FullName (grouping "" "")) with ""%string in Hl.
    rewrite E in Hl. injection Hl as <-. by apply list_elem_of_singleton in Hb.
Qed.

(** When a symbol of a primitive type has symbols below it, the root shows it as having
    children or not, depending on which the range meets first. *)
Definition nested_session : session unit :=
  browse_session ∅ (add_entry ∅ (add_entry ∅ ∅ {| us_entry := ws_entry sample_symbol; us_name := "x"; us_type := "DINT"; us_comment := "" |})
    {| us_entry := ws_entry sample_symbol; us_name := "x.y"; us_type := "BOOL"; us_comment := "" |}).

Theorem nested_symbol_order_shows :
  exists o o' b b', order_of nested_session o /\ order_of nested_session o' /\
    BrowseSymbols nested_session o "" = Ok [b] /\ BrowseSymbols nested_session o' "" = Ok [b'] /\
    br_HasChildren b <> br_HasChildren b'.
Proof.
  exists (map_order nested_session), (backwards (map_order nested_session)).
  do 2 eexists. split; [apply map_order_of|]. split; [apply backwards_of, map_order_of|].
  split; [vm_compute; reflexivity|]. split; [vm_compute; reflexivity|]. discriminate.
Qed.
