(* ===== verification/ListingFacts.v ===== *)
(** LoadSymbolList (Discovery.v) followed by BrowseSymbols (Browse.v): the list of symbols
    of a device, whole or in pieces, becomes a table that can be walked. *)
From S2P Require Import Prelude Wire Strconv Defs Ams Client SymbolTable SymbolTableFacts GoTime Utf Codec CodecSafety Policies Access AccessFacts Discovery DiscoveryFacts DiscoveryWitness Browse BrowseFacts.

(** What [LoadSymbolList] does on a list of symbols, in a session without datatypes. *)
Definition install_listing {W} (version : Z) (sym_blob : bytes) : call W () :=
  _ ← modify (store_version version);
  symbols ← lift_call (wrap_err "failed to parse symbols" (parseUploadSymbolInfoSymbols sym_blob ∅));
  modify (fun s =>
    let s := clear_onDemand (set_loaded (ss_fullyLoaded s) true (ss_datatypesLoaded s) (store_table symbols s)) in
    bump_epoch (if ss_datatypesLoaded s then rebuildSymbolChildrenLocked s else s)).

Lemma imap_same {A} (l : list A) : imap (fun _ x => x) l = l.
Proof. induction l as [|x l IH]; [done|]. rewrite imap_cons. by f_equal. Qed.

Lemma install_entries_sym now first m : en_sym <$> install_entries now first m = m.
Proof.
  unfold install_entries. rewrite <- list_to_map_fmap, fmap_imap.
  rewrite (imap_ext _ (fun _ x => x)) by (by intros ? [k sym]). rewrite imap_same. apply list_to_map_to_list.
Qed.

Lemma same_but_client {W} (s s' : session W) : without_client s = without_client s' ->
  ss_symbols s = ss_symbols s' /\ ss_listLoaded s = ss_listLoaded s' /\ ss_datatypesLoaded s = ss_datatypesLoaded s'.
Proof. intros E. injection E. auto. Qed.

Section Listing.
Context {W : Type} `{Transport W} `{FloatText} `{JsonText}.
Context (ctx_err : W -> option goerr) (t : AMSAddress) (version : byte) (dts_blob sym_blob : bytes).
Hypothesis device : table_device t version dts_blob sym_blob.

Lemma refines_modify_id f spec : refines t f spec -> refines t (modify (W := W) id ≫= fun _ => f) spec.
Proof. done. Qed.

Lemma LoadSymbolList_installs cfg : 0 <= ChunkSize cfg -> uncancelled ctx_err (ChunkDelay (applyDefaults cfg)) ->
  refines t (LoadSymbolList id ctx_err cfg) (install_listing (Z_of_byte version) sym_blob).
Proof.
  intros Hc Hu. destruct (answers_info t version dts_blob sym_blob device) as (info & Hi & _ & Hs).
  destruct (td_sizes _ _ _ _ device) as [_ Ss].
  assert (0 < ChunkSize (applyDefaults cfg)).
  { unfold applyDefaults. cbn. destruct (ChunkSize cfg =? 0) eqn:E; zbool; lia. }
  unfold LoadSymbolList, install_listing. apply refines_requireClient. cbv zeta.
  apply refines_version; [by apply (answers_version t version dts_blob sym_blob)|].
  apply refines_wrap_net with info; [done|]. rewrite Hs. apply refines_modify_id.
  apply refines_wrap_net with sym_blob; [apply (answers_chunks ctx_err t version dts_blob sym_blob device); [apply (td_sym_pieces _ _ _ _ device)|done..]|].
  apply refines_lift. intros syms _ s s0 Hcc E. split; [done|].
  destruct s, s0. injection E. intros. subst. unfold modify, rebuildSymbolChildrenLocked. cbn.
  case_match; [|done]. by destruct (foldl _ _ _).
Qed.

(** A list of symbols loaded into a session that has no datatypes. *)
Lemma listing_loaded ws cfg s : sym_blob = concat (map encode_symbol ws) -> Forall wf_wire ws ->
  connected_to t s -> ss_datatypesLoaded s = false ->
  0 <= ChunkSize cfg -> uncancelled ctx_err (ChunkDelay (applyDefaults cfg)) ->
  let '(s', r) := LoadSymbolList id ctx_err cfg s in
  r = Ok () /\ ss_listLoaded s' = true /\ en_sym <$> ss_symbols s' = fold_left (add_entry ∅) (map item_of ws) ∅.
Proof.
  intros Eb Hw Hs Hn Hc Hu. destruct (LoadSymbolList_installs cfg Hc Hu s s Hs eq_refl) as [Hr [Hm [Hl _]]%same_but_client].
  destruct (LoadSymbolList id ctx_err cfg s) as [s' r]. cbn [fst snd] in *. rewrite Hr, Hm, Hl.
  unfold install_listing, mbind, call_bind, modify, lift_call. rewrite Eb.
  unfold parseUploadSymbolInfoSymbols. rewrite symbols_loop_app by done. cbn. rewrite Hn.
  split_and!; [done|done|]. apply install_entries_sym.
Qed.
End Listing.

Section Contract.
Context {W : Type} `{Transport W} `{FloatText} `{JsonText}.
Context (ctx_err : W -> option goerr) (t : AMSAddress) (version : byte) (dts_blob : bytes) (ws : list wire_symbol).

(** A table is well formed when each entry is filed under its own name in lower case,
    spellings of a common prefix agree, no symbol lies below another and members know
    their parents.  [LoadSymbolList], on a device whose names are in order, succeeds
    and leaves a well-formed table, whatever the chunk size and however short the
    pieces come. *)
Theorem LoadSymbolList_well_formed cfg s :
  table_device t version dts_blob (concat (map encode_symbol ws)) -> Forall wf_wire ws -> names_ok (map item_of ws) ->
  connected_to t s -> ss_datatypesLoaded s = false ->
  0 <= ChunkSize cfg -> uncancelled ctx_err (ChunkDelay (applyDefaults cfg)) ->
  let '(s', r) := LoadSymbolList id ctx_err cfg s in r = Ok () /\ browsable s' /\ walkable s'.
Proof.
  intros Hd Hw Hn Hs Hf Hc Hu.
  pose proof (listing_loaded ctx_err t version dts_blob _ Hd ws cfg s eq_refl Hw Hs Hf Hc Hu) as Hl.
  destruct (LoadSymbolList id ctx_err cfg s) as [s' r]. destruct Hl as (Hr & Hl & Hm).
  destruct (listing_walkable _ s' Hn Hl Hm). auto.
Qed.

End Contract.

(** ** A concrete device *)

#[local] Existing Instance bits_text.
#[local] Existing Instance empty_json.
#[local] Existing Instance table_plc.

Lemma sample_ok : Forall wf_wire [sample_symbol] /\ names_ok (map item_of [sample_symbol]).
Proof.
  split; [repeat constructor; vm_compute; (reflexivity || discriminate)|].
  apply names_ok_b_sound. vm_compute. reflexivity.
Qed.

Lemma LoadSymbolList_well_formed_witness :
  let '(s', r) := LoadSymbolList id (fun _ => None) quick table_session in r = Ok () /\ browsable s' /\ walkable s'.
Proof.
  apply (LoadSymbolList_well_formed (fun _ => None) (cl_target table_client) Byte.x07 [] [sample_symbol] quick table_session).
  - apply demo_device.
  - apply sample_ok.
  - apply sample_ok.
  - split; [by exists table_client|done].
  - done.
  - done.
  - by right.
Defined.

Definition loaded_session : session () := (LoadSymbolList id (fun _ => None) quick table_session).1.

