(* ===== verification/Watch.v ===== *)
(** cmd_notification.go: the heartbeat of a session and the watcher that re-subscribes
    when it stops ([establishHeartbeat], [startHeartbeatWatch], [heartbeatWatch]).

    The watcher is a goroutine around a ticker.  [tick] is one round of its loop: the
    detector's state and what the session shows at that tick give the new state, what
    the watcher starts, and whether it goes on. *)
From S2P Require Import Prelude Wire Defs Fsm Subs Batch Window Policies.

(** ** The recovery mode *)

(** [HRUnset] is the zero value; a value that is none of the three is kept as unset by
    the option. *)
Inductive HeartbeatRecovery : Type :=
| HRUnset | HeartbeatRecoveryImmediate | HeartbeatRecoveryConfirm | HeartbeatRecoveryObserve.

Definition HeartbeatRecovery_String (h : HeartbeatRecovery) : string :=
  match h with
  | HeartbeatRecoveryImmediate => "immediate"
  | HeartbeatRecoveryConfirm => "confirm"
  | HeartbeatRecoveryObserve => "observe"
  | HRUnset => "unset"
  end.

Definition WithHeartbeatRecovery (mode old : HeartbeatRecovery) : HeartbeatRecovery :=
  match mode with HRUnset => old | _ => mode end.

Definition heartbeatRecoveryMode (h : HeartbeatRecovery) : HeartbeatRecovery :=
  match h with HRUnset => HeartbeatRecoveryImmediate | _ => h end.

(** ** Establishing the heartbeat *)

(** What the session and the PLC show while [establishHeartbeat] runs: the guards, the
    answer to the Add, the table of live handles at the collision check and the
    heartbeat's handle at the compare-and-swap, which others may have set meanwhile. *)
Record establish_env : Type := {
  ee_closed : bool; ee_enabled : bool; ee_client : bool; ee_add : Z + goerr;
  ee_active : gmap Z activeNotification; ee_handle : Z; ee_now : Z }.

Record established : Type := {
  eh_heartbeat : heartbeat;        (** after the call *)
  eh_released : list Z;            (** handles deleted on the PLC again *)
  eh_watch : bool;                 (** [startHeartbeatWatch] was called *)
  eh_err : option goerr }.

Definition establishHeartbeat (e : establish_env) (hb : heartbeat) : established :=
  let stay hb released watch err := {| eh_heartbeat := hb; eh_released := released; eh_watch := watch; eh_err := err |} in
  if ee_closed e || negb (ee_enabled e) || negb (heartbeatHandle hb =? 0) || negb (ee_client e)
  then stay hb [] false None
  else
    (* the round trip to the PLC: another subscribe may have set the handle *)
    let hb := {| heartbeatHandle := ee_handle e; heartbeatBeats := heartbeatBeats hb; heartbeatLastNs := heartbeatLastNs hb |} in
    match ee_add e with
    | inr err => stay hb [] true (Some err)
    | inl handle =>
        if is_Some_b (ee_active e !! handle) then stay hb [handle] true None
        else if negb (heartbeatHandle hb =? 0) then stay hb [handle] false None
        else stay {| heartbeatHandle := handle; heartbeatBeats := heartbeatBeats hb; heartbeatLastNs := ee_now e |}
               [] true None
    end.

(** ** The detector *)

Definition heartbeatFailuresBeforeReconnect : Z := 2.

(** The locals of [heartbeatWatch]. *)
Record watcher : Type := {
  lastBeats : Z; quietTicks : Z; lastGen : Z; streak : recoveryStreak;
  framesAtWindow : Z; framelessWindows : Z; gapTicks : Z; silentWindows : Z }.

Definition set_quiet (n : Z) (w : watcher) : watcher :=
  {| lastBeats := lastBeats w; quietTicks := n; lastGen := lastGen w; streak := streak w;
     framesAtWindow := framesAtWindow w; framelessWindows := framelessWindows w; gapTicks := gapTicks w;
     silentWindows := silentWindows w |}.
Definition set_beats (n : Z) (w : watcher) : watcher :=
  {| lastBeats := n; quietTicks := quietTicks w; lastGen := lastGen w; streak := streak w;
     framesAtWindow := framesAtWindow w; framelessWindows := framelessWindows w; gapTicks := gapTicks w;
     silentWindows := silentWindows w |}.
Definition set_streak (r : recoveryStreak) (w : watcher) : watcher :=
  {| lastBeats := lastBeats w; quietTicks := quietTicks w; lastGen := lastGen w; streak := r;
     framesAtWindow := framesAtWindow w; framelessWindows := framelessWindows w; gapTicks := gapTicks w;
     silentWindows := silentWindows w |}.
Definition set_frames (at_ windows : Z) (w : watcher) : watcher :=
  {| lastBeats := lastBeats w; quietTicks := quietTicks w; lastGen := lastGen w; streak := streak w;
     framesAtWindow := at_; framelessWindows := windows; gapTicks := gapTicks w; silentWindows := silentWindows w |}.
Definition set_gap (n : Z) (w : watcher) : watcher :=
  {| lastBeats := lastBeats w; quietTicks := quietTicks w; lastGen := lastGen w; streak := streak w;
     framesAtWindow := framesAtWindow w; framelessWindows := framelessWindows w; gapTicks := n;
     silentWindows := silentWindows w |}.
Definition set_silent (n : Z) (w : watcher) : watcher :=
  {| lastBeats := lastBeats w; quietTicks := quietTicks w; lastGen := lastGen w; streak := streak w;
     framesAtWindow := framesAtWindow w; framelessWindows := framelessWindows w; gapTicks := gapTicks w;
     silentWindows := n |}.

Definition new_watcher (o : heartbeatOptions) (gen : Z) : watcher :=
  {| lastBeats := 0; quietTicks := 0; lastGen := gen;
     streak := {| rs_failures := 0; rs_healthy := 0; rs_stableTicks := i64 (2 * heartbeatAllowedMisses o) |};
     framesAtWindow := 0; framelessWindows := 0; gapTicks := 0; silentWindows := 0 |}.

(** What the session shows at one tick.  [ob_closed]: the closed channel was chosen.
    [ob_wanted], [ob_active], [ob_registered] are read under one lock.  [ob_outcome] is
    what [recoverDeadSubscriptions] answers if it is called at this tick. *)
Record observation : Type := {
  ob_closed : bool; ob_gen : Z; ob_beatsAtReset : Z; ob_state : SessionState; ob_clientDead : bool;
  ob_active : Z; ob_wanted : Z; ob_registered : Z; ob_beats : Z; ob_frames : Z; ob_handle : Z;
  ob_callback : bool; ob_outcome : recoveryOutcome }.

(** What a tick sets off; [WEstablish] is [establishHeartbeat], [WReconnect]
    [triggerReconnect] on a goroutine of its own, [WCallback] the consumer's callback. *)
Inductive watch_action : Type := WRecover | WEstablish | WReconnect | WCallback.

#[export] Instance watch_action_eq_dec : EqDecision watch_action.
Proof. solve_decision. Defined.
#[export] Instance recoveryOutcome_eq_dec : EqDecision recoveryOutcome.
Proof. solve_decision. Defined.

Section Watch.
Context (o : heartbeatOptions) (mode : HeartbeatRecovery).

(** A completed reconnect restarts the detector. *)
Definition on_generation (ob : observation) (w : watcher) : watcher :=
  if ob_gen ob =? lastGen w then w
  else {| lastBeats := ob_beatsAtReset ob; quietTicks := 0; lastGen := ob_gen ob; streak := streak_reset (streak w);
          framesAtWindow := framesAtWindow w; framelessWindows := framelessWindows w; gapTicks := gapTicks w;
          silentWindows := silentWindows w |}.

(** Whether this tick is looked at: connected, on a live transport, with something to protect. *)
Definition watched (ob : observation) : bool :=
  bool_decide (ob_state ob = SessionStateConnected) && negb (ob_clientDead ob)
  && negb ((ob_wanted ob =? 0) && (ob_active ob =? 0)).

Definition allowed (w : watcher) : Z :=
  heartbeatAllowedTicks (heartbeatAllowedMisses o) (rs_failures (streak w)) (heartbeatCycle o).

Definition beat_arrived (ob : observation) (w : watcher) : bool := negb (ob_beats ob =? lastBeats w).

(** The gap check; [true]: the round ends here. *)
Definition gap_check (ob : observation) (w : watcher) : watcher * bool :=
  let w := set_gap (gapTicks w + 1) w in
  if ob_active ob <? ob_registered ob then
    if beat_arrived ob w && (allowed w <=? gapTicks w) then
      let w := set_gap 0 w in
      let w := match ob_outcome ob with recoveryDeferred => w | _ => set_streak (streak_attempt (streak w)) w end in
      (set_quiet 0 (set_beats (ob_beats ob) w), true)
    else (w, false)
  else (set_gap 0 w, false).

(** [escalate]: two silent windows without a frame condemn the transport. *)
Definition escalate (ob : observation) (w : watcher) : watcher * bool :=
  if negb (ob_frames ob =? framesAtWindow w) then (set_frames (ob_frames ob) 0 w, false)
  else
    let n := framelessWindows w + 1 in
    (set_frames (framesAtWindow w) n w, heartbeatFailuresBeforeReconnect <=? n).

(** The end of a silent window with a heartbeat in place. *)
Definition recover (ob : observation) (w : watcher) : watcher * list watch_action * bool :=
  match ob_outcome ob with
  | recoveryDone => (set_streak (streak_attempt (streak w)) w, [WRecover], true)
  | recoveryDeferred => (w, [WRecover], true)
  | recoveryFailed =>
      let '(w, dead) := escalate ob (set_streak (streak_attempt (streak w)) w) in
      (w, WRecover :: (if dead then [WReconnect] else []), negb dead)
  end.

Definition silent_window (ob : observation) (w : watcher) : watcher * list watch_action * bool :=
  match heartbeatRecoveryMode mode with
  | HeartbeatRecoveryConfirm =>
      let w := set_silent (silentWindows w + 1) w in
      if silentWindows w <? 2 then (w, [], true) else recover ob (set_silent 0 w)
  | HeartbeatRecoveryObserve =>
      (set_streak (streak_attempt (streak w)) w,
       if (rs_failures (streak w) =? 0) && ob_callback ob then [WCallback] else [], true)
  | _ => recover ob (set_silent 0 w)
  end.

(** A tick without a beat. *)
Definition quiet_tick (ob : observation) (w : watcher) : watcher * list watch_action * bool :=
  let w := set_streak (unhealthyTick (streak w)) (set_quiet (quietTicks w + 1) w) in
  if quietTicks w <? allowed w then (w, [], true)
  else if ob_handle ob =? 0 then
    let '(w, dead) := escalate ob (set_streak (streak_attempt (streak w)) (set_quiet 0 w)) in
    (w, WEstablish :: (if dead then [WReconnect] else []), negb dead)
  else silent_window ob (set_quiet 0 w).

Definition beat_tick (ob : observation) (w : watcher) : watcher :=
  let w := set_silent 0 (set_quiet 0 (set_beats (ob_beats ob) w)) in
  set_streak (if ob_registered ob <=? ob_active ob then healthyTick (streak w) else unhealthyTick (streak w)) w.

Definition tick (w : watcher) (ob : observation) : watcher * list watch_action * bool :=
  if ob_closed ob then (w, [], false)
  else
    let w := on_generation ob w in
    if negb (watched ob) then (w, [], true)
    else
      let '(w, recovered) := gap_check ob w in
      if recovered then (w, [WRecover], true)
      else if beat_arrived ob w then (beat_tick ob w, [], true)
      else quiet_tick ob w.

(** [heartbeatWatch]: the rounds, and whether the goroutine is still there. *)
Fixpoint heartbeatWatch (w : watcher) (obs : list observation) : watcher * list watch_action * bool :=
  match obs with
  | [] => (w, [], true)
  | ob :: obs =>
      let '(w, acts, go) := tick w ob in
      if go then let '(w, more, go) := heartbeatWatch w obs in (w, acts ++ more, go) else (w, acts, false)
  end.
End Watch.

(** ** The watcher of a session *)

(** [heartbeatOnce] and the goroutine it started. *)
Record watch_state : Type := { ws_once : bool; ws_watcher : option watcher }.

(** [startHeartbeatWatch]; [admitted]: [trackGoroutineOn] lets the goroutine start. *)
Definition startHeartbeatWatch (o : heartbeatOptions) (gen : Z) (admitted : bool) (s : watch_state) : watch_state :=
  if ws_once s then s
  else {| ws_once := true; ws_watcher := if admitted then Some (new_watcher o gen) else ws_watcher s |}.

(** What happens to it over the life of a session: subscribes and recoveries start it,
    the ticker drives it. *)
Inductive watch_event : Type := WStart (gen : Z) (admitted : bool) | WTick (ob : observation).

Definition watch_step (o : heartbeatOptions) (mode : HeartbeatRecovery) (s : watch_state) (e : watch_event)
  : watch_state * list watch_action :=
  match e with
  | WStart gen admitted => (startHeartbeatWatch o gen admitted s, [])
  | WTick ob =>
      match ws_watcher s with
      | None => (s, [])
      | Some w =>
          let '(w, acts, go) := tick o mode w ob in
          ({| ws_once := ws_once s; ws_watcher := if go then Some w else None |}, acts)
      end
  end.

Fixpoint watch_run (o : heartbeatOptions) (mode : HeartbeatRecovery) (s : watch_state) (es : list watch_event)
  : watch_state * list watch_action :=
  match es with
  | [] => (s, [])
  | e :: es =>
      let '(s, acts) := watch_step o mode s e in
      let '(s, more) := watch_run o mode s es in (s, acts ++ more)
  end.
