(* ===== verification/WatchFacts.v ===== *)
(** The heartbeat watcher (Watch.v): silence is noticed on time, a gap in the
    subscriptions is noticed although the beat arrives, a session that beats is left
    alone, and no heartbeat registered on the PLC is left behind. *)
From S2P Require Import Prelude Wire Defs Fsm Subs Batch Window Policies PoliciesFacts Watch.

Section Facts.
Context (o : heartbeatOptions) (mode : HeartbeatRecovery).
Implicit Types (w : watcher) (ob : observation).

(** ** Patience *)

Definition reasonable : Prop := heartbeatAllowedMisses o < 2 ^ 57.

Lemma misses_pos : 2 <= heartbeatAllowedMisses o.
Proof. unfold heartbeatAllowedMisses. destruct (Z.leb_spec 2 (heartbeatMissed o)); [done|]. done. Qed.
Lemma cycle_pos : 0 < heartbeatCycle o.
Proof. unfold heartbeatCycle. destruct (Z.ltb_spec 0 (heartbeatInterval o)); [done|]. done. Qed.

Lemma allowed_base w : reasonable -> 0 <= rs_failures (streak w) ->
  heartbeatAllowedMisses o <= allowed o w <= Z.max (maxHeartbeatRecoveryBackoff / heartbeatCycle o) (heartbeatAllowedMisses o).
Proof.
  intros Hr Hf. pose proof misses_pos. pose proof cycle_pos.
  destruct (heartbeatAllowedTicks_bounds (heartbeatAllowedMisses o) (rs_failures (streak w)) (rs_failures (streak w))
    (heartbeatCycle o)) as [[H1 _] H2]; [unfold reasonable in *; lia|done|done|]. unfold allowed. lia.
Qed.

(** ** Rounds *)

(** A tick at which the session is looked at, in the generation the detector knows. *)
Definition plain_tick w ob : Prop := ob_closed ob = false /\ ob_gen ob = lastGen w /\ watched ob = true.

Lemma tick_plain w ob : plain_tick w ob -> tick o mode w ob =
  let '(w, recovered) := gap_check o ob w in
  if recovered then (w, [WRecover], true)
  else if beat_arrived ob w then (beat_tick ob w, [], true) else quiet_tick o mode ob w.
Proof. intros (Hc & Hg & Hw). unfold tick, on_generation. by rewrite Hc, Hg, Z.eqb_refl, Hw. Qed.

(** Without a beat the gap check only counts. *)
Lemma gap_check_quiet ob w : ob_beats ob = lastBeats w ->
  exists n, gap_check o ob w = (set_gap n w, false).
Proof.
  intros E. unfold gap_check, beat_arrived. cbn [lastBeats set_gap]. rewrite E, Z.eqb_refl. cbn [negb andb].
  destruct (_ <? _); eauto.
Qed.

(** The part of the state that waiting does not change. *)
Definition waiting (k : Z) w w' : Prop :=
  lastBeats w' = lastBeats w /\ lastGen w' = lastGen w /\ quietTicks w' = quietTicks w + k /\
  rs_failures (streak w') = rs_failures (streak w).

Lemma allowed_waiting k w w' : waiting k w w' -> allowed o w' = allowed o w.
Proof. intros (_ & _ & _ & E). unfold allowed. by rewrite E. Qed.

Lemma quiet_step w ob : plain_tick w ob -> ob_beats ob = lastBeats w -> quietTicks w + 1 < allowed o w ->
  exists w', tick o mode w ob = (w', [], true) /\ waiting 1 w w'.
Proof.
  intros Hp Hb Hq. rewrite (tick_plain w ob Hp). destruct (gap_check_quiet ob w Hb) as [n ->].
  unfold beat_arrived. cbn [lastBeats set_gap]. rewrite Hb, Z.eqb_refl. cbn [negb]. unfold quiet_tick.
  rewrite (proj2 (Z.ltb_lt _ _)) by done. eexists. split; [done|]. done.
Qed.

(** A stretch of silence, in one generation. *)
Definition silence w (obs : list observation) : Prop :=
  Forall (fun ob => plain_tick w ob /\ ob_beats ob = lastBeats w) obs.

Lemma silence_waiting k w w' obs : waiting k w w' -> silence w obs -> silence w' obs.
Proof.
  intros (E1 & E2 & _ & _) Hs. eapply Forall_impl; [exact Hs|]. intros ob [(? & ? & ?) ?]. unfold plain_tick. rewrite E1, E2. auto.
Qed.

Lemma silent_stretch obs : forall w, silence w obs -> quietTicks w + len obs < allowed o w ->
  exists w', heartbeatWatch o mode w obs = (w', [], true) /\ waiting (len obs) w w'.
Proof.
  induction obs as [|ob obs IH]; intros w Hs Hq; cbn [heartbeatWatch].
  - exists w. split; [done|]. unfold waiting. change (len []) with 0. by rewrite Z.add_0_r.
  - apply Forall_cons in Hs as [[Hp Hb] Hs]. rewrite len_cons in *.
    destruct (quiet_step w ob Hp Hb) as (w1 & E & Hw1); [pose proof (len_nonneg obs); lia|]. rewrite E.
    destruct (IH w1) as (w2 & E2 & Hw2).
    { by apply (silence_waiting 1 w). }
    { rewrite (allowed_waiting 1 w w1 Hw1). destruct Hw1 as (_ & _ & -> & _). lia. }
    rewrite E2. exists w2. split; [done|]. destruct Hw1 as (? & ? & ? & ?), Hw2 as (? & ? & ? & ?).
    unfold waiting. split_and!; congruence || lia.
Qed.

Lemma heartbeatWatch_app obs obs' : forall w, heartbeatWatch o mode w (obs ++ obs') =
  let '(w', acts, go) := heartbeatWatch o mode w obs in
  if go then let '(w', more, go) := heartbeatWatch o mode w' obs' in (w', acts ++ more, go) else (w', acts, go).
Proof.
  induction obs as [|ob obs IH]; intros w; cbn [heartbeatWatch app].
  - by destruct (heartbeatWatch o mode w obs') as [[? ?] ?].
  - destruct (tick o mode w ob) as [[w1 a1] [|]]; [|done]. rewrite IH.
    destruct (heartbeatWatch o mode w1 obs) as [[w2 a2] [|]]; [|done].
    destruct (heartbeatWatch o mode w2 obs') as [[w3 a3] g3]. by rewrite app_assoc.
Qed.

(** ** Silence *)

(** The tick that ends a silent window, with a heartbeat in place. *)
Lemma window_ends w ob : plain_tick w ob -> ob_beats ob = lastBeats w -> allowed o w <= quietTicks w + 1 ->
  ob_handle ob <> 0 -> exists n, tick o mode w ob =
    silent_window mode ob (set_quiet 0 (set_streak (unhealthyTick (streak w)) (set_quiet (quietTicks w + 1) (set_gap n w)))).
Proof.
  intros Hp Hb Hq Hh. rewrite (tick_plain w ob Hp). destruct (gap_check_quiet ob w Hb) as [n ->].
  unfold beat_arrived. cbn [lastBeats set_gap]. rewrite Hb, Z.eqb_refl. cbn [negb]. unfold quiet_tick. exists n.
  rewrite (proj2 (Z.ltb_ge _ _)) by exact Hq. by rewrite (proj2 (Z.eqb_neq _ _)) by done.
Qed.

Lemma escalate_quiet ob w : quietTicks (escalate ob w).1 = quietTicks w.
Proof. unfold escalate. by destruct (negb _). Qed.

(** ** Gaps *)

(** Every tick sees a new beat, and fewer live subscriptions than there should be. *)
Fixpoint beating_gap (gen last : Z) (obs : list observation) : Prop :=
  match obs with
  | [] => True
  | ob :: obs => ob_closed ob = false /\ ob_gen ob = gen /\ watched ob = true /\ ob_active ob < ob_registered ob /\
      ob_beats ob <> last /\ beating_gap gen (ob_beats ob) obs
  end.

Definition last_beat (last : Z) (obs : list observation) : Z := foldl (fun _ ob => ob_beats ob) last obs.

Lemma beating_gap_snoc gen l obs ob : beating_gap gen l (obs ++ [ob]) ->
  beating_gap gen l obs /\ beating_gap gen (last_beat l obs) [ob].
Proof.
  revert l. induction obs as [|x obs IH]; intros l Hb; [done|]. destruct Hb as (? & ? & ? & ? & ? & Hb).
  by apply IH in Hb as [? ?].
Qed.

Lemma gap_stretch obs : forall w, beating_gap (lastGen w) (lastBeats w) obs -> gapTicks w + len obs < allowed o w ->
  exists w', heartbeatWatch o mode w obs = (w', [], true) /\ lastGen w' = lastGen w /\
    gapTicks w' = gapTicks w + len obs /\ allowed o w' = allowed o w /\
    lastBeats w' = last_beat (lastBeats w) obs.
Proof.
  induction obs as [|ob obs IH]; intros w Hb Hq; cbn [heartbeatWatch].
  - exists w. change (len []) with 0. rewrite Z.add_0_r. by split_and!.
  - destruct Hb as (Hc & Hg & Hw & Hgap & Hn & Hb). rewrite len_cons in *. pose proof (len_nonneg obs).
    rewrite (tick_plain w ob) by done. unfold gap_check. cbn [gapTicks set_gap]. rewrite (proj2 (Z.ltb_lt _ _)) by done.
    assert (beat_arrived ob w = true) as Hba by (unfold beat_arrived; by rewrite (proj2 (Z.eqb_neq _ _))).
    change (allowed o (set_gap (gapTicks w + 1) w)) with (allowed o w).
    change (beat_arrived ob (set_gap (gapTicks w + 1) w)) with (beat_arrived ob w). rewrite Hba.
    rewrite (proj2 (Z.leb_gt _ _)) by lia. cbn [andb].
    change (beat_arrived ob (set_gap (gapTicks w + 1) w)) with (beat_arrived ob w). rewrite Hba.
    set (w1 := beat_tick ob _). assert (allowed o w1 = allowed o w) as Ha.
    { unfold w1, beat_tick, allowed. cbn. by rewrite (proj2 (Z.leb_gt _ _)) by lia. }
    destruct (IH w1) as (w2 & E & H1 & H2 & H3 & H4); [exact Hb|rewrite Ha; cbn; lia|]. rewrite E.
    exists w2. split_and!; [done|by rewrite H1|rewrite H2; cbn; lia|by rewrite H3, Ha|exact H4].
Qed.
End Facts.

(** ** The properties *)


(** Subscriptions can die while the beat goes on.  As long as there are fewer than
    there should be, the watcher recovers within the same number of ticks, and goes on. *)
Theorem gap_is_noticed o mode w obs ob :
  gapTicks w + len obs + 1 = allowed o w -> beating_gap (lastGen w) (lastBeats w) (obs ++ [ob]) ->
  (exists w', heartbeatWatch o mode w obs = (w', [], true)) /\
  exists w', heartbeatWatch o mode w (obs ++ [ob]) = (w', [WRecover], true) /\ gapTicks w' = 0.
Proof.
  intros Hq [Ho Hl]%beating_gap_snoc.
  destruct (gap_stretch o mode obs w Ho ltac:(lia)) as (w1 & E & Hg & Ht & Ha & Hn). split; [by exists w1|].
  rewrite heartbeatWatch_app, E. destruct Hl as (Hc & Hgen & Hw & Hgap & Hnew & _). cbn [heartbeatWatch app].
  rewrite (tick_plain o mode w1 ob) by (unfold plain_tick; by rewrite Hg). unfold gap_check. cbn [gapTicks set_gap].
  rewrite (proj2 (Z.ltb_lt _ _)) by done. rewrite <- Hn in Hnew.
  assert (beat_arrived ob (set_gap (gapTicks w1 + 1) w1) = true) as -> by (unfold beat_arrived; by rewrite (proj2 (Z.eqb_neq _ _))).
  change (allowed o (set_gap _ w1)) with (allowed o w1). rewrite Ha, Ht, (proj2 (Z.leb_le _ _)) by lia. cbn [andb].
  eexists. split; [done|]. by destruct (ob_outcome ob).
Qed.

(** How many ticks the session has been looked at since the last beat or reconnect: the
    last count of beats seen, the generation, the number. *)
Definition since_beat (c : Z * Z * Z) (ob : observation) : Z * Z * Z :=
  let '(last, gen, n) := c in
  let '(last, n) := if ob_gen ob =? gen then (last, n) else (ob_beatsAtReset ob, 0) in
  if negb (watched ob) then (last, ob_gen ob, n)
  else if ob_beats ob =? last then (last, ob_gen ob, n + 1) else (ob_beats ob, ob_gen ob, 0).

(** No beat is as late as the configured number of ticks, and no subscription is missing. *)
Fixpoint punctual (misses : Z) (c : Z * Z * Z) (obs : list observation) : Prop :=
  match obs with
  | [] => True
  | ob :: obs => ob_closed ob = false /\ (watched ob = true -> ob_registered ob <= ob_active ob) /\
      (since_beat c ob).2 < misses /\ punctual misses (since_beat c ob) obs
  end.

Definition clock (w : watcher) : Z * Z * Z := (lastBeats w, lastGen w, quietTicks w).

Lemma punctual_tick o mode w ob : reasonable o -> 0 <= rs_failures (streak w) -> ob_closed ob = false ->
  (watched ob = true -> ob_registered ob <= ob_active ob) -> (since_beat (clock w) ob).2 < heartbeatAllowedMisses o ->
  exists w', tick o mode w ob = (w', [], true) /\ clock w' = since_beat (clock w) ob /\ 0 <= rs_failures (streak w').
Proof.
  intros Hr Hf Hc Hg Hn. unfold tick. rewrite Hc.
  assert (exists w1, on_generation ob w = w1 /\ 0 <= rs_failures (streak w1) /\ lastGen w1 = ob_gen ob /\
    clock w1 = (let '(l, n) := if ob_gen ob =? lastGen w then (lastBeats w, quietTicks w) else (ob_beatsAtReset ob, 0) in
                (l, ob_gen ob, n))) as (w1 & -> & Hf1 & Hg1 & Hc1).
  { eexists. split; [done|]. unfold on_generation. destruct (Z.eqb_spec (ob_gen ob) (lastGen w)) as [Eg|]; cbn;
      split_and!; try done; [by unfold clock; rewrite Eg]. }
  unfold clock at 1, since_beat in Hn. unfold clock at 2, since_beat.
  destruct (if ob_gen ob =? lastGen w then _ else _) as [l n]. injection Hc1 as <- _ <-.
  destruct (watched ob) eqn:Ew; cbn [negb] in *; [|by exists w1; unfold clock; rewrite Hg1].
  unfold gap_check. rewrite (proj2 (Z.ltb_ge _ _)) by auto. unfold beat_arrived. cbn [lastBeats set_gap].
  destruct (Z.eqb_spec (ob_beats ob) (lastBeats w1)) as [Eb|Eb]; cbn [negb].
  - unfold quiet_tick. cbn [quietTicks set_streak set_quiet set_gap].
    match goal with |- context [allowed o ?x] => destruct (allowed_base o x Hr Hf1) as [Ha _] end.
    cbn [snd] in Hn. rewrite (proj2 (Z.ltb_lt _ _)) by lia.
    eexists. split; [done|]. unfold clock. cbn. by rewrite Hg1.
  - eexists. split; [done|]. unfold clock, beat_tick. cbn. rewrite Hg1. split; [done|].
    destruct (_ <=? _); cbn; [|done]. by destruct (_ <=? _).
Qed.

(** C31. A session whose beats are never late by the configured number of ticks, and none
    of whose subscriptions is missing, is left alone, through drops and reconnects: the
    watcher neither re-subscribes nor reconnects nor calls back. *)
Theorem punctual_session_is_left_alone o mode gen obs :
  heartbeatAllowedMisses o < 2 ^ 57 -> punctual (heartbeatAllowedMisses o) (0, gen, 0) obs ->
  exists w', heartbeatWatch o mode (new_watcher o gen) obs = (w', [], true).
Proof.
  intros Hr. change (0, gen, 0) with (clock (new_watcher o gen)).
  assert (0 <= rs_failures (streak (new_watcher o gen))) as Hf by done. revert Hf.
  generalize (new_watcher o gen). induction obs as [|ob obs IH]; intros w Hf; cbn [punctual heartbeatWatch]; [eauto|].
  intros (Hc & Hg & Hn & Hp). destruct (punctual_tick o mode w ob Hr Hf Hc Hg Hn) as (w1 & -> & Ec & Hf1).
  rewrite <- Ec in Hp. destruct (IH w1 Hf1 Hp) as [w2 ->]. by exists w2.
Qed.

(** The handle the PLC created is the heartbeat, or has been deleted again, and is never
    one of the caller's. *)
Theorem establishHeartbeat_accounts e hb handle :
  ee_add e = inl handle -> handle <> 0 ->
  let r := establishHeartbeat e hb in
  eh_heartbeat r = hb \/
  (heartbeatHandle (eh_heartbeat r) = handle /\ eh_released r = [] /\ ee_active e !! handle = None /\ eh_watch r = true) \/
  (heartbeatHandle (eh_heartbeat r) = ee_handle e /\ eh_released r = [handle]).
Proof.
  intros Ha Hh. unfold establishHeartbeat. cbv zeta. destruct (_ || _); [by left|]. rewrite Ha. right.
  destruct (ee_active e !! handle) eqn:E; cbn [is_Some_b]; [by right|].
  destruct (negb _); [by right|by left].
Qed.

(** ** One watcher per session *)

Definition no_watch : watch_state := {| ws_once := false; ws_watcher := None |}.

Lemma watch_run_once o mode s es : ws_once s = true -> ws_watcher s = None -> watch_run o mode s es = (s, []).
Proof.
  destruct s as [b w]. cbn. intros -> ->. induction es as [|e es IH]; [done|]. cbn [watch_run].
  assert (watch_step o mode {| ws_once := true; ws_watcher := None |} e = ({| ws_once := true; ws_watcher := None |}, []))
    as -> by (by destruct e). by rewrite IH.
Qed.

Lemma tick_reconnect_stops o mode w ob w' acts go : tick o mode w ob = (w', acts, go) -> WReconnect ∈ acts -> go = false.
Proof.
  assert (forall ob w, match recover ob w with (_, acts, go) => WReconnect ∈ acts -> go = false end) as Hrec.
  { intros x v. unfold recover. destruct (ob_outcome x); [|by intros ?%list_elem_of_singleton..].
    destruct (escalate x _) as [v' [|]]; [done|by intros ?%list_elem_of_singleton]. }
  unfold tick. destruct (ob_closed ob); [by intros [= <- <- <-]|]. destruct (watched ob); cbn [negb]; [|by intros [= <- <- <-] ?%not_elem_of_nil].
  destruct (gap_check o ob _) as [w1 [|]]; [by intros [= <- <- <-] ?%list_elem_of_singleton|].
  destruct (beat_arrived ob w1); [by intros [= <- <- <-] ?%not_elem_of_nil|]. unfold quiet_tick.
  destruct (_ <? _); [by intros [= <- <- <-] ?%not_elem_of_nil|]. destruct (ob_handle ob =? 0).
  { destruct (escalate ob _) as [v' [|]]; intros [= <- <- <-]; [done|by intros ?%list_elem_of_singleton]. }
  unfold silent_window. destruct (heartbeatRecoveryMode mode);
    try (destruct (_ <? 2); [by intros [= <- <- <-] ?%not_elem_of_nil|]).
  all: try match goal with |- context [recover ?x ?v] => specialize (Hrec x v) end.
  all: try (intros E; rewrite E in Hrec; exact Hrec).
  intros [= <- <- <-]. destruct (_ && _); [by intros ?%list_elem_of_singleton|by intros ?%not_elem_of_nil].
Qed.

(** Giving a transport up for dead ends the watcher, and [heartbeatOnce] lets no other
    start: whatever happens to the session afterwards, nothing watches it. *)
Theorem watch_never_returns o mode s es s' acts es' :
  ws_once s = true \/ ws_watcher s = None -> watch_run o mode s es = (s', acts) -> WReconnect ∈ acts ->
  (watch_run o mode s' es').2 = [].
Proof.
  revert s acts. induction es as [|e es IH]; intros s acts Hs; cbn [watch_run]; [by intros [= <- <-] ?%not_elem_of_nil|].
  destruct (watch_step o mode s e) as [s1 a1] eqn:E1. destruct (watch_run o mode s1 es) as [s2 a2] eqn:E2.
  intros [= <- <-] [Ha|Ha]%elem_of_app.
  - assert (ws_once s1 = true /\ ws_watcher s1 = None) as [Ho Hn].
    { destruct e as [gen adm|ob]; cbn in E1; [injection E1 as <- <-; by apply not_elem_of_nil in Ha|].
      destruct (ws_watcher s) as [w|] eqn:Ew; [|injection E1 as <- <-; by apply not_elem_of_nil in Ha].
      destruct (tick o mode w ob) as [[w' acts'] go] eqn:Et. injection E1 as <- <-.
      rewrite (tick_reconnect_stops _ _ _ _ _ _ _ Et Ha). cbn. destruct Hs as [-> |]; done. }
    rewrite watch_run_once in E2 by done. injection E2 as <- _. by rewrite watch_run_once.
  - apply (IH s1 a2); [|done|done]. destruct e as [gen adm|ob]; cbn in E1.
    + injection E1 as <- _. unfold startHeartbeatWatch. destruct (ws_once s) eqn:Eo; [by left|by left].
    + destruct (ws_watcher s) as [w|] eqn:Ew; [|injection E1 as <- _; by rewrite Ew; destruct Hs; auto].
      destruct (tick o mode w ob) as [[w' acts'] go]. injection E1 as <- _. cbn. left. destruct Hs; [done|congruence].
Qed.

(** ** Concrete sessions *)

Definition default_heartbeat : heartbeatOptions :=
  {| heartbeatInterval := 0; heartbeatMissed := 0; heartbeatSilence := 0; heartbeatDisabled := false |}.

(** A tick of a connected session with two declared subscriptions. *)
Definition at_tick (beats active : Z) (outcome : recoveryOutcome) : observation :=
  {| ob_closed := false; ob_gen := 1; ob_beatsAtReset := 0; ob_state := SessionStateConnected; ob_clientDead := false;
     ob_active := active; ob_wanted := 2; ob_registered := 2; ob_beats := beats; ob_frames := 0; ob_handle := 7;
     ob_callback := true; ob_outcome := outcome |}.


(** One subscription of two is missing while the beats go on. *)
Definition lame (beats : list Z) : list observation := (fun b => at_tick b 1 recoveryDone) <$> beats.

Lemma gap_is_noticed_witness :
  (exists w', heartbeatWatch default_heartbeat HRUnset (new_watcher default_heartbeat 1) (lame [1; 2; 3; 4]) = (w', [], true)) /\
  exists w', heartbeatWatch default_heartbeat HRUnset (new_watcher default_heartbeat 1) (lame [1; 2; 3; 4] ++ [at_tick 5 1 recoveryDone])
    = (w', [WRecover], true) /\ gapTicks w' = 0.
Proof.
  apply (gap_is_noticed default_heartbeat HRUnset (new_watcher default_heartbeat 1) (lame [1; 2; 3; 4]) (at_tick 5 1 recoveryDone)).
  - vm_compute. reflexivity.
  - cbn. repeat split; discriminate.
Defined.

(** Up to four ticks without a beat are fine. *)
Lemma punctual_session_is_left_alone_witness :
  exists w', heartbeatWatch default_heartbeat HRUnset (new_watcher default_heartbeat 1)
    ((fun b => at_tick b 2 recoveryDone) <$> [0; 0; 0; 0; 1; 1; 1; 1; 1; 2]) = (w', [], true).
Proof.
  apply (punctual_session_is_left_alone default_heartbeat HRUnset 1).
  - vm_compute. reflexivity.
  - cbn. repeat split; try (intros _; vm_compute; discriminate); vm_compute; reflexivity.
Defined.

(** A transport on which recovery fails and no frame arrives: the watcher reconnects at
    the end of the second window, and is gone. *)
Example dead_transport :
  heartbeatWatch default_heartbeat HRUnset (new_watcher default_heartbeat 1) (replicate 20 (at_tick 0 2 recoveryFailed))
  = (let '(w, _, _) := heartbeatWatch default_heartbeat HRUnset (new_watcher default_heartbeat 1) (replicate 20 (at_tick 0 2 recoveryFailed)) in w,
     [WRecover; WRecover; WReconnect], false).
Proof. vm_compute. reflexivity. Qed.

(** [Confirm] asks for two silent windows in a row, but a beat that comes with a missing
    subscription does not start the count anew: one window, a beat at whose tick the gap
    is acted on, and one more window are taken for two in a row. *)
Theorem confirm_counts_across_beats :
  (heartbeatWatch default_heartbeat HeartbeatRecoveryConfirm (new_watcher default_heartbeat 1)
     (replicate 5 (at_tick 0 1 recoveryDeferred) ++ [at_tick 1 1 recoveryDeferred] ++ replicate 5 (at_tick 1 2 recoveryDone))).1.2
  = [WRecover; WRecover].
Proof. vm_compute. reflexivity. Qed.
