(* ===== verification/Orphan.v ===== *)
(** cmd_notification.go: deleting notification handles that belong to no subscription
    of this session ([tryOrphanDelete] and the goroutine it starts), throttled per handle
    and bounded in number.

    Samples of one handle are dispatched by one goroutine, so [tryOrphanDelete] is one
    step; the goroutine it starts checks and sends later, in a step of its own.  Time is
    in nanoseconds. *)
From S2P Require Import Prelude Wire Defs GoTime Subs.

Definition orphanDeleteThrottle : Z := 60 * Second.
Definition orphanDeleteMaxConcurrency : Z := 10.
Definition orphanDeleteSeenMaxAge : Z := 5 * 60 * Second.

(** A goroutine of the reaper: its handle, when it was scheduled, whether its request is out. *)
Record orphan_job : Type := { oj_handle : Z; oj_at : Z; oj_sent : bool }.

#[export] Instance orphan_job_eq_dec : EqDecision orphan_job.
Proof. solve_decision. Defined.

(** [orphanSeen], [orphanSem] as the number of slots taken, and the goroutines. *)
Record reaper : Type := { orphanSeen : gmap Z Z; orphanSem : Z; jobs : list orphan_job }.

Definition no_orphans : reaper := {| orphanSeen := ∅; orphanSem := 0; jobs := [] |}.

(** The guards of [tryOrphanDelete]; [admitted]: [trackGoroutine] starts the goroutine. *)
Record orphan_guards : Type := { og_closed : bool; og_reconnecting : bool; og_admitted : bool }.

Definition tryOrphanDelete (g : orphan_guards) (now handle : Z) (r : reaper) : reaper :=
  if og_closed g || og_reconnecting g then r
  else
    let seen := filter (fun '(_, t) => now - orphanDeleteSeenMaxAge <= t) (orphanSeen r) in
    if match seen !! handle with Some last => now - last <? orphanDeleteThrottle | None => false end
    then {| orphanSeen := seen; orphanSem := orphanSem r; jobs := jobs r |}
    else if orphanDeleteMaxConcurrency <=? orphanSem r
    then {| orphanSeen := seen; orphanSem := orphanSem r; jobs := jobs r |}
    else if og_admitted g
    then {| orphanSeen := <[handle := now]> seen; orphanSem := orphanSem r + 1;
            jobs := {| oj_handle := handle; oj_at := now; oj_sent := false |} :: jobs r |}
    else {| orphanSeen := delete handle seen; orphanSem := orphanSem r; jobs := jobs r |}.

(** What the goroutine finds when it runs: the live handles, the subscribes in flight,
    whether there is a client and whether its context is done. *)
Record orphan_view : Type := {
  ov_active : gmap Z activeNotification; ov_inFlight : Z; ov_client : bool; ov_done : bool }.

Definition orphanDeleteAbortReason (v : orphan_view) (handle : Z) : option string :=
  if is_Some_b (ov_active v !! handle) then Some "handle reappeared in activeNotifications"%string
  else if 0 <? ov_inFlight v then Some "a subscribe is in flight"%string
  else None.

Fixpoint remove_job (j : orphan_job) (l : list orphan_job) : list orphan_job :=
  match l with
  | [] => []
  | x :: l => if decide (x = j) then l else x :: remove_job j l
  end.

(** The goroutine up to its request; [true]: the Delete is sent. *)
Definition orphan_send (v : orphan_view) (j : orphan_job) (r : reaper) : reaper * bool :=
  let rest := remove_job j (jobs r) in
  match orphanDeleteAbortReason v (oj_handle j) with
  | Some _ => ({| orphanSeen := delete (oj_handle j) (orphanSeen r); orphanSem := orphanSem r - 1; jobs := rest |}, false)
  | None =>
      if negb (ov_client v) || ov_done v
      then ({| orphanSeen := orphanSeen r; orphanSem := orphanSem r - 1; jobs := rest |}, false)
      else ({| orphanSeen := orphanSeen r; orphanSem := orphanSem r;
               jobs := {| oj_handle := oj_handle j; oj_at := oj_at j; oj_sent := true |} :: rest |}, true)
  end.

(** The reply, or the timeout: the slot is given back. *)
Definition orphan_done (j : orphan_job) (r : reaper) : reaper :=
  {| orphanSeen := orphanSeen r; orphanSem := orphanSem r - 1; jobs := remove_job j (jobs r) |}.

(** ** The reaper under every schedule *)

Inductive orphan_event : Type :=
| OSample (g : orphan_guards) (handle : Z)
| OSend (v : orphan_view) (j : orphan_job)
| ODone (j : orphan_job).

(** One step at time [now]; a Delete that goes out is recorded with when it was scheduled. *)
Inductive orphan_step (now : Z) : reaper -> orphan_event -> reaper -> option (Z * Z) -> Prop :=
| os_sample g h r : orphan_step now r (OSample g h) (tryOrphanDelete g now h r) None
| os_send v j r r' sent :
    j ∈ jobs r -> oj_sent j = false -> orphan_send v j r = (r', sent) ->
    orphan_step now r (OSend v j) r' (if sent then Some (oj_handle j, oj_at j) else None)
| os_done j r : j ∈ jobs r -> oj_sent j = true -> orphan_step now r (ODone j) (orphan_done j r) None.

(** A run: a clock that does not go back, the state, the Deletes sent so far, latest
    first.  A goroutine gets to run within the throttle's window of its start. *)
Inductive orphan_run : Z -> reaper -> list (Z * Z) -> Prop :=
| or_start now : orphan_run now no_orphans []
| or_step now now' r r' e sent out :
    orphan_run now r sent -> now <= now' ->
    (forall j, j ∈ jobs r -> oj_sent j = false -> now' - oj_at j < orphanDeleteThrottle) ->
    orphan_step now' r e r' out ->
    orphan_run now' r' (match out with Some s => s :: sent | None => sent end).
