(* ===== verification/OrphanFacts.v ===== *)
(** The orphan reaper (Orphan.v): no more than ten Deletes at a time, none twice within
    a minute for the same handle, and none for a handle of this session. *)
From S2P Require Import Prelude Wire Defs GoTime Subs Orphan.

Lemma remove_job_length j l : j ∈ l -> len (remove_job j l) = len l - 1.
Proof.
  induction l as [|x l IH]; [by intros ?%not_elem_of_nil|]. intros Hj. cbn [remove_job]. rewrite len_cons.
  destruct (decide (x = j)) as [->|Hn]; [lia|]. rewrite len_cons, IH; [lia|]. by apply elem_of_cons in Hj as [->|].
Qed.
Lemma remove_job_sub j l x : x ∈ remove_job j l -> x ∈ l.
Proof.
  induction l as [|y l IH]; cbn; [done|]. destruct (decide (y = j)); [by right|].
  intros [-> |?]%elem_of_cons; [by left|right; auto].
Qed.

(** The Delete requests in flight, waiting goroutines included, never exceed the bound,
    and each holds one slot. *)
Lemma reaper_bounded now r sent : orphan_run now r sent -> orphanSem r = len (jobs r) /\ len (jobs r) <= orphanDeleteMaxConcurrency.
Proof.
  induction 1 as [now|now now' r r' e sent out Hr [IH1 IH2] _ _ Hs]; [by vm_compute|].
  destruct Hs as [g h r|v j r r' sent' Hj _ E|j r Hj _].
  - unfold tryOrphanDelete. destruct (_ || _); [done|].
    destruct (match _ !! _ with Some _ => _ | None => _ end); [done|].
    destruct (Z.leb_spec orphanDeleteMaxConcurrency (orphanSem r)); [done|]. destruct (og_admitted g); cbn [orphanSem jobs]; [|done].
    rewrite len_cons. lia.
  - unfold orphan_send in E. pose proof (remove_job_length j (jobs r) Hj).
    destruct (orphanDeleteAbortReason v _); [injection E as <- <-; cbn [orphanSem jobs]; lia|].
    destruct (_ || _); injection E as <- <-; cbn [orphanSem jobs]; rewrite ?len_cons; lia.
  - unfold orphan_done. cbn [orphanSem jobs]. pose proof (remove_job_length j (jobs r) Hj). lia.
Qed.

(** ** The throttle *)

(** When a handle may be tried again: what is on record, or a minute has passed. *)
Definition throttled_since (now : Z) (seen : gmap Z Z) (h t : Z) : Prop :=
  (exists t', seen !! h = Some t' /\ t <= t') \/ t + orphanDeleteThrottle <= now.

(** Deletes of one handle, latest first, a minute apart. *)
Fixpoint spaced (sent : list (Z * Z)) : Prop :=
  match sent with
  | [] => True
  | (h, t) :: sent => (forall t', (h, t') ∈ sent -> t' + orphanDeleteThrottle <= t) /\ spaced sent
  end.

Definition unsent (l : list orphan_job) : list orphan_job := filter (fun j => oj_sent j = false) l.

Lemma elem_of_unsent j l : j ∈ unsent l <-> oj_sent j = false /\ j ∈ l.
Proof. unfold unsent. by rewrite list_elem_of_filter. Qed.

Record throttle_inv (now : Z) (r : reaper) (sent : list (Z * Z)) : Prop := {
  ti_seen j : j ∈ unsent (jobs r) -> orphanSeen r !! oj_handle j = Some (oj_at j);
  ti_unique : NoDup (oj_handle <$> unsent (jobs r));
  ti_sent h t : (h, t) ∈ sent -> throttled_since now (orphanSeen r) h t;
  ti_apart j t : j ∈ unsent (jobs r) -> (oj_handle j, t) ∈ sent -> t + orphanDeleteThrottle <= oj_at j;
  ti_spaced : spaced sent }.

Lemma unsent_remove_sent j l : oj_sent j = true -> unsent (remove_job j l) = unsent l.
Proof.
  intros Hj. unfold unsent. induction l as [|x l IH]; [done|]. cbn [remove_job]. destruct (decide (x = j)) as [-> |Hn].
  - rewrite filter_cons_False; [done|]. by rewrite Hj.
  - destruct (decide (oj_sent x = false)); [by rewrite !filter_cons_True, IH|by rewrite !filter_cons_False].
Qed.

(** A waiting goroutine that goes leaves none for its handle. *)
Lemma unsent_remove j l : oj_sent j = false -> j ∈ l -> unsent l ≡ₚ j :: unsent (remove_job j l).
Proof.
  intros Hj. unfold unsent. induction l as [|x l IH]; [by intros ?%not_elem_of_nil|]. intros Hin. cbn [remove_job].
  destruct (decide (x = j)) as [-> |Hn]; [by rewrite filter_cons_True|].
  assert (j ∈ l) as Hl by (by apply elem_of_cons in Hin as [-> |]).
  destruct (decide (oj_sent x = false)); [rewrite !filter_cons_True, (IH Hl) by done; apply Permutation_swap|].
  by rewrite !filter_cons_False by done; auto.
Qed.

Lemma gc_lookup now (m : gmap Z Z) h t :
  filter (fun '(_, t) => now - orphanDeleteSeenMaxAge <= t) m !! h = Some t <-> m !! h = Some t /\ now - orphanDeleteSeenMaxAge <= t.
Proof. apply map_lookup_filter_Some. Qed.

(** The clock moves on, and old records are dropped. *)
Lemma throttle_gc now now' r sent :
  throttle_inv now r sent -> now <= now' ->
  (forall j, j ∈ jobs r -> oj_sent j = false -> now' - oj_at j < orphanDeleteThrottle) ->
  throttle_inv now' {| orphanSeen := filter (fun '(_, t) => now' - orphanDeleteSeenMaxAge <= t) (orphanSeen r);
                       orphanSem := orphanSem r; jobs := jobs r |} sent.
Proof.
  intros [Hs Hu Ht Ha Hp] Hn Hprompt. constructor; cbn [jobs orphanSeen]; try done.
  - intros j Hj. apply gc_lookup. split; [by apply Hs|]. apply elem_of_unsent in Hj as [Hf Hj].
    specialize (Hprompt j Hj Hf). unfold orphanDeleteThrottle, orphanDeleteSeenMaxAge, Second in *. lia.
  - intros h t Hin. destruct (Ht h t Hin) as [(t' & Hl & Hle)|Hle]; [|right; lia].
    destruct (decide (now' - orphanDeleteSeenMaxAge <= t')).
    + left. exists t'. split; [|done]. by apply gc_lookup.
    + right. unfold orphanDeleteThrottle, orphanDeleteSeenMaxAge, Second in *. lia.
Qed.

Lemma throttle_sample now r sent g h :
  throttle_inv now {| orphanSeen := filter (fun '(_, t) => now - orphanDeleteSeenMaxAge <= t) (orphanSeen r);
                      orphanSem := orphanSem r; jobs := jobs r |} sent ->
  throttle_inv now r sent ->
  (forall j, j ∈ jobs r -> oj_sent j = false -> now - oj_at j < orphanDeleteThrottle) ->
  throttle_inv now (tryOrphanDelete g now h r) sent.
Proof.
  intros Hgc H0 Hprompt. unfold tryOrphanDelete. destruct (_ || _); [done|].
  set (seen := filter _ _) in *. destruct (match seen !! h with Some _ => _ | None => _ end) eqn:Eth; [done|].
  destruct (_ <=? _); [done|]. destruct Hgc as [Hs Hu Ht Ha Hp]. cbn [jobs orphanSeen] in *.
  assert (forall j, j ∈ unsent (jobs r) -> oj_handle j <> h) as Hno.
  { intros j Hj E. pose proof (Hs j Hj) as Hl. rewrite E in Hl. rewrite Hl in Eth.
    apply elem_of_unsent in Hj as [Hf Hj]. specialize (Hprompt j Hj Hf). apply Z.ltb_ge in Eth. lia. }
  assert (forall t, (h, t) ∈ sent -> t + orphanDeleteThrottle <= now) as Hold.
  { intros t [(t' & Hl & Hle)|Hle]%Ht; [|done]. rewrite Hl in Eth. apply Z.ltb_ge in Eth. lia. }
  assert (0 <= orphanDeleteThrottle) as Hpos by done.
  assert (forall m h' t, (h', t) ∈ sent -> (h' <> h -> m !! h' = seen !! h') ->
    throttled_since now m h' t) as Hkeep.
  { intros m h' t Hin Hm. destruct (decide (h' = h)) as [-> |Hn]; [right; auto|].
    destruct (Ht h' t Hin) as [(t' & Hl & Hle)|]; [|by right]. left. exists t'. by rewrite Hm. }
  destruct (og_admitted g); constructor; cbn [jobs orphanSeen]; try done.
  - intros j Hj. unfold unsent in Hj. rewrite filter_cons_True in Hj by done. apply elem_of_cons in Hj as [-> |Hj]; cbn [oj_handle oj_at].
    + apply lookup_insert_eq.
    + rewrite lookup_insert_ne by (apply not_eq_sym, Hno, Hj). by apply Hs.
  - unfold unsent. rewrite filter_cons_True by done. cbn. constructor; [|done].
    intros (j & E & Hj)%list_elem_of_fmap. by apply (Hno j Hj).
  - intros h' t Hin. apply (Hkeep (<[h:=now]> seen) h' t Hin). intros Hn. by rewrite lookup_insert_ne by (by apply not_eq_sym).
  - intros j t Hj Hin. unfold unsent in Hj. rewrite filter_cons_True in Hj by done. apply elem_of_cons in Hj as [-> |Hj]; cbn in *; auto.
  - intros j Hj. rewrite lookup_delete_ne by (apply not_eq_sym, Hno, Hj). by apply Hs.
  - intros h' t Hin. apply (Hkeep (delete h seen) h' t Hin). intros Hn. by rewrite lookup_delete_ne by (by apply not_eq_sym).
Qed.

Lemma throttle_send now r sent v j r' out :
  throttle_inv now r sent -> j ∈ jobs r -> oj_sent j = false -> now - oj_at j < orphanDeleteThrottle ->
  oj_at j <= now -> orphan_send v j r = (r', out) ->
  throttle_inv now r' (if out then (oj_handle j, oj_at j) :: sent else sent).
Proof.
  intros [Hs Hu Ht Ha Hp] Hj Hf Hn Hle E. pose proof (unsent_remove j (jobs r) Hf Hj) as Hperm.
  assert (j ∈ unsent (jobs r)) as Hju by (by apply elem_of_unsent).
  assert (forall x, x ∈ unsent (remove_job j (jobs r)) -> x ∈ unsent (jobs r) /\ oj_handle x <> oj_handle j) as Hrest.
  { intros x Hx. rewrite Hperm. split; [by right|]. rewrite Hperm in Hu. apply NoDup_cons in Hu as [Hu _].
    intros Ex. apply Hu. rewrite <- Ex. by apply list_elem_of_fmap_2. }
  assert (NoDup (oj_handle <$> unsent (remove_job j (jobs r)))) as Hu' by (rewrite Hperm in Hu; by apply NoDup_cons in Hu as [_ ?]).
  unfold orphan_send in E. destruct (orphanDeleteAbortReason v _).
  { injection E as <- <-. constructor; cbn [jobs orphanSeen]; try done.
    - intros x Hx. destruct (Hrest x Hx). rewrite lookup_delete_ne by (by apply not_eq_sym). by apply Hs.
    - intros h t Hin. destruct (decide (h = oj_handle j)) as [-> |Hne].
      + right. pose proof (Ha j t Hju Hin). lia.
      + destruct (Ht h t Hin) as [(t' & Hl & ?)|]; [|by right]. left. exists t'. by rewrite lookup_delete_ne.
    - intros x t Hx Hin. destruct (Hrest x Hx). by apply Ha. }
  destruct (_ || _); injection E as <- <-.
  - constructor; cbn [jobs orphanSeen]; try done.
    + intros x Hx. destruct (Hrest x Hx). by apply Hs.
    + intros x t Hx. destruct (Hrest x Hx). by apply Ha.
  - assert (unsent ({| oj_handle := oj_handle j; oj_at := oj_at j; oj_sent := true |} :: remove_job j (jobs r))
            = unsent (remove_job j (jobs r))) as Eu by (unfold unsent; by rewrite filter_cons_False).
    constructor; cbn [jobs orphanSeen]; rewrite ?Eu; try done.
    + intros x Hx. destruct (Hrest x Hx). by apply Hs.
    + intros h t [[= -> ->]|Hin]%elem_of_cons; [|by apply Ht]. left. exists (oj_at j). split; [by apply Hs|done].
    + intros x t Hx. destruct (Hrest x Hx). intros [[= ? ->]|Hin]%elem_of_cons; [done|by apply Ha].
    + split; [|done]. intros t Hin. by apply (Ha j).
Qed.

Lemma throttle_start now : throttle_inv now no_orphans [].
Proof.
  constructor.
  - intros j Hj. by apply not_elem_of_nil in Hj.
  - constructor.
  - intros h t Hs. by apply not_elem_of_nil in Hs.
  - intros j t _ Hs. by apply not_elem_of_nil in Hs.
  - done.
Qed.

Lemma throttle_run now r sent : orphan_run now r sent -> throttle_inv now r sent /\ (forall j, j ∈ jobs r -> oj_at j <= now).
Proof.
  induction 1 as [now|now now' r r' e sent out Hr [IH Hat] Hn Hprompt Hs].
  { split; [|by intros j ?%not_elem_of_nil]. apply throttle_start. }
  assert (forall j, j ∈ jobs r -> oj_at j <= now') as Hat' by (intros j Hin; specialize (Hat j Hin); lia).
  pose proof (throttle_gc now now' r sent IH Hn Hprompt) as Hgc.
  assert (throttle_inv now' r sent) as IH'.
  { destruct IH as [? ? Ht ? ?]. constructor; try done. intros h t [|]%Ht; [by left|right; lia]. }
  destruct Hs as [g h r|v j r r' sent' Hin Hf E|j r Hin Hf].
  - split; [by apply throttle_sample|]. unfold tryOrphanDelete. destruct (_ || _); [done|].
    destruct (match _ !! _ with Some _ => _ | None => _ end); [done|]. destruct (_ <=? _); [done|].
    destruct (og_admitted g); [|done]. intros j [-> |?]%elem_of_cons; [done|auto].
  - pose proof (throttle_send now' r sent v j r' sent' IH' Hin Hf (Hprompt j Hin Hf) (Hat' j Hin) E) as Hi. split; [by destruct sent'|].
    unfold orphan_send in E. destruct (orphanDeleteAbortReason v _); [|destruct (_ || _)]; injection E as <- <-; cbn [jobs];
      intros x Hx; try (apply Hat'; by eapply remove_job_sub).
    apply elem_of_cons in Hx as [-> |Hx]; [by apply (Hat' j)|apply Hat'; by eapply remove_job_sub].
  - split; [|intros x Hx%remove_job_sub; by apply Hat'].
    pose proof (unsent_remove_sent j (jobs r) Hf) as Eu. destruct IH' as [? ? ? ? ?].
    unfold orphan_done. constructor; cbn [jobs orphanSeen]; rewrite ?Eu; done.
Qed.


(** ** A stray handle *)

Definition open_guards : orphan_guards := {| og_closed := false; og_reconnecting := false; og_admitted := true |}.
Definition quiet_view : orphan_view := {| ov_active := ∅; ov_inFlight := 0; ov_client := true; ov_done := false |}.
Definition job (at_ : Z) (sent : bool) : orphan_job := {| oj_handle := 7; oj_at := at_; oj_sent := sent |}.

Definition prompt (now : Z) (r : reaper) : Prop :=
  forall j, j ∈ jobs r -> oj_sent j = false -> now - oj_at j < orphanDeleteThrottle.

Lemma run_sample now now' r sent g h : orphan_run now r sent -> now <= now' -> prompt now' r ->
  orphan_run now' (tryOrphanDelete g now' h r) sent.
Proof. intros Hr Hn Hp. apply (or_step now now' r _ (OSample g h) sent None); [done..|constructor]. Qed.
Lemma run_send now now' r sent v j : orphan_run now r sent -> now <= now' -> prompt now' r ->
  j ∈ jobs r -> oj_sent j = false -> (orphan_send v j r).2 = true ->
  orphan_run now' (orphan_send v j r).1 ((oj_handle j, oj_at j) :: sent).
Proof.
  intros Hr Hn Hp Hj Hf Hs. destruct (orphan_send v j r) as [r' b] eqn:E. cbn in Hs. subst b.
  apply (or_step now now' r r' (OSend v j) sent (Some (oj_handle j, oj_at j))); [done..|].
  exact (os_send now' v j r r' true Hj Hf E).
Qed.
Lemma run_done now now' r sent j : orphan_run now r sent -> now <= now' -> prompt now' r ->
  j ∈ jobs r -> oj_sent j = true -> orphan_run now' (orphan_done j r) sent.
Proof. intros Hr Hn Hp Hj Hf. apply (or_step now now' r _ (ODone j) sent None); [done..|by constructor]. Qed.

(** Samples of handle 7 arrive at 0 s, 30 s and 61 s: two Deletes go out. *)
Lemma stray_run : exists r, orphan_run (61 * Second) r [(7, 61 * Second); (7, 0)].
Proof.
  assert (forall now, prompt now no_orphans) as P0 by (intros now j Hj; by apply not_elem_of_nil in Hj).
  assert (forall now h t b r, jobs r = [{| oj_handle := h; oj_at := t; oj_sent := b |}] ->
    now - t < orphanDeleteThrottle \/ b = true -> prompt now r) as P1.
  { intros now h t b r E Ht j Hj Hf. rewrite E in Hj. apply list_elem_of_singleton in Hj as ->. cbn in *. destruct Ht; [done|congruence]. }
  assert (forall now r, jobs r = [] -> prompt now r) as P2 by (intros now r E j Hj; rewrite E in Hj; by apply not_elem_of_nil in Hj).
  set (r1 := tryOrphanDelete open_guards 0 7 no_orphans). set (r2 := (orphan_send quiet_view (job 0 false) r1).1).
  set (r3 := orphan_done (job 0 true) r2). set (r4 := tryOrphanDelete open_guards (30 * Second) 7 r3).
  set (r5 := tryOrphanDelete open_guards (61 * Second) 7 r4). exists (orphan_send quiet_view (job (61 * Second) false) r5).1.
  assert (orphan_run 0 r1 []) as R1 by (apply (run_sample 0 0); [apply or_start|done|apply P0]).
  assert (orphan_run 0 r2 [(7, 0)]) as R2.
  { apply (run_send 0 0 r1 [] quiet_view (job 0 false)); [done|done|by apply (P1 _ 7 0 false); [|left]|by left|done|done]. }
  assert (orphan_run 0 r3 [(7, 0)]) as R3.
  { apply (run_done 0 0); [done|done|by apply (P1 _ 7 0 true); [|right]|by left|done]. }
  assert (orphan_run (30 * Second) r4 [(7, 0)]) as R4 by (apply (run_sample 0); [done|done|by apply P2]).
  assert (orphan_run (61 * Second) r5 [(7, 0)]) as R5 by (apply (run_sample (30 * Second)); [done|done|by apply P2]).
  apply (run_send (61 * Second) (61 * Second) r5 [(7, 0)] quiet_view (job (61 * Second) false));
    [done|done|by apply (P1 _ 7 (61 * Second) false); [|left]|by left|done|done].
Qed.

