(* ===== verification/Subscribe.v ===== *)
(** notification_api.go: subscribing one symbol ([AddSymbolNotification]).

    The call takes [notifications.lock] twice, before and after its round trip to the
    PLC; [se_during] is what other goroutines did to the registry in between, an
    arbitrary function.

    Then giving subscriptions back, request and bookkeeping together: the session's
    [DeleteDeviceNotification] and [SumDeleteDeviceNotification] (cmd_notification.go),
    the best-effort deletes of the cleanup paths (cmd_sum.go, notification_api.go) over
    the client's commands (Client.v, SumCmd.v) and the registry (Subs.v). *)
From S2P Require Import Prelude Wire Strconv Defs Client SumCmd SymbolTable Subs Batch.

Record single_env : Type := {
  se_running : option goerr;                          (** [requireRunningRuntime] *)
  se_getSymbol : goerr + symbolData;                  (** [getSymbol] *)
  se_client : option goerr;                           (** [requireClient] *)
  se_add : SumNotificationRequest -> Z + goerr;       (** [Client.AddDeviceNotification] *)
  se_during : subs -> subs;
  se_fresh : option symbol;                           (** the cache entry after the round trip *)
  se_gen : Z;                                         (** the epoch read with it *)
  se_epoch : Z }.                                     (** the epoch at the commit *)

Definition other_channel (ch : Z) (s : subs) : bool :=
  match notificationChannel s with Some c => negb (c =? ch) | None => false end.

Definition same_channel_msg : goerr :=
  EMsg "all symbol notifications on a connection must use the same updateReceiver channel".
Definition already_active_msg : goerr :=
  EMsg "symbol already has an active notification; delete it before re-subscribing".

(** The registry, the handle or the error, and the handles given back to the PLC. *)
Definition AddSymbolNotification (e : single_env) (cfg : NotificationConfig) (ch : Z) (s : subs)
  : subs * (Z + goerr) * list Z :=
  match se_running e with
  | Some err => (s, inr err, [])
  | None =>
      if other_channel ch s then (s, inr same_channel_msg, [])
      else if hasLiveNotification (nc_SymbolName cfg) s then (s, inr already_active_msg, [])
      else
        match se_getSymbol e with
        | inl err => (s, inr (EWrap "notification" err), [])
        | inr sym =>
            let s := se_during e s in
            match se_client e with
            | Some err => (s, inr err, [])
            | None =>
                match se_add e (batch_request cfg sym) with
                | inr err => (s, inr err, [])
                | inl handle =>
                    match se_fresh e with
                    | None => (s, inr (EMsg "symbol removed from cache during subscribe"), [handle])
                    | Some fresh =>
                        if negb (se_epoch e =? se_gen e) then
                          (s, inr (EMsg "symbol stranded by concurrent cache reload during subscribe"), [handle])
                        else if other_channel ch s then (s, inr same_channel_msg, [handle])
                        else if hasLiveNotification (nc_SymbolName cfg) s then (s, inr already_active_msg, [handle])
                        else
                          let s := set_active (<[handle := {| an_Sym := Some (sy_FullName (sy_data fresh));
                                                              an_Ch := ch; an_order := None |}]> (activeNotifications s)) s in
                          let s := raiseRegistered s in
                          let s := addConfig cfg s in
                          (set_channel (Some ch) s, inl handle, [])
                    end
                end
            end
        end
  end.

(** The context a cleanup request runs under. *)
Inductive releaseCtx : Type :=
| CallerCtx                              (** the caller's own *)
| CleanupCtx (session timeout : bool).   (** not cancelled, the session's values or none; bounded *)

Definition releaseCleanupCtx (callerDone hasLifecycleCtx : bool) : releaseCtx :=
  if negb callerDone then CallerCtx else CleanupCtx hasLifecycleCtx true.
(** Done already when the request is made. *)
Definition releaseCtx_done (callerDone : bool) (c : releaseCtx) : bool :=
  match c with CallerCtx => callerDone | CleanupCtx _ _ => false end.

Section Unsubscribe.
Context {W : Type} `{Transport W}.
(** What the other goroutines did to the registry while a request was out. *)
Context (interfere : subs -> subs).

(** The session, as far as these methods read and write it. *)
Record unsub : Type := { un_client : option (client W); un_subs : subs }.
Definition set_un_subs (s : subs) (u : unsub) : unsub := {| un_client := un_client u; un_subs := s |}.

(** [sess.client.Load().m(...)], with no registry lock held. *)
Definition request {A} (m : rpc W A) (u : unsub) : unsub * res A :=
  match un_client u with
  | None => (u, Panic)
  | Some c => let '(c, r) := m c in ({| un_client := Some c; un_subs := interfere (un_subs u) |}, r)
  end.

Definition not_connected : goerr :=
  EWrap "the session has not connected yet; call Connect first" (ESentinel ErrDisconnected).

Definition Session_DeleteDeviceNotification (handle : Z) (u : unsub) : unsub * res () :=
  match un_client u with
  | None => (u, Err not_connected)
  | Some _ =>
      let snap := delete_snapshot handle (un_subs u) in
      let finish err u :=
        let '(s, err) := delete_finish handle snap err (un_subs u) in
        (set_un_subs s u, match err with Some e => Err e | None => Ok () end) in
      match request (DeleteDeviceNotification handle) u with
      | (u, Ok _) => finish None u
      | (u, Err e) => finish (Some e) u
      | (u, Panic) => (u, Panic)
      end
  end.

Definition sumDeleteDeviceNotification (handles : list Z) (userTeardown : bool) (u : unsub)
  : unsub * res (multi Z) :=
  match request (SumDeleteDeviceNotification handles) u with
  | (u, Ok (codes, rpcErr)) =>
      (set_un_subs (sumDelete_finish handles codes userTeardown (un_subs u)) u, Ok (codes, rpcErr))
  | (u, Err e) => (u, Ok ([], Some e))
  | (u, Panic) => (u, Panic)
  end.

Definition Session_SumDeleteDeviceNotification (handles : list Z) (u : unsub) : unsub * res (multi Z) :=
  match un_client u with
  | None => (u, Ok ([], Some not_connected))
  | Some _ => sumDeleteDeviceNotification handles true u
  end.

Definition bestEffortDeleteNotifications (handles : list Z) (u : unsub) : unsub * res Z :=
  match handles with
  | [] => (u, Ok 0)
  | _ =>
      match sumDeleteDeviceNotification handles false u with
      | (u, Ok (codes, _)) => (u, Ok (len (List.filter isBestEffortDeleteSuccess codes)))
      | (u, Err e) => (u, Err e)
      | (u, Panic) => (u, Panic)
      end
  end.

Definition releaseNotificationHandles (handles : list Z) (u : unsub) : unsub * res Z :=
  if len handles =? 0 then (u, Ok 0) else bestEffortDeleteNotifications handles u.

(** The raw command, under the context above: the handle was never bound, so the
    registry is not touched. *)
Definition releaseUncommittedHandle (handle : Z) (u : unsub) : unsub * res () :=
  request (DeleteDeviceNotification handle) u.
End Unsubscribe.
Arguments unsub : clear implicits.
Arguments Build_unsub {W}.
Arguments un_client {W}. Arguments un_subs {W}.
