(* ===== verification/SubscribeFacts.v ===== *)
(** Subscribing one symbol (Subscribe.v): the handle is bound or given back, and the
    registry is left as a batch of one would leave it.  Giving subscriptions back:
    deleting a batch is deleting its handles one by one, on the PLC and in the registry;
    where the two differ, and what that costs. *)
From S2P Require Import Prelude Wire Strconv Defs Ams Client SumCmd SumCmdFacts SumPlc SymbolTable SymbolTableFacts Subs SubsFacts Batch BatchFacts Subscribe.

(** The commit is the batch's. *)
Lemma single_commits e cfg ch sym handle s :
  se_running e = None -> other_channel ch s = false -> hasLiveNotification (nc_SymbolName cfg) s = false ->
  se_getSymbol e = inr sym -> se_client e = None -> se_add e (batch_request cfg sym) = inl handle ->
  let cache := {| cv_symbols := match se_fresh e with Some f => {[symbolKey (nc_SymbolName cfg) := f]} | None => ∅ end;
                  cv_onDemand := ∅; cv_epoch := se_epoch e |} in
  let '(s', err) := commitNotification cfg handle ch (se_gen e) cache (se_during e s) in
  let '(s1, r, released) := AddSymbolNotification e cfg ch s in
  s1 = s' /\ (r = inl handle /\ released = [] /\ err = None \/ (exists x, r = inr x) /\ released = [handle] /\ is_Some err).
Proof.
  intros Hr Hc Hl Hg Hk Ha. unfold AddSymbolNotification, commitNotification. rewrite Hr, Hc, Hl, Hg, Hk, Ha. cbn [cv_symbols cv_epoch].
  assert (forall (s' : subs) err x, s' = s' /\ ((inr x : Z + goerr) = inl handle /\ [handle] = [] /\ Some err = None \/
    (exists y, (inr x : Z + goerr) = inr y) /\ [handle] = [handle] /\ is_Some (Some (err : goerr)))) as Hx by eauto 8.
  destruct (se_fresh e) as [f|].
  - rewrite lookup_singleton_eq. destruct (negb _); [apply Hx|]. fold (other_channel ch (se_during e s)).
    destruct (other_channel ch (se_during e s)); [apply Hx|]. destruct (hasLiveNotification _ (se_during e s)); [apply Hx|]. split; [done|by left].
  - rewrite lookup_empty. destruct (negb _); apply Hx.
Qed.

Lemma commit_binds cfg h ch g c s s' : commitNotification cfg h ch g c s = (s', None) -> is_Some (activeNotifications s' !! h).
Proof.
  unfold commitNotification. repeat (case_match; try done); intros [= <-];
    unfold addConfig, setPending, raiseRegistered; repeat case_match; cbn; by rewrite lookup_insert_eq.
Qed.

(** Whatever other goroutines do to the registry and the cache during the round trip:
    a handle the PLC created is returned and bound, or it is given back and the caller
    gets an error; and the registry's index stays in step. *)
Theorem subscribe_accounts_for_its_handle e cfg ch s :
  (forall s, lockstep s -> lockstep (se_during e s)) -> lockstep s ->
  let '(s', r, released) := AddSymbolNotification e cfg ch s in
  lockstep s' /\
  forall sym handle, se_running e = None -> other_channel ch s = false -> hasLiveNotification (nc_SymbolName cfg) s = false ->
    se_getSymbol e = inr sym -> se_client e = None -> se_add e (batch_request cfg sym) = inl handle ->
    (r = inl handle /\ is_Some (activeNotifications s' !! handle) /\ released = []) \/
    (exists err, r = inr err) /\ released = [handle].
Proof.
  intros He Hs. assert (lockstep (AddSymbolNotification e cfg ch s).1.1) as Hl.
  { unfold AddSymbolNotification. repeat (case_match; try exact Hs); cbn [fst]; try exact (He s Hs).
    by apply setPending_lockstep, raise_lockstep, He. }
  destruct (AddSymbolNotification e cfg ch s) as [[s' r] released] eqn:E. split; [exact Hl|].
  intros sym handle H1 H2 H3 H4 H5 H6.
  pose proof (single_commits e cfg ch sym handle s H1 H2 H3 H4 H5 H6) as Hc. cbv zeta in Hc. rewrite E in Hc.
  destruct (commitNotification _ _ _ _ _ _) as [s1 err] eqn:Ec. destruct Hc as [-> [(-> & -> & ->)|(? & ? & _)]]; [left|by right].
  split; [done|]. split; [|done]. by apply commit_binds in Ec.
Qed.

(** ** A batch of one *)

(** The environment of the batch of one that meets what this subscribe meets; [refusal]
    is the code with which the PLC answers when it creates nothing. *)
Definition as_batch (e : single_env) (cfg : NotificationConfig) (handle : Z) : batch_env :=
  {| be_running := se_running e; be_getSymbol := fun _ => se_getSymbol e; be_epoch := se_gen e; be_client := se_client e;
     be_rpc := fun _ => ([{| ic_env := se_during e;
       ic_cache := {| cv_symbols := match se_fresh e with Some f => {[symbolKey (nc_SymbolName cfg) := f]} | None => ∅ end;
                      cv_onDemand := ∅; cv_epoch := se_epoch e |};
       ic_index := 0; ic_result := {| ns_Handle := handle; ns_Error := ReturnCodeNoErrors; ns_Skipped := None |} |}], None);
     be_last := id; be_delete := fun hs => ((fun _ => ReturnCodeNoErrors) <$> hs, None) |}.

Lemma live_names name s : symbolKey name ∈ liveNotificationNames s <-> hasLiveNotification name s = true.
Proof.
  unfold liveNotificationNames, hasLiveNotification. rewrite elem_of_list_to_set, list_elem_of_omap, existsb_exists.
  setoid_rewrite <- list_elem_of_In. setoid_rewrite bool_decide_eq_true. done.
Qed.

Lemma commit_refused cfg h ch g c s s' err : commitNotification cfg h ch g c s = (s', Some err) -> s' = s.
Proof. unfold commitNotification. repeat (case_match; try done); by intros [= <-]. Qed.

(** Giving back a handle nobody has leaves the registry alone. *)
Lemma release_unknown h err s : activeNotifications s !! h = None -> (bestEffortDelete [h] ([ReturnCodeNoErrors], err) s).1 = s.
Proof.
  intros Hn. unfold bestEffortDelete, sumDelete_finish, flush_one. cbn. rewrite Hn. unfold set_active.
  rewrite delete_id by done. by destruct s.
Qed.


(** ** A concrete subscribe *)

Definition pos_config : NotificationConfig :=
  {| nc_SymbolName := "main.pos"; nc_MaxDelay := 0; nc_CycleTime := 0; nc_TransmissionMode := TransModeServerOnChange |}.

(** The PLC creates handle 7; [busy]: another goroutine took the channel meanwhile. *)
Definition pos_env (busy : bool) : single_env :=
  {| se_running := None; se_getSymbol := inr (root_data (item_of sample_symbol)); se_client := None;
     se_add := fun _ => inl 7; se_during := fun s => if busy then set_channel (Some 2) s else s;
     se_fresh := Some (addSymbol ∅ (item_of sample_symbol)); se_gen := 1; se_epoch := 1 |}.

Lemma no_subs_lockstep : lockstep no_subs.
Proof. split; [constructor|done]. Qed.

Lemma subscribe_accounts_for_its_handle_witness :
  let '(s', r, released) := AddSymbolNotification (pos_env true) pos_config 1 no_subs in
  lockstep s' /\ ((r = inl 7 /\ is_Some (activeNotifications s' !! 7) /\ released = []) \/ (exists err, r = inr err) /\ released = [7]).
Proof.
  pose proof (subscribe_accounts_for_its_handle (pos_env true) pos_config 1 no_subs (fun s H => H) no_subs_lockstep) as H.
  destruct (AddSymbolNotification (pos_env true) pos_config 1 no_subs) as [[s' r] released]. destruct H as [H1 H2].
  split; [exact H1|]. apply (H2 (root_data (item_of sample_symbol)) 7); reflexivity.
Defined.


(** ** The registry *)

(** A subscription of this session, of a named symbol. *)
Definition owns (h : Z) (s : subs) : Prop :=
  exists e name, activeNotifications s !! h = Some e /\ an_Sym e = Some name /\ name <> ""%string.

(** What the PLC's code for a delete comes to, to a caller of the single command. *)
Definition delete_error (code : Z) : option goerr :=
  if 0 <? code then Some (EWrap "ADS error in DeleteDeviceNotification" (ECode code)) else None.
Definition delete_result (code : Z) : res () :=
  match delete_error code with Some e => Err e | None => Ok () end.

(** One delete on the registry. *)
Definition delete_one (s : subs) (hc : Z * Z) : subs :=
  (delete_finish hc.1 (delete_snapshot hc.1 s) (delete_error hc.2) s).1.

Definition clear_if_empty (s : subs) : subs := if held s =? 0 then set_channel None s else s.

Lemma owns_held h s : owns h s -> held s <> 0.
Proof.
  intros (e & name & Hl & _) E. unfold held in E.
  assert (Ha : activeNotifications s = ∅) by (apply map_size_empty_iff; lia). by rewrite Ha, lookup_empty in Hl.
Qed.

Lemma clear_owned h s : owns h s -> clear_if_empty s = s.
Proof. intros Ho. unfold clear_if_empty. by rewrite (proj2 (Z.eqb_neq _ _) (owns_held _ _ Ho)). Qed.

Lemma delete_error_success code : 0 <= code ->
  match delete_error code with Some e => negb (isBestEffortDeleteSuccessErr (Some e)) | None => false end
  = negb (isBestEffortDeleteSuccess code).
Proof.
  intros Hc. unfold delete_error, isBestEffortDeleteSuccess, ReturnCodeNoErrors.
  destruct (Z.ltb_spec 0 code); [|by rewrite (proj2 (Z.eqb_eq code 0)) by lia].
  rewrite (proj2 (Z.eqb_neq code 0)) by lia. done.
Qed.

Lemma flush_other user h c s h' : h' <> h ->
  activeNotifications (flush_one user h c s) !! h' = activeNotifications s !! h'.
Proof.
  intros Hne. unfold flush_one. destruct (isBestEffortDeleteSuccess c); [|done].
  destruct user; cbn [set_registered set_active activeNotifications]; rewrite lookup_delete_ne by done;
    repeat case_match; by rewrite ?remove_active.
Qed.

Lemma flush_owns user h c s h' : h' <> h -> owns h' s -> owns h' (flush_one user h c s).
Proof. intros Hne (e & n & Hl & Hn). exists e, n. by rewrite flush_other. Qed.

(** One owned handle: the batch's step, then the channel. *)
Lemma delete_one_flush s h c : 0 <= c -> owns h s -> delete_one s (h, c) = clear_if_empty (flush_one true h c s).
Proof.
  intros Hc Ho. unfold delete_one, delete_finish, delete_snapshot, flush_one. cbn [fst snd].
  pose proof Ho as (e & n & Hl & Hs & Hn). rewrite Hl. cbn [fst snd]. rewrite Hs. cbn [default from_option].
  rewrite delete_error_success by done.
  destruct (isBestEffortDeleteSuccess c); cbn [negb fst]; [|by rewrite (clear_owned h)].
  change (id n) with n. by rewrite (proj2 (String.eqb_neq n "") Hn).
Qed.

(** A batch of this session's own handles does what the single deletes do in turn. *)
Lemma batch_is_each hs codes s : length codes = length hs -> hs <> [] -> NoDup hs -> Forall (Z.le 0) codes ->
  Forall (fun h => owns h s) hs ->
  sumDelete_finish hs codes true s = foldl delete_one s (zip hs codes).
Proof.
  intros Hlen Hne Hnd Hpos Ho. destruct codes as [|c0 codes0] eqn:E; [by destruct hs|]. rewrite <- E in *.
  unfold sumDelete_finish. replace (match codes with [] => s | _ => _ end) with
    (clear_if_empty (foldl (fun s hc => flush_one true hc.1 hc.2 s) s (zip hs codes))) by (by rewrite E).
  clear c0 codes0 E. revert codes s Hlen Hpos Ho. induction hs as [|h hs IH]; intros codes s Hlen Hpos Ho; [done|].
  destruct codes as [|c codes]; [done|]. cbn [zip zip_with foldl fst snd].
  apply Forall_cons in Hpos as [Hc Hpos]. apply Forall_cons in Ho as [Hh Ho]. apply NoDup_cons in Hnd as [Hh' Hnd].
  rewrite delete_one_flush by done.
  assert (Ho' : Forall (fun h' => owns h' (flush_one true h c s)) hs).
  { apply Forall_forall. intros x Hx. apply flush_owns; [set_solver|]. by eapply Forall_forall in Ho. }
  destruct hs as [|h1 hs]; [by destruct codes|].
  rewrite (clear_owned h1 (flush_one true h c s)) by (by apply Forall_cons in Ho' as [? _]). apply IH; [done|done|by injection Hlen|done|done].
Qed.

(** ** What a batch takes from the registry *)

Lemma flush_lookup user h c s h' :
  activeNotifications (flush_one user h c s) !! h'
  = if (h =? h') && isBestEffortDeleteSuccess c then None else activeNotifications s !! h'.
Proof.
  destruct (Z.eqb_spec h h') as [<-|Hne]; [|by rewrite flush_other by congruence]. cbn [andb].
  unfold flush_one. destruct (isBestEffortDeleteSuccess c); [|done].
  destruct user; cbn [set_registered set_active activeNotifications]; apply lookup_delete_eq.
Qed.

(** A handle goes exactly when the PLC's code for it says it is gone: one the PLC refused,
    and one a batch that broke off never got to, stay. *)
Theorem sumDelete_takes_what_is_gone hs codes user s h :
  activeNotifications (sumDelete_finish hs codes user s) !! h
  = if existsb (fun hc => (hc.1 =? h) && isBestEffortDeleteSuccess hc.2) (zip hs codes)
    then None else activeNotifications s !! h.
Proof.
  transitivity (activeNotifications (foldl (fun s hc => flush_one user hc.1 hc.2 s) s (zip hs codes)) !! h).
  { unfold sumDelete_finish. destruct codes as [|c codes]; [by destruct hs|]. by destruct (user && _). }
  revert s. induction (zip hs codes) as [|[h1 c1] l IH]; intros s; [done|]. cbn [foldl existsb fst snd]. rewrite IH, flush_lookup.
  destruct ((h1 =? h) && _); cbn [orb]; [by destruct (existsb _ l)|done].
Qed.

Lemma remove_channel name s : notificationChannel (removeNotificationConfig name s) = notificationChannel s
  /\ registered (removeNotificationConfig name s) = registered s.
Proof. unfold removeNotificationConfig. by destruct (decide _). Qed.

(** The deletes of the cleanup paths leave the channel and the baseline alone, whatever
    the PLC answers: the re-subscription that follows needs both. *)
Theorem cleanup_keeps_the_channel {W} `{Transport W} interfere hs (u : unsub W) u' n :
  bestEffortDeleteNotifications interfere hs u = (u', Ok n) -> hs <> [] ->
  notificationChannel (un_subs u') = notificationChannel (interfere (un_subs u)) /\
  registered (un_subs u') = registered (interfere (un_subs u)) /\ 0 <= n.
Proof.
  intros E Hne. unfold bestEffortDeleteNotifications, sumDeleteDeviceNotification, request in E. destruct hs as [|h0 hs]; [done|].
  destruct (un_client u) as [c|]; [|done]. destruct (SumDeleteDeviceNotification _ c) as [c' [[codes err]|e|]]; [| |done].
  all: injection E as <- <-; cbn [set_un_subs un_subs]; (split_and!; [| |apply len_nonneg]); try done.
  all: unfold sumDelete_finish; destruct codes as [|c0 codes]; [done|]; cbn [andb]; generalize (interfere (un_subs u)).
  all: induction (zip (h0 :: hs) (c0 :: codes)) as [|[h1 c1] l IH]; intros s; [done|]; cbn [foldl fst snd]; rewrite IH.
  all: unfold flush_one; destruct (isBestEffortDeleteSuccess c1); [|done]; cbn; repeat case_match; try done; apply remove_channel.
Qed.

(** A release is never made under a context that is done, whatever the caller's is. *)
Lemma release_context_usable callerDone live : releaseCtx_done callerDone (releaseCleanupCtx callerDone live) = false.
Proof. by destruct callerDone. Qed.

(** ** The device *)

Section Device.
Context {W : Type} `{Transport W}.
(** A device: the effect of deleting a handle on its state, and the code it answers. *)
Variable dev_delete : Z -> W -> W * Z.

Fixpoint dev_deletes (hs : list Z) (w : W) : W * list Z :=
  match hs with
  | [] => (w, [])
  | h :: hs => let '(w, code) := dev_delete h w in
               let '(w, codes) := dev_deletes hs w in (w, code :: codes)
  end.

(** The documented behaviour of a device that serves both delete commands. *)
Record serves_deletes (target : AMSAddress) : Prop := {
  sd_code : forall h w, in_u 32 (dev_delete h w).2;
  sd_single : forall h w, sendRequestTo_tx target CommandIDDeleteDeviceNotification (put_u32 h) w
    = ((dev_delete h w).1, Ok (put_u32 (dev_delete h w).2));
  sd_sum : forall hs w, 4 * len hs < 2 ^ 32 ->
    sendRequestTo_tx target CommandIDReadWrite
      (writeread_packet GroupSumupDeleteDeviceNotification (len hs) (len hs * 4) (concat (map put_u32 hs))) w
    = ((dev_deletes hs w).1, Ok (read_reply 0 (concat (map put_u32 (dev_deletes hs w).2)))) }.

Lemma dev_deletes_codes target hs w : serves_deletes target ->
  Forall (in_u 32) (dev_deletes hs w).2 /\ length (dev_deletes hs w).2 = length hs.
Proof.
  intros Hs. revert w. induction hs as [|h hs IH]; intros w; [done|]. cbn [dev_deletes].
  pose proof (sd_code _ Hs h w). destruct (dev_delete h w) as [w1 code]. destruct (IH w1) as [H1 H2].
  destruct (dev_deletes hs w1) as [w2 codes]. cbn in *. split; [by constructor|by f_equal].
Qed.

Lemma Delete_serves h c : serves_deletes (cl_target c) ->
  DeleteDeviceNotification h c
  = (with_tx c (dev_delete h (cl_tx c)).1, delete_result (dev_delete h (cl_tx c)).2).
Proof.
  intros Hs. pose proof (sd_code _ Hs h (cl_tx c)) as Hc.
  unfold DeleteDeviceNotification, sendRequest, sendRequestTo, lift, mbind, rpc_bind.
  rewrite (sd_single _ Hs h). destruct (dev_delete h (cl_tx c)) as [w code]. cbn [fst snd] in *.
  unfold parse_code_reply. rewrite <- (app_nil_r (put_u32 code)), read_uint_app.
  cbn [wrap_err mbind res_bind]. rewrite Z.mod_small by exact Hc. unfold delete_result, delete_error. by case_if.
Qed.

Lemma SumDelete_serves hs c : serves_deletes (cl_target c) -> hs <> [] -> 4 * len hs < 2 ^ 32 ->
  sumDeleteNotifState (cl_caps c) <> 2 ->
  exists c', SumDeleteDeviceNotification hs c = (c', Ok ((dev_deletes hs (cl_tx c)).2, None)) /\
    cl_tx c' = (dev_deletes hs (cl_tx c)).1.
Proof.
  intros Hs Hne Hl Hk. destruct (dev_deletes_codes _ hs (cl_tx c) Hs) as [Hcodes Hlen]. pose proof (len_nonneg hs).
  assert (Hw : WriteRead GroupSumupDeleteDeviceNotification (u32 (len hs)) (u32 (len hs * 4)) (concat (map put_u32 hs)) c
    = (with_tx c (dev_deletes hs (cl_tx c)).1, Ok (concat (map put_u32 (dev_deletes hs (cl_tx c)).2)))).
  { unfold u32. rewrite !wrap_u_small by (unfold in_u; lia).
    unfold WriteRead, sendRequest, sendRequestTo, lift, mbind, rpc_bind. rewrite (sd_sum _ Hs hs _ Hl).
    destruct (dev_deletes hs (cl_tx c)) as [w codes]. cbn [fst snd] in *.
    rewrite <- (app_nil_r (read_reply _ _)), parse_read_reply_ok; [done|]. rewrite len_codes. unfold len in *. lia. }
  assert (Hp : len (concat (map put_u32 (dev_deletes hs (cl_tx c)).2)) = len hs * 4) by (rewrite len_codes; unfold len; lia).
  pose proof (parse_codes_app _ [] 0 eq_refl Hcodes) as Hpc. rewrite Hlen in Hpc. cbn [app] in Hpc.
  assert (He : mapM_res (fun h => wrap_err "encode item" (Ok (put_u32 h))) hs = Ok (map put_u32 hs)).
  { clear. induction hs as [|h hs IH]; [done|]. cbn. cbn in IH. by rewrite IH. }
  assert (Hm : (MaxUint32 <? len hs * 4) = false) by (unfold MaxUint32; lia).
  assert (Hcas : exists c2, SumDeleteNotifStateCAS 0 1 (with_tx c (dev_deletes hs (cl_tx c)).1) = (c2, Ok (sumDeleteNotifState (cl_caps c) =? 0))
    /\ cl_tx c2 = (dev_deletes hs (cl_tx c)).1).
  { unfold SumDeleteNotifStateCAS, caps_get, caps_set, lift, mbind, rpc_bind. cbn [with_tx cl_caps].
    destruct (_ =? 0); by eexists. }
  destruct Hcas as (c2 & Hcas & Htx). exists c2. split; [|done].
  assert (Hx : executeSumCommand sum_delete_spec hs c = (c2, Ok (((dev_deletes hs (cl_tx c)).2, None), None)));
    [|unfold SumDeleteDeviceNotification; by erewrite rpc_bind_Ok by exact Hx].
  unfold executeSumCommand. destruct hs as [|h0 hs0] eqn:E; [done|]. rewrite <- E in *.
  erewrite rpc_bind_Ok by reflexivity. cbn [sum_delete_spec itemReadSize itemWriteSize sc_encode sc_group].
  rewrite (proj2 (Z.eqb_neq _ 2) Hk). cbv zeta. rewrite Hm, He.
  erewrite rpc_bind_Ok by (by apply attempt_Ok). cbv beta iota.
  erewrite rpc_bind_Ok by exact Hcas. rewrite Hp, Z.ltb_irrefl.
  cbn [sc_decode sum_delete_spec]. rewrite Hpc. done.
Qed.
Lemma fallback_delete_serves hs c : serves_deletes (cl_target c) ->
  sumDeleteNotificationFallback hs c
  = (with_tx c (dev_deletes hs (cl_tx c)).1, Ok ((dev_deletes hs (cl_tx c)).2, None)).
Proof.
  revert c. induction hs as [|h hs IH]; intros c Hs; [by destruct c|]. cbn [sumDeleteNotificationFallback dev_deletes].
  pose proof (Delete_serves h c Hs) as E. pose proof (sd_code _ Hs h (cl_tx c)) as [Hp _].
  specialize (IH (with_tx c (dev_delete h (cl_tx c)).1) Hs).
  destruct (dev_delete h (cl_tx c)) as [w1 code]. cbn [fst snd with_tx cl_tx] in *.
  destruct (dev_deletes hs w1) as [w2 codes]. unfold delete_result, delete_error in E.
  destruct (Z.ltb_spec 0 code); [erewrite rpc_bind_Ok by (by apply attempt_Err)|erewrite rpc_bind_Ok by (by apply attempt_Ok)].
  all: cbv beta iota; cbn [errors_as_code]; erewrite rpc_bind_Ok by exact IH.
  { done. }
  unfold ReturnCodeNoErrors. by replace code with 0 by lia.
Qed.

(** Whether the connection serves the sum command, or refused it before. *)
Lemma SumDelete_any_state hs c : serves_deletes (cl_target c) -> hs <> [] -> 4 * len hs < 2 ^ 32 ->
  exists c', SumDeleteDeviceNotification hs c = (c', Ok ((dev_deletes hs (cl_tx c)).2, None)) /\
    cl_tx c' = (dev_deletes hs (cl_tx c)).1.
Proof.
  intros Hs Hne Hl. destruct (Z.eq_dec (sumDeleteNotifState (cl_caps c)) 2) as [Hk|Hk]; [|by apply SumDelete_serves].
  pose proof (fallback_delete_serves hs c Hs) as E. exists (with_tx c (dev_deletes hs (cl_tx c)).1). split; [|done].
  unfold SumDeleteDeviceNotification, executeSumCommand. destruct hs as [|h0 hs0] eqn:Eh; [done|]. rewrite <- Eh in *.
  assert (Hx : sc_fallback _ _ _ sum_delete_spec hs c = (with_tx c (dev_deletes hs (cl_tx c)).1, Ok (((dev_deletes hs (cl_tx c)).2, None), ()))).
  { cbn [sc_fallback sum_delete_spec]. by erewrite rpc_bind_Ok by exact E. }
  unfold mbind, rpc_bind. cbn [stateLoad sum_delete_spec]. unfold SumDeleteNotifStateLoad, caps_get, mbind, rpc_bind, mret, rpc_ret.
  rewrite Hk. cbn [Z.eqb Pos.eqb].
  by rewrite Hx.
Qed.

(** ** The session's calls *)

(** The handles one after the other, whatever each call answers. *)
Fixpoint delete_each (hs : list Z) (u : unsub W) : unsub W * list (res ()) :=
  match hs with
  | [] => (u, [])
  | h :: hs =>
      let '(u, r) := Session_DeleteDeviceNotification (fun s => s) h u in
      let '(u, rs) := delete_each hs u in (u, r :: rs)
  end.

Lemma Session_Delete_serves h u c : un_client u = Some c -> serves_deletes (cl_target c) ->
  Session_DeleteDeviceNotification (fun s => s) h u
  = ({| un_client := Some (with_tx c (dev_delete h (cl_tx c)).1);
        un_subs := delete_one (un_subs u) (h, (dev_delete h (cl_tx c)).2) |},
     delete_result (dev_delete h (cl_tx c)).2).
Proof.
  intros Hu Hs. unfold Session_DeleteDeviceNotification, request. rewrite Hu, (Delete_serves h c Hs). cbv zeta.
  unfold delete_result, delete_one. cbn [fst snd].
  assert (Hf : forall err, (delete_finish h (delete_snapshot h (un_subs u)) err (un_subs u)).2 = err).
  { intros err. unfold delete_finish. destruct (delete_snapshot _ _). by case_match. }
  destruct (delete_error _) as [e|]; cbn [un_subs];
    (match goal with |- context [delete_finish h ?x ?err ?y] => specialize (Hf err); destruct (delete_finish h x err y) end);
    cbn in *; by subst.
Qed.

Lemma delete_each_serves hs : forall u c, un_client u = Some c -> serves_deletes (cl_target c) ->
  delete_each hs u
  = ({| un_client := Some (with_tx c (dev_deletes hs (cl_tx c)).1);
        un_subs := foldl delete_one (un_subs u) (zip hs (dev_deletes hs (cl_tx c)).2) |},
     map delete_result (dev_deletes hs (cl_tx c)).2).
Proof.
  induction hs as [|h hs IH]; intros u c Hu Hs; [destruct u, c; cbn in *; by subst|]. cbn [delete_each dev_deletes].
  rewrite (Session_Delete_serves h u c) by done. destruct (dev_delete h (cl_tx c)) as [w1 code]. cbn [fst snd].
  erewrite IH by done. cbn [with_tx cl_tx un_subs]. by destruct (dev_deletes hs w1) as [w2 codes].
Qed.

End Device.

(** ** A handle the session does not own *)

(** Between the sweep of a recovery and its re-subscription, deleting one handle the
    sweep already gave up keeps the caller's channel; deleting it through the batch call
    clears it, and the re-subscription that follows registers nothing and reports success. *)
Theorem batch_delete_of_a_swept_handle_drops_the_channel add del cache s h code ch p0 ps :
  activeNotifications s = ∅ -> notificationChannel s = Some ch -> pending s = p0 :: ps ->
  isBestEffortDeleteSuccess code = true -> 0 <= code ->
  notificationChannel (delete_one s (h, code)) = Some ch /\
  let s' := sumDelete_finish [h] [code] true s in
  notificationChannel s' = None /\ pending s' = pending s /\
  resubscribeNotificationsLocked add del cache s' = (s', None).
Proof.
  intros Ha Hc Hp Hs Hpos. split.
  { unfold delete_one, delete_finish, delete_snapshot. cbn [fst snd]. rewrite Ha, lookup_empty. cbn [fst snd].
    by destruct (match delete_error code with Some _ => _ | None => false end). }
  assert (E : sumDelete_finish [h] [code] true s
    = set_channel None (set_registered 0 (set_active ∅ s))).
  { unfold sumDelete_finish, flush_one. cbn [zip zip_with foldl fst snd]. rewrite Hs, Ha, lookup_empty.
    cbv zeta iota. rewrite Ha, delete_empty. done. }
  cbv zeta. rewrite E. split_and!; [done|done|]. unfold resubscribeNotificationsLocked. cbn. by rewrite Hp.
Qed.

(** ** A device that knows its registrations by handle *)

Definition reg_delete (h : Z) (w : gset Z) : gset Z * Z :=
  if decide (u32 h ∈ w) then (w ∖ {[u32 h]}, 0) else (w, ReturnCodeDeviceNotifyHandleInvalid).

Fixpoint read_handles (n : nat) (b : bytes) : res (list Z) :=
  match n with
  | O => Ok []
  | S n => '(h, b) ← read_u32 b; hs ← read_handles n b; Ok (h :: hs)
  end.

Definition reg_handle (cmd : Z) (d : bytes) (w : gset Z) : res (gset Z * bytes) :=
  if cmd =? CommandIDDeleteDeviceNotification then
    '(h, _) ← read_u32 d; let '(w, code) := reg_delete h w in Ok (w, put_u32 code)
  else
    '(_, d) ← read_u32 d; '(n, d) ← read_u32 d; '(_, d) ← read_u32 d; '(_, d) ← read_u32 d;
    hs ← read_handles (Z.to_nat n) d;
    let '(w, codes) := dev_deletes reg_delete hs w in Ok (w, read_reply 0 (concat (map put_u32 codes))).

#[local] Instance reg_transport : Transport (gset Z) := fun _ cmd d w =>
  match reg_handle cmd d w with
  | Ok (w', b) => (w', Ok b)
  | Err e => (w, Err e)
  | Panic => (w, Panic)
  end.

Lemma read_handles_app hs rest : read_handles (length hs) (concat (map put_u32 hs) ++ rest) = Ok (map u32 hs).
Proof.
  induction hs as [|h hs IH]; [done|]. cbn [map concat length read_handles].
  rewrite <- app_assoc, read_uint_app. cbn [mbind res_bind]. by rewrite IH.
Qed.

Lemma reg_delete_u32 h w : reg_delete (u32 h) w = reg_delete h w.
Proof.
  unfold reg_delete. assert (E : u32 (u32 h) = u32 h) by (apply wrap_u_small; by apply wrap_u_range). by rewrite E.
Qed.

Lemma reg_deletes_u32 hs : forall w, dev_deletes reg_delete (map u32 hs) w = dev_deletes reg_delete hs w.
Proof.
  induction hs as [|h hs IH]; intros w; [done|]. cbn [map dev_deletes]. rewrite reg_delete_u32.
  destruct (reg_delete h w). by rewrite IH.
Qed.

Lemma reg_serves t : serves_deletes reg_delete t.
Proof.
  split.
  - intros h w. unfold reg_delete. by case_decide.
  - intros h w. unfold sendRequestTo_tx, reg_transport, reg_handle. rewrite Z.eqb_refl.
    rewrite <- (app_nil_r (put_u32 h)), read_uint_app. cbn [mbind res_bind].
    change (h mod 2 ^ (8 * Z.of_nat 4)) with (u32 h). rewrite reg_delete_u32. by destruct (reg_delete h w).
  - intros hs w Hl. unfold sendRequestTo_tx, reg_transport, reg_handle, writeread_packet.
    change (CommandIDReadWrite =? CommandIDDeleteDeviceNotification) with false. cbv iota.
    do 4 (rewrite read_uint_app; cbn [mbind res_bind]).
    pose proof (len_nonneg hs). rewrite (Z.mod_small (len hs)) by (cbn; lia).
    unfold len at 1. rewrite Nat2Z.id, <- (app_nil_r (concat _)), read_handles_app. cbn [mbind res_bind].
    rewrite reg_deletes_u32. by destruct (dev_deletes reg_delete hs w).
Qed.

(** Two subscriptions of which the PLC has already lost one; a third stays. *)
Definition reg_entry (name : string) : activeNotification := {| an_Sym := Some name; an_Ch := 1; an_order := None |}.
Definition reg_session : unsub (gset Z) :=
  {| un_client := Some {| cl_target := plc_address; cl_caps := cl_caps plc_client; cl_tx := {[5; 7]} |};
     un_subs := {| activeNotifications := {[5 := reg_entry "MAIN.a"; 6 := reg_entry "MAIN.b"; 7 := reg_entry "MAIN.c"]};
                   pending := map (fun n => {| pn_Config := one_config n; resubscribeAttempts := 0 |}) ["MAIN.a"; "MAIN.b"; "MAIN.c"]%string;
                   configsByKey := list_to_set ["main.a"; "main.b"; "main.c"]%string; notificationChannel := Some 1; registered := 3 |} |}.


Lemma batch_delete_of_a_swept_handle_drops_the_channel_witness :
  let s := (take_handles (un_subs reg_session)).1 in
  notificationChannel (delete_one s (5, ReturnCodeDeviceNotifyHandleInvalid)) = Some 1 /\
  let s' := sumDelete_finish [5] [ReturnCodeDeviceNotifyHandleInvalid] true s in
  notificationChannel s' = None /\ pending s' = pending s /\
  resubscribeNotificationsLocked (fun _ _ s => (s, ([], None))) (fun _ => ([], None)) one_cache s' = (s', None).
Proof.
  eapply (batch_delete_of_a_swept_handle_drops_the_channel (fun _ _ s => (s, ([], None))) (fun _ => ([], None)) one_cache).
  - reflexivity.
  - reflexivity.
  - reflexivity.
  - reflexivity.
  - by vm_compute.
Defined.
