(* ===== verification/Options.v ===== *)
(** session_options.go and NewSession (session.go): what a session is built from.  Every
    [With...] option is a function on the session's configuration; [NewSession] applies
    them in the order given, normalizes the heartbeat and completes the target address
    over UDP when it is incomplete. *)
From S2P Require Import Prelude Wire Strconv Defs Ams Fsm Route Identify NetIP Udp Policies LifeState Lifecycle Connect Watch.
From coqutil Require Import Datatypes.RecordSetters.
Export TriangleBracketNotations.

(** ** The configured part of a [Session] *)

(** [s_logger] stands for a [*slog.Logger]; 0 is [slog.Default()].  [s_targetCheck] is
    the [int] of the source, since the option takes any but zero.  Of a callback only
    its presence is kept. *)
Record Session : Type := {
  s_ip : string; s_port : Z; s_routerPort : Z; s_target : AMSAddress; s_source : AMSAddress;
  s_callbackIP : string; s_localBindIP : option bytes; s_requestTimeout : Z; s_isLocal : bool;
  s_peerListenPort : Z; s_peerFallbackDisabled : bool;
  s_heartbeat : heartbeatOptions; s_heartbeatRecovery : HeartbeatRecovery;
  s_stateWatchInterval : Z; s_stateWatchDisabled : bool;
  s_onDisconnect : bool; s_onReconnect : bool; s_versionCallback : bool;
  s_versionStrategy : SymbolVersionStrategy; s_reloads : reloads; s_route : routeManager;
  s_targetCheck : Z; s_logger : Z; s_autoReconnect : bool; s_maxReconnectAttempts : Z;
  s_backoffConfig : BackoffConfig; s_strictReconnect : bool; s_strictReconnectMaxAttempts : Z }.

Definition SessionOption : Type := Session -> Session.

(** ** The options *)

(** [None] is a nil logger. *)
Definition WithLogger (logger : option Z) : SessionOption := fun s =>
  match logger with Some l => s<| s_logger := l |> | None => s end.

Definition WithHostIP (ip : string) : SessionOption := fun s => s<| s_callbackIP := ip |>.

Definition WithLocalBindIP (ip : string) : SessionOption := fun s =>
  if String.eqb ip "" then s<| s_localBindIP := None |>
  else match ParseIP ip with
       | None => s
       | Some parsed => s<| s_localBindIP := Some parsed |>
       end.

Definition WithLocalAMS (local : AMSAddress) : SessionOption := fun s =>
  let s := if decide (NetID local = no_netid) then s
           else s<| s_source := {| NetID := NetID local; Port := Port (s_source s) |} |> in
  if Port local =? 0 then s
  else s<| s_source := {| NetID := NetID (s_source s); Port := Port local |} |>.

Definition WithLocalMode : SessionOption := fun s => s<| s_isLocal := true |>.

Definition WithRoute (routeName username password : string) : SessionOption := fun s =>
  let r := s_route s in
  s<| s_route := {| rm_name := routeName; rm_username := username; rm_password := password;
                    forceRouteRegistration := forceRouteRegistration r; activationTimeout := activationTimeout r;
                    skipRegistration := skipRegistration r; routeProbeFailures := routeProbeFailures r;
                    registered := registered r |} |>.
Definition WithSkipRouteRegistration : SessionOption := fun s =>
  s<| s_route := (s_route s)<| skipRegistration := true |> |>.
Definition WithForceRouteRegistration : SessionOption := fun s =>
  s<| s_route := (s_route s)<| forceRouteRegistration := true |> |>.
Definition WithRouteActivationTimeout (d : Z) : SessionOption := fun s =>
  if 0 <? d then s<| s_route := (s_route s)<| activationTimeout := d |> |> else s.

Definition With_Backoff (cfg : BackoffConfig) : SessionOption := fun s =>
  s<| s_backoffConfig := WithBackoff cfg (s_backoffConfig s) |>.
Definition WithMaxReconnectAttempts (n : Z) : SessionOption := fun s => s<| s_maxReconnectAttempts := n |>.
Definition WithStrictReconnect (maxAttempts : Z) : SessionOption := fun s =>
  s<| s_strictReconnect := true |><| s_strictReconnectMaxAttempts := maxAttempts |>.
Definition WithAutoReconnect (enabled : bool) : SessionOption := fun s => s<| s_autoReconnect := enabled |>.
Definition WithOnDisconnect (fn : bool) : SessionOption := fun s => s<| s_onDisconnect := fn |>.
Definition WithOnReconnect (fn : bool) : SessionOption := fun s => s<| s_onReconnect := fn |>.

Definition WithRequestTimeout (d : Z) : SessionOption := fun s =>
  if 0 <? d then s<| s_requestTimeout := d |> else s.

Definition WithTargetCheck (c : Z) : SessionOption := fun s =>
  if c =? 0 then s else s<| s_targetCheck := c |>.

Definition WithAmsPeerListen (port : Z) : SessionOption := fun s => s<| s_peerListenPort := port |>.
Definition WithoutAmsPeerFallback : SessionOption := fun s => s<| s_peerFallbackDisabled := true |>.

(** The strategy is a [uint8]; an unknown one falls back to AutoReload. *)
Definition SymbolVersionStrategy_of (z : Z) : option SymbolVersionStrategy :=
  if z =? 0 then Some SymbolVersionAutoReload else if z =? 1 then Some SymbolVersionClose
  else if z =? 2 then Some SymbolVersionIgnore else None.
Definition WithSymbolVersionStrategy (z : Z) : SessionOption := fun s =>
  match SymbolVersionStrategy_of z with
  | Some v => s<| s_versionStrategy := v |>
  | None => s<| s_versionStrategy := SymbolVersionAutoReload |>
  end.

Definition WithMaxSymbolVersionReloadAttempts (n : Z) : SessionOption := fun s =>
  if n <? 1 then s else s<| s_reloads := (s_reloads s)<| maxReloadAttempts := n |> |>.
Definition WithSymbolVersionReloadWindow (d : Z) : SessionOption := fun s =>
  if d <=? 0 then s else s<| s_reloads := (s_reloads s)<| reloadWindow := d |> |>.
Definition WithOnSymbolVersionChanged (fn : bool) : SessionOption := fun s => s<| s_versionCallback := fn |>.

Definition With_NotificationHeartbeat (interval missed : Z) : SessionOption := fun s =>
  s<| s_heartbeat := WithNotificationHeartbeat interval missed (s_heartbeat s) |>.
Definition With_NotificationSilenceTimeout (d : Z) : SessionOption := fun s =>
  s<| s_heartbeat := WithNotificationSilenceTimeout d (s_heartbeat s) |>.
Definition WithoutNotificationHeartbeat : SessionOption := fun s =>
  s<| s_heartbeat := (s_heartbeat s)<| heartbeatDisabled := true |> |>.
Definition HeartbeatRecovery_of (z : Z) : HeartbeatRecovery :=
  if z =? 1 then HeartbeatRecoveryImmediate else if z =? 2 then HeartbeatRecoveryConfirm
  else if z =? 3 then HeartbeatRecoveryObserve else HRUnset.
Definition With_HeartbeatRecovery (z : Z) : SessionOption := fun s =>
  s<| s_heartbeatRecovery := WithHeartbeatRecovery (HeartbeatRecovery_of z) (s_heartbeatRecovery s) |>.

Definition WithRuntimeStateWatch (d : Z) : SessionOption := fun s =>
  if d <=? 0 then s else s<| s_stateWatchInterval := d |><| s_stateWatchDisabled := false |>.
Definition WithoutRuntimeStateWatch : SessionOption := fun s => s<| s_stateWatchDisabled := true |>.

(** ** NewSession *)

Record AMSEndpoint : Type := { ep_IP : string; ep_Port : Z; ep_AMS : AMSAddress; ep_RouterPort : Z }.

Definition defaultTCPPort : Z := 48898.

(** [randomAMSPort], [n] being what [rand.IntN(span)] drew. *)
Definition randomAMSPort (n : Z) : Z := u16 (32768 + n).

Definition TargetCheckWarn_int : Z := 1.
Definition TargetCheckError_int : Z := 2.
Definition TargetCheckOff_int : Z := 3.

(** The session before the options. *)
Definition defaultSession (remote : AMSEndpoint) (drawn : Z) : Session :=
  {| s_ip := ep_IP remote; s_port := if ep_Port remote <=? 0 then defaultTCPPort else ep_Port remote;
     s_routerPort := if ep_RouterPort remote <=? 0 then routePort else ep_RouterPort remote;
     s_target := ep_AMS remote; s_source := {| NetID := no_netid; Port := randomAMSPort drawn |};
     s_callbackIP := ""; s_localBindIP := None; s_requestTimeout := 5 * Second; s_isLocal := false;
     s_peerListenPort := 0; s_peerFallbackDisabled := false;
     s_heartbeat := {| heartbeatInterval := 0; heartbeatMissed := 0; heartbeatSilence := 0; heartbeatDisabled := false |};
     s_heartbeatRecovery := HRUnset; s_stateWatchInterval := 0; s_stateWatchDisabled := false;
     s_onDisconnect := false; s_onReconnect := false; s_versionCallback := false;
     s_versionStrategy := SymbolVersionAutoReload;
     s_reloads := {| reloadAttempts := []; maxReloadAttempts := 3; reloadWindow := 60 * Second |};
     s_route := {| rm_name := ""; rm_username := ""; rm_password := ""; forceRouteRegistration := false;
                   activationTimeout := 0; skipRegistration := false; routeProbeFailures := 0; registered := false |};
     s_targetCheck := TargetCheckWarn_int; s_logger := 0; s_autoReconnect := true; s_maxReconnectAttempts := 0;
     s_backoffConfig := DefaultBackoffConfig; s_strictReconnect := false; s_strictReconnectMaxAttempts := 0 |}.

Definition apply_options (opts : list SessionOption) (s : Session) : Session := foldl (fun s opt => opt s) s opts.

Definition normalize (s : Session) : Session := s<| s_heartbeat := normalizeHeartbeatOptions (s_heartbeat s) |>.

Definition effectiveRouterPort (s : Session) : Z := if 0 <? s_routerPort s then s_routerPort s else routePort.

Definition applyDiscoveredIdentity (id : RemoteIdentity) (s : Session) : res Session :=
  let s := if decide (NetID (s_target s) = no_netid)
           then s<| s_target := {| NetID := NetID (AMS id); Port := Port (s_target s) |} |> else s in
  if Port (s_target s) =? 0 then
    if Major id =? 0 then Err (EMsg "ads: NewSession: the device reported no TwinCAT version")
    else Ok (s<| s_target := {| NetID := NetID (s_target s); Port := RuntimePort id |} |>)
  else Ok s.

(** The address the device is asked for at, and its answer. *)
Section NewSession.
Context {W : Type} (identify : option bytes -> string -> Z -> W -> W * res RemoteIdentity).

Definition discoverTarget (s : Session) (w : W) : W * res Session :=
  let '(w, r) := identify (s_localBindIP s) (s_ip s) (effectiveRouterPort s) w in
  (w, id ← wrap_err "ads: NewSession: target AMS address incomplete and discovery failed" r;
      applyDiscoveredIdentity id s).

Definition needsDiscovery (s : Session) : bool :=
  negb (s_isLocal s) && (bool_decide (NetID (s_target s) = no_netid) || (Port (s_target s) =? 0)).

Definition NewSession (remote : AMSEndpoint) (drawn : Z) (opts : list SessionOption) (w : W) : W * res Session :=
  if String.eqb (ep_IP remote) "" then (w, Err (EMsg "ads: NewSession: remote.IP must be set"))
  else
    let s := normalize (apply_options opts (defaultSession remote drawn)) in
    if needsDiscovery s then discoverTarget s w else (w, Ok s).
End NewSession.

(** ** What the components read *)

(** How [Connect] and [applyTargetCheck] compare it: an unknown value warns. *)
Definition TargetCheck_of (c : Z) : TargetCheck :=
  if c =? TargetCheckError_int then TargetCheckError else if c =? TargetCheckOff_int then TargetCheckOff else TargetCheckWarn.

(** The IPv4 address of [WithHostIP], when it is one. *)
Definition callback_v4 (s : Session) : option bytes :=
  if String.eqb (s_callbackIP s) "" then None else To4 (ParseIP (s_callbackIP s)).

Definition config_of (s : Session) : config :=
  {| cf_local := s_isLocal s; cf_peerListenPort := s_peerListenPort s; cf_peerFallbackDisabled := s_peerFallbackDisabled s;
     cf_targetCheck := TargetCheck_of (s_targetCheck s); cf_callback := callback_v4 s;
     cf_autoReconnect := s_autoReconnect s; cf_maxReconnectAttempts := s_maxReconnectAttempts s;
     cf_backoff := s_backoffConfig s; cf_unservedCooldown := 0; cf_stateWatchDisabled := s_stateWatchDisabled s;
     cf_onDisconnect := s_onDisconnect s; cf_onReconnect := s_onReconnect s |}.

(** The lifecycle of a new session. *)
Definition life_of {W} (s : Session) (w : W) : life W :=
  Build_life w initial_fsm 0 false false false false false false None ∅ 0 0 false None 0 None 0 (s_route s)
    false false 0 false (s_target s) (s_source s) [] [] [] 0 (0, 0) 0 0 0 0 false.

Definition amsPeerListenPort : Z := 48898.
Definition peerListenPortOrDefault (s : Session) : Z :=
  if s_peerListenPort s =? 0 then amsPeerListenPort else s_peerListenPort s.

(** ** AddRoute *)

(** The address the PLC is told to dial back, for a session presenting [source]. *)
Definition route_host (s : Session) (source : AMSAddress) : string :=
  if String.eqb (s_callbackIP s) "" then dotted (take 4 (NetID source)) else s_callbackIP s.

(** The registration runs to its end on its own goroutine; [aborted] is the caller's
    context when it ended first. *)
Definition AddRoute (net : udp_call read_event) (aborted : option goerr) (s : Session) (source : AMSAddress)
    (routeName username password : string) : res () :=
  match aborted with
  | Some e => Err (EWrap "AddRoute aborted" e)
  | None => registration_error (addRemoteRouteFrom net (s_localBindIP s) (s_ip s) (effectiveRouterPort s) (NetID source)
              (bytes_of_string routeName) (bytes_of_string (route_host s source))
              (bytes_of_string username) (bytes_of_string password))
  end.
