(* ===== verification/OptionsFacts.v ===== *)
(** Options.v: whatever options a session is built with, in whatever order, it is
    configured within the bounds its components assume; options of different kinds
    commute, of one kind the last wins; NewSession completes the target address and
    nothing else; the route a session registers leads back to the NetID it presents. *)
From S2P Require Import Prelude Wire Strconv Defs Ams Fsm Route RouteFacts Identify NetIP Udp Policies PoliciesFacts LifeState Lifecycle Connect LifeFacts ConnectFacts Watch WatchFacts Options.
From coqutil Require Import Datatypes.RecordSetters.
#[local] Arguments constant {E} newValue _ /.

(** ** The options as data

    [SessionOption] closes over unexported fields, so outside the package these are all
    the options there are. *)
Inductive opt : Type :=
| OLogger (l : option Z) | OHostIP (ip : string) | OLocalBindIP (ip : string) | OLocalAMS (a : AMSAddress) | OLocalMode
| ORoute (n u p : string) | OSkipRoute | OForceRoute | OActivation (d : Z)
| OBackoff (c : BackoffConfig) | OMaxReconnect (n : Z) | OStrict (n : Z) | OAuto (b : bool)
| OOnDisconnect (b : bool) | OOnReconnect (b : bool) | ORequestTimeout (d : Z) | OTargetCheck (c : Z)
| OPeerListen (p : Z) | ONoPeerFallback | OStrategy (z : Z) | OMaxReload (n : Z) | OReloadWindow (d : Z)
| OOnVersion (b : bool) | OHeartbeat (i m : Z) | OSilence (d : Z) | ONoHeartbeat | ORecovery (z : Z)
| OStateWatch (d : Z) | ONoStateWatch.

Definition apply_opt (o : opt) : SessionOption :=
  match o with
  | OLogger l => WithLogger l | OHostIP ip => WithHostIP ip | OLocalBindIP ip => WithLocalBindIP ip
  | OLocalAMS a => WithLocalAMS a | OLocalMode => WithLocalMode | ORoute n u p => WithRoute n u p
  | OSkipRoute => WithSkipRouteRegistration | OForceRoute => WithForceRouteRegistration
  | OActivation d => WithRouteActivationTimeout d | OBackoff c => With_Backoff c
  | OMaxReconnect n => WithMaxReconnectAttempts n | OStrict n => WithStrictReconnect n | OAuto b => WithAutoReconnect b
  | OOnDisconnect b => WithOnDisconnect b | OOnReconnect b => WithOnReconnect b
  | ORequestTimeout d => WithRequestTimeout d | OTargetCheck c => WithTargetCheck c
  | OPeerListen p => WithAmsPeerListen p | ONoPeerFallback => WithoutAmsPeerFallback
  | OStrategy z => WithSymbolVersionStrategy z | OMaxReload n => WithMaxSymbolVersionReloadAttempts n
  | OReloadWindow d => WithSymbolVersionReloadWindow d | OOnVersion b => WithOnSymbolVersionChanged b
  | OHeartbeat i m => With_NotificationHeartbeat i m | OSilence d => With_NotificationSilenceTimeout d
  | ONoHeartbeat => WithoutNotificationHeartbeat | ORecovery z => With_HeartbeatRecovery z
  | OStateWatch d => WithRuntimeStateWatch d | ONoStateWatch => WithoutRuntimeStateWatch
  end.

(** What an option is about; two options are of one kind when they write the same field. *)
Definition kind (o : opt) : Z :=
  match o with
  | OLogger _ => 0 | OHostIP _ => 1 | OLocalBindIP _ => 2 | OLocalAMS _ => 3 | OLocalMode => 4 | ORoute _ _ _ => 5
  | OSkipRoute => 6 | OForceRoute => 7 | OActivation _ => 8 | OBackoff _ => 9 | OMaxReconnect _ => 10 | OStrict _ => 11
  | OAuto _ => 12 | OOnDisconnect _ => 13 | OOnReconnect _ => 14 | ORequestTimeout _ => 15 | OTargetCheck _ => 16
  | OPeerListen _ => 17 | ONoPeerFallback => 18 | OStrategy _ => 19 | OMaxReload _ => 20 | OReloadWindow _ => 21
  | OOnVersion _ => 22 | OHeartbeat _ _ | OSilence _ | ONoHeartbeat => 23 | ORecovery _ => 24
  | OStateWatch _ | ONoStateWatch => 25
  end.

Definition apply_opts (opts : list opt) (s : Session) : Session := apply_options (map apply_opt opts) s.

Lemma apply_opts_app a b s : apply_opts (a ++ b) s = apply_opts b (apply_opts a s).
Proof. unfold apply_opts, apply_options. by rewrite map_app, foldl_app. Qed.

(** What every option keeps, any list of options keeps. *)
Lemma apply_opts_ind (P : Session -> Prop) opts s :
  (forall o s, o ∈ opts -> P s -> P (apply_opt o s)) -> P s -> P (apply_opts opts s).
Proof.
  revert s. induction opts as [|o opts IH]; intros s Ho Hs; [done|].
  apply (IH (apply_opt o s)); [intros; apply Ho; [by constructor|done]|apply Ho; [constructor|done]].
Qed.

Ltac open_option := unfold WithLogger, WithHostIP, WithLocalBindIP, WithLocalAMS, WithLocalMode, WithRoute,
  WithSkipRouteRegistration, WithForceRouteRegistration, WithRouteActivationTimeout, With_Backoff,
  WithMaxReconnectAttempts, WithStrictReconnect, WithAutoReconnect, WithOnDisconnect, WithOnReconnect,
  WithRequestTimeout, WithTargetCheck, WithAmsPeerListen, WithoutAmsPeerFallback, WithSymbolVersionStrategy,
  WithMaxSymbolVersionReloadAttempts, WithSymbolVersionReloadWindow, WithOnSymbolVersionChanged,
  With_NotificationHeartbeat, With_NotificationSilenceTimeout, WithoutNotificationHeartbeat, With_HeartbeatRecovery,
  WithRuntimeStateWatch, WithoutRuntimeStateWatch in *.

(** ** Order *)

Lemma apply_opt_comm a b s : kind a <> kind b -> apply_opt a (apply_opt b s) = apply_opt b (apply_opt a s).
Proof.
  intros Hk. destruct a, b; try (by destruct Hk); clear Hk; cbn [apply_opt]; open_option;
    first [reflexivity | repeat case_match; reflexivity].
Qed.

Notation of_kind k := (filter (fun o => kind o = k)).

Lemma first_of_kind o l rest : of_kind (kind o) l = o :: rest ->
  exists a b, l = a ++ o :: b /\ Forall (fun x => kind x <> kind o) a /\ of_kind (kind o) b = rest.
Proof.
  induction l as [|x l IH]; [done|]. rewrite filter_cons. destruct (decide (kind x = kind o)) as [E|E].
  - intros [= -> <-]. by exists [], l.
  - intros (a & b & -> & Ha & Hb)%IH. exists (x :: a), b. split; [done|]. by split; [constructor|].
Qed.

Lemma apply_opts_front o a s : Forall (fun x => kind x <> kind o) a ->
  apply_opt o (apply_opts a s) = apply_opts a (apply_opt o s).
Proof.
  intros Ha. revert s. induction Ha as [|x a Hx _ IH]; intros s; [done|].
  change (apply_opt o (apply_opts a (apply_opt x s)) = apply_opts a (apply_opt x (apply_opt o s))).
  by rewrite IH, apply_opt_comm by done.
Qed.

(** Only the order of options of one kind matters: two lists that give the options of
    each kind in the same order configure the same session. *)
Theorem options_order l1 l2 s : (forall k, of_kind k l1 = of_kind k l2) -> apply_opts l1 s = apply_opts l2 s.
Proof.
  revert l2 s. induction l1 as [|o l1 IH]; intros l2 s Hk.
  - destruct l2 as [|o l2]; [done|]. specialize (Hk (kind o)). rewrite filter_cons, decide_True in Hk by done. done.
  - pose proof (Hk (kind o)) as Ho. rewrite filter_cons, decide_True in Ho by done. symmetry in Ho.
    destruct (first_of_kind _ _ _ Ho) as (a & b & -> & Ha & Hb).
    change (apply_opts l1 (apply_opt o s) = apply_opts (a ++ o :: b) s).
    rewrite apply_opts_app. change (apply_opts (o :: b) ?s) with (apply_opts b (apply_opt o s)).
    rewrite apply_opts_front, <- apply_opts_app by done. apply IH. intros k. specialize (Hk k).
    rewrite filter_app, !filter_cons in *. destruct (decide (kind o = k)) as [<-|]; [|done].
    assert (E : of_kind (kind o) a = []).
    { clear -Ha. induction Ha; [done|]. by rewrite filter_cons, decide_False. }
    rewrite E in *. cbn in *. congruence.
Qed.

Lemma options_order_witness : let s := defaultSession {| ep_IP := "10.0.0.5"; ep_Port := 0; ep_AMS := {| NetID := no_netid; Port := 0 |}; ep_RouterPort := 0 |} 7 in
  apply_opts [OLocalMode; OSilence 5; OAuto false; OHeartbeat 3 4] s = apply_opts [OAuto false; OSilence 5; OHeartbeat 3 4; OLocalMode] s.
Proof.
  intros s. apply (options_order [OLocalMode; OSilence 5; OAuto false; OHeartbeat 3 4] [OAuto false; OSilence 5; OHeartbeat 3 4; OLocalMode] s).
  intros k. rewrite !filter_cons. cbn. repeat case_decide; first [done|congruence].
Defined.

(** ** Validity *)

(** The bounds the components assume of the configuration. *)
Record valid_session (s : Session) : Prop := {
  vs_backoff : Validate (s_backoffConfig s) = None;
  vs_timeout : 0 < s_requestTimeout s;
  vs_budget : 1 <= maxReloadAttempts (s_reloads s) /\ 0 < reloadWindow (s_reloads s) /\ reloadAttempts (s_reloads s) = [];
  vs_interval : 0 <= heartbeatInterval (s_heartbeat s) <= maxADSCycleTime;
  vs_missed : heartbeatMissed (s_heartbeat s) = 0 \/ 2 <= heartbeatMissed (s_heartbeat s);
  vs_watch : 0 <= s_stateWatchInterval s;
  vs_route : 0 <= activationTimeout (s_route s) /\ registered (s_route s) = false /\ routeProbeFailures (s_route s) = 0;
  vs_check : s_targetCheck s <> 0;
  vs_port : Port (s_source s) <> 0 }.

Lemma default_valid remote drawn : 0 <= drawn < 16384 -> valid_session (defaultSession remote drawn).
Proof.
  intros Hd. assert (Port (s_source (defaultSession remote drawn)) <> 0).
  { cbn. unfold randomAMSPort, u16, wrap_u. change (2 ^ 16) with 65536. rewrite Z.mod_small by lia. lia. }
  assert (0 <= 0 <= maxADSCycleTime) by done.
  by split; cbn; try (repeat split; done); left.
Qed.

Lemma heartbeat_option_valid i m o : 0 <= heartbeatInterval o <= maxADSCycleTime ->
  0 <= heartbeatInterval (WithNotificationHeartbeat i m o) <= maxADSCycleTime /\
  2 <= heartbeatMissed (WithNotificationHeartbeat i m o).
Proof.
  intros Hi. unfold WithNotificationHeartbeat. cbn. split.
  - destruct (Z.ltb_spec 0 i); [|done]. assert (0 < maxADSCycleTime) by done. destruct (Z.ltb_spec maxADSCycleTime i); lia.
  - destruct (Z.ltb_spec m 2); lia.
Qed.

Lemma apply_opt_valid o s : valid_session s -> valid_session (apply_opt o s).
Proof.
  intros [H1 H2 (H3 & H4 & H5) H6 H7 H8 (H9 & H10 & H11) H12 H13]. destruct s. cbn in *.
  destruct o as [| | | | | | | | |c| | | | | | | | | | | | | |i m|d| | | |]; cbn [apply_opt]; open_option; cbv beta zeta;
    repeat case_match; zbool; split; cbn; try done; try lia; try (repeat split; done || lia).
  - by apply WithBackoff_valid.
  - by apply (heartbeat_option_valid i m).
  - right. by apply (heartbeat_option_valid i m s_heartbeat).
  - unfold WithNotificationSilenceTimeout. by destruct (d <=? 0).
  - unfold WithNotificationSilenceTimeout. by destruct (d <=? 0).
Qed.

Lemma normalize_valid s : valid_session s -> valid_session (normalize s).
Proof.
  intros []. unfold normalize. destruct s as [? ? ? ? ? ? ? ? ? ? ? hb]. split; cbn in *; try done;
    unfold normalizeHeartbeatOptions; destruct (heartbeatSilence hb <=? 0); try done.
  cbn [heartbeatMissed]. cbv zeta. right. case_match; zbool; lia.
Qed.

(** What no option writes. *)
Definition same_device (s0 s : Session) : Prop :=
  s_ip s = s_ip s0 /\ s_port s = s_port s0 /\ s_routerPort s = s_routerPort s0 /\ s_target s = s_target s0.

Lemma apply_opt_device o s0 s : same_device s0 s -> same_device s0 (apply_opt o s).
Proof. unfold same_device. destruct o; cbn [apply_opt]; open_option; repeat case_match; done. Qed.

(** Local mode, once asked for, stays. *)
Lemma apply_opt_local o s : s_isLocal (apply_opt o s) = s_isLocal s || (kind o =? 4).
Proof. destruct o; cbn [apply_opt]; open_option; repeat case_match; cbn; by rewrite ?orb_false_r, ?orb_true_r. Qed.
Lemma apply_opts_local opts s : s_isLocal (apply_opts opts s) = s_isLocal s || existsb (fun o => kind o =? 4) opts.
Proof.
  revert s. induction opts as [|o opts IH]; intros s; [by rewrite orb_false_r|].
  change (apply_opts (o :: opts) s) with (apply_opts opts (apply_opt o s)). cbn [existsb].
  by rewrite IH, apply_opt_local, orb_assoc.
Qed.

(** ** NewSession *)

Section NewSession.
Context {W : Type} (identify : option bytes -> string -> Z -> W -> W * res RemoteIdentity).
Notation NewSession := (NewSession identify).

(** The configured session, before its address is completed. *)
Definition configured (remote : AMSEndpoint) (drawn : Z) (opts : list opt) : Session :=
  normalize (apply_opts opts (defaultSession remote drawn)).

Lemma configured_valid remote drawn opts : 0 <= drawn < 16384 -> valid_session (configured remote drawn opts).
Proof.
  intros Hd. apply normalize_valid, (apply_opts_ind valid_session); [intros; by apply apply_opt_valid|by apply default_valid].
Qed.

Lemma configured_device remote drawn opts : same_device (defaultSession remote drawn) (configured remote drawn opts).
Proof.
  change (same_device (defaultSession remote drawn) (apply_opts opts (defaultSession remote drawn))).
  apply (apply_opts_ind (same_device (defaultSession remote drawn))); [intros; by apply apply_opt_device|done].
Qed.

Lemma applyDiscoveredIdentity_valid id s s' : applyDiscoveredIdentity id s = Ok s' -> valid_session s ->
  valid_session s' /\ s_isLocal s' = s_isLocal s.
Proof.
  unfold applyDiscoveredIdentity. intros E Hv. destruct (decide _); cbn in E; repeat (case_match; [done|] || case_match);
    simplify_eq; (split; [by destruct Hv|done]).
Qed.

Lemma NewSession_ok remote drawn opts w w' s : NewSession remote drawn (map apply_opt opts) w = (w', Ok s) ->
  valid_session (configured remote drawn opts) -> valid_session s.
Proof.
  unfold Options.NewSession. destruct (String.eqb _ _); [done|].
  change (normalize (apply_options _ _)) with (configured remote drawn opts).
  destruct (needsDiscovery _); [|by intros [= _ <-]]. unfold discoverTarget.
  destruct (identify _ _ _ w) as [w1 [id|e|]]; cbn; intros [= _ E] Hv; [|done..].
  by destruct (applyDiscoveredIdentity_valid _ _ _ E Hv).
Qed.

(** C27. A session, whatever options it was built with and in whatever order, is configured
    within what its components assume: retries that wait, deadlines and windows that are
    positive, a reload budget of one at least, a heartbeat whose cycle the protocol can
    express and that tolerates two silent beats at least, a state poll with a period, a
    route not registered yet, a source port. *)
Theorem NewSession_valid remote drawn opts w w' s : 0 <= drawn < 16384 ->
  NewSession remote drawn (map apply_opt opts) w = (w', Ok s) ->
  (forall a, 0 < reconnectBackoff (s_backoffConfig s) a <= MaxInterval (s_backoffConfig s)) /\
  0 < s_requestTimeout s /\ (1 <= maxReloadAttempts (s_reloads s) /\ 0 < reloadWindow (s_reloads s)) /\
  (0 < heartbeatCycle (s_heartbeat s) <= maxADSCycleTime /\ 2 <= heartbeatAllowedMisses (s_heartbeat s)) /\
  0 < stateWatchCycle (s_stateWatchInterval s) /\
  (0 < (routeActivationBudget (activationTimeout (s_route s))).1 /\ mayRegister (s_route s) = true) /\
  Port (s_source s) <> 0.
Proof.
  intros Hd E. apply NewSession_ok in E; [|by apply configured_valid].
  destruct E as [[]%Validate_spec H2 (H3 & H4 & _) H6 _ H8 (H9 & H10 & _) _ H13].
  split_and!; try (done || lia).
  - intros a. unfold reconnectBackoff. repeat case_match; lia.
  - apply cycle_pos.
  - unfold heartbeatCycle. case_match; [lia|done].
  - apply misses_pos.
  - unfold stateWatchCycle. case_match; zbool; done.
  - unfold routeActivationBudget. cbn. case_match; zbool; done.
  - unfold mayRegister. by rewrite H10.
Qed.

(** C26. NewSession on the address it is given.  It asks the device, once and over UDP, exactly
    when a half of the target is missing and the session is not local; what it then fills
    in is what was missing, and only that: the NetID as the device reported it, the
    port after its TwinCAT version.  It fails when the device must be asked and does not
    answer, or reports no version to infer the port from. *)
Theorem NewSession_address remote drawn opts w : ep_IP remote <> ""%string ->
  let s := configured remote drawn opts in
  let local := existsb (fun o => kind o =? 4) opts in
  let id_missing := bool_decide (NetID (ep_AMS remote) = no_netid) in
  let port_missing := Port (ep_AMS remote) =? 0 in
  if local || negb id_missing && negb port_missing
  then NewSession remote drawn (map apply_opt opts) w = (w, Ok s) /\ s_target s = ep_AMS remote
  else
    let '(w', answer) := identify (s_localBindIP s) (ep_IP remote)
                           (if ep_RouterPort remote <=? 0 then routePort else ep_RouterPort remote) w in
    let '(w'', r) := NewSession remote drawn (map apply_opt opts) w in
    w'' = w' /\
    match answer with
    | Ok id =>
        if port_missing && (Major id =? 0) then is_err r = true
        else exists s', r = Ok s' /\ s_source s' = s_source s /\
             NetID (s_target s') = (if id_missing then NetID (AMS id) else NetID (ep_AMS remote)) /\
             Port (s_target s') = (if port_missing then (if Major id =? 2 then 801 else 851) else Port (ep_AMS remote))
    | _ => is_ok r = false
    end.
Proof.
  intros Hip. cbv zeta. unfold Options.NewSession. rewrite (proj2 (String.eqb_neq _ _) Hip).
  change (normalize (apply_options _ _)) with (configured remote drawn opts).
  destruct (configured_device remote drawn opts) as (E1 & E2 & E3 & E4).
  assert (El : s_isLocal (configured remote drawn opts) = existsb (fun o => kind o =? 4) opts)
    by apply (apply_opts_local opts (defaultSession remote drawn)).
  revert E1 E2 E3 E4 El. generalize (configured remote drawn opts). intros s E1 _ E3 E4 El.
  unfold needsDiscovery, discoverTarget, effectiveRouterPort. rewrite E4, El. cbn [s_target defaultSession].
  assert (Ep : (if 0 <? s_routerPort s then s_routerPort s else routePort) =
    (if ep_RouterPort remote <=? 0 then routePort else ep_RouterPort remote)).
  { rewrite E3. cbn. destruct (Z.leb_spec (ep_RouterPort remote) 0); [done|]. by rewrite (proj2 (Z.ltb_lt _ _)). }
  rewrite Ep, E1. cbn [s_ip defaultSession]. destruct (existsb _ opts); [done|].
  destruct (bool_decide _) eqn:En, (Port (ep_AMS remote) =? 0) eqn:Epo; cbn [negb andb orb]; try done.
  all: destruct (identify _ _ _ w) as [w' [id|e|]]; cbn; try done; split; [done|].
  all: unfold applyDiscoveredIdentity; rewrite E4; cbn [s_target defaultSession].
  all: first [apply bool_decide_eq_true_1 in En; rewrite decide_True by done
             |apply bool_decide_eq_false_1 in En; rewrite decide_False by done].
  all: cbn; rewrite ?E4; cbn; rewrite Epo; unfold RuntimePort.
  1, 3: destruct (Major id =? 0); [done|].
  all: eexists; split; [done|]; destruct s; cbn in *; rewrite ?E4; repeat split; by destruct (Major id =? 2).
Qed.
End NewSession.

(** ** The heartbeat options *)

Lemma heartbeat_of_others o s : kind o <> 23 -> s_heartbeat (apply_opt o s) = s_heartbeat s.
Proof. intros Hk. destruct o; try done; cbn [apply_opt]; open_option; repeat case_match; done. Qed.

(** The last heartbeat option is applied to what the ones before it left. *)
Lemma heartbeat_last l1 o l2 s : Forall (fun x => kind x <> 23) l2 ->
  s_heartbeat (apply_opts (l1 ++ o :: l2) s) = s_heartbeat (apply_opt o (apply_opts l1 s)).
Proof.
  intros Hl. rewrite apply_opts_app. change (apply_opts (o :: l2) ?s) with (apply_opts l2 (apply_opt o s)).
  apply (apply_opts_ind (fun s' => s_heartbeat s' = s_heartbeat (apply_opt o (apply_opts l1 s)))); [|done].
  intros x s' Hx <-. apply heartbeat_of_others. by rewrite Forall_forall in Hl; apply Hl.
Qed.

(** Of the options that say how long subscriptions may be silent the last one decides,
    whatever came before and whatever options of other kinds come after.  A timeout is
    covered by the beats it is converted to, with less than one to spare beyond two; a
    number of missed beats is kept, two at least, with the cycle given, if positive, capped
    at what the protocol can express; switched off stays off. *)
Theorem heartbeat_option_last remote drawn l1 o l2 : 0 <= drawn < 16384 -> Forall (fun x => kind x <> 23) l2 ->
  let hb := s_heartbeat (configured remote drawn (l1 ++ o :: l2)) in
  match o with
  | OSilence d => 0 < d < 2 ^ 63 - maxADSCycleTime ->
      heartbeatDisabled hb = false /\ d <= heartbeatAllowedMisses hb * heartbeatCycle hb /\
      ((heartbeatAllowedMisses hb - 1) * heartbeatCycle hb < d \/ heartbeatAllowedMisses hb = 2)
  | OHeartbeat i m => heartbeatDisabled hb = false /\ heartbeatAllowedMisses hb = Z.max 2 m /\
      (0 < i -> heartbeatCycle hb = Z.min i maxADSCycleTime)
  | ONoHeartbeat => heartbeatDisabled hb = true
  | _ => True
  end.
Proof.
  intros Hd Hl hb. set (s1 := apply_opts l1 (defaultSession remote drawn)).
  assert (Hv : valid_session s1) by (apply (apply_opts_ind valid_session); [intros; by apply apply_opt_valid|by apply default_valid]).
  assert (E : hb = normalizeHeartbeatOptions (s_heartbeat (apply_opt o s1))).
  { change hb with (normalizeHeartbeatOptions (s_heartbeat (apply_opts (l1 ++ o :: l2) (defaultSession remote drawn)))).
    by rewrite heartbeat_last. }
  clearbody hb. subst hb. destruct o; try done; cbn [apply_opt]; open_option; cbn [s_heartbeat].
  - unfold WithNotificationHeartbeat, normalizeHeartbeatOptions. cbn [heartbeatSilence]. change (0 <=? 0) with true.
    cbv iota. unfold heartbeatAllowedMisses, heartbeatCycle. cbn. split; [done|]. split.
    + destruct (Z.ltb_spec m 2); [cbn; lia|]. rewrite (proj2 (Z.leb_le 2 m)) by done. lia.
    + intros Hi. rewrite (proj2 (Z.ltb_lt 0 i)) by done. assert (0 < maxADSCycleTime) by done.
      destruct (Z.ltb_spec maxADSCycleTime i); rewrite (proj2 (Z.ltb_lt 0 _)) by done; lia.
  - intros Hr. set (h := s_heartbeat s1) in *.
    assert (Hc : 0 < heartbeatCycle h <= maxADSCycleTime).
    { split; [apply cycle_pos|]. destruct Hv as [_ _ _ Hi _ _ _ _ _]. fold h in Hi. unfold heartbeatCycle. case_match; [lia|done]. }
    destruct (silence_timeout_covered d h) as (E1 & E2 & E3); [lia..|].
    set (o := normalizeHeartbeatOptions _) in *.
    assert (Hm : 2 <= heartbeatMissed o).
    { unfold o, normalizeHeartbeatOptions, WithNotificationSilenceTimeout. rewrite (proj2 (Z.leb_gt d 0)) by lia. cbn [heartbeatSilence].
      rewrite (proj2 (Z.leb_gt d 0)) by lia. cbn. case_match; zbool; lia. }
    assert (Ea : heartbeatAllowedMisses o = heartbeatMissed o)
      by (unfold heartbeatAllowedMisses; by rewrite (proj2 (Z.leb_le _ _))).
    rewrite Ea, E1. split; [|done]. unfold o, normalizeHeartbeatOptions, WithNotificationSilenceTimeout.
    rewrite (proj2 (Z.leb_gt d 0)) by lia. cbn [heartbeatSilence]. by rewrite (proj2 (Z.leb_gt d 0)) by lia.
  - unfold normalizeHeartbeatOptions. cbn. by case_match.
Qed.

Definition sample_endpoint : AMSEndpoint :=
  {| ep_IP := "10.0.0.5"; ep_Port := 0; ep_AMS := {| NetID := no_netid; Port := 0 |}; ep_RouterPort := 0 |}.

Lemma heartbeat_option_last_witness :
  let hb := s_heartbeat (configured sample_endpoint 7 [OHeartbeat (3 * Second) 4; OSilence (10 * Second); OAuto false]) in
  heartbeatDisabled hb = false /\ 10 * Second <= heartbeatAllowedMisses hb * heartbeatCycle hb.
Proof.
  destruct (heartbeat_option_last sample_endpoint 7 [OHeartbeat (3 * Second) 4] (OSilence (10 * Second)) [OAuto false]) as (H1 & H2 & _);
    [lia|by repeat constructor|by vm_compute|]. by split.
Defined.

Definition sample_identity : RemoteIdentity :=
  {| AMS := {| NetID := map byte_of_Z [5; 1; 2; 3; 1; 1]; Port := 10000 |}; HostName := []; Major := 2; Minor := 11; Build := 2; Tags := ∅ |}.
Definition sample_identify (w : nat) : nat * res RemoteIdentity := (S w, Ok sample_identity).

Lemma NewSession_valid_witness : exists s,
  NewSession (fun _ _ _ => sample_identify) sample_endpoint 7 (map apply_opt [OHeartbeat 0 0; OMaxReload 0; ORequestTimeout (-1)]) 0%nat = (1%nat, Ok s)
  /\ 0 < s_requestTimeout s.
Proof.
  eexists. split; [vm_compute; reflexivity|].
  refine (proj1 (proj2 (NewSession_valid (fun _ _ _ => sample_identify) sample_endpoint 7
    [OHeartbeat 0 0; OMaxReload 0; ORequestTimeout (-1)] 0%nat 1%nat _ _ _))); [lia|vm_compute; reflexivity].
Defined.

Lemma NewSession_address_witness : exists s,
  NewSession (fun _ _ _ => sample_identify) sample_endpoint 7 (map apply_opt [OAuto false]) 0%nat = (1%nat, Ok s)
  /\ s_target s = {| NetID := map byte_of_Z [5; 1; 2; 3; 1; 1]; Port := 801 |}.
Proof.
  pose proof (NewSession_address (fun _ _ _ => sample_identify) sample_endpoint 7 [OAuto false] 0%nat ltac:(done)) as H.
  cbv zeta in H. destruct (NewSession _ _ _ _ _) as [w r] eqn:E in H. cbn in H. destruct H as (-> & s & -> & _ & Hn & Hp).
  exists s. split; [done|]. destruct (s_target s). cbn in *. by subst.
Defined.
