(* ===== verification/OptionsLife.v ===== *)
(** Options.v and the lifecycle together: a session NewSession built is one Connect may
    start from, the target check it was given is the one Connect applies, and the route
    it registers leads back to the NetID it presents. *)
From S2P Require Import Prelude Wire Strconv Defs Ams Fsm Route RouteFacts Identify NetIP Udp Policies LifeState Lifecycle Connect LifeFacts ConnectFacts LifeWitness Options OptionsFacts.

(** ** Composition with the lifecycle *)

(** The lifecycle of a new session is one that Connect may start from. *)
Lemma NewSession_may_connect {W} (s : Session) (w : W) : may_connect (life_of s w).
Proof. split; [split; [by split|done]|by left]. Qed.

Section Target.
Context {W : Type} `{Env W} `{cfg : config}.
Implicit Types l : life W.

(** The address of the session and the sockets it opened so far. *)
Definition dials (l : life W) : AMSAddress * Z := (lf_target l, lf_nextSock l).

Lemma dials_trigger l : dials (triggerReconnect l) = dials l.
Proof. unfold triggerReconnect, transitionState. repeat case_match; done. Qed.
Lemma dials_onDrop l : dials (callOnDrop l) = dials l.
Proof. unfold callOnDrop. repeat case_match; rewrite ?dials_trigger; done. Qed.
Lemma dials_release hs l : dials (release_symbols hs l) = dials l.
Proof. revert l. induction hs as [|h hs IH]; intros l; cbn; [done|]. repeat case_match; rewrite ?IH; done. Qed.
Lemma dials_releasePLC b l : dials (releasePLCResources b l) = dials l.
Proof.
  unfold releasePLCResources, take_handles, bestEffortDelete. destruct (lf_handles l), b; rewrite ?dials_release; try done.
  all: destruct (ev_delete _ _); cbn [fst]; rewrite ?dials_release; done.
Qed.
Lemma dials_close_conn l : dials (close_conn l) = dials l.
Proof. unfold close_conn. by case_match. Qed.
Lemma dials_Close l : dials (Close l) = dials l.
Proof.
  unfold Close, shutdownTransport. cbn zeta. case_match; [done|].
  set (b := isDisconnected _). set (l1 := stopPeerListener _). change (dials l) with (dials l1).
  etransitivity; [exact (dials_close_conn (set_cancelled true (releasePLCResources b l1)))|].
  exact (dials_releasePLC b l1).
Qed.
Lemma dials_happen l : dials (happen l) = dials l.
Proof.
  unfold happen. destruct (ev_happen _) as [w evs]. change (dials l) with (dials (set_world w l)).
  generalize (set_world w l). clear l w. induction evs as [|e evs IH]; intros l; cbn; [done|]. rewrite IH.
  destruct e; cbn; [apply dials_onDrop|done|apply dials_Close|by case_match].
Qed.
End Target.

(** With [WithTargetCheck(TargetCheckError)] a device that reports another NetID is not
    connected to: NewSession succeeds, Connect fails, and no socket was opened. *)
Theorem strict_target_refuses {W} `{Env W} (s : Session) (w w1 : W) reported :
  s_targetCheck s = TargetCheckError_int -> s_isLocal s = false -> s_peerListenPort s = 0 ->
  ev_identify w = (w1, Ok reported) -> reported <> NetID (s_target s) ->
  let '(l, r) := Connect (cfg := config_of s) (life_of s w) in
  is_err r = true /\ lf_nextSock l = 0 /\ lf_connecting l = false /\ lf_listener l = false.
Proof.
  intros Hc Hl Hp Hi Hr. set (cfg := config_of s).
  unfold Connect. change (transitionToOnce (lf_fsm (life_of s w)) SessionStateConnecting) with
    (transitionToOnce initial_fsm SessionStateConnecting).
  destruct (transitionToOnce initial_fsm SessionStateConnecting) as [[f v] ok] eqn:Ef. vm_compute in Ef.
  injection Ef as <- <- <-. cbn [negb]. set (f := {| fsm_value := _; fsm_epoch := _ |}).
  set (l0 := set_connecting true (set_fsm f (life_of s w))).
  assert (E : exists l, connect_body l0 = (l, Err (EMsg "target NetID does not match the NetID reported")) /\ lf_nextSock l = 0).
  { unfold connect_body, listen_if_configured. cbn [cf_peerListenPort cfg config_of]. rewrite Hp. cbn [Z.eqb].
    unfold mbind, lc_bind, act, localTarget. cbn [mret lc_ret cf_local cfg config_of]. rewrite Hl. cbn [andb negb].
    cbn [cf_targetCheck cfg config_of]. rewrite Hc. change (TargetCheck_of TargetCheckError_int) with TargetCheckError.
    cbn [bool_decide]. change (bool_decide (TargetCheckError = TargetCheckOff)) with false. cbn [negb].
    unfold verifyTarget, tried, blocking_res, blocking, mbind, lc_bind. change (lf_world l0) with w. rewrite Hi.
    unfold lift_res, applyTargetCheck, look, mbind, lc_bind. cbn [id].
    pose proof (dials_happen (cfg := cfg) (set_world w1 l0)) as Hd. set (l := happen _) in *.
    change (dials (set_world w1 l0)) with (s_target s, 0) in Hd. unfold dials in Hd. injection Hd as Ht Hn.
    rewrite decide_False by (by rewrite Ht). cbn [cf_targetCheck cfg config_of]. rewrite Hc.
    rewrite decide_True by done. unfold fails. eauto. }
  destruct E as (l & E & Hn). unfold deferred. rewrite E. cbn. split; [done|]. split; [|by repeat case_match].
  by repeat case_match.
Qed.

(** ** The registered route *)

Lemma To4_length ip b : To4 ip = Some b -> length b = 4%nat.
Proof.
  destruct ip as [x|]; [|done]. cbn. repeat case_decide; try done; intros [= <-]; [done|].
  rewrite length_drop. lia.
Qed.

(** What an outcome of [addRemoteRouteFrom] that came with traffic put on the wire. *)
Lemma addRemoteRouteFrom_packet net lip host port netID rn cn un pw p n r :
  addRemoteRouteFrom net lip host port netID rn cn un pw = Ok (p, n, r) ->
  exists id, uc_rand net = Ok id /\ p = buildRoutePacket netID rn cn un pw id.
Proof.
  unfold addRemoteRouteFrom, no_error, wrap_err. destruct (uc_lookup net host) as [ips|e|]; try done. cbn.
  destruct (first_v4 ips) as [addr|]; [|done]. destruct (uc_dial _ _ _ _); [done|]. cbn.
  destruct (uc_rand net) as [id|e|]; try done. cbn. destruct (uc_expired net); [done|].
  destruct (uc_write net); [done|]. cbn. destruct (register_loop _ _ _) as [k v]. intros [= <- _ _]. eauto.
Qed.

(** A route table that holds two entries for one address takes the router out of service
    for everyone.  A session that derives its NetID registers one that leads home: the
    packet names the NetID the session presents and, to dial back, the address that NetID
    starts with - the caller's [WithHostIP] when it was given an IPv4 address, else
    the local address of the connection. *)
Theorem route_leads_home {W} (s : Session) (l : life W) ip net rn un pw p n r :
  length ip = 4%nat -> NetID (lf_source l) = no_netid -> s_callbackIP s = ""%string \/ is_Some (callback_v4 s) ->
  let source := lf_source (deriveSource (cfg := config_of s) (Some ip) l) in
  let host := bytes_of_string (route_host s source) in
  addRemoteRouteFrom net (s_localBindIP s) (s_ip s) (effectiveRouterPort s) (NetID source) rn host un pw = Ok (p, n, r) ->
  (forall id, uc_rand net = Ok id -> in_u 32 id) -> len rn < 65535 -> len host < 65535 -> len un < 65535 -> len pw < 65535 ->
  slice p 12 18 = Ok (NetID source) /\ read_tags 5 (drop 24 p) = Ok (route_tags (NetID source) rn host un pw, []) /\
  To4 (ParseIP (route_host s source)) = Some (take 4 (NetID source)) /\
  take 4 (NetID source) = default ip (callback_v4 s).
Proof.
  intros Hip Hs Hcb source host Hrun Hid H1 H2 H3 H4.
  set (home := default ip (callback_v4 s)).
  assert (Hhome : length home = 4%nat).
  { unfold home. destruct (callback_v4 s) as [cb|] eqn:E; [|done]. unfold callback_v4 in E.
    destruct (String.eqb _ _); [done|]. by eapply To4_length. }
  assert (Hsrc : NetID source = home ++ map byte_of_Z [1; 1]).
  { unfold source, deriveSource, home. rewrite decide_True by done. by cbn; destruct (callback_v4 s). }
  assert (Ht : take 4 (NetID source) = home) by (rewrite Hsrc, <- Hhome; by rewrite take_app_length).
  destruct (addRemoteRouteFrom_packet _ _ _ _ _ _ _ _ _ _ _ _ Hrun) as (id & Hr & ->).
  destruct (buildRoutePacket_reads (NetID source) rn host un pw id) as (_ & _ & _ & Hn & _ & Htags); auto.
  { rewrite Hsrc, length_app, Hhome. done. }
  split; [done|]. split; [done|]. split; [|done]. rewrite Ht. unfold route_host.
  destruct (String.eqb_spec (s_callbackIP s) "") as [Ec|Ec]; [rewrite Ht; by apply ParseIP_dotted|].
  destruct Hcb as [|[cb Hcb]]; [done|]. unfold home. rewrite Hcb. unfold callback_v4 in Hcb.
  by destruct (String.eqb_spec (s_callbackIP s) "").
Qed.

(** ** Witnesses *)

Definition strict_session : Session := configured
  {| ep_IP := "10.0.0.5"; ep_Port := 0; ep_AMS := {| NetID := map byte_of_Z [10; 0; 0; 5; 1; 1]; Port := 851 |}; ep_RouterPort := 0 |}
  7 [OTargetCheck 2; OHostIP "192.168.1.20"].

Lemma strict_target_refuses_witness :
  let '(l, r) := Connect (cfg := config_of strict_session) (life_of strict_session healthy) in
  is_err r = true /\ lf_nextSock l = 0 /\ lf_connecting l = false /\ lf_listener l = false.
Proof.
  exact (strict_target_refuses strict_session healthy healthy (map byte_of_Z [5; 1; 2; 3; 1; 1])
    eq_refl eq_refl eq_refl eq_refl ltac:(by vm_compute)).
Defined.

Definition route_net : udp_call read_event :=
  {| uc_ctx := None; uc_lookup := fun _ => Ok [map byte_of_Z [10; 0; 0; 5]]; uc_dial := fun _ _ _ => None;
     uc_rand := Ok 9; uc_expired := false; uc_write := None; uc_script := [] |}.

Lemma route_leads_home_witness : exists p n r,
  let source := lf_source (deriveSource (cfg := config_of strict_session) (Some (map byte_of_Z [10; 0; 0; 7])) (life_of strict_session healthy)) in
  addRemoteRouteFrom route_net None "10.0.0.5" 48899 (NetID source) [] (bytes_of_string (route_host strict_session source)) [] [] = Ok (p, n, r)
  /\ take 4 (NetID source) = map byte_of_Z [192; 168; 1; 20].
Proof.
  eexists _, _, _. cbv zeta. split; [vm_compute; reflexivity|].
  refine (proj2 (proj2 (proj2 (route_leads_home strict_session (life_of strict_session healthy) (map byte_of_Z [10; 0; 0; 7]) route_net [] [] []
    _ _ _ eq_refl eq_refl _ _ _ _ _ _ _)))).
  - right. vm_compute. eauto.
  - vm_compute. reflexivity.
  - intros id [= <-]. by vm_compute.
  - by vm_compute.
  - by vm_compute.
  - by vm_compute.
  - by vm_compute.
Defined.
