(* ===== verification/RuntimeWatch.v ===== *)
(** session.go: the runtime-state watch ([startRuntimeStateWatch], [RuntimeState]) and the
    gate that refuses calls while the runtime is known not to serve.

    The watch is a goroutine around a ticker; [poll] is one round of its loop.  The reading
    it keeps is two atomics that [RuntimeState] and the probe at connect write too, so a
    session's life is a sequence of [rt_event]s in any order. *)
From S2P Require Import Prelude Wire Defs Fsm Policies.

(** The last reading, [rt_at] in nanoseconds of the wall clock, 0 when there was none; the
    counter local to the watch's goroutine; whether [stateOnce] ran and whether the
    goroutine is up. *)
Record rt : Type := { rt_state : Z; rt_at : Z; rt_failures : Z; rt_once : bool; rt_up : bool }.

Definition initial_rt : rt := {| rt_state := ADSStateInvalid; rt_at := 0; rt_failures := 0; rt_once := false; rt_up := false |}.

Definition giveUpAfter : Z := 5.

(** [recordRuntimeState]. *)
Definition recordRuntimeState (now state : Z) (r : rt) : rt :=
  {| rt_state := state; rt_at := now; rt_failures := rt_failures r; rt_once := rt_once r; rt_up := rt_up r |}.

Definition set_failures (n : Z) (r : rt) : rt :=
  {| rt_state := rt_state r; rt_at := rt_at r; rt_failures := n; rt_once := rt_once r; rt_up := rt_up r |}.

Definition stop (r : rt) : rt :=
  {| rt_state := rt_state r; rt_at := rt_at r; rt_failures := rt_failures r; rt_once := rt_once r; rt_up := false |}.

(** The hand-off to the gates when the watch retires. *)
Definition forget_reading (r : rt) : rt :=
  {| rt_state := ADSStateInvalid; rt_at := rt_at r; rt_failures := rt_failures r; rt_once := rt_once r; rt_up := rt_up r |}.

(** What a tick finds: the session closed, its state, a client whose context lives; then
    what the system service answers, and the time then. *)
Record poll_view : Type := {
  pv_closed : bool; pv_state : SessionState; pv_client : bool; pv_ctx_done : bool; pv_answer : Z + goerr; pv_now : Z }.

Definition polled (v : poll_view) : bool :=
  bool_decide (pv_state v = SessionStateConnected) && pv_client v && negb (pv_ctx_done v).

(** The deadline of the request. *)
Definition pollTimeout (requestTimeout interval : Z) : Z := if requestTimeout <? interval then interval else requestTimeout.

Definition poll (v : poll_view) (r : rt) : rt :=
  if pv_closed v then stop r
  else if negb (polled v) then r
  else
    match pv_answer v with
    | inr err =>
        if negb (isDeviceAnswer (Some err)) then r
        else
          let r := set_failures (rt_failures r + 1) r in
          if giveUpAfter <=? rt_failures r then stop (forget_reading r) else r
    | inl state => recordRuntimeState (pv_now v) state (set_failures 0 r)
    end.

(** [startRuntimeStateWatch]: the option is looked at outside the Once, which a closed
    session still consumes. *)
Definition startRuntimeStateWatch (disabled closed : bool) (r : rt) : rt :=
  if disabled || rt_once r then r
  else {| rt_state := rt_state r; rt_at := rt_at r; rt_failures := 0; rt_once := true; rt_up := negb closed |}.

(** [RuntimeState] and [runtimeStateQuietly]: a client that is gone or a request that fails
    records nothing. *)
Definition RuntimeState (refused : option goerr) (client : bool) (answer : Z + goerr) (now : Z) (r : rt) : rt * res Z :=
  match refused with
  | Some e => (r, Err e)
  | None =>
      if negb client then (r, Err (ESentinel ErrTransportClosed))
      else match answer with
           | inr e => (r, Err e)
           | inl state => (recordRuntimeState now state r, Ok state)
           end
  end.

(** ** A session's life *)

Inductive rt_event : Type :=
| RStart (disabled closed : bool)
| RTick (v : poll_view)
| RRead (refused : option goerr) (client : bool) (answer : Z + goerr) (now : Z).

Definition rt_step (r : rt) (e : rt_event) : rt :=
  match e with
  | RStart disabled closed => startRuntimeStateWatch disabled closed r
  | RTick v => if rt_up r then poll v r else r
  | RRead refused client answer now => (RuntimeState refused client answer now r).1
  end.

Definition rt_run (r : rt) (es : list rt_event) : rt := foldl rt_step r es.

(** The gate at time [now]. *)
Definition gate (now : Z) (r : rt) : option goerr := requireRunningRuntime (rt_state r) (rt_at r) now.
