(* ===== verification/RuntimeFacts.v ===== *)
(** RuntimeWatch.v: the gate refuses only on a recent reading that the runtime does not
    serve, holds while such readings keep coming in and opens when they stop; the watch
    retires after five refusals by the device, counted as the code says. *)
From S2P Require Import Prelude Wire Defs Fsm Policies RuntimeWatch.

(** ** The gate *)

Definition not_serving (state : Z) : Prop := state = ADSStateConfig \/ state = ADSStateReconfig.

Lemma not_serving_spec state : runtimeDefinitelyNotServing state = true <-> not_serving state.
Proof. unfold runtimeDefinitelyNotServing, not_serving. rewrite orb_true_iff, !Z.eqb_eq. done. Qed.

Lemma gate_spec now r : gate now r <> None <->
  not_serving (rt_state r) /\ (rt_at r = 0 \/ now - rt_at r <= runtimeStateTTL).
Proof.
  unfold gate, requireRunningRuntime, knownRuntimeState.
  rewrite <- not_serving_spec. destruct (Z.eqb_spec (rt_state r) ADSStateInvalid) as [->|Hs]; [split; [done|by intros []]|].
  destruct (Z.eqb_spec (rt_at r) 0), (Z.ltb_spec runtimeStateTTL (now - rt_at r)); cbn;
    destruct (runtimeDefinitelyNotServing (rt_state r)); split; try done; try tauto; intros []; try done; lia.
Qed.

(** The readings a life records, with their times, and that the watch gave up. *)
Inductive trace_item : Type := Reading (now state : Z) | Retired.

Definition item_of (r : rt) (e : rt_event) : list trace_item :=
  match e with
  | RTick v =>
      if rt_up r && negb (pv_closed v) && polled v then
        match pv_answer v with
        | inl state => [Reading (pv_now v) state]
        | inr err => if isDeviceAnswer (Some err) && (giveUpAfter <=? rt_failures r + 1) then [Retired] else []
        end
      else []
  | RRead None true (inl state) now => [Reading now state]
  | _ => []
  end.

Fixpoint trace (r : rt) (es : list rt_event) : list trace_item :=
  match es with
  | [] => []
  | e :: es => item_of r e ++ trace (rt_step r e) es
  end.

(** What the gate reads after an item. *)
Definition after (x : Z * Z) (i : trace_item) : Z * Z :=
  match i with Reading now state => (state, now) | Retired => (ADSStateInvalid, x.2) end.

Lemma step_item r e : (rt_state (rt_step r e), rt_at (rt_step r e)) = foldl after (rt_state r, rt_at r) (item_of r e).
Proof.
  destruct e as [d c|v|ref cl ans now]; cbn [rt_step item_of].
  - unfold startRuntimeStateWatch. by destruct (_ || _).
  - destruct (rt_up r); [|done]. unfold poll. destruct (pv_closed v); [done|]. cbn [negb andb].
    destruct (polled v); [|done]. cbn [negb]. destruct (pv_answer v) as [s|err]; [done|].
    destruct (isDeviceAnswer (Some err)); [|done]. cbn [negb andb rt_failures set_failures].
    by destruct (giveUpAfter <=? rt_failures r + 1).
  - unfold RuntimeState. by destruct ref, cl, ans.
Qed.

Lemma run_trace es : forall r, (rt_state (rt_run r es), rt_at (rt_run r es)) = foldl after (rt_state r, rt_at r) (trace r es).
Proof.
  induction es as [|e es IH]; intros r; [done|]. cbn. rewrite foldl_app, <- step_item. apply (IH (rt_step r e)).
Qed.

(** C32. A call is refused on an answer of the device, never on the lack of one: at any moment
    of a session's life, whatever its goroutines did and in whatever order, the gate
    refuses exactly when the last thing on record is a reading of CONFIG or RECONFIG not
    older than the time it is trusted. *)
Theorem gate_refuses_on_evidence es now :
  (forall t s, Reading t s ∈ trace initial_rt es -> t <> 0) ->
  gate now (rt_run initial_rt es) <> None <->
  exists pre t state, trace initial_rt es = pre ++ [Reading t state] /\ not_serving state /\ now - t <= runtimeStateTTL.
Proof.
  intros Hpos. rewrite gate_spec. pose proof (run_trace es initial_rt) as E. revert E Hpos.
  generalize (rt_run initial_rt es) as r. generalize (trace initial_rt es) as l. intros l r E Hpos.
  destruct l as [|i pre _] using rev_ind.
  - cbn in E. injection E as -> ->. split; [by intros [[] _]|]. by intros ([] & ? & ? & ? & _).
  - rewrite foldl_app in E. cbn in E. destruct i as [t s|]; injection E as -> ->.
    + specialize (Hpos t s ltac:(set_solver)). split.
      * intros [Hn [?|Ht]]; [done|]. by exists pre, t, s.
      * intros (pre' & t' & s' & [_ [= -> ->]]%app_inj_tail & Hn & Ht). auto.
    + split; [by intros [[] _]|]. by intros (pre' & ? & ? & [_ ?]%app_inj_tail & _).
Qed.

Definition config_poll (t : Z) : rt_event :=
  RTick {| pv_closed := false; pv_state := SessionStateConnected; pv_client := true; pv_ctx_done := false;
           pv_answer := inl ADSStateConfig; pv_now := t |}.

Lemma gate_refuses_on_evidence_witness :
  gate (12 * Second) (rt_run initial_rt [RStart false false; config_poll (5 * Second); RRead None true (inl ADSStateRun) (6 * Second); config_poll (10 * Second)]) <> None.
Proof.
  apply (gate_refuses_on_evidence [RStart false false; config_poll (5 * Second); RRead None true (inl ADSStateRun) (6 * Second); config_poll (10 * Second)] (12 * Second)).
  - intros t s Ht. change (Reading t s ∈ [Reading (5 * Second) ADSStateConfig; Reading (6 * Second) ADSStateRun; Reading (10 * Second) ADSStateConfig]) in Ht.
    rewrite !elem_of_cons, elem_of_nil in Ht. destruct Ht as [[= -> _]|[[= -> _]|[[= -> _]|[]]]]; by vm_compute.
  - exists [Reading (5 * Second) ADSStateConfig; Reading (6 * Second) ADSStateRun], (10 * Second), ADSStateConfig.
    split; [reflexivity|]. split; [by left|by vm_compute].
Defined.

(** Polled less often than a reading is trusted, a device that stays in CONFIG is refused
    only for the first part of every period. *)
Theorem long_interval_lapses r t d : rt_up r = true -> 0 < t -> runtimeStateTTL < d ->
  gate (t + d) (rt_step r (config_poll t)) = None /\ gate (t + runtimeStateTTL) (rt_step r (config_poll t)) <> None.
Proof.
  intros Hu Ht Hd. assert (E : rt_state (rt_step r (config_poll t)) = ADSStateConfig /\ rt_at (rt_step r (config_poll t)) = t)
    by (cbn; by rewrite Hu).
  destruct E as [E1 E2]. rewrite gate_spec, E1, E2. split; [|split; [by left|lia]].
  destruct (gate _ _) eqn:Eg; [|done]. exfalso. assert (Hg : gate (t + d) (rt_step r (config_poll t)) <> None) by (by rewrite Eg).
  apply gate_spec in Hg as [_ Hg]. rewrite E2 in Hg. lia.
Qed.

(** ** Retirement *)

(** A tick that counts: an answer of the system service, a reading or a refusal. *)
Definition verdict (e : rt_event) : option bool :=
  match e with
  | RTick v =>
      if polled v then
        match pv_answer v with
        | inl _ => Some true
        | inr err => if isDeviceAnswer (Some err) then Some false else None
        end
      else None
  | _ => None
  end.
Definition open_tick (e : rt_event) : bool := match e with RTick v => negb (pv_closed v) | _ => true end.

(** [k] refusals in a row, then the verdicts [vs]: whether there come five in a row. *)
Fixpoint gives_up (k : nat) (vs : list bool) : bool :=
  match vs with
  | [] => false
  | false :: vs => bool_decide (k = 4%nat) || gives_up (S k) vs
  | true :: vs => gives_up 0 vs
  end.

Lemma replicate_snoc {A} k (x : A) l : replicate k x ++ x :: l = replicate (S k) x ++ l.
Proof. change (x :: l) with ([x] ++ l). rewrite app_assoc, <- replicate_S_end. done. Qed.

Lemma gives_up_spec vs : forall k, (k < 5)%nat ->
  gives_up k vs = true <-> exists a b, replicate k false ++ vs = a ++ replicate 5 false ++ b.
Proof.
  induction vs as [|[] vs IH]; intros k Hk.
  - cbn. split; [done|]. intros (a & b & E). apply (f_equal length) in E.
    rewrite !length_app, !length_replicate in E. cbn in E. lia.
  - cbn [gives_up]. rewrite IH by lia. change (replicate 0 false ++ vs) with vs. split.
    + intros (a & b & ->). exists (replicate k false ++ true :: a), b. by rewrite <- app_assoc.
    + intros (a & b & E). assert (Hl : (k < length a)%nat).
      { destruct (decide (k < length a)%nat) as [|Hn]; [done|]. exfalso.
        assert (Hx : (replicate k false ++ true :: vs) !! k = Some true)
          by (rewrite lookup_app_r; rewrite length_replicate; [by rewrite Nat.sub_diag|done]).
        rewrite E in Hx. rewrite lookup_app_r, lookup_app_l in Hx by (rewrite ?length_replicate; lia).
        apply lookup_replicate in Hx as [? _]. done. }
      apply (f_equal (drop (S k))) in E. rewrite (drop_app_le a) in E by lia.
      exists (drop (S k) a), b. rewrite <- E. rewrite drop_app_ge by (rewrite length_replicate; lia).
      rewrite length_replicate. by replace (S k - k)%nat with 1%nat by lia.
  - cbn [gives_up]. rewrite replicate_snoc. destruct (decide (k = 4%nat)) as [->|Hn].
    + rewrite bool_decide_eq_true_2 by done. split; [|done]. intros _. by exists [], vs.
    + rewrite bool_decide_eq_false_2 by done. cbn [orb]. apply IH. lia.
Qed.

Lemma watch_step r e k : rt_up r = true -> rt_once r = true -> rt_failures r = Z.of_nat k -> (k < 5)%nat -> open_tick e = true ->
  let r' := rt_step r e in
  match verdict e with
  | Some false => if decide (k = 4%nat) then rt_up r' = false
                  else rt_up r' = true /\ rt_once r' = true /\ rt_failures r' = Z.of_nat (S k)
  | Some true => rt_up r' = true /\ rt_once r' = true /\ rt_failures r' = 0
  | None => rt_up r' = true /\ rt_once r' = true /\ rt_failures r' = Z.of_nat k
  end.
Proof.
  intros Hu Ho Hf Hk Hop. destruct e as [d c|v|ref cl ans now]; cbn [rt_step verdict open_tick] in *.
  - unfold startRuntimeStateWatch. rewrite Ho, orb_true_r. done.
  - rewrite Hu. unfold poll. destruct (pv_closed v); [done|]. destruct (polled v); [|done]. cbn [negb].
    destruct (pv_answer v) as [s|err]; [done|]. destruct (isDeviceAnswer (Some err)); [|done]. cbn [negb rt_failures set_failures].
    rewrite Hf. unfold giveUpAfter. destruct (decide (k = 4%nat)) as [->|Hn]; [done|].
    rewrite (proj2 (Z.leb_gt _ _)) by lia. cbn. split; [done|]. split; [done|lia].
  - unfold RuntimeState. by destruct ref, cl, ans.
Qed.

Lemma stays_down es : forall r, rt_up r = false -> rt_once r = true -> rt_up (rt_run r es) = false.
Proof.
  induction es as [|e es IH]; intros r Hu Ho; [done|]. cbn. destruct e as [d c|v|ref cl ans now]; cbn.
  - unfold startRuntimeStateWatch. rewrite Ho, orb_true_r. by apply IH.
  - rewrite Hu. by apply IH.
  - apply IH; unfold RuntimeState; by destruct ref, cl, ans.
Qed.

(** The watch of an open session retires exactly when the system service refused the read
    five times with no reading in between.  Polls that went unanswered, were skipped
    because the session was not connected, and readings taken elsewhere do not count, for
    or against; once retired it is never started again. *)
Theorem watch_retires_on_five_refusals es : forallb open_tick es = true ->
  let r := rt_run (startRuntimeStateWatch false false initial_rt) es in
  rt_up r = false <-> exists a b, omap verdict es = a ++ replicate 5 false ++ b.
Proof.
  intros Hop. cbv zeta.
  assert (G : forall es k r, forallb open_tick es = true -> rt_up r = true -> rt_once r = true -> rt_failures r = Z.of_nat k ->
    (k < 5)%nat -> rt_up (rt_run r es) = negb (gives_up k (omap verdict es))).
  { clear. induction es as [|e es IH]; intros k r Hop Hu Ho Hf Hk; cbn; [done|].
    cbn in Hop. apply andb_prop in Hop as [H1 H2]. pose proof (watch_step r e k Hu Ho Hf Hk H1) as Hs. cbv zeta in Hs.
    destruct (verdict e) as [[]|]; cbn.
    - destruct Hs as (? & ? & ?). apply (IH 0%nat); (done || lia).
    - destruct (decide (k = 4%nat)) as [->|Hn]; cbn.
      + apply stays_down; [done|]. destruct e as [d c|v|ref cl ans now]; cbn in *.
        * unfold startRuntimeStateWatch. by rewrite Ho, orb_true_r.
        * rewrite Hu. unfold poll. by repeat case_match.
        * unfold RuntimeState. by destruct ref, cl, ans.
      + rewrite bool_decide_eq_false_2 by done. destruct Hs as (? & ? & ?). apply IH; (done || lia).
    - destruct Hs as (? & ? & ?). apply IH; (done || lia). }
  rewrite (G es 0%nat) by (done || lia). rewrite negb_false_iff, gives_up_spec by lia. done.
Qed.

Definition refusal : rt_event :=
  RTick {| pv_closed := false; pv_state := SessionStateConnected; pv_client := true; pv_ctx_done := false;
           pv_answer := inr (EAMS 6); pv_now := 1 |}.
Definition unanswered : rt_event :=
  RTick {| pv_closed := false; pv_state := SessionStateConnected; pv_client := true; pv_ctx_done := false;
           pv_answer := inr (ESentinel ErrDeadlineExceeded); pv_now := 1 |}.

Lemma watch_retires_on_five_refusals_witness :
  rt_up (rt_run (startRuntimeStateWatch false false initial_rt)
    [config_poll 1; refusal; refusal; unanswered; RRead None true (inl ADSStateRun) 2; refusal; refusal; refusal]) = false.
Proof.
  apply (watch_retires_on_five_refusals
    [config_poll 1; refusal; refusal; unanswered; RRead None true (inl ADSStateRun) 2; refusal; refusal; refusal]).
  - reflexivity.
  - exists [true], []. reflexivity.
Defined.

Lemma long_interval_lapses_witness :
  gate (61 * Second) (rt_step (startRuntimeStateWatch false false initial_rt) (config_poll (1 * Second))) = None.
Proof. apply (long_interval_lapses (startRuntimeStateWatch false false initial_rt) (1 * Second) (60 * Second)); by vm_compute. Defined.
