(* ===== verification/StaleReload.v ===== *)
(** session.go: what a stale-cache detection starts ([handleStaleDetection],
    [autoReloadOnStaleDetection], [reloadSymbolsAndResubscribe], [closeOnStaleDetection]).

    A detection runs on the goroutine of a read, a write or a sample and starts
    goroutines of its own.  The reload is cut where it waits for the network or a lock, so
    a session's life is a list of [action]s: detections, the next piece of a reload or of
    a close, and whatever the rest of the process does to the same state. *)
From S2P Require Import Prelude Wire Strconv Defs Ams Client SumCmd SymbolTable GoTime Utf Codec Subs Batch Window Policies Access Discovery.
From coqutil Require Import Datatypes.RecordSetters.
Export TriangleBracketNotations.

(** Where a goroutine of the reload is: before the budget, before the handles are taken,
    before their release, before the symbols are loaded, before the re-subscription. *)
Inductive phase : Type :=
| PStart (reason : Reason) | PTake | PRelease (handles : list Z) | PLoad | PResubscribe.

(** [rl_jobs] are the reloads under way, [rl_closers] the closes; [rl_granted] records
    when an attempt was granted, [rl_released] the handles the PLC was asked to delete;
    callbacks are recorded with their argument, [rl_onDisconnect] and [rl_onReconnect]
    count the calls of the two others. *)
Record reloader (W : Type) : Type := {
  rl_session : session W; rl_subs : subs; rl_window : window; rl_heartbeat : heartbeat; rl_stale : gmap Z Reason;
  rl_budget : reloads; rl_inProgress : bool; rl_closed : bool; rl_jobs : list phase; rl_closers : list Reason;
  rl_granted : list Z; rl_released : list Z; rl_callbacks : list Reason; rl_onDisconnect : Z; rl_onReconnect : Z }.
Arguments Build_reloader {W}. Arguments rl_session {W}. Arguments rl_subs {W}. Arguments rl_window {W}.
Arguments rl_heartbeat {W}. Arguments rl_stale {W}. Arguments rl_budget {W}. Arguments rl_inProgress {W}.
Arguments rl_closed {W}. Arguments rl_jobs {W}. Arguments rl_closers {W}. Arguments rl_granted {W}.
Arguments rl_released {W}. Arguments rl_callbacks {W}. Arguments rl_onDisconnect {W}. Arguments rl_onReconnect {W}.

(** The options a detection looks at. *)
Record stale_config : Type := {
  sc_strategy : SymbolVersionStrategy; sc_callback : bool; sc_disconnectFn : bool; sc_reconnectFn : bool }.

Section Reload.
Context {W : Type} `{Transport W} `{FloatText} `{JsonText}.
Context (o : stale_config) (zero_time : Z).

Definition call_back (reason : Reason) (s : reloader W) : reloader W :=
  s<| rl_callbacks := rl_callbacks s ++ [reason] |>.

(** ** Detection *)

(** What Policies.v decides, carried out. *)
Definition perform (s : reloader W) (a : stale_action) : reloader W :=
  match a with
  | MarkStale reason => s<| rl_stale := markAllHandlesStale reason (rl_subs s) (rl_stale s) |>
  | Callback reason => call_back reason s
  | CloseSession reason => s<| rl_closers := rl_closers s ++ [reason] |>
  | Reload reason => s<| rl_jobs := rl_jobs s ++ [PStart reason] |>
  end.

Definition detect (rc : Z) (s : reloader W) : reloader W :=
  let '(busy, _, actions) := handleStaleDetection (sc_strategy o) (rl_inProgress s) (sc_callback o) rc in
  foldl perform (s<| rl_inProgress := busy |>) actions.

(** [closeOnStaleDetection]; [Close] is Lifecycle.v's. *)
Definition run_closer (s : reloader W) : reloader W :=
  match rl_closers s with
  | [] => s
  | _ :: closers =>
      let n := if sc_disconnectFn o && negb (rl_closed s) then rl_onDisconnect s + 1 else rl_onDisconnect s in
      s<| rl_closers := closers |><| rl_onDisconnect := n |><| rl_closed := true |>
  end.

(** ** The reload, piece by piece

    A piece gives the state after it and where the goroutine goes on; [None] runs the
    deferred reset of [reloadInProgress]. *)
Definition start_reload (now : Z) (s : reloader W) : reloader W * option phase :=
  let '(b, ok) := tryRecordReloadAttempt now (rl_budget s) in
  let s := s<| rl_budget := b |> in
  if negb ok then (if sc_callback o then call_back ReasonReloadCapExhausted s else s, None)
  else
    let s := s<| rl_granted := rl_granted s ++ [now] |> in
    if rl_closed s then (s, None)
    else
      let s := s<| rl_stale := markAllHandlesStale ReasonReloadInProgress (rl_subs s) (rl_stale s) |> in
      let ses := bump_epoch (rl_session s) in
      (s<| rl_session := set_symbols (zeroOldSymbolHandles zero_time (ss_symbols ses)) ses |>, Some PTake).

Definition take_all (now : Z) (s : reloader W) : reloader W * option phase :=
  let '(r, w, hb, handles) := takeNotificationHandles true now (rl_subs s) (rl_window s) (rl_heartbeat s) in
  (s<| rl_subs := r |><| rl_window := w |><| rl_heartbeat := hb |>, Some (PRelease handles)).

(** [releaseNotificationHandles]: [answer] is what the PLC says to the deletes. *)
Definition release_all (handles : list Z) (answer : multi Z) (s : reloader W) : reloader W * option phase :=
  (s<| rl_subs := (bestEffortDelete handles answer (rl_subs s)).1 |><| rl_released := rl_released s ++ handles |>, Some PLoad).

Definition load_all (interfere : session W -> session W) (s : reloader W) : reloader W * option phase :=
  let '(ses, r) := LoadSymbols interfere zero_time (rl_session s) in
  (s<| rl_session := ses |>, match r with Ok _ => Some PResubscribe | _ => None end).

(** The cache as the batch sees it. *)
Definition cache_of (ses : session W) : cacheView :=
  {| cv_symbols := en_sym <$> ss_symbols ses; cv_onDemand := ss_onDemand ses; cv_epoch := ss_epoch ses |}.

Definition resubscribe_all (e : batch_env) (s : reloader W) : reloader W * option phase :=
  let '(r, err) := resubscribeNotificationsLocked (AddSymbolNotifications e) (be_delete e) (cache_of (rl_session s)) (rl_subs s) in
  let s := s<| rl_subs := r |> in
  match err with
  | Some _ => (s, None)
  | None => (if sc_reconnectFn o then s<| rl_onReconnect := rl_onReconnect s + 1 |> else s, None)
  end.

(** What the world answers to one piece. *)
Record piece_env : Type := {
  pe_now : Z; pe_deletes : multi Z; pe_interfere : session W -> session W; pe_batch : batch_env }.

Definition run_phase (e : piece_env) (p : phase) (s : reloader W) : reloader W * option phase :=
  match p with
  | PStart _ => start_reload (pe_now e) s
  | PTake => take_all (pe_now e) s
  | PRelease handles => release_all handles (pe_deletes e) s
  | PLoad => load_all (pe_interfere e) s
  | PResubscribe => resubscribe_all (pe_batch e) s
  end.

(** The next piece of the [i]-th reload under way. *)
Definition run_job (i : nat) (e : piece_env) (s : reloader W) : reloader W :=
  match rl_jobs s !! i with
  | None => s
  | Some p =>
      let '(s, next) := run_phase e p s in
      match next with
      | Some q => s<| rl_jobs := <[i := q]> (rl_jobs s) |>
      | None => s<| rl_jobs := delete i (rl_jobs s) |><| rl_inProgress := false |>
      end
  end.

(** ** A session's life *)

(** [AOther]: other goroutines on the symbols, the subscriptions, the marks; [AClose]: a
    close from elsewhere. *)
Inductive action : Type :=
| ADetect (rc : Z) | AJob (i : nat) (e : piece_env) | ACloser | AClose
| AOther (f : session W -> session W) (g : subs -> subs) (h : gmap Z Reason -> gmap Z Reason).

Definition act (s : reloader W) (a : action) : reloader W :=
  match a with
  | ADetect rc => detect rc s
  | AJob i e => run_job i e s
  | ACloser => run_closer s
  | AClose => s<| rl_closed := true |>
  | AOther f g h => s<| rl_session := f (rl_session s) |><| rl_subs := g (rl_subs s) |><| rl_stale := h (rl_stale s) |>
  end.
Definition live (s : reloader W) (acts : list action) : reloader W := foldl act s acts.
End Reload.
