(* ===== verification/StaleReloadFacts.v ===== *)
(** StaleReload.v: however many detections come in, from however many goroutines, one
    reload runs at a time, within its budget, and comes to an end; a reload that fails
    keeps what is declared and shows the gap to the heartbeat watcher. *)
From S2P Require Import Prelude Wire Strconv Defs Ams Client SumCmd SymbolTable GoTime Utf Codec CodecSafety Subs Batch BatchFacts Window Policies PoliciesFacts Access Discovery DiscoveryFacts StaleReload.
From coqutil Require Import Datatypes.RecordSetters.
From Stdlib Require Import Sorting.Sorted.
#[local] Arguments constant {E} newValue _ /.

Section Facts.
Context {W : Type} `{Transport W} `{FloatText} `{JsonText}.
Context (o : stale_config) (zero_time : Z).
Implicit Types s : reloader W.
Notation live := (live o zero_time).
Notation act := (act o zero_time).
Notation run_job := (run_job o zero_time).

Lemma live_app s a b : live s (a ++ b) = live (live s a) b.
Proof. apply foldl_app. Qed.

(** ** One at a time *)

(** The flag is up exactly while a reload runs, and only one does. *)
Definition single s : Prop :=
  (rl_jobs s = [] /\ rl_inProgress s = false) \/ exists p, rl_jobs s = [p] /\ rl_inProgress s = true.

Lemma perform_jobs s a : (forall r, a <> Reload r) ->
  rl_jobs (perform s a) = rl_jobs s /\ rl_inProgress (perform s a) = rl_inProgress s.
Proof. intros Ha. destruct a; try done. by destruct (Ha reason). Qed.

Lemma detect_single rc s : single s -> single (detect o rc s).
Proof.
  intros Hs. unfold detect, handleStaleDetection. destruct (detectStaleCache rc) as [reason|]; [|exact Hs].
  destruct (sc_strategy o); [|by destruct (sc_callback o)..].
  destruct s. unfold single in *. cbn in *. destruct Hs as [[E1 E2]|[p [E1 E2]]]; subst; right; [exists (PStart reason)|exists p; done].
  by destruct (sc_callback o).
Qed.

(** A piece leaves the bookkeeping of the goroutines to [run_job]. *)
Lemma run_phase_frame e p s : let s' := (run_phase o zero_time e p s).1 in
  rl_jobs s' = rl_jobs s /\ rl_inProgress s' = rl_inProgress s /\ rl_closed s' = rl_closed s /\ rl_closers s' = rl_closers s.
Proof.
  destruct p; cbn [run_phase]; unfold start_reload, take_all, release_all, load_all, resubscribe_all, call_back;
    repeat case_match; done.
Qed.

(** The one reload under way makes its next piece. *)
Lemma run_job_single e p s : rl_jobs s = [p] -> rl_inProgress s = true ->
  let s' := run_job 0 e s in
  match (run_phase o zero_time e p s).2 with
  | Some q => rl_jobs s' = [q] /\ rl_inProgress s' = true
  | None => rl_jobs s' = [] /\ rl_inProgress s' = false
  end.
Proof.
  intros E1 E2. unfold StaleReload.run_job. rewrite E1. cbn [lookup list_lookup].
  destruct (run_phase_frame e p s) as (Hj & Hb & _).
  destruct (run_phase _ _ _ _ _) as [s1 [q|]]; destruct s1; cbn in *; subst; by rewrite E1.
Qed.

Lemma run_job_other i e s : rl_jobs s !! i = None -> run_job i e s = s.
Proof. intros E. unfold StaleReload.run_job. by rewrite E. Qed.

Lemma act_single s a : single s -> single (act s a).
Proof.
  intros Hs. destruct a as [rc|i e| | |f g h]; cbn [StaleReload.act]; try exact Hs.
  - by apply detect_single.
  - destruct Hs as [[E1 E2]|[p [E1 E2]]]; [rewrite run_job_other by (by rewrite E1); left; done|].
    destruct i as [|i]; [|rewrite run_job_other by (by rewrite E1); right; eauto].
    pose proof (run_job_single e p s E1 E2) as Hr. cbv zeta in Hr. unfold single.
    destruct (run_phase _ _ _ _ _).2 as [q|]; [right; eauto|by left].
  - unfold run_closer. destruct (rl_closers s); [exact Hs|]. exact Hs.
Qed.

Lemma live_single acts s : single s -> single (live s acts).
Proof. revert s. induction acts as [|a acts IH]; intros s Hs; [done|]. apply (IH (act s a)), act_single, Hs. Qed.

(** ** The budget *)

Definition clock (a : action (W := W)) : option Z := match a with AJob _ e => Some (pe_now e) | _ => None end.

Lemma budget_weaken maxn w times now st : budget_inv maxn w times st -> budget_inv maxn w (times ++ [now]) st.
Proof.
  intros [Hm Hw Hs Hk Hc]. split; try done.
  - eapply Forall_impl; [exact Hs|]. cbn. set_solver.
  - intros t Ht. apply Hk. by apply Forall_app in Ht as [Ht _].
Qed.

Definition budgeted maxn w times s : Prop := budget_inv maxn w times (rl_budget s, rl_granted s).

Lemma run_job_budget i e maxn w times s : 0 <= w -> Forall (fun t => t <= pe_now e) times ->
  budgeted maxn w times s -> budgeted maxn w (times ++ [pe_now e]) (run_job i e s).
Proof.
  intros Hw Ht Hb. unfold StaleReload.run_job. destruct (rl_jobs s !! i) as [p|]; [|by apply budget_weaken].
  assert (Hp : budgeted maxn w (times ++ [pe_now e]) (run_phase o zero_time e p s).1).
  { destruct p; cbn [run_phase].
    - unfold start_reload. pose proof (budget_step maxn w times (pe_now e) _ Hw Ht Hb) as Hn. unfold record_reload in Hn.
      destruct (tryRecordReloadAttempt _ _) as [b []]; cbn [negb]; unfold budgeted.
      + case_match; exact Hn.
      + case_match; exact Hn.
    - unfold take_all. destruct (takeNotificationHandles _ _ _ _ _) as [[[? ?] ?] ?]. by apply budget_weaken.
    - by apply budget_weaken.
    - unfold load_all. destruct (LoadSymbols _ _ _). by apply budget_weaken.
    - unfold resubscribe_all. destruct (resubscribeNotificationsLocked _ _ _ _) as [r []]; [by apply budget_weaken|].
      case_match; by apply budget_weaken. }
  destruct (run_phase _ _ _ _ _) as [s1 [q|]]; exact Hp.
Qed.

Lemma detect_budget maxn w times rc s : budgeted maxn w times s -> budgeted maxn w times (detect o rc s).
Proof.
  intros Hb. unfold detect. destruct (handleStaleDetection _ _ _ _) as [[busy st] acts].
  assert (Hp : forall s a, budgeted maxn w times s -> budgeted maxn w times (perform s a)) by (by intros ? []).
  set (s1 := s<| rl_inProgress := busy |>). assert (H1' : budgeted maxn w times s1) by exact Hb. clearbody s1. revert s1 H1'.
  induction acts as [|a acts IH]; intros s1 H1'; cbn [foldl]; [done|]. by apply IH, Hp.
Qed.

Lemma sorted_prefix l1 l2 : Sorted Z.le (l1 ++ l2) -> Sorted Z.le l1.
Proof.
  intros Hs. apply Sorted_StronglySorted in Hs; [|intros ???; lia]. apply StronglySorted_Sorted.
  induction l1 as [|x l1 IH]; [constructor|]. cbn in Hs. apply StronglySorted_inv in Hs as [H1' H2'].
  constructor; [by apply IH|]. by apply Forall_app in H2' as [? _].
Qed.

Lemma live_budget maxn w acts : forall times s, 0 <= w -> Sorted Z.le (times ++ omap clock acts) ->
  budgeted maxn w times s -> budgeted maxn w (times ++ omap clock acts) (live s acts).
Proof.
  induction acts as [|a acts IH]; intros times s Hw Hs Hb; [by rewrite app_nil_r|].
  change (live s (a :: acts)) with (live (act s a) acts). cbn [omap list_omap] in *.
  destruct a as [rc|i e| | |f g h]; cbn [clock] in *; cbn [StaleReload.act];
    try (apply IH; [done|exact Hs|]; first [by apply detect_budget|exact Hb|unfold run_closer; case_match; exact Hb]).
  change (pe_now e :: omap clock acts) with ([pe_now e] ++ omap clock acts) in *. rewrite app_assoc in *.
  apply IH; [done|done|]. apply run_job_budget; [done| |done].
  by apply sorted_prefix, sorted_snoc_le in Hs as [? _].
Qed.

(** ** The end of a reload *)

Definition rank (s : reloader W) : nat :=
  match rl_jobs s with
  | [] => 0
  | PStart _ :: _ => 5 | PTake :: _ => 4 | PRelease _ :: _ => 3 | PLoad :: _ => 2 | PResubscribe :: _ => 1
  end.

Lemma job_rank e s : single s -> (rank (run_job 0 e s) <= rank s - 1)%nat.
Proof.
  intros [[E1 E2]|[p [E1 E2]]]; [rewrite run_job_other by (by rewrite E1); unfold rank; rewrite E1; lia|].
  pose proof (run_job_single e p s E1 E2) as Hr. cbv zeta in Hr. unfold rank at 2. rewrite E1.
  destruct (run_phase _ _ _ _ _).2 as [q|] eqn:Eq; destruct Hr as [Hr _]; unfold rank; rewrite Hr; [|destruct p; lia].
  revert Eq. destruct p; cbn [run_phase]; unfold start_reload, take_all, release_all, load_all, resubscribe_all;
    repeat case_match; cbn; intros; simplify_eq; cbn; lia.
Qed.

Definition calm (a : action (W := W)) : bool := match a with ADetect _ => false | _ => true end.
Definition turn (a : action (W := W)) : bool := match a with AJob 0 _ => true | _ => false end.

Lemma calm_rank s a : single s -> calm a = true -> (rank (act s a) <= if turn a then rank s - 1 else rank s)%nat.
Proof.
  intros Hs Hc. destruct a as [rc|[|i] e| | |f g h]; cbn [turn StaleReload.act]; try done.
  - by apply job_rank.
  - rewrite run_job_other; [lia|]. by destruct Hs as [[-> _]|[p [-> _]]].
  - unfold run_closer. by destruct (rl_closers s).
Qed.

Lemma calm_run s acts : single s -> forallb calm acts = true ->
  (rank (live s acts) <= rank s - length (List.filter turn acts))%nat.
Proof.
  revert s. induction acts as [|a acts IH]; intros s Hs Hc; cbn [length]; [cbn; lia|].
  cbn in Hc. apply andb_prop in Hc as [Hc1 Hc2]. change (live s (a :: acts)) with (live (act s a) acts).
  pose proof (IH (act s a) (act_single s a Hs) Hc2). pose proof (calm_rank s a Hs Hc1). cbn [List.filter].
  destruct (turn a); cbn [length]; lia.
Qed.

(** C9. However many goroutines detect a stale cache, and whatever else runs: at most one
    reload is under way and the flag says whether one is, while it is detections change
    nothing, at most the configured number of reloads was granted in any window that
    wide, and a reload is over after five of its own steps at most, whatever failed. *)
Theorem automatic_reload_contract acts s maxn w : single s -> 0 <= maxn -> 0 <= w ->
  rl_budget s = {| reloadAttempts := []; maxReloadAttempts := maxn; reloadWindow := w |} -> rl_granted s = [] ->
  Sorted Z.le (omap clock acts) ->
  let s' := live s acts in
  (length (rl_jobs s') <= 1)%nat /\ (rl_inProgress s' = true <-> rl_jobs s' <> []) /\
  (sc_strategy o = SymbolVersionAutoReload -> rl_inProgress s' = true -> forall rc, detect o rc s' = s') /\
  (forall t, len (in_window w t (rl_granted s')) <= maxn) /\
  (forall more, forallb calm more = true -> (5 <= length (List.filter turn more))%nat -> rl_jobs (live s' more) = []).
Proof.
  intros Hs Hm Hw Hb Hg Ht. cbv zeta. pose proof (live_single acts s Hs) as Hl. split_and!.
  - by destruct Hl as [[-> _]|[p [-> _]]]; cbn; lia.
  - by destruct Hl as [[-> ->]|[p [-> ->]]].
  - intros Ha Hp rc. unfold detect, handleStaleDetection. rewrite Ha, Hp.
    destruct (detectStaleCache rc); cbn [foldl]; revert Hp; by destruct (live s acts); cbn; intros ->.
  - assert (Hi : budgeted maxn w [] s) by (unfold budgeted; rewrite Hb, Hg; split; cbn; done || by constructor).
    by destruct (live_budget maxn w acts [] s Hw Ht Hi).
  - intros more Hc Hn. pose proof (calm_run _ more Hl Hc) as Hr.
    assert (Hle : (rank (live s acts) <= 5)%nat) by (unfold rank; repeat case_match; lia).
    assert (E : rank (live (live s acts) more) = 0%nat) by lia. unfold rank in E. by repeat case_match.
Qed.

(** ** A reload from start to end *)

(** Every handle the PLC holds for the session. *)
Definition plc_handles s : list Z :=
  (map_to_list (activeNotifications (rl_subs s))).*1 ++
  (if heartbeatHandle (rl_heartbeat s) =? 0 then [] else [heartbeatHandle (rl_heartbeat s)]).

Lemma marks_all reason (l : list Z) (m : gmap Z Reason) h : h ∈ l ->
  foldl (fun stale h => <[h := reason]> stale) m l !! h = Some reason.
Proof.
  revert m. induction l as [|x l IH] using rev_ind; intros m; [set_solver|]. rewrite foldl_app. cbn.
  intros [Hh| ->%list_elem_of_singleton]%elem_of_app; [|apply lookup_insert_eq].
  destruct (decide (x = h)) as [->|Hn]; [apply lookup_insert_eq|]. rewrite lookup_insert_ne by done. by apply IH.
Qed.

Lemma marked reason (r : subs) m h : is_Some (activeNotifications r !! h) -> markAllHandlesStale reason r m !! h = Some reason.
Proof.
  intros [a Ha]. apply marks_all, list_elem_of_fmap. exists (h, a). split; [done|]. by apply elem_of_map_to_list.
Qed.

(** The first three pieces. *)
Definition quiesced (e1 e2 e3 : piece_env) s : reloader W :=
  live s [AJob 0 e1; AJob 0 e2; AJob 0 e3].

(** What they leave: every handle released, nothing live, everything declared on file. *)
Record drained s s' : Prop := {
  dr_jobs : rl_jobs s' = [PLoad]; dr_busy : rl_inProgress s' = true;
  dr_subs : rl_subs s' = set_active ∅ (rl_subs s);
  dr_released : rl_released s' = rl_released s ++ plc_handles s;
  dr_heartbeat : heartbeatHandle (rl_heartbeat s') = 0;
  dr_epoch : ss_epoch (rl_session s') = Fsm.bump (ss_epoch (rl_session s));
  dr_stale : rl_stale s' = markAllHandlesStale ReasonReloadInProgress (rl_subs s) (rl_stale s);
  dr_symbols : ss_symbols (rl_session s') = zeroOldSymbolHandles zero_time (ss_symbols (rl_session s)) }.

Lemma piece_start e s reason : rl_jobs s = [PStart reason] -> rl_inProgress s = true -> rl_closed s = false ->
  (tryRecordReloadAttempt (pe_now e) (rl_budget s)).2 = true ->
  let s' := run_job 0 e s in
  rl_jobs s' = [PTake] /\ rl_inProgress s' = true /\ rl_subs s' = rl_subs s /\ rl_heartbeat s' = rl_heartbeat s /\
  rl_released s' = rl_released s /\ rl_stale s' = markAllHandlesStale ReasonReloadInProgress (rl_subs s) (rl_stale s) /\
  rl_session s' = set_symbols (zeroOldSymbolHandles zero_time (ss_symbols (rl_session s))) (bump_epoch (rl_session s)).
Proof.
  intros Hj Hp Hc Hb. cbv zeta. unfold StaleReload.run_job. rewrite Hj. cbn [lookup list_lookup run_phase]. unfold start_reload.
  destruct (tryRecordReloadAttempt _ _) as [b ok]. cbn in Hb. subst ok. cbn [negb].
  destruct s. cbn in *. subst. done.
Qed.

Lemma piece_take e s : rl_jobs s = [PTake] -> rl_inProgress s = true -> let s' := run_job 0 e s in
  rl_jobs s' = [PRelease (plc_handles s)] /\ rl_inProgress s' = true /\ rl_subs s' = set_active ∅ (rl_subs s) /\
  heartbeatHandle (rl_heartbeat s') = 0 /\ rl_released s' = rl_released s /\ rl_stale s' = rl_stale s /\
  rl_session s' = rl_session s.
Proof.
  intros Hj Hp. cbv zeta. unfold StaleReload.run_job, plc_handles. rewrite Hj. destruct s as [ses r w hb]. cbn in *. subst.
  destruct (heartbeatHandle hb =? 0); cbn; by rewrite ?app_nil_r.
Qed.

Lemma piece_release e s handles r : rl_jobs s = [PRelease handles] -> rl_inProgress s = true -> rl_subs s = set_active ∅ r ->
  let s' := run_job 0 e s in
  rl_jobs s' = [PLoad] /\ rl_inProgress s' = true /\ rl_subs s' = rl_subs s /\ rl_heartbeat s' = rl_heartbeat s /\
  rl_released s' = rl_released s ++ handles /\ rl_stale s' = rl_stale s /\ rl_session s' = rl_session s.
Proof.
  intros Hj Hp Hr. cbv zeta. unfold StaleReload.run_job. rewrite Hj. destruct s. cbn in *. subst.
  repeat split. unfold bestEffortDelete. destruct handles; [done|]. by apply sumDelete_empty.
Qed.

Lemma reload_drains e1 e2 e3 s reason : rl_jobs s = [PStart reason] -> rl_inProgress s = true -> rl_closed s = false ->
  (tryRecordReloadAttempt (pe_now e1) (rl_budget s)).2 = true -> drained s (quiesced e1 e2 e3 s).
Proof.
  intros Hj Hp Hc Hb. change (quiesced e1 e2 e3 s) with (run_job 0 e3 (run_job 0 e2 (run_job 0 e1 s))).
  destruct (piece_start e1 s reason Hj Hp Hc Hb) as (A1 & A2 & A3 & A4 & A5 & A6 & A7). revert A1 A2 A3 A4 A5 A6 A7.
  generalize (run_job 0 e1 s). intros s1 A1 A2 A3 A4 A5 A6 A7.
  destruct (piece_take e2 s1 A1 A2) as (B1 & B2 & B3 & B4 & B5 & B6 & B7). revert B1 B2 B3 B4 B5 B6 B7.
  generalize (run_job 0 e2 s1). intros s2 B1 B2 B3 B4 B5 B6 B7.
  destruct (piece_release e3 s2 _ _ B1 B2 B3) as (C1 & C2 & C3 & C4 & C5 & C6 & C7).
  assert (Eh : plc_handles s1 = plc_handles s) by (unfold plc_handles; by rewrite A3, A4).
  split; congruence || (by rewrite C7, B7, A7).
Qed.

(** A reload that cannot load the symbols - the runtime stopped, the link went - has
    released every handle, and ends with nothing live, everything declared still on file
    and still counted: the heartbeat watcher sees the whole gap.  The flag is down, the
    next detection may start another. *)
Theorem failed_reload_shows_the_gap e1 e2 e3 e4 s reason : rl_jobs s = [PStart reason] -> rl_inProgress s = true ->
  rl_closed s = false -> (tryRecordReloadAttempt (pe_now e1) (rl_budget s)).2 = true ->
  is_err (LoadSymbols (pe_interfere e4) zero_time (rl_session (quiesced e1 e2 e3 s))).2 = true ->
  let s' := live s [AJob 0 e1; AJob 0 e2; AJob 0 e3; AJob 0 e4] in
  rl_jobs s' = [] /\ rl_inProgress s' = false /\ rl_released s' = rl_released s ++ plc_handles s /\
  activeNotifications (rl_subs s') = ∅ /\ pending (rl_subs s') = pending (rl_subs s) /\
  notificationChannel (rl_subs s') = notificationChannel (rl_subs s) /\
  subscriptionGap (rl_subs s') = (registered (rl_subs s), 0) /\ rl_onReconnect s' = rl_onReconnect (quiesced e1 e2 e3 s).
Proof.
  intros Hj Hp Hc Hb Hl. cbv zeta.
  change (live s [AJob 0 e1; AJob 0 e2; AJob 0 e3; AJob 0 e4]) with (run_job 0 e4 (quiesced e1 e2 e3 s)).
  destruct (reload_drains e1 e2 e3 s reason Hj Hp Hc Hb) as [D1 D2 D3 D4 D5 D6 D7 D8].
  set (q := quiesced e1 e2 e3 s) in *. clearbody q. unfold StaleReload.run_job. rewrite D1.
  cbn [lookup list_lookup run_phase]. unfold load_all. destruct (LoadSymbols _ _ _) as [ses [a|err|]]; try done.
  cbn. destruct q as [ses' r w hb st bud busy cl jobs closers gr rel cbs nd nr]. cbn in *. subst.
  unfold subscriptionGap, held. cbn. by repeat split.
Qed.

(** The marks a reload leaves on the handles it is about to delete stay when no sample
    consumed them: whatever its outcome, a subscription made afterwards on a handle the
    PLC issues again has its first sample flagged as taken during the reload. *)
Theorem reload_marks_outlive_handles e1 e2 e3 e4 e5 s reason h : rl_jobs s = [PStart reason] -> rl_inProgress s = true ->
  rl_closed s = false -> (tryRecordReloadAttempt (pe_now e1) (rl_budget s)).2 = true ->
  is_Some (activeNotifications (rl_subs s) !! h) ->
  let s' := live s [AJob 0 e1; AJob 0 e2; AJob 0 e3; AJob 0 e4; AJob 0 e5] in
  (consumeStaleFlag h (rl_stale s')).2 = Some ReasonReloadInProgress.
Proof.
  intros Hj Hp Hc Hb Hh. cbv zeta.
  change (live s [AJob 0 e1; AJob 0 e2; AJob 0 e3; AJob 0 e4; AJob 0 e5]) with (run_job 0 e5 (run_job 0 e4 (quiesced e1 e2 e3 s))).
  assert (Hm : rl_stale (quiesced e1 e2 e3 s) !! h = Some ReasonReloadInProgress).
  { rewrite (dr_stale _ _ (reload_drains e1 e2 e3 s reason Hj Hp Hc Hb)). by apply marked. }
  assert (Hq : rl_jobs (quiesced e1 e2 e3 s) = [PLoad]) by by destruct (reload_drains e1 e2 e3 s reason Hj Hp Hc Hb).
  revert Hm Hq. generalize (quiesced e1 e2 e3 s). intros q Hm Hq.
  assert (Hk : forall e q, rl_stale q !! h = Some ReasonReloadInProgress ->
    (rl_jobs q = [PLoad] \/ rl_jobs q = [PResubscribe] \/ rl_jobs q = []) ->
    rl_stale (run_job 0 e q) !! h = Some ReasonReloadInProgress /\
    (rl_jobs (run_job 0 e q) = [PResubscribe] \/ rl_jobs (run_job 0 e q) = [])).
  { clear. intros e q Hm Hj. unfold StaleReload.run_job. destruct Hj as [Hj|[Hj|Hj]]; rewrite Hj;
      cbn [lookup list_lookup run_phase]; [| |by auto].
    - unfold load_all. destruct (LoadSymbols _ _ _) as [ses [a|err|]]; destruct q; cbn in *; subst; auto.
    - unfold resubscribe_all. destruct (resubscribeNotificationsLocked _ _ _ _) as [r' []]; [|case_match]; destruct q; cbn in *; subst; auto. }
  destruct (Hk e4 q Hm (or_introl Hq)) as [H1' H2'].
  destruct (Hk e5 (run_job 0 e4 q) H1') as [H3' _]; [tauto|]. unfold consumeStaleFlag. by rewrite H3'.
Qed.

(** Over budget the strategy is to fall back to Ignore; but where Ignore flags the next
    sample of every live handle, the fallback flags none. *)
Theorem exhausted_reload_flags_nothing e s reason h : rl_jobs s = [PStart reason] ->
  (tryRecordReloadAttempt (pe_now e) (rl_budget s)).2 = false -> is_Some (activeNotifications (rl_subs s) !! h) ->
  rl_stale s !! h = None ->
  rl_stale (run_job 0 e s) !! h = None /\
  (forall rc r, detectStaleCache rc = Some r ->
     rl_stale (detect {| sc_strategy := SymbolVersionIgnore; sc_callback := sc_callback o; sc_disconnectFn := sc_disconnectFn o;
                         sc_reconnectFn := sc_reconnectFn o |} rc s) !! h = Some r).
Proof.
  intros Hj Hb Hh Hs. split.
  - destruct s as [ses' r w hb st bud busy cl jobs closers gr rel cbs nd nr]. cbn in *. subst.
    unfold StaleReload.run_job. cbn. unfold start_reload. cbn. destruct (tryRecordReloadAttempt _ _) as [b ok]. cbn in Hb. subst ok.
    cbn. by destruct (sc_callback o).
  - intros rc r Hr. unfold detect, handleStaleDetection. rewrite Hr. cbn [sc_strategy sc_callback].
    destruct (sc_callback o); cbn; by apply marked.
Qed.
End Facts.

(** ** Witnesses: a session with one subscription, whose runtime has stopped *)
#[local] Existing Instance bits_text.
#[local] Existing Instance empty_json.
#[local] Instance mute_plc : Transport () := fun _ _ _ w => (w, Err (ESentinel ErrTransportClosed)).

Definition stale_options : stale_config :=
  {| sc_strategy := SymbolVersionAutoReload; sc_callback := true; sc_disconnectFn := false; sc_reconnectFn := true |}.
Definition busy_session (jobs : list phase) : reloader () :=
  Build_reloader (Build_session None ∅ ∅ ∅ true false false 3 (ADSStateConfig, 10) 0 1 20 2 []) two_live fresh_window
    {| heartbeatHandle := 9; heartbeatBeats := 4; heartbeatLastNs := 5 |} ∅
    {| reloadAttempts := []; maxReloadAttempts := 1; reloadWindow := 60 |} (negb (bool_decide (length jobs = 0%nat))) false jobs [] [] [] [] 0 0.
Definition piece (t : Z) : piece_env (W := ()) :=
  {| pe_now := t; pe_deletes := ([0; 0], None); pe_interfere := id; pe_batch := sample_env [] None |}.

Lemma automatic_reload_contract_witness :
  let s' := live stale_options 0 (busy_session []) [ADetect 1809; ADetect 1809; AJob 0 (piece 20); AJob 0 (piece 21); ADetect 1793] in
  (length (rl_jobs s') <= 1)%nat /\ (forall t, len (in_window 60 t (rl_granted s')) <= 1).
Proof.
  destruct (automatic_reload_contract stale_options 0 [ADetect 1809; ADetect 1809; AJob 0 (piece 20); AJob 0 (piece 21); ADetect 1793]
    (busy_session []) 1 60) as (H1 & _ & _ & H4 & _).
  - by left.
  - done.
  - done.
  - reflexivity.
  - reflexivity.
  - cbn. repeat constructor. done.
  - by split.
Defined.

Lemma failed_reload_shows_the_gap_witness :
  let s' := live stale_options 0 (busy_session [PStart ReasonSymbolVersionInvalid]) [AJob 0 (piece 20); AJob 0 (piece 21); AJob 0 (piece 22); AJob 0 (piece 23)] in
  subscriptionGap (rl_subs s') = (2, 0) /\ rl_released s' = [5; 6; 9].
Proof.
  destruct (failed_reload_shows_the_gap stale_options 0 (piece 20) (piece 21) (piece 22) (piece 23)
    (busy_session [PStart ReasonSymbolVersionInvalid]) ReasonSymbolVersionInvalid) as (_ & _ & H3 & _ & _ & _ & H7 & _);
    [reflexivity|reflexivity|reflexivity|reflexivity|reflexivity|].
  split; [exact H7|rewrite H3; vm_compute; reflexivity].
Defined.

Lemma reload_marks_outlive_handles_witness :
  (consumeStaleFlag 5 (rl_stale (live stale_options 0 (busy_session [PStart ReasonSymbolVersionInvalid])
     [AJob 0 (piece 20); AJob 0 (piece 21); AJob 0 (piece 22); AJob 0 (piece 23); AJob 0 (piece 24)]))).2 = Some ReasonReloadInProgress.
Proof.
  apply (reload_marks_outlive_handles stale_options 0 (piece 20) (piece 21) (piece 22) (piece 23) (piece 24)
    (busy_session [PStart ReasonSymbolVersionInvalid]) ReasonSymbolVersionInvalid 5); [reflexivity|reflexivity|reflexivity|reflexivity|].
  eexists. vm_compute. reflexivity.
Defined.

Definition exhausted_session : reloader () :=
  (busy_session [PStart ReasonSymbolVersionInvalid])<| rl_budget := {| reloadAttempts := [19]; maxReloadAttempts := 1; reloadWindow := 60 |} |>.

Lemma exhausted_reload_flags_nothing_witness : rl_stale (run_job stale_options 0 0 (piece 20) exhausted_session) !! 5 = None.
Proof.
  apply (exhausted_reload_flags_nothing stale_options 0 (piece 20) exhausted_session ReasonSymbolVersionInvalid 5); [reflexivity|reflexivity| |reflexivity].
  eexists. vm_compute. reflexivity.
Defined.
