(* ===== verification/Peer.v ===== *)
(** client.go and session.go: the life of a [Client] around its sockets - construction by
    [Dial], the handshake counter, the verdict on a drop - and the connections a PLC opens
    to us: the accept loop of the session, their adoption by the current [Client], the
    teardown that refuses them. *)
From S2P Require Import Prelude Wire Strconv Defs Ams.
From coqutil Require Import Datatypes.RecordSetters.
Export TriangleBracketNotations.

(** ** Dial *)

(** What a raw client is constructed with; handlers and loggers are identifiers, [None] a
    nil one. *)
Record dial_config : Type := {
  dc_requestTimeout : Z; dc_logger : Z; dc_notify : option Z; dc_ondrop : option Z }.

Definition ClientOption : Type := dial_config -> dial_config.
Definition WithClientLogger (logger : option Z) : ClientOption := fun c =>
  match logger with Some l => c<| dc_logger := l |> | None => c end.
Definition WithClientRequestTimeout (d : Z) : ClientOption := fun c =>
  if 0 <? d then c<| dc_requestTimeout := d |> else c.
Definition WithNotificationHandler (fn : option Z) : ClientOption := fun c => c<| dc_notify := fn |>.
Definition SetNotificationHandler (fn : option Z) (c : dial_config) : dial_config := c<| dc_notify := fn |>.
Definition SetOnDrop (fn : option Z) (c : dial_config) : dial_config := c<| dc_ondrop := fn |>.
Definition WithOnDrop (fn : option Z) : ClientOption := fun c => SetOnDrop fn c.

(** [Dial]: the dial runs with the timeout passed in, the requests with the one the
    options left. *)
Definition Dial (requestTimeout : Z) (opts : list ClientOption) (dial : Z -> option goerr) : res dial_config :=
  let requestTimeout := if requestTimeout <=? 0 then 5 * Second else requestTimeout in
  let c := foldl (fun c opt => opt c)
             {| dc_requestTimeout := requestTimeout; dc_logger := 0; dc_notify := None; dc_ondrop := None |} opts in
  match dial requestTimeout with
  | Some e => Err (EWrap "ads: dial" e)
  | None => Ok c
  end.

(** ** The handshake counter *)

Definition beginHandshake (n : Z) : Z := n + 1.
(** The decrement, and the clamp when it went below zero. *)
Definition endHandshake (n : Z) : Z := let n := n - 1 in if 0 <=? n then n else 0.

Inductive level : Type := LevelDebug | LevelError.
Definition transportFaultLevel (handshaking : Z) : level := if 0 <? handshaking then LevelDebug else LevelError.

(** ** The verdict on a drop *)

Definition framesSeen (primary peer : Z) : Z := u64 (primary + peer).
Definition wasEstablished (primary peer : Z) : bool := 0 <? framesSeen primary peer.

(** [io.EOF] and [ECONNRESET], wrapped or not. *)
Definition isLikelyMissingRoute (err : option goerr) : bool :=
  match err with
  | None => false
  | Some e => errors_is ErrEOF e || errors_is ErrConnReset e
  end.

(** Which of the three records [logDropVerdict] writes, at which level. *)
Inductive verdict : Type := DroppedEstablished | ClosedBeforeAnyFrame | ReadError.
Definition logDropVerdict (primary peer handshaking : Z) (err : option goerr) : verdict * level :=
  (if wasEstablished primary peer then DroppedEstablished
   else if isLikelyMissingRoute err then ClosedBeforeAnyFrame else ReadError,
   transportFaultLevel handshaking).

(** ** Connections the PLC opens

    [pc_conns] is the list under [peerMu], [pc_closing] what [closePeerConns] took from it
    and has not closed yet, [pc_readers] the goroutines of adopted connections;
    [pc_workers] is the client's wait group. *)
Record pclient : Type := {
  pc_conns : list Z; pc_closed : bool; pc_cancelled : bool; pc_closing : list Z; pc_readers : list Z; pc_workers : Z }.

(** [startWorkers]: listen, transmit and notification workers, and the receive workers. *)
Definition recvWorkerCount : Z := 16.
Definition fresh_pclient : pclient :=
  {| pc_conns := []; pc_closed := false; pc_cancelled := false; pc_closing := []; pc_readers := [];
     pc_workers := 3 + recvWorkerCount |}.

(** What the accept loop holds: a connection not looked at, or one for a client it loaded. *)
Inductive hand : Type := Accepted (conn : Z) | Offered (conn : Z) (client : nat).

(** Sockets are numbered as they come in, clients as they are published; the last one is
    current. *)
Record peers : Type := {
  ps_clients : list pclient; ps_open : gset Z; ps_next : Z; ps_listening : bool; ps_hand : option hand;
  ps_closed : bool; ps_adopted : Z }.

Definition no_peers : peers :=
  {| ps_clients := []; ps_open := ∅; ps_next := 0; ps_listening := false; ps_hand := None; ps_closed := false; ps_adopted := 0 |}.

Definition close_socket (n : Z) (s : peers) : peers := s<| ps_open := ps_open s ∖ {[n]} |>.
Definition on_client (c : nat) (f : pclient -> pclient) (s : peers) : peers := s<| ps_clients := alter f c (ps_clients s) |>.

(** [AcceptPeerConn], whole: the check, the list and the wait group under [peerMu]. *)
Definition AcceptPeerConn (c : nat) (n : Z) (s : peers) : peers :=
  match ps_clients s !! c with
  | None => s
  | Some k =>
      if pc_closed k || pc_cancelled k then close_socket n s
      else on_client c (fun k => k<| pc_conns := pc_conns k ++ [n] |><| pc_workers := pc_workers k + 1 |>
                                  <| pc_readers := pc_readers k ++ [n] |>) s
  end.

(** [forgetPeerConn]: the first entry. *)
Fixpoint forget (n : Z) (l : list Z) : list Z :=
  match l with
  | [] => []
  | x :: l => if x =? n then l else x :: forget n l
  end.

(** The deferred end of a reader. *)
Definition reader_ends (c : nat) (n : Z) (s : peers) : peers :=
  on_client c (fun k => k<| pc_conns := forget n (pc_conns k) |><| pc_readers := forget n (pc_readers k) |>
                         <| pc_workers := pc_workers k - 1 |>) (close_socket n s).

(** [closePeerConns]: the latch, then one close after the other. *)
Definition latch (k : pclient) : pclient :=
  k<| pc_closing := pc_closing k ++ pc_conns k |><| pc_conns := [] |><| pc_closed := true |>.
Definition close_next (c : nat) (s : peers) : peers :=
  match ps_clients s !! c with
  | Some k => match pc_closing k with
              | [] => s
              | n :: l => on_client c (fun k => k<| pc_closing := l |>) (close_socket n s)
              end
  | None => s
  end.

(** A step of the session: the PLC dials in; the accept loop looks at what it holds, or
    hands it over; a reader ends, which it may at any time; a client is torn down or its
    context cancelled; a new one is published; the listener and its accept loop come and
    go, a new loop once the old one let go of its last connection; the session is closed. *)
Inductive peer_step : Type :=
| PDialIn | PLoop | PReader (c : nat) (n : Z) | PLatch (c : nat) | PClose (c : nat) | PCancel (c : nat)
| PPublish | PListen | PUnlisten | PSessionClose.

Definition loop (s : peers) : peers :=
  match ps_hand s with
  | None => s
  | Some (Accepted n) =>
      if ps_closed s then close_socket n (s<| ps_hand := None |><| ps_listening := false |>)
      else match length (ps_clients s) with
           | O => close_socket n (s<| ps_hand := None |>)
           | S c => s<| ps_hand := Some (Offered n c) |><| ps_adopted := ps_adopted s + 1 |>
           end
  | Some (Offered n c) => AcceptPeerConn c n (s<| ps_hand := None |>)
  end.

Definition pstep (s : peers) (a : peer_step) : peers :=
  match a with
  | PDialIn => if ps_listening s && negb (is_Some_b (ps_hand s))
               then s<| ps_hand := Some (Accepted (ps_next s)) |><| ps_open := {[ps_next s]} ∪ ps_open s |><| ps_next := ps_next s + 1 |>
               else s
  | PLoop => loop s
  | PReader c n => match ps_clients s !! c with
                   | Some k => if bool_decide (n ∈ pc_readers k) then reader_ends c n s else s
                   | None => s
                   end
  | PLatch c => on_client c latch s
  | PClose c => close_next c s
  | PCancel c => on_client c (fun k => k<| pc_cancelled := true |>) s
  | PPublish => s<| ps_clients := ps_clients s ++ [fresh_pclient] |>
  | PListen => if ps_closed s || is_Some_b (ps_hand s) then s else s<| ps_listening := true |>
  | PUnlisten => s<| ps_listening := false |>
  | PSessionClose => s<| ps_closed := true |>
  end.
Definition prun (s : peers) (l : list peer_step) : peers := foldl pstep s l.
