(* ===== verification/PeerFacts.v ===== *)
(** Peer.v: no connection of the PLC is leaked and none holds up a teardown; what a drop
    is reported as. *)
From S2P Require Import Prelude Wire Strconv Defs Ams Peer.
From coqutil Require Import Datatypes.RecordSetters.
#[local] Arguments constant {E} newValue _ /.

(** ** Lists *)

Lemma forget_other m n l : m <> n -> m ∈ forget n l <-> m ∈ l.
Proof.
  intros Hn. induction l as [|x l IH]; [done|]. cbn. destruct (Z.eqb_spec x n) as [->|Hx].
  - rewrite elem_of_cons. naive_solver.
  - rewrite !elem_of_cons, IH. done.
Qed.
Lemma forget_sub m n l : m ∈ forget n l -> m ∈ l.
Proof. induction l as [|x l IH]; [done|]. cbn. destruct (x =? n); rewrite ?elem_of_cons; naive_solver. Qed.
Lemma len_forget n l : n ∈ l -> len (forget n l) = len l - 1.
Proof.
  induction l as [|x l IH]; [set_solver|]. intros Hn. cbn. destruct (Z.eqb_spec x n) as [->|Hx]; rewrite ?len_cons; [lia|].
  rewrite IH by set_solver. lia.
Qed.

(** ** The invariant *)

Definition hand_conn (s : peers) : option Z :=
  match ps_hand s with None => None | Some (Accepted n) | Some (Offered n _) => Some n end.

(** A client and its adopted connections: the wait group counts the readers; before the
    teardown the list is exactly theirs, after it every one whose socket is still open is
    about to be closed. *)
Record client_ok (opened : gset Z) (k : pclient) : Prop := {
  ck_workers : pc_workers k = 3 + recvWorkerCount + len (pc_readers k);
  ck_live : pc_closed k = false -> pc_conns k = pc_readers k /\ pc_closing k = [];
  ck_torn : pc_closed k = true -> pc_conns k = [] /\ forall n, n ∈ pc_readers k -> n ∈ opened -> n ∈ pc_closing k }.

Record peers_ok (s : peers) : Prop := {
  po_owned : forall n, n ∈ ps_open s -> hand_conn s = Some n \/ exists c k, ps_clients s !! c = Some k /\ n ∈ pc_readers k;
  po_clients : forall c k, ps_clients s !! c = Some k -> client_ok (ps_open s) k;
  po_hand : forall n, hand_conn s = Some n -> n < ps_next s /\ forall c k, ps_clients s !! c = Some k -> n ∉ pc_readers k;
  po_readers : forall c k n, ps_clients s !! c = Some k -> n ∈ pc_readers k -> n < ps_next s;
  po_offered : forall n c, ps_hand s = Some (Offered n c) -> is_Some (ps_clients s !! c) }.

Lemma client_ok_sub o o' k : o' ⊆ o -> client_ok o k -> client_ok o' k.
Proof. intros Ho [H1 H2 H3]. split; [done|done|]. intros Hc. destruct (H3 Hc) as [? Hn]. split; [done|]. intros n Hr Hi. apply Hn; [done|set_solver]. Qed.

(** One client changes, within the same or fewer open sockets. *)
Lemma on_client_ok c f s o : o ⊆ ps_open s -> peers_ok s ->
  (forall k, ps_clients s !! c = Some k -> client_ok o k -> client_ok o (f k)) ->
  (forall k n, ps_clients s !! c = Some k -> n ∈ pc_readers (f k) -> n ∈ pc_readers k) ->
  (forall k n, ps_clients s !! c = Some k -> n ∈ o -> n ∈ pc_readers k -> n ∈ pc_readers (f k)) ->
  peers_ok (on_client c f (s<| ps_open := o |>)).
Proof.
  destruct s as [cl op nx li hd cd ad]. unfold hand_conn in *. cbn [ps_clients ps_open] in *.
  intros Ho [P1 P2 P3 P4 P5] Hk Hsub Hkeep. unfold hand_conn in *. cbn in P1, P2, P3, P4, P5.
  assert (Hl : forall d k', alter f c cl !! d = Some k' ->
    exists k, cl !! d = Some k /\ (k' = k /\ d <> c \/ k' = f k /\ d = c)).
  { intros d k'. destruct (decide (d = c)) as [->|Hd].
    - rewrite list_lookup_alter_eq. destruct (cl !! c) as [k|]; [|done]. intros [= <-]. eauto.
    - rewrite list_lookup_alter_ne by done. eauto. }
  split; cbn.
  - intros n Hn. destruct (P1 n ltac:(set_solver)) as [Hh|(d & k & Hd & Hr)]; [by left|right].
    destruct (decide (d = c)) as [->|Hdc].
    + exists c, (f k). rewrite list_lookup_alter_eq, Hd. eauto.
    + exists d, k. by rewrite list_lookup_alter_ne.
  - intros d k' (k & Hd & [[-> _]|[-> ->]])%Hl; [|apply (Hk k Hd)]; by eapply client_ok_sub, P2.
  - intros n Hn. destruct (P3 n Hn) as [? Hr]. split; [done|].
    intros d k' (k & Hd & [[-> _]|[-> ->]])%Hl; [by eapply Hr|]. intros Hx. by apply (Hr c k Hd), (Hsub k n Hd).
  - intros d k' n (k & Hd & [[-> _]|[-> ->]])%Hl Hx; [by eapply P4|]. by apply (P4 c k n Hd), (Hsub k n Hd).
  - intros n d E. destruct (P5 n d E) as [k Hd]. destruct (decide (d = c)) as [->|Hdc].
    + by rewrite list_lookup_alter_eq, Hd.
    + by rewrite list_lookup_alter_ne, Hd.
Qed.

(** Closing what the loop holds, and letting go of it. *)
Lemma drop_hand_ok n s b : peers_ok s -> hand_conn s = Some n ->
  peers_ok (close_socket n (s<| ps_hand := None |><| ps_listening := b |>)).
Proof.
  destruct s as [cl op nx li hd cd ad]. unfold hand_conn. cbn. intros [P1 P2 P3 P4 P5] Hh. unfold hand_conn in *. cbn in *. split; cbn; [|intros; by eapply client_ok_sub, P2; [set_solver|]|done|done|done].
  intros m Hm. apply elem_of_difference in Hm as [Hm Hn]. right. destruct (P1 m Hm) as [Hx|]; [|done].
  exfalso. apply Hn. rewrite Hh in Hx. injection Hx as ->. set_solver.
Qed.

Lemma accept_ok c n s : peers_ok s -> hand_conn s = Some n -> is_Some (ps_clients s !! c) -> peers_ok (AcceptPeerConn c n (s<| ps_hand := None |>)).
Proof.
  intros Hs Hh [k Ek]. unfold AcceptPeerConn. cbn [ps_clients].
  change (ps_clients (s<| ps_hand := None |>)) with (ps_clients s). rewrite Ek.
  destruct (pc_closed k || pc_cancelled k) eqn:Ec; [exact (drop_hand_ok n s (ps_listening s) Hs Hh)|].
  apply orb_false_iff in Ec as [Ec _]. destruct s as [cl op nx li hd cd ad]. unfold hand_conn in *. cbn in Hh, Ek.
  destruct Hs as [P1 P2 P3 P4 P5]. unfold hand_conn in *. cbn in P1, P2, P3, P4, P5. destruct (P3 n Hh) as [Hlt Hfresh].
  set (f := fun k : pclient => _).
  assert (Hl : forall d k', alter f c cl !! d = Some k' ->
    exists k0, cl !! d = Some k0 /\ (k' = k0 /\ d <> c \/ k' = f k /\ d = c /\ k0 = k)).
  { intros d k'. destruct (decide (d = c)) as [->|Hd].
    - rewrite list_lookup_alter_eq, Ek. intros [= <-]. eauto 10.
    - rewrite list_lookup_alter_ne by done. eauto. }
  split; cbn.
  - intros m Hm. right. destruct (P1 m Hm) as [Hx|(d & k0 & Hd & Hr)].
    + rewrite Hh in Hx. injection Hx as ->. exists c, (f k). rewrite list_lookup_alter_eq, Ek. split; [done|]. cbn. set_solver.
    + destruct (decide (d = c)) as [->|Hdc]; [|exists d, k0; by rewrite list_lookup_alter_ne].
      exists c, (f k0). rewrite list_lookup_alter_eq, Hd. split; [done|]. cbn. set_solver.
  - intros d k' (k0 & Hd & [[-> _]|(-> & -> & ->)])%Hl; [by eapply P2|]. destruct (P2 c k Hd) as [K1 K2 K3].
    destruct (K2 Ec) as [E1 E2]. split; cbn; [rewrite len_app, len_cons, len_nil; lia|by rewrite E1|]. intros Hx. change (pc_closed k = true) in Hx. congruence.
  - done.
  - intros d k' m (k0 & Hd & [[-> _]|(-> & -> & ->)])%Hl Hx; [by eapply P4|]. cbn in Hx.
    apply elem_of_app in Hx as [Hx| ->%list_elem_of_singleton]; [by eapply P4|done].
  - done.
Qed.

Lemma reader_ends_ok c n k s : peers_ok s -> ps_clients s !! c = Some k -> n ∈ pc_readers k -> peers_ok (reader_ends c n s).
Proof.
  intros Hs Hc Hn. unfold reader_ends, close_socket. apply (on_client_ok c _ s (ps_open s ∖ {[n]})); [set_solver|done|..].
  - intros k' Hk' [K1 K2 K3]. rewrite Hc in Hk'. injection Hk' as <-. split; cbn.
    + rewrite len_forget by done. lia.
    + intros [E1 E2]%K2. by rewrite E1.
    + intros [E1 E2]%K3. rewrite E1. split; [done|]. intros m Hm. apply E2. by eapply forget_sub.
  - intros k' m _. apply forget_sub.
  - intros k' m _ Hm Hr. cbn. apply forget_other; [set_solver|done].
Qed.

Lemma close_next_ok c s : peers_ok s -> peers_ok (close_next c s).
Proof.
  intros Hs. unfold close_next. destruct (ps_clients s !! c) as [k|] eqn:Hc; [|done].
  destruct (pc_closing k) as [|n l] eqn:Ec; [done|]. unfold close_socket.
  apply (on_client_ok c _ s (ps_open s ∖ {[n]})); [set_solver|done|..]; [|done|done].
  intros k' Hk' [K1 K2 K3]. rewrite Hc in Hk'. injection Hk' as <-. split; cbn; [done|..].
  - intros Hx. destruct (K2 Hx) as [_ E]. by rewrite Ec in E.
  - intros [E1 E2]%K3. split; [done|]. intros m Hr Hm. specialize (E2 m Hr Hm). rewrite Ec in E2. set_solver.
Qed.

Lemma latch_ok c s : peers_ok s -> peers_ok (on_client c latch s).
Proof.
  intros Hs. assert (E : s = s<| ps_open := ps_open s |>) by (by destruct s). rewrite E.
  apply (on_client_ok c latch s (ps_open s)); [done|done|..]; [|done|done].
  intros k Hk [K1 K2 K3]. split; cbn; [done|done|]. intros _. split; [done|]. intros n Hr Hn.
  destruct (pc_closed k) eqn:Ek; [destruct (K3 eq_refl) as [_ Hx]; specialize (Hx n Hr Hn); set_solver|].
  destruct (K2 eq_refl) as [E1 E2]. rewrite E1. set_solver.
Qed.

Lemma cancel_ok c s : peers_ok s -> peers_ok (on_client c (fun k => k<| pc_cancelled := true |>) s).
Proof.
  intros Hs. assert (E : s = s<| ps_open := ps_open s |>) by (by destruct s). rewrite E.
  apply (on_client_ok c _ s (ps_open s)); [done|done|..]; [|done|done]. by intros k _ [].
Qed.

Lemma loop_ok s : peers_ok s -> peers_ok (loop s).
Proof.
  intros Hs. unfold loop. destruct (ps_hand s) as [[n|n c]|] eqn:Eh; [| |done].
  - assert (Hh : hand_conn s = Some n) by (unfold hand_conn; by rewrite Eh). case_match; [by apply drop_hand_ok|].
    destruct (length (ps_clients s)) as [|c] eqn:El; [exact (drop_hand_ok n s (ps_listening s) Hs Hh)|].
    destruct s as [cl op nx li hd cd ad]. cbn in Eh, El. subst. destruct Hs as [P1 P2 P3 P4 P5]. split; try done.
    cbn. intros m d [= _ <-]. apply lookup_lt_is_Some_2. lia.
  - apply accept_ok; [done|unfold hand_conn; by rewrite Eh|by eapply po_offered].
Qed.

Lemma pstep_ok s a : peers_ok s -> peers_ok (pstep s a).
Proof.
  intros Hs. destruct a as [| |c n|c|c|c| | | |]; cbn [pstep].
  - destruct (ps_listening s && negb (is_Some_b (ps_hand s))) eqn:E; [|done]. apply andb_prop in E as [_ E].
    destruct s as [cl op nx li hd cd ad]. cbn in E. destruct hd; [done|]. destruct Hs as [P1 P2 P3 P4 P5].
    unfold hand_conn in *. cbn in *. split; unfold hand_conn; cbn.
    + intros n Hn. apply elem_of_union in Hn as [->%elem_of_singleton|Hn]; [by left|]. destruct (P1 n Hn) as [?|?]; [done|by right].
    + intros c k Hc. destruct (P2 c k Hc) as [K1 K2 K3]. split; [done|done|]. intros [E1 E2]%K3. split; [done|].
      intros n Hr Hn. apply E2; [done|]. apply elem_of_union in Hn as [->%elem_of_singleton|]; [|done].
      specialize (P4 c k nx Hc Hr). lia.
    + intros n [= <-]. split; [lia|]. intros c k Hc Hr. specialize (P4 c k nx Hc Hr). lia.
    + intros c k n Hc Hr. specialize (P4 c k n Hc Hr). lia.
    + done.
  - by apply loop_ok.
  - destruct (ps_clients s !! c) as [k|] eqn:Hc; [|done]. case_bool_decide; [|done]. by eapply reader_ends_ok.
  - by apply latch_ok.
  - by apply close_next_ok.
  - by apply cancel_ok.
  - destruct s as [cl op nx li hd cd ad]. destruct Hs as [P1 P2 P3 P4 P5]. unfold hand_conn in *. cbn in *.
    assert (Hl : forall d k, (cl ++ [fresh_pclient]) !! d = Some k -> cl !! d = Some k \/ k = fresh_pclient).
    { intros d k [Hd|[_ Hd]]%lookup_app_Some; [by left|]. right. by apply list_lookup_singleton_Some in Hd as [_ <-]. }
    split; unfold hand_conn; cbn.
    + intros n Hn. destruct (P1 n Hn) as [|(c & k & Hc & Hr)]; [by left|right]. exists c, k. split; [by apply lookup_app_l_Some|done].
    + intros c k [Hc| ->]%Hl; [by eapply P2|]. by split.
    + intros n Hn. destruct (P3 n Hn) as [? Hf]. split; [done|]. intros c k [Hc| ->]%Hl; [by eapply Hf|]. cbn. set_solver.
    + intros c k n [Hc| ->]%Hl Hr; [by eapply P4|]. cbn in Hr. set_solver.
    + intros n c Hn. destruct (P5 n c Hn) as [k Hk]. exists k. by apply lookup_app_l_Some.
  - destruct (ps_closed s || is_Some_b (ps_hand s)); [done|]. by destruct s, Hs.
  - by destruct s, Hs.
  - by destruct s, Hs.
Qed.

Lemma prun_ok l s : peers_ok s -> peers_ok (prun s l).
Proof. revert s. induction l as [|a l IH]; intros s Hs; [done|]. apply (IH (pstep s a)), pstep_ok, Hs. Qed.

Lemma no_peers_ok : peers_ok no_peers.
Proof. split; cbn; try done; set_solver. Qed.

(** ** Torn down for good *)

(** What a client's readers were, and that it was torn down. *)
Definition quieter (k k' : pclient) : Prop :=
  pc_closed k' = true /\ (forall n, n ∈ pc_readers k' -> n ∈ pc_readers k) /\ len (pc_readers k') <= len (pc_readers k).

Lemma len_forget_le n l : len (forget n l) <= len l.
Proof. induction l as [|x l IH]; cbn; [lia|]. destruct (x =? n); rewrite ?len_cons; lia. Qed.

Lemma quieter_step s a c k : ps_clients s !! c = Some k -> pc_closed k = true ->
  exists k', ps_clients (pstep s a) !! c = Some k' /\ quieter k k'.
Proof.
  intros Hc Hk. assert (Hrefl : quieter k k) by (split; [done|split; [done|lia]]).
  assert (Halter : forall d f, (forall k0, quieter k k0 -> quieter k (f k0)) ->
     exists k', alter f d (ps_clients s) !! c = Some k' /\ quieter k k').
  { intros d f Hf. destruct (decide (d = c)) as [->|Hd].
    - exists (f k). rewrite list_lookup_alter_eq, Hc. auto.
    - exists k. by rewrite list_lookup_alter_ne. }
  destruct a as [| |d n|d|d|d| | | |]; cbn [pstep].
  - case_match; eauto.
  - unfold loop, AcceptPeerConn. destruct (ps_hand s) as [[n|n d]|]; [case_match; [|case_match]; eauto| |eauto].
    change (ps_clients (s<| ps_hand := None |>)) with (ps_clients s). destruct (ps_clients s !! d) as [kd|] eqn:Hd; [|eauto].
    destruct (pc_closed kd || pc_cancelled kd) eqn:E; [eauto|]. apply orb_false_iff in E as [E _].
    exists k. split; [|done]. cbn. rewrite list_lookup_alter_ne; [done|]. intros ->. congruence.
  - destruct (ps_clients s !! d); [|eauto]. case_bool_decide; [|eauto]. apply Halter. intros k0 (Q1 & Q2 & Q3).
    split; [done|]. cbn. split; [intros m Hm; by apply Q2, (forget_sub m n)|]. pose proof (len_forget_le n (pc_readers k0)). lia.
  - apply Halter. by intros k0 (Q1 & Q2 & Q3).
  - unfold close_next. destruct (ps_clients s !! d) as [kd|]; [|eauto]. destruct (pc_closing kd); [eauto|].
    apply Halter. by intros k0 (Q1 & Q2 & Q3).
  - apply Halter. by intros k0 (Q1 & Q2 & Q3).
  - exists k. split; [|done]. cbn. by apply lookup_app_l_Some.
  - case_match; eauto.
  - eauto.
  - eauto.
Qed.

Lemma quieter_run l : forall s c k, ps_clients s !! c = Some k -> pc_closed k = true ->
  exists k', ps_clients (prun s l) !! c = Some k' /\ quieter k k'.
Proof.
  induction l as [|a l IH]; intros s c k Hc Hk; [exists k; split; [done|split; [done|split; [done|lia]]]|].
  destruct (quieter_step s a c k Hc Hk) as (k1 & H1 & Q1 & Q2 & Q3).
  destruct (IH (pstep s a) c k1 H1 Q1) as (k2 & H2 & R1 & R2 & R3). exists k2. split; [done|]. split; [done|]. split; [auto|lia].
Qed.

(** C16. The connections a PLC opens, under every interleaving of the accept loop, the readers,
    the teardowns and the publication of new clients.  No socket is leaked: an open one is
    in the hand of the accept loop or has a running reader, which closes it.  The wait
    group of a client counts its workers and its readers, and its list holds exactly the
    connections still read.  Once a client is torn down it never adopts another
    connection, so its wait group only goes down, and when the teardown has closed what it
    took no reader of it is left with an open socket to wait on. *)
Theorem peer_connections_contract l1 l2 c k : let s := prun no_peers l1 in ps_clients s !! c = Some k ->
  (forall n, n ∈ ps_open s -> hand_conn s = Some n \/ exists d kd, ps_clients s !! d = Some kd /\ n ∈ pc_readers kd) /\
  pc_workers k = 3 + recvWorkerCount + len (pc_readers k) /\
  (pc_closed k = false -> pc_conns k = pc_readers k) /\
  (pc_closed k = true -> exists k', ps_clients (prun s l2) !! c = Some k' /\ pc_closed k' = true /\
     pc_workers k' <= pc_workers k /\
     (pc_closing k' = [] -> forall n, n ∈ pc_readers k' -> n ∉ ps_open (prun s l2))).
Proof.
  intros s Hc. pose proof (prun_ok l1 no_peers no_peers_ok) as Hs. fold s in Hs. pose proof (po_clients _ Hs c k Hc) as [K1 K2 K3].
  split; [apply (po_owned _ Hs)|]. split; [done|]. split; [by intros [? _]%K2|]. intros Hk.
  destruct (quieter_run l2 s c k Hc Hk) as (k' & Hc' & Q1 & Q2 & Q3). exists k'. split; [done|]. split; [done|].
  pose proof (prun_ok l2 s Hs) as Hs2.
  destruct (po_clients _ Hs2 c k' Hc') as [L1 L2 L3]. split; [lia|]. intros He n Hr Hn.
  destruct (L3 Q1) as [_ Hx]. specialize (Hx n Hr Hn). rewrite He in Hx. set_solver.
Qed.

Lemma peer_connections_contract_witness :
  let l1 := [PListen; PPublish; PDialIn; PLoop; PLoop; PDialIn; PLoop; PLatch 0] in
  let l2 := [PLoop; PClose 0; PReader 0 0] in
  exists k k', ps_clients (prun no_peers l1) !! 0%nat = Some k /\ pc_workers k = 20 /\
    ps_clients (prun (prun no_peers l1) l2) !! 0%nat = Some k' /\ pc_workers k' <= pc_workers k.
Proof.
  destruct (peer_connections_contract [PListen; PPublish; PDialIn; PLoop; PLoop; PDialIn; PLoop; PLatch 0] [PLoop; PClose 0; PReader 0 0]
    0%nat {| pc_conns := []; pc_closed := true; pc_cancelled := false; pc_closing := [0]; pc_readers := [0]; pc_workers := 20 |} eq_refl)
    as (_ & H2 & _ & H4).
  destruct (H4 eq_refl) as (k' & Hk & _ & Hle & _). eexists _, k'. split; [reflexivity|]. split; [exact H2|]. by split.
Defined.

(** ** Small laws *)

(** Handshake regions nest: whatever balanced or unbalanced releases came before, the
    count is never negative, and a region opened and closed leaves it as it was. *)
Theorem handshake_nests (rs : list bool) n : 0 <= n ->
  let count := foldl (fun n (b : bool) => if b then beginHandshake n else endHandshake n) n rs in
  0 <= count /\ endHandshake (beginHandshake count) = count /\ transportFaultLevel (beginHandshake count) = LevelDebug.
Proof.
  intros Hn. cbv zeta. set (count := foldl _ n rs). assert (Hc : 0 <= count).
  { subst count. revert n Hn. induction rs as [|b rs IH]; intros n Hn; [done|]. cbn. apply IH.
    destruct b; unfold beginHandshake, endHandshake; [lia|]. cbv zeta. destruct (Z.leb_spec 0 (n - 1)); lia. }
  clearbody count. split; [done|]. unfold endHandshake, beginHandshake, transportFaultLevel. cbv zeta.
  rewrite (proj2 (Z.leb_le _ _)) by lia. split; [lia|]. by rewrite (proj2 (Z.ltb_lt _ _)) by lia.
Qed.

Lemma handshake_nests_witness :
  0 <= foldl (fun n (b : bool) => if b then beginHandshake n else endHandshake n) 0 [true; false; false; true].
Proof. apply (handshake_nests [true; false; false; true] 0). lia. Defined.

(** A drop is blamed on the route only when no frame was ever seen on either socket, and
    is an error unless a handshake is under way. *)
Theorem drop_verdict primary peer handshaking err : 0 <= primary -> 0 <= peer -> primary + peer < 2 ^ 64 ->
  let '(v, l) := logDropVerdict primary peer handshaking err in
  (v = DroppedEstablished <-> 0 < primary \/ 0 < peer) /\
  (v = ClosedBeforeAnyFrame <-> primary = 0 /\ peer = 0 /\ isLikelyMissingRoute err = true) /\
  (l = LevelDebug <-> 0 < handshaking).
Proof.
  intros H1 H2 H3. unfold logDropVerdict, wasEstablished, framesSeen, u64, wrap_u, transportFaultLevel.
  rewrite Z.mod_small by lia. destruct (Z.ltb_spec 0 (primary + peer)), (isLikelyMissingRoute err), (Z.ltb_spec 0 handshaking);
    repeat split; intros; try done; try lia; destruct_and?; try lia.
Qed.

Lemma drop_verdict_witness : let '(v, _) := logDropVerdict 0 7 0 (Some (ESentinel ErrEOF)) in v = DroppedEstablished.
Proof. apply (drop_verdict 0 7 0 (Some (ESentinel ErrEOF))); [lia|lia|lia|right; lia]. Defined.
