(* ===== verification/SymbolView.v ===== *)
(** symbols.go and symbol_discovery.go: what a caller sees of a symbol.  A [SymbolView] is
    a copy taken under the cache lock; its methods go back to the session it came from,
    whose cache may have changed since.  [BaseTypeName] names the primitive type a value is
    stored in, and the warning about a type it cannot name is latched per symbol. *)
From S2P Require Import Prelude Wire Strconv Defs Ams Client SumCmd SymbolTable GoTime Utf Codec Access Discovery.

(** [sv_attached]: the view has a session. *)
Record SymbolView : Type := {
  sv_Name : string; sv_FullName : string; sv_DataType : string; sv_Comment : string;
  sv_Handle : Z; sv_Group : Z; sv_Offset : Z; sv_Length : Z; sv_BaseType : Z; sv_Flags : Z;
  sv_ContextMask : Z; sv_Parsed : bool; sv_IsRoot : bool; sv_Value : string; sv_attached : bool }.

Definition view (conn : bool) (d : symbolData) : SymbolView :=
  {| sv_Name := sy_Name d; sv_FullName := sy_FullName d; sv_DataType := sy_DataType d; sv_Comment := sy_Comment d;
     sv_Handle := sy_Handle d; sv_Group := sy_Group d; sv_Offset := sy_Offset d; sv_Length := sy_Length d;
     sv_BaseType := sy_BaseType d; sv_Flags := sy_Flags d; sv_ContextMask := sy_ContextMask d;
     sv_Parsed := sy_Valid d; sv_IsRoot := negb (is_Some_b (sy_Parent d)); sv_Value := sy_Value d;
     sv_attached := conn |}.

Definition IsValid (v : SymbolView) : bool := sv_attached v && negb (String.eqb (sv_FullName v) "").

(** ** The base type *)

(** The type column of the table, whatever it names. *)
Definition table_name (dts : datatypes) (dt : string) : string :=
  match dts !! dt with Some t => dt_type t | None => "" end.

(** The first of [names] that is not empty. *)
Fixpoint first_name (names : list string) : string :=
  match names with
  | [] => ""
  | n :: names => if String.eqb n "" then first_name names else n
  end.

Definition BaseTypeName (v : SymbolView) (dts : datatypes) : string :=
  if parseable (sv_DataType v) then sv_DataType v
  else first_name [adsTypeToString (sv_BaseType v); if sv_attached v then table_name dts (sv_DataType v) else "";
                   inferBaseType (sv_Length v) (sv_BaseType v)].

(** ** The warning about a type that cannot be named
    [warnUnresolvedBaseType] takes the lock twice: it looks, and when it has found an
    object to warn about it comes back to set the latch. *)

Definition resolvable (d : symbolData) (dts : datatypes) : bool :=
  negb (String.eqb (adsTypeToString (sy_BaseType d)) "") || is_Some_b (dts !! sy_DataType d)
  || negb (String.eqb (inferBaseType (sy_Length d) (sy_BaseType d)) "") || parseable (sy_DataType d).

Section Warn.
Context {W : Type}.

(** An object is known by its [en_id]; one that was warned about is in [latched]. *)
Definition suspect (latched : gset Z) (name : string) (s : session W) : option Z :=
  match ss_symbols s !! symbolKey name with
  | None => None
  | Some e =>
      if bool_decide (en_id e ∈ latched) then None
      else if resolvable (en_data e) (ss_datatypes s) then None else Some (en_id e)
  end.

(** Latched objects; records written; goroutines between their two critical sections. *)
Record warner : Type := { wn_latched : gset Z; wn_written : list Z; wn_pending : list Z }.

Definition look (name : string) (s : session W) (w : warner) : warner :=
  match suspect (wn_latched w) name s with
  | None => w
  | Some id => {| wn_latched := wn_latched w; wn_written := wn_written w; wn_pending := wn_pending w ++ [id] |}
  end.

Definition come_back (i : nat) (w : warner) : warner :=
  match wn_pending w !! i with
  | None => w
  | Some id =>
      let pending := delete i (wn_pending w) in
      if bool_decide (id ∈ wn_latched w)
      then {| wn_latched := wn_latched w; wn_written := wn_written w; wn_pending := pending |}
      else {| wn_latched := {[id]} ∪ wn_latched w; wn_written := wn_written w ++ [id]; wn_pending := pending |}
  end.

(** Any number of goroutines, in any order, each finding the session as it then is. *)
Inductive warn_step : Type := WLook (name : string) (s : session W) | WBack (i : nat).
Definition warn (w : warner) (a : warn_step) : warner :=
  match a with WLook name s => look name s w | WBack i => come_back i w end.
Definition warnings (l : list warn_step) : warner := foldl warn {| wn_latched := ∅; wn_written := []; wn_pending := [] |} l.
End Warn.
Arguments warn_step : clear implicits.

(** ** Values and members *)

Section View.
Context {W : Type} `{Transport W} `{FloatText} `{JsonText}.

Definition cached (v : SymbolView) (s : session W) : option entry :=
  if sv_attached v then ss_symbols s !! symbolKey (sv_FullName v) else None.

Definition GetJSON (v : SymbolView) (s : session W) : string :=
  match cached v s with Some e => getJSON (en_sym e) | None => "" end.

(** [None] is the nil map. *)
Definition Children (v : SymbolView) (s : session W) : option (list (string * SymbolView)) :=
  match cached v s with
  | None => None
  | Some e => match sy_children (en_sym e) with
              | [] => None
              | cs => Some (map (fun c => (c.1, view true (sy_data c.2))) cs)
              end
  end.

(** The calls of [fn], which may use the session itself: its state is [A]. *)
Fixpoint walk {A} (fn : SymbolView -> A -> A * bool) (views : list SymbolView) (a : A) : A :=
  match views with
  | [] => a
  | v :: views => let '(a, more) := fn v a in if (more : bool) then walk fn views a else a
  end.

Definition ChildrenWalk {A} (v : SymbolView) (s : session W) (fn : SymbolView -> A -> A * bool) (a : A) : A :=
  match cached v s with
  | None => a
  | Some e => walk fn (map (view true) (collectSubtree (en_sym e))) a
  end.

(** The object [getSymbol] found, read again under the lock. *)
Definition GetSymbol (interfere : session W -> session W) (name : string) : call W SymbolView :=
  e ← getSymbol interfere name;
  s ← get_session;
  mret (view true (en_data (deref (symbolKey name) e (ss_symbols s)))).
End View.
