(* ===== verification/SymbolViewFacts.v ===== *)
(** Theorems on SymbolView.v: the type [BaseTypeName] names is the one [parse] reads - as
    long as the datatype table and the protocol code agree -, the warning is written once
    per symbol whatever the interleaving, and the walk is depth first over the members. *)
From S2P Require Import Prelude Wire Strconv Defs Ams Client SumCmd SymbolTable GoTime Utf Codec CodecSafety Access Discovery SymbolView.

(** ** Type names *)

Lemma eqb_in x l : str_in x l = true -> forall y, String.eqb y x = true -> str_in y l = true.
Proof. by intros H y ->%String.eqb_eq. Qed.

Lemma parse_known_parseable `{FloatText} dt data start stop :
  parseable dt = false -> parse_known dt data start stop = None.
Proof.
  intros Hp. unfold parse_known. cbv zeta.
  assert (Hn : forall x, parseable x = true -> String.eqb dt x = false).
  { intros x Hx. destruct (String.eqb_spec dt x) as [->|]; congruence. }
  cbn [str_in existsb]. by rewrite !Hn.
Qed.

Lemma ads_parseable code : adsTypeToString code <> "" -> parseable (adsTypeToString code) = true.
Proof. unfold adsTypeToString. repeat case_if; done. Qed.
Lemma infer_parseable size base : inferBaseType size base <> "" -> parseable (inferBaseType size base) = true.
Proof. unfold inferBaseType. repeat case_if; done. Qed.

Section Parse.
Context `{FloatText} `{JsonText}.

Lemma parse_leaf_parseable n d T data start dts : parseable T = true ->
  parse_leaf (S n) (with_type d T) data start dts = parse_leaf 1 (with_type d T) data start None.
Proof.
  intros Hp. cbn [parse_leaf with_type sy_Length sy_DataType]. case_if; [done|].
  pose proof (parseable_known T Hp data start (start + sy_Length d)) as Hk. by destruct (parse_known _ _ _ _).
Qed.

(** One round of resolution, for a declared name the [switch] does not know. *)
Lemma parse_leaf_alias d data start dts : parseable (sy_DataType d) = false -> start + sy_Length d <= len data ->
  parse_leaf 2 d data start dts =
  match table_type dts (sy_DataType d) with
  | Some ty => parse_leaf 1 (with_type d ty) data start None
  | None =>
      if negb (String.eqb (adsTypeToString (sy_BaseType d)) "") then
        if (0 <? adsTypeWidth (sy_BaseType d)) && negb (adsTypeWidth (sy_BaseType d) =? sy_Length d)
        then Err (EMsg "cannot parse: this looks like an array or struct, which needs the datatype table")
        else parse_leaf 1 (with_type d (adsTypeToString (sy_BaseType d))) data start None
      else if negb (String.eqb (inferBaseType (sy_Length d) (sy_BaseType d)) "")
           then parse_leaf 1 (with_type d (inferBaseType (sy_Length d) (sy_BaseType d))) data start None
           else Err (EMsg "unknown format cannot parse")
  end.
Proof.
  intros Hp Hl. change (parse_leaf 2 d data start dts) with
    (if len data <? start + sy_Length d then Err (EMsg "data too short") else
     match parse_known (sy_DataType d) data start (start + sy_Length d) with
     | Some r => r
     | None => match table_type dts (sy_DataType d) with
       | Some ty => parse_leaf 1 (with_type d ty) data start None
       | None =>
         if negb (String.eqb (adsTypeToString (sy_BaseType d)) "") then
           if (0 <? adsTypeWidth (sy_BaseType d)) && negb (adsTypeWidth (sy_BaseType d) =? sy_Length d)
           then Err (EMsg "cannot parse: this looks like an array or struct, which needs the datatype table")
           else parse_leaf 1 (with_type d (adsTypeToString (sy_BaseType d))) data start None
         else if negb (String.eqb (inferBaseType (sy_Length d) (sy_BaseType d)) "")
              then parse_leaf 1 (with_type d (inferBaseType (sy_Length d) (sy_BaseType d))) data start None
              else Err (EMsg "unknown format cannot parse") end end).
  rewrite (proj2 (Z.ltb_ge _ _)) by done. by rewrite parse_known_parseable.
Qed.

(** The two resolutions agree on a declared alias: where the table gives it a type the
    codec reads, the protocol code says the same or nothing. *)
Definition layers_agree (d : symbolData) (dts : datatypes) : Prop :=
  parseable (sy_DataType d) = false -> forall ty, table_type (Some dts) (sy_DataType d) = Some ty ->
  adsTypeToString (sy_BaseType d) = "" \/ adsTypeToString (sy_BaseType d) = ty.

(** The protocol code is that of a scalar as wide as the symbol, or says nothing. *)
Definition scalar_width (d : symbolData) : Prop :=
  adsTypeWidth (sy_BaseType d) = 0 \/ adsTypeWidth (sy_BaseType d) = sy_Length d.

Lemma BaseTypeName_alias d dts : parseable (sy_DataType d) = false ->
  BaseTypeName (view true d) dts = first_name [adsTypeToString (sy_BaseType d); table_name dts (sy_DataType d);
                                               inferBaseType (sy_Length d) (sy_BaseType d)].
Proof. intros Hp. unfold BaseTypeName. cbn [view sv_DataType sv_BaseType sv_Length sv_attached]. by rewrite Hp. Qed.

Lemma table_type_name dts dt ty : table_type (Some dts) dt = Some ty -> table_name dts dt = ty /\ parseable ty = true.
Proof. unfold table_type, table_name. destruct (dts !! dt); [|done]. case_match; [|done]. by intros [= <-]. Qed.

Lemma table_type_none dts dt : table_type (Some dts) dt = None -> parseable (table_name dts dt) = false.
Proof. unfold table_type, table_name. destruct (dts !! dt); [|done]. by case_match. Qed.

(** The base type [BaseTypeName] names is the type the value is read as: a symbol without
    members parses exactly as one declared with that name, and where the name is empty it
    cannot be parsed. *)
Theorem base_type_is_what_parse_reads d data start dts :
  layers_agree d dts -> scalar_width d -> start + sy_Length d <= len data ->
  let T := BaseTypeName (view true d) dts in
  (parseable T = true -> parse_leaf 2 d data start (Some dts) = parse_leaf 2 (with_type d T) data start None)
  /\ (T = "" -> exists m, parse_leaf 2 d data start (Some dts) = Err (EMsg m)).
Proof.
  intros Ha Hw Hl T. subst T. destruct (parseable (sy_DataType d)) eqn:Ep.
  - unfold BaseTypeName. cbn [view sv_DataType]. rewrite Ep. split; [|by intros E; rewrite E in Ep].
    intros _. rewrite (parse_leaf_parseable 1 d (sy_DataType d) data start None) by done.
    rewrite <- (parse_leaf_parseable 1 d (sy_DataType d) data start (Some dts)) by done. by destruct d.
  - rewrite BaseTypeName_alias by done. specialize (Ha Ep). rewrite parse_leaf_alias by done.
    assert (Hg : (0 <? adsTypeWidth (sy_BaseType d)) && negb (adsTypeWidth (sy_BaseType d) =? sy_Length d) = false).
    { destruct Hw as [-> | ->]; [done|]. rewrite Z.eqb_refl. by rewrite andb_false_r. }
    rewrite Hg. cbn [first_name].
    destruct (table_type (Some dts) (sy_DataType d)) as [ty|] eqn:Et.
    + destruct (table_type_name _ _ _ Et) as [En Hp]. rewrite En.
      assert (Hne : String.eqb ty "" = false) by (by destruct (String.eqb_spec ty "") as [->|]).
      destruct (Ha ty eq_refl) as [-> | ->]; cbn [String.eqb]; rewrite ?Hne;
        (split; [intros _; by rewrite (parse_leaf_parseable 1)|intros ->; done]).
    + apply table_type_none in Et. revert Et. generalize (table_name dts (sy_DataType d)). intros tn Et.
      destruct (String.eqb_spec (adsTypeToString (sy_BaseType d)) "") as [Eb|Eb]; cbn [negb].
      * destruct (String.eqb_spec tn "") as [->|Hn]; [|split; [congruence|done]].
        destruct (String.eqb_spec (inferBaseType (sy_Length d) (sy_BaseType d)) "") as [Ei|Ei]; cbn [negb].
        -- split; [done|]. intros _. by eexists.
        -- split; [|done]. intros Hp. by rewrite (parse_leaf_parseable 1).
      * split; [|done]. intros Hp. by rewrite (parse_leaf_parseable 1).
Qed.
End Parse.

#[local] Existing Instance bits_text.
#[local] Existing Instance empty_json.

Definition sample_enum : symbolData :=
  {| sy_Name := "mode"; sy_FullName := "MAIN.mode"; sy_DataType := "E_Mode"; sy_Comment := ""; sy_Handle := 7;
     sy_Group := 16448; sy_Offset := 0; sy_Length := 2; sy_BaseType := ADSTInt16; sy_Flags := 0; sy_ContextMask := 0;
     sy_Value := ""; sy_Valid := false; sy_ValueParsed := false; sy_Parent := None |}.
Definition alias_table (name ty : string) : datatypes := {[ name := MkDataType SymbolTable.zero_entry name ty "" [] ]}.

Lemma base_type_is_what_parse_reads_witness :
  let T := BaseTypeName (view true sample_enum) (alias_table "E_Mode" "INT") in
  (parseable T = true -> parse_leaf 2 sample_enum (put_u16 65535) 0 (Some (alias_table "E_Mode" "INT"))
                         = parse_leaf 2 (with_type sample_enum T) (put_u16 65535) 0 None)
  /\ (T = "" -> exists m, parse_leaf 2 sample_enum (put_u16 65535) 0 (Some (alias_table "E_Mode" "INT")) = Err (EMsg m)).
Proof.
  apply (base_type_is_what_parse_reads sample_enum (put_u16 65535) 0 (alias_table "E_Mode" "INT")).
  - intros _ ty. vm_compute. intros [= <-]. by right.
  - by right.
  - vm_compute. discriminate.
Defined.

(** Where they disagree - an alias of TIME or DT, whose protocol code is that of its
    storage -, [parse] follows the table and [BaseTypeName] the code: the consumer is told
    a type the value is not the text of. *)
Theorem alias_is_misnamed `{FloatText} d data start dts ty : parseable (sy_DataType d) = false ->
  table_type (Some dts) (sy_DataType d) = Some ty -> adsTypeToString (sy_BaseType d) <> "" ->
  start + sy_Length d <= len data ->
  BaseTypeName (view true d) dts = adsTypeToString (sy_BaseType d)
  /\ parse_leaf 2 d data start (Some dts) = parse_leaf 2 (with_type d ty) data start None.
Proof.
  intros Hp Ht Hb Hl. split.
  - rewrite BaseTypeName_alias by done. cbn [first_name]. by destruct (String.eqb_spec (adsTypeToString (sy_BaseType d)) "").
  - rewrite parse_leaf_alias by done. rewrite Ht. destruct (table_type_name _ _ _ Ht). by rewrite (parse_leaf_parseable 1).
Qed.

(** A delay of type [T_Delay : TIME]: "UDINT" for a value that reads "00:00:02". *)
Definition sample_delay : symbolData :=
  {| sy_Name := "delay"; sy_FullName := "MAIN.delay"; sy_DataType := "T_Delay"; sy_Comment := ""; sy_Handle := 7;
     sy_Group := 16448; sy_Offset := 0; sy_Length := 4; sy_BaseType := ADSTUint32; sy_Flags := 0; sy_ContextMask := 0;
     sy_Value := ""; sy_Valid := false; sy_ValueParsed := false; sy_Parent := None |}.

Lemma alias_is_misnamed_witness :
  BaseTypeName (view true sample_delay) (alias_table "T_Delay" "TIME") = "UDINT"
  /\ parse_leaf 2 sample_delay (put_u32 2500) 0 (Some (alias_table "T_Delay" "TIME"))
     = parse_leaf 2 (with_type sample_delay "TIME") (put_u32 2500) 0 None.
Proof. apply (alias_is_misnamed sample_delay (put_u32 2500) 0 (alias_table "T_Delay" "TIME") "TIME"); by vm_compute. Defined.

(** The table's name is passed on whatever it is. *)
Lemma base_type_of_struct_alias d : sy_DataType d = "T_Alias" -> sy_BaseType d = 65 ->
  BaseTypeName (view true d) (alias_table "T_Alias" "ST_Motor") = "ST_Motor".
Proof. intros H1 H2. unfold BaseTypeName. cbn [view sv_DataType sv_BaseType sv_attached]. rewrite H1, H2. by vm_compute. Qed.

(** ** The warning *)

Section Warned.
Context {W : Type}.

(** Some step of [l] met the object [id] under a type it could not name. *)
Definition met (l : list (warn_step W)) (id : Z) : Prop :=
  exists name s e, WLook name s ∈ l /\ ss_symbols s !! symbolKey name = Some e
    /\ en_id e = id /\ resolvable (en_data e) (ss_datatypes s) = false.

Lemma met_app l a id : met (l ++ [a]) id <-> met l id \/ met [a] id.
Proof.
  unfold met. setoid_rewrite elem_of_app. split.
  - intros (n & s & e & [Hl|Hl] & Hr); [left|right]; by exists n, s, e.
  - intros [(n & s & e & Hl & Hr)|(n & s & e & Hl & Hr)]; exists n, s, e; (split; [|done]); [by left|by right].
Qed.

Lemma suspect_met latched name s id : (suspect latched name s = Some id -> met [WLook name s] id)
  /\ (met [WLook name s] id -> suspect latched name s = Some id \/ id ∈ latched).
Proof.
  unfold suspect, met. split.
  - intros Hs. destruct (ss_symbols s !! symbolKey name) as [e|] eqn:El; [|done]. case_bool_decide; [done|].
    destruct (resolvable _ _) eqn:Er; [done|]. injection Hs as <-. exists name, s, e. by rewrite list_elem_of_singleton.
  - intros (n & s' & e & Hi%list_elem_of_singleton & Hl & <- & Hr). injection Hi as -> ->. rewrite Hl, Hr.
    case_bool_decide; [by right|by left].
Qed.

Lemma met_back i id : ~ met [WBack i] id.
Proof. intros (n & s & e & Hi%list_elem_of_singleton & _). done. Qed.

(** What holds of the warner after the steps [l]. *)
Record accounted (l : list (warn_step W)) (w : warner) : Prop := {
  ac_once : NoDup (wn_written w); ac_latched : forall id, id ∈ wn_latched w <-> id ∈ wn_written w;
  ac_met : forall id, id ∈ wn_written w \/ id ∈ wn_pending w <-> met l id }.

Lemma warn_accounted l w a : accounted l w -> accounted (l ++ [a]) (warn w a).
Proof.
  intros [H1 H2 H3]. destruct a as [name s|i]; cbn [warn].
  - unfold look.
    assert (Hs := suspect_met (wn_latched w) name s).
    destruct (suspect (wn_latched w) name s) as [x|]; (split; cbn; [done|done|]); intros id; rewrite met_app, <- H3;
      destruct (Hs id) as [Ha Hb].
    + rewrite elem_of_app, list_elem_of_singleton. split; [intros [?|[?| ->]]; auto|].
      intros [?|Hm]; [tauto|]. destruct (Hb Hm) as [[= ->]|Hi]; [auto|]. left. by apply H2.
    + split; [auto|]. intros [?|Hm]; [done|]. destruct (Hb Hm) as [|Hi]; [done|]. left. by apply H2.
  - unfold come_back. assert (Hm : forall id, met (l ++ [WBack i]) id <-> met l id).
    { intros id. rewrite met_app. pose proof (met_back i id). tauto. }
    destruct (wn_pending w !! i) as [x|] eqn:Ei; [|split; [done|done|]; intros id; by rewrite Hm, H3].
    assert (Hd : forall id, id ∈ wn_pending w <-> id = x \/ id ∈ delete i (wn_pending w)).
    { intros id. rewrite (delete_Permutation _ _ _ Ei) at 1. by rewrite elem_of_cons. }
    case_bool_decide as Hx; (split; cbn; [| |intros id; rewrite Hm, <- H3, (Hd id)]).
    + done.
    + done.
    + apply H2 in Hx. split; [tauto|]. intros [?|[-> |?]]; auto.
    + apply NoDup_app. split; [done|]. split; [|apply NoDup_singleton].
      intros y Hy Hyx%list_elem_of_singleton. subst y. by apply Hx, H2.
    + intros id. rewrite elem_of_union, elem_of_singleton, elem_of_app, list_elem_of_singleton, H2. tauto.
    + rewrite elem_of_app, list_elem_of_singleton. tauto.
Qed.

Lemma warnings_accounted l : accounted l (warnings l).
Proof.
  unfold warnings. induction l as [|a l IH] using rev_ind; [|rewrite foldl_app; by apply warn_accounted].
  split; cbn; [constructor|set_solver|]. intros id. split; [set_solver|]. intros (n & s & e & Hi & _). set_solver.
Qed.

(** However calls interleave, and whatever happens to the cache between their two critical
    sections, an unresolvable symbol object is warned about at most once, only if it was
    met unresolvable, and exactly once when the calls that met it are done. *)
Theorem unresolved_warned_once (l : list (warn_step W)) :
  NoDup (wn_written (warnings l))
  /\ (forall id, id ∈ wn_written (warnings l) -> met l id)
  /\ (wn_pending (warnings l) = [] -> forall id, met l id -> id ∈ wn_written (warnings l)).
Proof.
  destruct (warnings_accounted l) as [H1 _ H3]. split; [done|]. split.
  - intros id Hi. apply H3. by left.
  - intros Hp id Hm. apply H3 in Hm as [?|Hm]; [done|]. rewrite Hp in Hm. by apply not_elem_of_nil in Hm.
Qed.
End Warned.

(** ** The walk *)

(** Levels of members below a symbol. *)
Fixpoint height (s : symbol) : nat :=
  let '(MkSymbol _ cs) := s in
  (fix go (cs : list (string * symbol)) : nat :=
     match cs with
     | [] => O
     | (_, c) :: cs => Nat.max (S (height c)) (go cs)
     end) cs.

Lemma collectSubtree_members n s : (height s <= n)%nat -> collectSubtreeDepth n s = map sy_data (members s).
Proof.
  revert s. induction n as [|n IH]; intros [d cs]; cbn [height collectSubtreeDepth members sy_children].
  - destruct cs as [|[k c] cs]; [done|lia].
  - induction cs as [|[k c] cs IHcs]; [done|]. intros Hh. cbn [flat_map map].
    rewrite IH, IHcs by lia. by rewrite map_app.
Qed.

Section Walk.
Context {W : Type} `{Transport W}.

(** From state [a], [fn] is called on the views of the first list in order, asks to go on
    each time but the last, and leaves [b]; the second list is not visited. *)
Inductive calls {A} (fn : SymbolView -> A -> A * bool) : list SymbolView -> list SymbolView -> A -> A -> Prop :=
| calls_end a : calls fn [] [] a a
| calls_stop v left a b : fn v a = (b, false) -> calls fn [v] left a b
| calls_more v pre left a a' b : fn v a = (a', true) -> calls fn pre left a' b -> calls fn (v :: pre) left a b.

Lemma walk_calls {A} (fn : SymbolView -> A -> A * bool) views a :
  exists pre left, views = pre ++ left /\ calls fn pre left a (walk fn views a).
Proof.
  revert a. induction views as [|v views IH]; intros a; cbn [walk]; [exists [], []; split; [done|constructor]|].
  destruct (fn v a) as [a' []] eqn:Ef.
  - destruct (IH a') as (pre & left & -> & Hc). exists (v :: pre), left. split; [done|]. by apply (calls_more _ _ _ _ _ a').
  - exists [v], views. split; [done|]. by constructor.
Qed.

(** A walk visits the members of the symbol depth first, each level in the order of the
    map, and stops at the first refusal - for trees of up to 256 levels. *)
Theorem ChildrenWalk_depth_first {A} (v : SymbolView) (s : session W) (fn : SymbolView -> A -> A * bool) a e :
  cached v s = Some e -> (height (en_sym e) <= 256)%nat ->
  exists pre left, map (fun c => view true (sy_data c)) (members (en_sym e)) = pre ++ left
    /\ calls fn pre left a (ChildrenWalk v s fn a).
Proof.
  intros Hc Hh. unfold ChildrenWalk. rewrite Hc. unfold collectSubtree, collectSubtreeMaxDepth.
  rewrite collectSubtree_members, map_map by done. apply walk_calls.
Qed.
End Walk.

(** ** The JSON of a composite *)

(** What [parse] stores as the value of a symbol with members is what [GetJSON] makes of
    the members it stored. *)
Lemma parsed_composite_json `{FloatText} `{JsonText} s data offset dts s' v :
  parse s data offset dts = Ok (s', v) -> sy_children s <> [] ->
  getJSON s' = v /\ sy_Value (sy_data s') = v /\ sy_Valid (sy_data s') = true.
Proof.
  destruct s as [d cs]. cbn [parse sy_children]. case_if; [done|]. destruct cs as [|c cs]; [done|]. intros Hp _.
  match type of Hp with context [mbind ?f ?m] => destruct m as [cs'|err|] eqn:Em end; [|done|done]. cbn in Hp.
  destruct c as [k c]. revert Hp. intros [= <- <-]. split; [|done].
  assert (Hne : cs' <> []).
  { revert Em. destruct (slice _ _ _); cbn; try done. destruct (parse c _ _ _) as [[]| |]; cbn; try done.
    match goal with |- context [mbind ?f ?m] => destruct m end; cbn; [|done|done]. by intros [= <-]. }
  by destruct cs'.
Qed.
