(* ===== verification/Shutdown.v ===== *)
(** session.go: how a session stops its own goroutines.  [trackGoroutineOn] is the gate
    every background goroutine enters by, [admitBackgroundWork] the gate of a recovery,
    [markClosed] shuts both; [Close] and [giveUpReconnecting] release what the PLC holds
    and cancel, and [Close] then waits for the goroutines; [tearDownAndReset] waits for one
    group of them on every reconnect.

    Each of these runs on a goroutine of its own, in the steps between its locks and
    waits; a run is any interleaving.  A step that its lock or its wait does not let
    through yet changes nothing. *)
From S2P Require Import Prelude.
From coqutil Require Import Datatypes.RecordSetters.
Export TriangleBracketNotations.

(** ** State *)

(** [lifecycle.waitGroup], [heartbeatWG] and [stateWG]. *)
Inductive group : Type := GLifecycle | GHeartbeat | GState.

Record counts : Type := { n_lifecycle : Z; n_heartbeat : Z; n_state : Z }.
Definition count (g : group) (c : counts) : Z :=
  match g with GLifecycle => n_lifecycle c | GHeartbeat => n_heartbeat c | GState => n_state c end.
Definition add (g : group) (d : Z) (c : counts) : counts :=
  match g with
  | GLifecycle => c<| n_lifecycle := n_lifecycle c + d |>
  | GHeartbeat => c<| n_heartbeat := n_heartbeat c + d |>
  | GState => c<| n_state := n_state c + d |>
  end.

(** [Close] step by step; [CRelease] carries the handles [takeNotificationHandles] took.
    [giveUpReconnecting] takes the same steps up to the cancel. *)
Inductive close_pc : Type :=
| CEnter | CMark | CShutdown | CRelease (taken : gset Z) | CCancel
| CWaitHeartbeat | CWaitState | CWaitLifecycle | CDone.
Record closer : Type := { cl_waits : bool; cl_pc : close_pc }.

(** [tearDownAndReset]: it holds [spawnMu] while it waits. *)
Inductive teardown_pc : Type := TEnter | TLock | TWait | TDone.

(** [shutdownOnce]. *)
Inductive once : Type := NotRun | Running | Ran.

(** [sd_spawnMu] is the teardown that holds the mutex across its wait; [sd_live]: the
    context is not cancelled and the socket is open; [sd_known] are the handles in
    [activeNotifications], [sd_held] those the PLC has a registration for;
    [sd_recoveries] the recoveries under way on the heartbeat watcher's goroutine;
    [sd_misuse]: an [Add] met a waiter on a group whose counter was zero, which panics. *)
Record shutdown : Type := {
  sd_closedFSM : bool; sd_closedCh : bool; sd_spawnMu : option nat; sd_counts : counts; sd_once : once;
  sd_live : bool; sd_known : gset Z; sd_held : gset Z; sd_next : Z; sd_recoveries : nat;
  sd_closers : list closer; sd_teardowns : list teardown_pc; sd_misuse : bool }.

Definition running_session (live : bool) : shutdown :=
  {| sd_closedFSM := false; sd_closedCh := false; sd_spawnMu := None;
     sd_counts := {| n_lifecycle := 0; n_heartbeat := 0; n_state := 0 |}; sd_once := NotRun; sd_live := live;
     sd_known := ∅; sd_held := ∅; sd_next := 1; sd_recoveries := 0; sd_closers := []; sd_teardowns := [];
     sd_misuse := false |}.

(** ** The gates *)

Definition refused (s : shutdown) : bool := sd_closedCh s || sd_closedFSM s.

(** Some goroutine is in [Wait] on the group. *)
Definition waits_on (g : group) (c : closer) : bool :=
  match g, cl_pc c with
  | GHeartbeat, CWaitHeartbeat | GState, CWaitState | GLifecycle, CWaitLifecycle => true
  | _, _ => false
  end.
Definition tears_down (t : teardown_pc) : bool := match t with TWait => true | _ => false end.
Definition waiting (g : group) (s : shutdown) : bool :=
  existsb (waits_on g) (sd_closers s)
  || match g with GLifecycle => existsb tears_down (sd_teardowns s) | _ => false end.

Definition trackGoroutineOn (g : group) (s : shutdown) : shutdown :=
  if is_Some_b (sd_spawnMu s) then s
  else if refused s then s
  else s<| sd_misuse := sd_misuse s || ((count g (sd_counts s) =? 0) && waiting g s) |>
        <| sd_counts := add g 1 (sd_counts s) |>.

(** The deferred [Done]; the watcher is inside its recovery while one is under way. *)
Definition goroutine_ends (g : group) (s : shutdown) : shutdown :=
  let busy := match g with GHeartbeat => Z.of_nat (sd_recoveries s) | _ => 0 end in
  if busy <? count g (sd_counts s) then s<| sd_counts := add g (-1) (sd_counts s) |> else s.

(** [admitBackgroundWork], called by a recovery on a watcher's goroutine. *)
Definition admitBackgroundWork (s : shutdown) : bool := negb (refused s).
Definition enter_recovery (s : shutdown) : shutdown :=
  if is_Some_b (sd_spawnMu s) then s
  else if Z.of_nat (sd_recoveries s) <? n_heartbeat (sd_counts s) then
    if admitBackgroundWork s then s<| sd_recoveries := S (sd_recoveries s) |> else s
  else s.

(** A recovery registers a subscription: a request that needs the transport, and the
    entry under the handle the PLC chose. *)
Definition recovery_adds (s : shutdown) : shutdown :=
  if (0 <? Z.of_nat (sd_recoveries s)) && sd_live s then
    s<| sd_known := {[sd_next s]} ∪ sd_known s |><| sd_held := {[sd_next s]} ∪ sd_held s |><| sd_next := sd_next s + 1 |>
  else s.
Definition recovery_ends (s : shutdown) : shutdown := s<| sd_recoveries := pred (sd_recoveries s) |>.

(** ** Close *)

Definition at_pc (c : closer) (pc : close_pc) : closer := {| cl_waits := cl_waits c; cl_pc := pc |}.
(** After [shutdownTransport]: only [Close] goes on to wait. *)
Definition past_shutdown (c : closer) : closer := at_pc c (if cl_waits c then CWaitHeartbeat else CDone).
Definition awaited (g : group) (next : close_pc) (c : closer) (s : shutdown) : shutdown * closer :=
  if count g (sd_counts s) =? 0 then (s, at_pc c next) else (s, c).

(** The next step of one closer.  Releasing comes before the cancel, so that the deletes
    go out; a dead transport delivers none. *)
Definition close_step (c : closer) (s : shutdown) : shutdown * closer :=
  match cl_pc c with
  | CEnter => (s<| sd_closedFSM := true |>, at_pc c CMark)
  | CMark => if is_Some_b (sd_spawnMu s) then (s, c) else (s<| sd_closedCh := true |>, at_pc c CShutdown)
  | CShutdown =>
      match sd_once s with
      | NotRun => (s<| sd_once := Running |><| sd_known := ∅ |>, at_pc c (CRelease (sd_known s)))
      | Running => (s, c)
      | Ran => (s, past_shutdown c)
      end
  | CRelease taken => ((if sd_live s then s<| sd_held := sd_held s ∖ taken |> else s), at_pc c CCancel)
  | CCancel => (s<| sd_live := false |><| sd_once := Ran |>, past_shutdown c)
  | CWaitHeartbeat => awaited GHeartbeat CWaitState c s
  | CWaitState => awaited GState CWaitLifecycle c s
  | CWaitLifecycle => awaited GLifecycle CDone c s
  | CDone => (s, c)
  end.

(** ** tearDownAndReset *)

Definition teardown_step (i : nat) (t : teardown_pc) (s : shutdown) : shutdown * teardown_pc :=
  match t with
  | TEnter => (s<| sd_live := false |>, TLock)
  | TLock => if is_Some_b (sd_spawnMu s) then (s, t) else (s<| sd_spawnMu := Some i |>, TWait)
  | TWait => if n_lifecycle (sd_counts s) =? 0 then (s<| sd_spawnMu := None |>, TDone) else (s, t)
  | TDone => (s, t)
  end.

(** ** A session's life *)

(** [ADial]: a redial, which checks for the close. *)
Inductive action : Type :=
| ASpawn (g : group) | AEnds (g : group) | ARecover | AAdd | ARecovered
| AClose | AGiveUp | ACloser (i : nat) | ATeardown | ATears (i : nat) | ADial.

Definition act (s : shutdown) (a : action) : shutdown :=
  match a with
  | ASpawn g => trackGoroutineOn g s
  | AEnds g => goroutine_ends g s
  | ARecover => enter_recovery s
  | AAdd => recovery_adds s
  | ARecovered => recovery_ends s
  | AClose => s<| sd_closers := sd_closers s ++ [{| cl_waits := true; cl_pc := CEnter |}] |>
  | AGiveUp => s<| sd_closers := sd_closers s ++ [{| cl_waits := false; cl_pc := CEnter |}] |>
  | ACloser i =>
      match sd_closers s !! i with
      | None => s
      | Some c => let '(s, c) := close_step c s in s<| sd_closers := <[i := c]> (sd_closers s) |>
      end
  | ATeardown => s<| sd_teardowns := sd_teardowns s ++ [TEnter] |>
  | ATears i =>
      match sd_teardowns s !! i with
      | None => s
      | Some t => let '(s, t) := teardown_step i t s in s<| sd_teardowns := <[i := t]> (sd_teardowns s) |>
      end
  | ADial => if sd_closedFSM s then s else s<| sd_live := true |>
  end.
Definition acts (s : shutdown) (l : list action) : shutdown := foldl act s l.
