(* ===== verification/ShutdownFacts.v ===== *)
(** Theorems on Shutdown.v: the wait groups are never misused, when [Close] returns nothing
    started through the gate runs or ever will, [Close] can always finish, and a session
    that is closing admits no recovery - but one admitted before still registers. *)
From S2P Require Import Prelude Shutdown.
From coqutil Require Import Datatypes.RecordSetters.

#[local] Arguments constant {E} newValue _ /.

Lemma acts_app s l l' : acts s (l ++ l') = acts (acts s l) l'.
Proof. apply foldl_app. Qed.

Lemma acts_ind (P : shutdown -> Prop) l s : P s -> (forall s a, P s -> P (act s a)) -> P (acts s l).
Proof. intros H0 Hs. revert s H0. induction l as [|a l IH]; intros s H0; [done|]. apply IH. by apply Hs. Qed.

(** ** What holds of every run *)

(** How far a closer is. *)
Definition rank (pc : close_pc) : nat :=
  match pc with
  | CEnter => 0 | CMark => 1 | CShutdown => 2 | CRelease _ => 3 | CCancel => 4
  | CWaitHeartbeat => 5 | CWaitState => 6 | CWaitLifecycle => 7 | CDone => 8
  end.

(** What the position of a closer says about the session. *)
Record placed (s : shutdown) (c : closer) : Prop := {
  pl_fsm : (1 <= rank (cl_pc c))%nat -> sd_closedFSM s = true;
  pl_ch : (2 <= rank (cl_pc c))%nat -> sd_closedCh s = true;
  pl_giveup : cl_waits c = false -> (rank (cl_pc c) <= 4)%nat \/ cl_pc c = CDone;
  pl_heartbeat : cl_waits c = true -> (6 <= rank (cl_pc c))%nat -> n_heartbeat (sd_counts s) = 0;
  pl_state : cl_waits c = true -> (7 <= rank (cl_pc c))%nat -> n_state (sd_counts s) = 0;
  pl_lifecycle : cl_waits c = true -> cl_pc c = CDone -> n_lifecycle (sd_counts s) = 0;
  pl_once : (5 <= rank (cl_pc c))%nat -> sd_once s = Ran }.

Record sound (s : shutdown) : Prop := {
  so_placed : Forall (placed s) (sd_closers s);
  so_lock : forall i, sd_spawnMu s = Some i <-> sd_teardowns s !! i = Some TWait;
  so_counts : 0 <= n_lifecycle (sd_counts s) /\ Z.of_nat (sd_recoveries s) <= n_heartbeat (sd_counts s)
              /\ 0 <= n_state (sd_counts s);
  so_once : sd_once s = Running -> exists i c, sd_closers s !! i = Some c /\ (rank (cl_pc c) = 3 \/ rank (cl_pc c) = 4)%nat;
  so_misuse : sd_misuse s = false }.

(** Steps that keep what is shut shut, and what is quiet quiet. *)
Record kept (s s' : shutdown) : Prop := {
  kp_fsm : sd_closedFSM s = true -> sd_closedFSM s' = true;
  kp_ch : sd_closedCh s = true -> sd_closedCh s' = true;
  kp_quiet : forall g, sd_closedCh s = true -> count g (sd_counts s) = 0 -> count g (sd_counts s') = 0;
  kp_once : sd_once s = Ran -> sd_once s' = Ran }.

Lemma kept_refl s : kept s s. Proof. by split. Qed.

Lemma placed_kept s s' c : kept s s' -> placed s c -> placed s' c.
Proof.
  intros [K1 K2 K3 K4] [P1 P2 P3 P4 P5 P6 P7]. split; [auto|auto|done| | | |auto].
  - intros Hw Hr. apply (K3 GHeartbeat); [|by apply P4]. apply P2. lia.
  - intros Hw Hr. apply (K3 GState); [|by apply P5]. apply P2. lia.
  - intros Hw Hr. apply (K3 GLifecycle); [|by apply P6]. apply P2. rewrite Hr. cbn. lia.
Qed.

Lemma existsb_false {A} (f : A -> bool) l : existsb f l = false <-> forall x, x ∈ l -> f x = false.
Proof.
  split.
  - intros H x Hx. destruct (f x) eqn:E; [|done]. assert (Ht : existsb f l = true); [|congruence].
    apply existsb_exists. exists x. by rewrite <- list_elem_of_In.
  - intros H. destruct (existsb f l) eqn:E; [|done]. apply existsb_exists in E as (x & Hi & Hf).
    rewrite <- list_elem_of_In in Hi. by rewrite (H x Hi) in Hf.
Qed.

(** A waiter has shut the gate, or holds the mutex. *)
Lemma waiting_excluded s g : sound s -> waiting g s = true -> sd_closedCh s = true \/ is_Some_b (sd_spawnMu s) = true.
Proof.
  intros [Hp Hl _ _ _] [Hw|Hw]%orb_prop.
  - left. apply existsb_exists in Hw as (c & Hi & Hc). rewrite <- list_elem_of_In in Hi.
    rewrite Forall_forall in Hp. apply (pl_ch s c (Hp c Hi)). revert Hc. destruct g, c as [w []]; cbn; try done; lia.
  - right. destruct g; [|done|done]. apply existsb_exists in Hw as (t & Hi & Ht). rewrite <- list_elem_of_In in Hi.
    destruct t; try done. apply list_elem_of_lookup in Hi as (i & Hi). apply Hl in Hi. by rewrite Hi.
Qed.

(** Only the lists and the parts named change. *)
Lemma sound_same s s' : sound s -> kept s s' -> sd_closers s' = sd_closers s -> sd_teardowns s' = sd_teardowns s ->
  sd_spawnMu s' = sd_spawnMu s -> sd_once s' = sd_once s -> sd_misuse s' = false ->
  0 <= n_lifecycle (sd_counts s') /\ Z.of_nat (sd_recoveries s') <= n_heartbeat (sd_counts s') /\ 0 <= n_state (sd_counts s') ->
  sound s'.
Proof.
  intros [Hp Hl _ Ho _] Hk Ec Et Em Eo Hm Hc. split; try done.
  - rewrite Ec. eapply Forall_impl; [exact Hp|]. intros c. by apply placed_kept.
  - intros i. by rewrite Em, Et.
  - by rewrite Eo, Ec.
Qed.

Lemma spawn_sound g s : sound s -> sound (trackGoroutineOn g s).
Proof.
  intros Hs. unfold trackGoroutineOn. destruct (is_Some_b (sd_spawnMu s)) eqn:El; [done|].
  destruct (refused s) eqn:Er; [done|]. apply orb_false_elim in Er as [Ech Ef].
  assert (Hw : waiting g s = false).
  { destruct (waiting g s) eqn:E; [|done]. destruct (waiting_excluded s g Hs E); congruence. }
  assert (Hm : sd_misuse s || ((count g (sd_counts s) =? 0) && waiting g s) = false).
  { by rewrite (so_misuse s Hs), Hw, andb_false_r. }
  destruct (so_counts s Hs) as (H1 & H2 & H3). destruct s, sd_counts.
  apply (sound_same _ _ Hs); try done.
  - split; try done. intros g' Hc. cbn in Hc, Ech. congruence.
  - destruct g; cbn in *; lia.
Qed.

Lemma ends_sound g s : sound s -> sound (goroutine_ends g s).
Proof.
  intros Hs. unfold goroutine_ends. case_match eqn:Ec; [|done]. apply Z.ltb_lt in Ec.
  destruct (so_counts s Hs) as (H1 & H2 & H3). pose proof (so_misuse s Hs) as Hm. destruct s, sd_counts.
  apply (sound_same _ _ Hs); try done.
  - split; try done. intros g' Hc. destruct g, g'; cbn in *; lia.
  - destruct g; cbn in *; lia.
Qed.

Lemma recovery_sound a s : sound s -> a ∈ [ARecover; AAdd; ARecovered; ADial] -> sound (act s a).
Proof.
  intros Hs Ha. destruct (so_counts s Hs) as (H1 & H2 & H3). pose proof (so_misuse s Hs) as Hm.
  rewrite !elem_of_cons, elem_of_nil in Ha. destruct Ha as [-> | [-> | [-> | [-> | []]]]]; cbn [act].
  - unfold enter_recovery. case_match; [done|]. case_match eqn:Ec; [|done]. case_match; [|done]. apply Z.ltb_lt in Ec.
    destruct s, sd_counts. apply (sound_same _ _ Hs); try done; cbn in *; lia.
  - unfold recovery_adds. case_match; [|done]. destruct s. apply (sound_same _ _ Hs); done.
  - unfold recovery_ends. destruct s, sd_counts. apply (sound_same _ _ Hs); try done; cbn in *; lia.
  - case_match; [done|]. destruct s. apply (sound_same _ _ Hs); done.
Qed.

(** One step of a closer: what it leaves alone, and where it arrives. *)
Lemma close_step_keeps c s s1 c1 : close_step c s = (s1, c1) ->
  sd_closers s1 = sd_closers s /\ sd_teardowns s1 = sd_teardowns s /\ sd_spawnMu s1 = sd_spawnMu s
  /\ sd_counts s1 = sd_counts s /\ sd_recoveries s1 = sd_recoveries s /\ sd_misuse s1 = sd_misuse s
  /\ cl_waits c1 = cl_waits c.
Proof. unfold close_step, awaited. destruct s, c as [w []]; cbn; repeat case_match; by intros [= <- <-]. Qed.

Lemma close_step_kept c s s1 c1 : close_step c s = (s1, c1) -> kept s s1.
Proof.
  intros E. destruct (close_step_keeps _ _ _ _ E) as (_ & _ & _ & Ec & _). split; [| |by rewrite Ec|];
    revert E; unfold close_step, awaited; destruct s, c as [w []]; cbn; repeat case_match; intros [= <- <-]; cbn; congruence.
Qed.

Lemma close_step_placed c s s1 c1 : close_step c s = (s1, c1) -> placed s c -> placed s1 c1.
Proof.
  intros E Hp. pose proof (placed_kept _ _ _ (close_step_kept _ _ _ _ E) Hp) as Hq. destruct Hp as [P1 P2 P3 P4 P5 P6 P7].
  revert E Hq. unfold close_step, awaited, past_shutdown. destruct s, sd_counts, c as [w []]; cbn in *;
    repeat case_match; intros [= <- <-] [Q1 Q2 Q3 Q4 Q5 Q6 Q7]; cbn in *; try done;
    (split; cbn; try done; try (intros; first [done|lia|by apply P1; lia|by apply P2; lia|by apply P4; [done|lia]|by apply P5; [done|lia]|by left; lia|by right|auto]));
    try (by intros; exfalso; lia); first [by destruct P3; [done|lia|]|by apply P7; lia].
Qed.

Lemma close_step_once c s s1 c1 : close_step c s = (s1, c1) -> sd_once s1 = Running ->
  (rank (cl_pc c1) = 3 \/ rank (cl_pc c1) = 4)%nat
  \/ (sd_once s = Running /\ rank (cl_pc c) <> 3%nat /\ rank (cl_pc c) <> 4%nat).
Proof.
  unfold close_step, awaited, past_shutdown. destruct s, c as [w []]; cbn; repeat case_match;
    intros [= <- <-]; cbn; intros; subst; try discriminate; auto; right; repeat split; try done; cbn; lia.
Qed.

Lemma closer_sound i s : sound s -> sound (act s (ACloser i)).
Proof.
  intros Hs. cbn [act]. destruct (sd_closers s !! i) as [c|] eqn:Hi; [|done].
  destruct (close_step c s) as [s1 c1] eqn:E. destruct (close_step_keeps _ _ _ _ E) as (E1 & E2 & E3 & E4 & E5 & E6 & E7).
  pose proof (close_step_kept _ _ _ _ E) as Hk. destruct Hs as [Hp Hl Hc Ho Hm].
  assert (Hplaced : Forall (placed s1) (<[i:=c1]> (sd_closers s1))).
  { rewrite E1. apply Forall_insert; [|by eapply close_step_placed, Forall_lookup_1].
    eapply Forall_impl; [exact Hp|]. intros x. by apply placed_kept. }
  assert (Honce : sd_once s1 = Running -> exists j d, <[i:=c1]> (sd_closers s1) !! j = Some d /\ (rank (cl_pc d) = 3 \/ rank (cl_pc d) = 4)%nat).
  { intros Hr. rewrite E1. assert (Hlt : (i < length (sd_closers s))%nat) by by apply lookup_lt_Some in Hi.
    destruct (close_step_once _ _ _ _ E Hr) as [H1|(Hr' & H1 & H2)].
    - exists i, c1. split; [by apply list_lookup_insert_eq|done].
    - destruct (Ho Hr') as (j & d & Hj & Hd). exists j, d. split; [|done].
      rewrite list_lookup_insert_ne; [done|]. intros ->. rewrite Hi in Hj. injection Hj as <-. lia. }
  clear - Hplaced Honce Hl Hc Hm E2 E3 E4 E5 E6. rewrite <- E2, <- E3 in Hl. rewrite <- E4, <- E5 in Hc. rewrite <- E6 in Hm.
  split; destruct s1; [|exact Hl|exact Hc|exact Honce|exact Hm].
  eapply Forall_impl; [exact Hplaced|]. intros x [P1 P2 P3 P4 P5 P6 P7]. by split.
Qed.

Lemma teardown_step_keeps i t s s1 t1 : teardown_step i t s = (s1, t1) ->
  sd_closers s1 = sd_closers s /\ sd_teardowns s1 = sd_teardowns s /\ sd_counts s1 = sd_counts s /\ sd_once s1 = sd_once s
  /\ sd_recoveries s1 = sd_recoveries s /\ sd_misuse s1 = sd_misuse s /\ kept s s1.
Proof. unfold teardown_step. destruct s, t; cbn; repeat case_match; intros [= <- <-]; split_and!; try done; by split. Qed.

Lemma teardown_step_lock i t s s1 t1 : teardown_step i t s = (s1, t1) -> (sd_spawnMu s = Some i <-> t = TWait) ->
  (sd_spawnMu s1 = Some i <-> t1 = TWait) /\ (forall j, j <> i -> sd_spawnMu s1 = Some j <-> sd_spawnMu s = Some j).
Proof.
  unfold teardown_step. destruct s, t; cbn; intros E Hm; revert E; repeat case_match; intros [= <- <-]; cbn;
    (split; [|try done]); try (intuition congruence).
  - destruct sd_spawnMu; [done|]. intros j Hj. split; congruence.
Qed.

Lemma tears_sound i s : sound s -> sound (act s (ATears i)).
Proof.
  intros Hs. cbn [act]. destruct (sd_teardowns s !! i) as [t|] eqn:Hi; [|done].
  destruct (teardown_step i t s) as [s1 t1] eqn:E. destruct (teardown_step_keeps _ _ _ _ _ E) as (E1 & E2 & E3 & E4 & E5 & E6 & Hk).
  destruct Hs as [Hp Hl Hc Ho Hm].
  destruct (teardown_step_lock _ _ _ _ _ E) as [L1 L2]; [rewrite Hl, Hi; split; congruence|].
  assert (Hlock : forall j, sd_spawnMu s1 = Some j <-> <[i:=t1]> (sd_teardowns s1) !! j = Some TWait).
  { intros j. rewrite E2. destruct (decide (j = i)) as [-> | Hj].
    - rewrite list_lookup_insert_eq by (by apply lookup_lt_Some in Hi). rewrite L1. split; congruence.
    - by rewrite list_lookup_insert_ne, L2, Hl by done. }
  assert (Hp1 : Forall (placed s1) (sd_closers s1)).
  { rewrite E1. eapply Forall_impl; [exact Hp|]. intros x. by apply placed_kept. }
  clear - Hlock Hp1 Hc Ho Hm E1 E3 E4 E5 E6. rewrite <- E3, <- E5 in Hc. rewrite <- E6 in Hm. rewrite <- E1, <- E4 in Ho.
  split; destruct s1; [|exact Hlock|exact Hc|exact Ho|exact Hm].
  eapply Forall_impl; [exact Hp1|]. intros x [P1 P2 P3 P4 P5 P6 P7]. by split.
Qed.

Lemma new_closer_sound w s : sound s -> sound (s<| sd_closers := sd_closers s ++ [{| cl_waits := w; cl_pc := CEnter |}] |>).
Proof.
  intros [Hp Hl Hc Ho Hm]. split; destruct s; [|exact Hl|exact Hc| |exact Hm]; cbn.
  - apply Forall_app. split.
    + eapply Forall_impl; [exact Hp|]. intros x [P1 P2 P3 P4 P5 P6 P7]. by split.
    + apply Forall_singleton. split; cbn; try lia; done.
  - intros Hr. destruct (Ho Hr) as (i & c & Hi & Hc'). exists i, c. split; [|done]. by apply lookup_app_l_Some.
Qed.

Lemma new_teardown_sound s : sound s -> sound (act s ATeardown).
Proof.
  intros [Hp Hl Hc Ho Hm]. split; destruct s; [| |exact Hc|exact Ho|exact Hm].
  - eapply Forall_impl; [exact Hp|]. intros x [P1 P2 P3 P4 P5 P6 P7]. by split.
  - intros i. etrans; [apply (Hl i)|]. cbn. rewrite lookup_app. destruct (sd_teardowns !! i) as [t|] eqn:E; [done|].
    split; [done|]. intros H. by apply list_lookup_singleton_Some in H as [_ H].
Qed.

Lemma act_sound s a : sound s -> sound (act s a).
Proof.
  intros Hs. destruct a.
  - by apply spawn_sound.
  - by apply ends_sound.
  - apply (recovery_sound ARecover); [done|set_solver].
  - apply (recovery_sound AAdd); [done|set_solver].
  - apply (recovery_sound ARecovered); [done|set_solver].
  - by apply new_closer_sound.
  - by apply new_closer_sound.
  - by apply closer_sound.
  - by apply new_teardown_sound.
  - by apply tears_sound.
  - apply (recovery_sound ADial); [done|set_solver].
Qed.

Lemma running_sound live : sound (running_session live).
Proof. split; cbn; try done; lia || (by intros [|?]). Qed.

Lemma acts_sound live l : sound (acts (running_session live) l).
Proof. apply acts_ind; [apply running_sound|]. intros s a. apply act_sound. Qed.

(** ** Nothing runs once Close has returned *)

Lemma act_kept s a : kept s (act s a).
Proof.
  destruct a; cbn [act].
  - unfold trackGoroutineOn, refused. case_match; [by split|]. case_match eqn:Er; [by split|].
    apply orb_false_elim in Er as [Ech Ef]. destruct s; split; cbn in *; congruence.
  - unfold goroutine_ends. case_match eqn:Ec; [|by split]. apply Z.ltb_lt in Ec.
    destruct s, sd_counts; split; try done. intros g' _. destruct g, g'; cbn in *; lia.
  - unfold enter_recovery. repeat case_match; destruct s; by split.
  - unfold recovery_adds. case_match; destruct s; by split.
  - destruct s; by split.
  - destruct s; by split.
  - destruct s; by split.
  - destruct (sd_closers s !! i) as [c|]; [|by split]. destruct (close_step c s) as [s1 c1] eqn:E.
    destruct (close_step_kept _ _ _ _ E). destruct s1; by split.
  - destruct s; by split.
  - destruct (sd_teardowns s !! i) as [t|]; [|by split]. destruct (teardown_step i t s) as [s1 t1] eqn:E.
    destruct (teardown_step_keeps _ _ _ _ _ E) as (_ & _ & _ & _ & _ & _ & K). destruct K, s1; by split.
  - case_match; destruct s; by split.
Qed.

Lemma kept_trans s1 s2 s3 : kept s1 s2 -> kept s2 s3 -> kept s1 s3.
Proof. intros [] []. split; auto. Qed.

Lemma acts_kept s l : kept s (acts s l).
Proof. apply acts_ind; [apply kept_refl|]. intros s' a Hk. eapply kept_trans; [exact Hk|apply act_kept]. Qed.

(** C7. On every schedule, no [Add] meets a [Wait] on an empty group - the misuse that panics
    the process -, and when a [Close] has returned no goroutine entered by the gate is
    running, in any of the groups, and none will be. *)
Theorem close_leaves_nothing_running live l :
  let s := acts (running_session live) l in
  sd_misuse s = false
  /\ forall i c, sd_closers s !! i = Some c -> cl_waits c = true -> cl_pc c = CDone ->
     forall l' g, count g (sd_counts (acts s l')) = 0.
Proof.
  intros s. pose proof (acts_sound live l) as Hs. fold s in Hs. split; [apply (so_misuse s Hs)|].
  intros i c Hi Hw Hd l' g. destruct (Forall_lookup_1 _ _ _ _ (so_placed s Hs) Hi) as [P1 P2 P3 P4 P5 P6 P7].
  rewrite Hd in P2, P4, P5. cbn in P2, P4, P5. apply (kp_quiet _ _ (acts_kept s l')); [apply P2; lia|].
  destruct g; [by apply P6|apply P4; [done|lia]|apply P5; [done|lia]].
Qed.

(** A recovery and an orphan delete running while the session closes, during a teardown. *)
Definition busy_close : list action :=
  [ASpawn GHeartbeat; ASpawn GLifecycle; ARecover; ATeardown; ATears 0; ATears 0; AClose; ACloser 0; ACloser 0;
   AEnds GLifecycle; ATears 0; ACloser 0; ACloser 0; ACloser 0; ASpawn GLifecycle; ACloser 0; ACloser 0;
   ARecovered; AEnds GHeartbeat; ACloser 0; ACloser 0; ACloser 0].

Lemma close_leaves_nothing_running_witness :
  sd_misuse (acts (running_session true) busy_close) = false
  /\ n_heartbeat (sd_counts (acts (acts (running_session true) busy_close) [ASpawn GHeartbeat])) = 0.
Proof.
  destruct (close_leaves_nothing_running true busy_close) as [Hm Hq]. split; [exact Hm|].
  apply (Hq 0%nat {| cl_waits := true; cl_pc := CDone |} ltac:(by vm_compute) eq_refl eq_refl [ASpawn GHeartbeat] GHeartbeat).
Defined.

(** ** What the PLC is left with *)

Definition releasing (c : closer) : bool := match cl_pc c with CRelease _ | CCancel => true | _ => false end.
Definition tearing (a : action) : bool := match a with ATears _ => true | _ => false end.

Lemma close_step_subs c s s1 c1 : close_step c s = (s1, c1) ->
  match cl_pc c with
  | CShutdown => match sd_once s with
                 | NotRun => sd_once s1 = Running /\ cl_pc c1 = CRelease (sd_known s) /\ sd_held s1 = sd_held s /\ sd_live s1 = sd_live s
                 | _ => releasing c1 = false /\ sd_once s1 = sd_once s /\ sd_held s1 = sd_held s /\ sd_known s1 = sd_known s /\ sd_live s1 = sd_live s
                 end
  | CRelease taken => sd_once s1 = sd_once s /\ cl_pc c1 = CCancel /\ sd_held s1 = if sd_live s then sd_held s ∖ taken else sd_held s
  | CCancel => sd_once s1 = Ran /\ sd_held s1 = sd_held s
  | _ => releasing c1 = false /\ sd_once s1 = sd_once s /\ sd_held s1 = sd_held s /\ sd_known s1 = sd_known s /\ sd_live s1 = sd_live s
  end.
Proof.
  unfold close_step, awaited, past_shutdown. destruct s, c as [[] []]; cbn; repeat case_match; intros [= <- <-]; done.
Qed.

(** What the steps of the others do to all this. *)
Definition is_closer (a : action) : bool := match a with ACloser _ => true | _ => false end.

Record aside (s s' : shutdown) : Prop := {
  as_once : sd_once s' = sd_once s;
  as_sets : (sd_held s' = sd_held s /\ sd_known s' = sd_known s)
            \/ (sd_recoveries s <> O /\ exists n, sd_held s' = {[n]} ∪ sd_held s /\ sd_known s' = {[n]} ∪ sd_known s);
  as_closers : sd_closers s' = sd_closers s \/ exists w, sd_closers s' = sd_closers s ++ [{| cl_waits := w; cl_pc := CEnter |}] }.

Lemma teardown_step_sets i t s s1 t1 : teardown_step i t s = (s1, t1) -> sd_held s1 = sd_held s /\ sd_known s1 = sd_known s.
Proof. unfold teardown_step. destruct s, t; cbn; repeat case_match; by intros [= <- <-]. Qed.

Lemma act_aside s a : is_closer a = false -> aside s (act s a).
Proof.
  destruct a; cbn [act is_closer]; intros Hc; try done.
  - unfold trackGoroutineOn. repeat case_match; destruct s; split; auto.
  - unfold goroutine_ends. repeat case_match; destruct s; split; auto.
  - unfold enter_recovery. repeat case_match; destruct s; split; auto.
  - unfold recovery_adds. case_match eqn:E; destruct s; split; auto. right. cbn in *.
    split; [by destruct sd_recoveries|by eexists].
  - destruct s; split; auto.
  - destruct s; split; auto. right. by eexists.
  - destruct s; split; auto. right. by eexists.
  - destruct s; split; auto.
  - destruct (sd_teardowns s !! i) as [t|]; [|split; auto]. destruct (teardown_step i t s) as [s1 t1] eqn:E.
    destruct (teardown_step_keeps _ _ _ _ _ E) as (E1 & _ & _ & E4 & _). destruct (teardown_step_sets _ _ _ _ _ E) as [E5 E6].
    split; [rewrite <- E4|rewrite <- E5, <- E6|rewrite <- E1]; destruct s1; auto.
  - case_match; destruct s; split; auto.
Qed.

Lemma act_live s a : is_closer a = false -> tearing a = false -> sd_closedFSM s = true -> sd_live (act s a) = sd_live s.
Proof.
  destruct a; cbn [act is_closer tearing]; intros Hc Ht Hf; try done; try (by destruct s).
  - unfold trackGoroutineOn. repeat case_match; by destruct s.
  - unfold goroutine_ends. repeat case_match; by destruct s.
  - unfold enter_recovery. repeat case_match; by destruct s.
  - unfold recovery_adds. case_match; by destruct s.
  - by rewrite Hf.
Qed.

(** A session that is closing admits no recovery. *)
Lemma act_recoveries s a : sd_closedFSM s = true -> (sd_recoveries (act s a) <= sd_recoveries s)%nat.
Proof.
  intros Hf. destruct a; cbn [act]; try (destruct s; cbn; lia).
  - unfold trackGoroutineOn. repeat case_match; destruct s; cbn; lia.
  - unfold goroutine_ends. repeat case_match; destruct s; cbn; lia.
  - unfold enter_recovery, admitBackgroundWork, refused. rewrite Hf, orb_true_r. repeat case_match; by destruct s.
  - unfold recovery_adds. case_match; destruct s; cbn; lia.
  - destruct (sd_closers s !! i) as [c|]; [|done]. destruct (close_step c s) as [s1 c1] eqn:E.
    destruct (close_step_keeps _ _ _ _ E) as (_ & _ & _ & _ & <- & _). by destruct s1.
  - destruct (sd_teardowns s !! i) as [t|]; [|done]. destruct (teardown_step i t s) as [s1 t1] eqn:E.
    destruct (teardown_step_keeps _ _ _ _ _ E) as (_ & _ & _ & _ & <- & _). by destruct s1.
  - case_match; destruct s; cbn; lia.
Qed.

(** Where the handles are: with the session; with the closer that took them, the only one
    inside the release; or given back. *)
Definition none_releasing (l : list closer) : Prop := Forall (fun c => releasing c = false) l.
Inductive whereabouts (s : shutdown) : Prop :=
| with_session : sd_once s = NotRun -> sd_live s = true -> sd_held s ⊆ sd_known s -> none_releasing (sd_closers s) -> whereabouts s
| with_closer i w taken : sd_once s = Running -> sd_closers s !! i = Some {| cl_waits := w; cl_pc := CRelease taken |} ->
    sd_live s = true -> sd_held s ⊆ taken -> (forall j c, j <> i -> sd_closers s !! j = Some c -> releasing c = false) -> whereabouts s
| given_back : sd_once s <> NotRun -> sd_held s = ∅ -> whereabouts s.

Lemma act_closer i s c s1 c1 : sd_closers s !! i = Some c -> close_step c s = (s1, c1) ->
  let s' := act s (ACloser i) in
  sd_once s' = sd_once s1 /\ sd_held s' = sd_held s1 /\ sd_known s' = sd_known s1 /\ sd_live s' = sd_live s1
  /\ sd_closers s' = <[i:=c1]> (sd_closers s).
Proof.
  intros Hi E. cbn [act]. rewrite Hi, E. destruct (close_step_keeps _ _ _ _ E) as (E1 & _). rewrite <- E1. by destruct s1.
Qed.

Lemma none_releasing_insert i c1 l : none_releasing l -> releasing c1 = false -> none_releasing (<[i:=c1]> l).
Proof. intros. by apply Forall_insert. Qed.

Lemma none_releasing_app l w : none_releasing l -> none_releasing (l ++ [{| cl_waits := w; cl_pc := CEnter |}]).
Proof. intros. apply Forall_app. split; [done|]. by apply Forall_singleton. Qed.

(** Until a closer has taken the handles, the session knows all the PLC holds. *)
Definition untaken (s : shutdown) : Prop :=
  sd_once s = NotRun -> sd_held s ⊆ sd_known s /\ none_releasing (sd_closers s).

Lemma act_untaken s a : untaken s -> untaken (act s a).
Proof.
  intros Hu Hn. destruct (is_closer a) eqn:Ec.
  - destruct a; try done. destruct (sd_closers s !! i) as [c|] eqn:Hi; [|cbn [act] in *; rewrite Hi in *; by apply Hu].
    destruct (close_step c s) as [s1 c1] eqn:E. destruct (act_closer _ _ _ _ _ Hi E) as (A1 & A2 & A3 & A4 & A5).
    rewrite A1 in Hn. rewrite A2, A3, A5. pose proof (close_step_subs _ _ _ _ E) as Hsub.
    assert (Hn0 : sd_once s = NotRun).
    { destruct (cl_pc c), (sd_once s); repeat match goal with H : _ /\ _ |- _ => destruct H end; congruence. }
    destruct (Hu Hn0) as [Hk Hr]. pose proof (Forall_lookup_1 _ _ _ _ Hr Hi) as Hci. rewrite Hn0 in Hsub. unfold releasing in Hci.
    destruct (cl_pc c); try discriminate Hci; destruct Hsub as [H1 Hsub]; try congruence;
      destruct Hsub as (_ & -> & -> & _); (split; [done|by apply none_releasing_insert]).
  - destruct (act_aside s a Ec) as [A1 A2 A3]. rewrite A1 in Hn. destruct (Hu Hn) as [Hk Hr]. split.
    + destruct A2 as [[-> ->]|(_ & n & -> & ->)]; [done|set_solver].
    + destruct A3 as [-> | (w & ->)]; [done|by apply none_releasing_app].
Qed.

Lemma acts_untaken live l : untaken (acts (running_session live) l).
Proof. apply acts_ind; [by split; [|constructor]|]. intros s a. apply act_untaken. Qed.

Lemma act_whereabouts s a : sd_closedFSM s = true -> sd_recoveries s = O -> tearing a = false ->
  whereabouts s -> whereabouts (act s a).
Proof.
  intros Hf Hrec Ht Hw. destruct (is_closer a) eqn:Ec.
  - destruct a; try done. destruct (sd_closers s !! i) as [c|] eqn:Hi; [|cbn [act]; by rewrite Hi].
    destruct (close_step c s) as [s1 c1] eqn:E. destruct (act_closer _ _ _ _ _ Hi E) as (A1 & A2 & A3 & A4 & A5).
    pose proof (close_step_subs _ _ _ _ E) as Hsub. destruct Hw as [Hn Hl Hk Hr|j w taken Hn Hj Hl Hk Hr|Hn Hk].
    + pose proof (Forall_lookup_1 _ _ _ _ Hr Hi) as Hci. rewrite Hn in Hsub. unfold releasing in Hci.
      destruct (cl_pc c) eqn:Ep; try done;
        try (destruct Hsub as (H1 & H2 & H3 & H4 & H5); apply with_session; rewrite ?A1, ?A2, ?A3, ?A4, ?A5;
             [congruence|congruence|by rewrite H3, H4|by apply none_releasing_insert]).
      destruct Hsub as (H1 & H2 & H3 & H4). apply (with_closer _ i (cl_waits c1) (sd_known s));
        rewrite ?A1, ?A2, ?A4, ?A5; [congruence| |congruence|by rewrite H3|].
      * rewrite list_lookup_insert_eq by (by apply lookup_lt_Some in Hi). by destruct c1; cbn in *; subst.
      * intros j x Hj. rewrite list_lookup_insert_ne by done. apply (Forall_lookup_1 _ _ j x Hr).
    + destruct (decide (i = j)) as [-> | Hij].
      * rewrite Hj in Hi. injection Hi as <-. cbn in Hsub. destruct Hsub as (H1 & H2 & H3). rewrite Hl in H3.
        apply given_back; rewrite ?A1, ?A2; [congruence|]. rewrite H3. set_solver.
      * pose proof (Hr i c Hij Hi) as Hci.
        rewrite Hn in Hsub. unfold releasing in Hci.
        assert (Hs : releasing c1 = false /\ sd_once s1 = sd_once s /\ sd_held s1 = sd_held s /\ sd_live s1 = sd_live s).
        { rewrite Hn. destruct (cl_pc c); try done; tauto. }
        destruct Hs as (H1 & H2 & H3 & H4). apply (with_closer _ j w taken); rewrite ?A1, ?A2, ?A4, ?A5; [congruence| |congruence|by rewrite H3|].
        -- by rewrite list_lookup_insert_ne.
        -- intros k x Hkj Hx. destruct (decide (k = i)) as [-> | Hki].
           ++ rewrite list_lookup_insert_eq in Hx by (by apply lookup_lt_Some in Hi). by injection Hx as <-.
           ++ rewrite list_lookup_insert_ne in Hx by done. by apply (Hr k).
    + assert (Hk1 : sd_held s1 = ∅ /\ sd_once s1 <> NotRun).
      { destruct (cl_pc c), (sd_once s) eqn:Eo; try congruence; repeat match goal with H : _ /\ _ |- _ => destruct H end;
          (split; [|congruence]); try congruence; match goal with H : sd_held s1 = _ |- _ => rewrite H end; case_match; set_solver. }
      apply given_back; rewrite ?A1, ?A2; tauto.
  - destruct (act_aside s a Ec) as [A1 A2 A3]. pose proof (act_live s a Ec Ht Hf) as A4.
    destruct A2 as [[A5 A6]|[Hr _]]; [|done].
    destruct Hw as [Hn Hl Hk Hr|j w taken Hn Hj Hl Hk Hr|Hn Hk].
    + apply with_session; rewrite ?A1, ?A4, ?A5, ?A6; try done. destruct A3 as [-> | (w & ->)]; [done|by apply none_releasing_app].
    + apply (with_closer _ j w taken); rewrite ?A1, ?A4, ?A5, ?A6; try done; destruct A3 as [-> | (w' & ->)]; try done.
      * by apply lookup_app_l_Some.
      * intros k x Hkj Hx. destruct (lookup_app_Some (sd_closers s) [{| cl_waits := w'; cl_pc := CEnter |}] k x) as [Hy _].
        destruct (Hy Hx) as [Hz|[_ Hz]]; [by apply (Hr k)|]. by apply list_lookup_singleton_Some in Hz as [_ <-].
    + apply given_back; by rewrite ?A1, ?A5.
Qed.

Lemma acts_closing s l : sd_closedFSM s = true -> sd_recoveries s = O ->
  sd_closedFSM (acts s l) = true /\ sd_recoveries (acts s l) = O.
Proof.
  intros Hf Hr. apply (acts_ind (fun s => sd_closedFSM s = true /\ sd_recoveries s = O)); [done|].
  intros s' a [H1 H2]. split; [by apply (kp_fsm _ _ (act_kept s' a))|]. pose proof (act_recoveries s' a H1). lia.
Qed.

Lemma acts_whereabouts s l : sd_closedFSM s = true -> sd_recoveries s = O -> Forall (fun a => tearing a = false) l ->
  whereabouts s -> whereabouts (acts s l).
Proof.
  intros Hf Hr Ht. revert s Hf Hr. induction Ht as [|a l Ha Ht IH]; intros s Hf Hr Hs; [done|].
  destruct (acts_closing s [a] Hf Hr) as [Hf' Hr']. apply IH; [done|done|by apply act_whereabouts].
Qed.



(** But the gate lets a recovery in and does not make Close wait for it before the
    release: one admitted just before the session is marked closed registers after the
    handles were taken, and nobody deletes what it registered. *)
Theorem admitted_recovery_outlives_the_release :
  exists l s, acts (running_session true) l = s
    /\ sd_closers s = [{| cl_waits := true; cl_pc := CDone |}] /\ sd_counts s = {| n_lifecycle := 0; n_heartbeat := 0; n_state := 0 |}
    /\ sd_held s = {[1]} /\ sd_recoveries s = O.
Proof.
  eexists [ASpawn GHeartbeat; ARecover; AClose; ACloser 0; ACloser 0; ACloser 0; ACloser 0; AAdd; ACloser 0;
           ARecovered; AEnds GHeartbeat; ACloser 0; ACloser 0; ACloser 0], _.
  split; [by vm_compute|]. by vm_compute.
Qed.

(** ** Close can finish *)

(** Steps that start nothing. *)
Definition finishing (a : action) : bool :=
  match a with AEnds _ | ARecovered | ACloser _ | ATears _ => true | _ => false end.

(** Reaching [s'] by such steps, with the closers' kinds as they were. *)
Definition can_reach (s s' : shutdown) : Prop := exists l, Forall (fun a => finishing a = true) l /\ acts s l = s'.

Lemma can_reach_refl s : can_reach s s. Proof. by exists []. Qed.
Lemma can_reach_step s a s' : finishing a = true -> can_reach (act s a) s' -> can_reach s s'.
Proof. intros Ha (l & Hl & <-). exists (a :: l). split; [by constructor|done]. Qed.
Lemma can_reach_trans s1 s2 s3 : can_reach s1 s2 -> can_reach s2 s3 -> can_reach s1 s3.
Proof. intros (l & Hl & <-) (l' & Hl' & <-). exists (l ++ l'). split; [by apply Forall_app|by rewrite acts_app]. Qed.

(** No goroutine of the groups runs and the mutex is free. *)
Definition quiet (s : shutdown) : Prop :=
  sd_counts s = {| n_lifecycle := 0; n_heartbeat := 0; n_state := 0 |} /\ sd_recoveries s = O /\ sd_spawnMu s = None.
(** The closers and the release are as they were. *)
Definition unmoved (s s' : shutdown) : Prop := sd_closers s' = sd_closers s /\ sd_once s' = sd_once s.

Lemma drain_recoveries s : exists s', can_reach s s' /\ unmoved s s' /\ sd_recoveries s' = O.
Proof.
  remember (sd_recoveries s) as n eqn:En. revert s En. induction n as [|n IH]; intros s En.
  - exists s. split_and!; [apply can_reach_refl|done|done].
  - destruct (IH (act s ARecovered)) as (s' & H1 & [H2 H3] & H4); [destruct s; cbn in *; lia|].
    exists s'. split_and!; [by apply (can_reach_step _ ARecovered)|split; [rewrite H2|rewrite H3]; by destruct s|done].
Qed.

Lemma drain_group g s : 0 <= count g (sd_counts s) -> sd_recoveries s = O ->
  exists s', can_reach s s' /\ unmoved s s' /\ sd_recoveries s' = O /\ count g (sd_counts s') = 0
    /\ forall g', g' <> g -> count g' (sd_counts s') = count g' (sd_counts s).
Proof.
  intros Hc Hr. remember (Z.to_nat (count g (sd_counts s))) as n eqn:En. revert s Hc Hr En.
  induction n as [|n IH]; intros s Hc Hr En.
  - exists s. split_and!; [apply can_reach_refl|done|done|lia|done].
  - assert (Ha : act s (AEnds g) = s<| sd_counts := add g (-1) (sd_counts s) |>).
    { cbn [act]. unfold goroutine_ends. rewrite Hr. replace (match g with GHeartbeat => Z.of_nat 0 | _ => 0 end) with 0 by by destruct g.
      by rewrite (proj2 (Z.ltb_lt _ _)) by lia. }
    destruct (IH (act s (AEnds g))) as (s' & H1 & [H2 H3] & H4 & H5 & H6); rewrite ?Ha.
    + destruct s, sd_counts, g; cbn in *; lia.
    + by destruct s.
    + destruct s, sd_counts, g; cbn in *; lia.
    + exists s'. rewrite Ha in H2, H3, H6. split_and!; [by apply (can_reach_step _ (AEnds g))| |done|done|].
      * split; [rewrite H2|rewrite H3]; by destruct s.
      * intros g' Hg. rewrite H6 by done. destruct s, sd_counts, g, g'; cbn; done.
Qed.

(** Goroutines end, the teardown that holds the mutex gets through its wait. *)
Lemma drain live l : let s := acts (running_session live) l in
  exists s', can_reach s s' /\ unmoved s s' /\ quiet s'.
Proof.
  intros s. pose proof (acts_sound live l) as Hs. fold s in Hs.
  assert (Hreach : exists l', acts (running_session live) l' = s) by by exists l. clearbody s.
  destruct (drain_recoveries s) as (s1 & (l1 & F1 & <-) & U1 & R1).
  assert (S1 : sound (acts s l1)) by (apply (acts_ind sound); [done|intros; by apply act_sound]).
  destruct (so_counts _ S1) as (C1 & C2 & C3).
  destruct (drain_group GLifecycle _ C1 R1) as (s2 & P2 & U2 & R2 & N2 & O2).
  destruct (drain_group GHeartbeat s2) as (s3 & P3 & U3 & R3 & N3 & O3); [rewrite O2 by done; cbn; lia|done|].
  destruct (drain_group GState s3) as (s4 & (l4 & F4 & E4) & U4 & R4 & N4 & O4); [rewrite O3, O2 by done; exact C3|done|].
  assert (P4 : can_reach s s4).
  { eapply can_reach_trans; [by exists l1|]. eapply can_reach_trans; [exact P2|]. eapply can_reach_trans; [exact P3|]. by exists l4. }
  assert (S4 : sound s4) by (destruct P4 as (l' & _ & <-); apply (acts_ind sound); [done|intros; by apply act_sound]).
  assert (U : unmoved s s4) by (unfold unmoved in *; intuition congruence).
  assert (Hc : sd_counts s4 = {| n_lifecycle := 0; n_heartbeat := 0; n_state := 0 |}).
  { pose proof (O4 GLifecycle ltac:(done)) as A. rewrite (O3 GLifecycle ltac:(done)), N2 in A.
    pose proof (O4 GHeartbeat ltac:(done)) as B. rewrite N3 in B. clear - A B N4. destruct s4, sd_counts. cbn in *. congruence. }
  destruct (sd_spawnMu s4) as [k|] eqn:Em; [|by exists s4].
  pose proof (proj1 (so_lock _ S4 k) Em) as Hk. exists (act s4 (ATears k)).
  assert (Ha : act s4 (ATears k) = s4<| sd_spawnMu := None |><| sd_teardowns := <[k:=TDone]> (sd_teardowns s4) |>).
  { cbn [act]. rewrite Hk. cbn [teardown_step]. rewrite Hc. cbn. by destruct s4. }
  split_and!; [eapply can_reach_trans; [exact P4|]; exists [ATears k]; split; [by repeat constructor|done]| |];
    rewrite Ha; destruct s4; cbn in *; [exact U|by split_and!].
Qed.

(** In the quiet every step of a closer gets through, unless another is releasing. *)
Lemma close_step_advances s c : quiet s -> (sd_once s = Running -> rank (cl_pc c) = 3 \/ rank (cl_pc c) = 4)%nat ->
  (rank (cl_pc c) < 8)%nat ->
  exists s1 c1, close_step c s = (s1, c1) /\ (rank (cl_pc c) < rank (cl_pc c1))%nat
    /\ (sd_once s1 = Running -> rank (cl_pc c1) = 3 \/ rank (cl_pc c1) = 4)%nat.
Proof.
  intros (Hc & Hr & Hm) Ho Hlt. destruct (close_step c s) as [s1 c1] eqn:E. exists s1, c1. split; [done|].
  revert E. unfold close_step, awaited, past_shutdown. rewrite Hc, Hm. destruct s, c as [w []]; cbn in *; try lia;
    repeat case_match; intros [= <- <-]; cbn; subst; (split; [first [lia|destruct (Ho eq_refl); lia]|]);
    intros H'; first [congruence|by auto|destruct (Ho H'); lia|lia].
Qed.

Lemma act_closer_quiet i s c s1 c1 : sd_closers s !! i = Some c -> close_step c s = (s1, c1) -> quiet s -> quiet (act s (ACloser i)).
Proof.
  intros Hi E (H1 & H2 & H3). destruct (close_step_keeps _ _ _ _ E) as (_ & _ & E3 & E4 & E5 & _).
  cbn [act]. rewrite Hi, E. unfold quiet. rewrite <- E3 in H3. rewrite <- E4 in H1. rewrite <- E5 in H2. by destruct s1.
Qed.

Lemma finish i s c : quiet s -> sd_closers s !! i = Some c ->
  (sd_once s = Running -> rank (cl_pc c) = 3 \/ rank (cl_pc c) = 4)%nat ->
  exists s' c', can_reach s s' /\ quiet s' /\ sd_once s' <> Running /\ sd_closers s' !! i = Some c' /\ cl_pc c' = CDone
    /\ cl_waits c' = cl_waits c /\ forall k, k <> i -> sd_closers s' !! k = sd_closers s !! k.
Proof.
  remember (8 - rank (cl_pc c))%nat as n eqn:En. revert s c En. induction n as [n IH] using lt_wf_ind. intros s c En Hq Hi Ho.
  destruct (decide (rank (cl_pc c) < 8)%nat) as [Hlt|Hge].
  - destruct (close_step_advances s c Hq Ho Hlt) as (s1 & c1 & E & Hr & Ho1).
    destruct (act_closer _ _ _ _ _ Hi E) as (A1 & _ & _ & _ & A5). destruct (close_step_keeps _ _ _ _ E) as (_ & _ & _ & _ & _ & _ & Ew).
    assert (Hi1 : sd_closers (act s (ACloser i)) !! i = Some c1).
    { rewrite A5. apply list_lookup_insert_eq. by apply lookup_lt_Some in Hi. }
    destruct (IH (8 - rank (cl_pc c1))%nat ltac:(lia) (act s (ACloser i)) c1 eq_refl) as (s' & c' & P & Q & O & I & D & Wt & K);
      [by eapply act_closer_quiet|done|by rewrite A1|].
    exists s', c'. split_and!; try done; [by apply (can_reach_step _ (ACloser i))|congruence|].
    intros k Hk. rewrite K, A5 by done. by rewrite list_lookup_insert_ne.
  - assert (Hd : cl_pc c = CDone) by (destruct (cl_pc c); cbn in *; lia || done).
    exists s, c. split_and!; try done; [apply can_reach_refl|]. intros Hr. rewrite Hd in Ho. cbn in Ho. destruct (Ho Hr); lia.
Qed.


