(* ===== verification/Codes.v ===== *)
(** defs.go: the protocol constants that the code only hands on - return codes, index
    groups, ports, states, symbol flags - and what their texts say. *)
From S2P Require Import Prelude Wire Strconv Defs.

(** ** Return codes *)

Definition ReturnCodeGlobalInternalError : Z := 0x1.
Definition ReturnCodeGlobalNoRtime : Z := 0x2.
Definition ReturnCodeGlobalAllocLockedMemError : Z := 0x3.
Definition ReturnCodeGlobalWrongReceiveHmsg : Z := 0x5.
Definition ReturnCodeGlobalBadTaskID : Z := 0x9.
Definition ReturnCodeGlobalNoIO : Z := 0xa.
Definition ReturnCodeGlobalWin32Error : Z := 0xc.
Definition ReturnCodeGlobalPortNotConnected : Z := 0xd.
Definition ReturnCodeGlobalInvalidAdsLength : Z := 0xe.
Definition ReturnCodeGlobalInvalidAmsNetID : Z := 0xf.
Definition ReturnCodeGlobalLowInstallLevel : Z := 0x10.
Definition ReturnCodeGlobalNoDebugAvailable : Z := 0x11.
Definition ReturnCodeGlobalPortDisabled : Z := 0x12.
Definition ReturnCodeGlobalPortAlreadyConn : Z := 0x13.
Definition ReturnCodeGlobalAdsSyncW32Error : Z := 0x14.
Definition ReturnCodeGlobalAdsSyncTimeout : Z := 0x15.
Definition ReturnCodeGlobalAdsSyncAmsError : Z := 0x16.
Definition ReturnCodeGlobalAdsSyncNoIndexMap : Z := 0x17.
Definition ReturnCodeGlobalInvalidAdsPort : Z := 0x18.
Definition ReturnCodeGlobalNoMemory : Z := 0x19.
Definition ReturnCodeGlobalTcpSendError : Z := 0x1a.
Definition ReturnCodeGlobalHostUnreachable : Z := 0x1b.
Definition ReturnCodeGlobalInvalidAmsFragment : Z := 0x1c.
Definition ReturnCodeGlobalTlsSendError : Z := 0x1d.
Definition ReturnCodeGlobalAccessDenied : Z := 0x1e.
Definition ReturnCodeRouterNoLockedMemory : Z := 0x500.
Definition ReturnCodeRouterResizeMemory : Z := 0x501.
Definition ReturnCodeRouterDebugBoxFull : Z := 0x503.
Definition ReturnCodeRouterUnknownPortType : Z := 0x504.
Definition ReturnCodeRouterNotInitialized : Z := 0x505.
Definition ReturnCodeRouterPortAlreadyInUse : Z := 0x506.
Definition ReturnCodeRouterNotRegistered : Z := 0x507.
Definition ReturnCodeRouterNoMoreQueues : Z := 0x508.
Definition ReturnCodeRouterInvalidPort : Z := 0x509.
Definition ReturnCodeRouterNotActivated : Z := 0x50a.
Definition ReturnCodeRouterFragmentBoxFull : Z := 0x50b.
Definition ReturnCodeRouterFragmentTimeout : Z := 0x50c.
Definition ReturnCodeRouterToBeRemoved : Z := 0x50d.
Definition ReturnCodeDeviceInvalidAccess : Z := 0x704.
Definition ReturnCodeDeviceInvalidData : Z := 0x706.
Definition ReturnCodeDeviceInvalidContext : Z := 0x709.
Definition ReturnCodeDeviceNoMemory : Z := 0x70a.
Definition ReturnCodeDeviceInvalidParam : Z := 0x70b.
Definition ReturnCodeDeviceNotFound : Z := 0x70c.
Definition ReturnCodeDeviceSyntax : Z := 0x70d.
Definition ReturnCodeDeviceIncompatible : Z := 0x70e.
Definition ReturnCodeDeviceExists : Z := 0x70f.
Definition ReturnCodeDeviceNoMoreHandles : Z := 0x716.
Definition ReturnCodeDeviceInvalidWatchSize : Z := 0x717.
Definition ReturnCodeDeviceNotInitialized : Z := 0x718.
Definition ReturnCodeDeviceTimeout : Z := 0x719.
Definition ReturnCodeDeviceNoInterface : Z := 0x71a.
Definition ReturnCodeDeviceInvalidInterface : Z := 0x71b.
Definition ReturnCodeDeviceInvalidClsID : Z := 0x71c.
Definition ReturnCodeDeviceInvalidObjID : Z := 0x71d.
Definition ReturnCodeDevicePending : Z := 0x71e.
Definition ReturnCodeDeviceAborted : Z := 0x71f.
Definition ReturnCodeDeviceWarning : Z := 0x720.
Definition ReturnCodeDeviceInvalidArrayIndex : Z := 0x721.
Definition ReturnCodeDeviceAccessDenied : Z := 0x723.
Definition ReturnCodeDeviceLicenseNotFound : Z := 0x724.
Definition ReturnCodeDeviceLicenseExpired : Z := 0x725.
Definition ReturnCodeDeviceLicenseExceeded : Z := 0x726.
Definition ReturnCodeDeviceLicenseInvalid : Z := 0x727.
Definition ReturnCodeDeviceLicenseSystemID : Z := 0x728.
Definition ReturnCodeDeviceLicenseNoTimeLimit : Z := 0x729.
Definition ReturnCodeDeviceLicenseFutureIssue : Z := 0x72a.
Definition ReturnCodeDeviceLicenseTimeToLong : Z := 0x72b.
Definition ReturnCodeDeviceException : Z := 0x72c.
Definition ReturnCodeDeviceLicenseDuplicated : Z := 0x72d.
Definition ReturnCodeDeviceSignatureInvalid : Z := 0x72e.
Definition ReturnCodeDeviceCertificateInvalid : Z := 0x72f.
Definition ReturnCodeDeviceLicenseOemNotFound : Z := 0x730.
Definition ReturnCodeDeviceLicenseRestricted : Z := 0x731.
Definition ReturnCodeDeviceLicenseDemoDenied : Z := 0x732.
Definition ReturnCodeDeviceInvalidFuncID : Z := 0x733.
Definition ReturnCodeDeviceOutOfRange : Z := 0x734.
Definition ReturnCodeDeviceInvalidAlignment : Z := 0x735.
Definition ReturnCodeDeviceLicensePlatform : Z := 0x736.
Definition ReturnCodeDeviceForwardPL : Z := 0x737.
Definition ReturnCodeDeviceForwardDL : Z := 0x738.
Definition ReturnCodeDeviceForwardRT : Z := 0x739.
Definition ReturnCodeClientError : Z := 0x740.
Definition ReturnCodeClientInvalidParameter : Z := 0x741.
Definition ReturnCodeClientListEmpty : Z := 0x742.
Definition ReturnCodeClientVarUsed : Z := 0x743.
Definition ReturnCodeClientDuplicateInvokeID : Z := 0x744.
Definition ReturnCodeClientSyncTimeout : Z := 0x745.
Definition ReturnCodeClientW32Error : Z := 0x746.
Definition ReturnCodeClientTimeoutInvalid : Z := 0x747.
Definition ReturnCodeClientPortNotOpen : Z := 0x748.
Definition ReturnCodeClientNoAMSAddress : Z := 0x749.
Definition ReturnCodeClientSyncInternal : Z := 0x750.
Definition ReturnCodeClientAddHash : Z := 0x751.
Definition ReturnCodeClientRemoveHash : Z := 0x752.
Definition ReturnCodeClientNoMoreSymbols : Z := 0x753.
Definition ReturnCodeClientSyncResponseInvalid : Z := 0x754.
Definition ReturnCodeClientSyncPortLocked : Z := 0x755.
Definition ReturnCodeClientRequestCancelled : Z := 0x756.
Definition ReturnCodeRTimeInternal : Z := 0x1000.
Definition ReturnCodeRTimeBadTimerPeriods : Z := 0x1001.
Definition ReturnCodeRTimeInvalidTaskPtr : Z := 0x1002.
Definition ReturnCodeRTimeInvalidStackPtr : Z := 0x1003.
Definition ReturnCodeRTimePrioExists : Z := 0x1004.
Definition ReturnCodeRTimeNoMoreTcb : Z := 0x1005.
Definition ReturnCodeRTimeNoMoreSemas : Z := 0x1006.
Definition ReturnCodeRTimeNoMoreQueues : Z := 0x1007.
Definition ReturnCodeRTimeExtIrqAlreadyDef : Z := 0x100d.
Definition ReturnCodeRTimeExtIrqNotDef : Z := 0x100e.
Definition ReturnCodeRTimeExtIrqInstallFailed : Z := 0x100f.
Definition ReturnCodeRTimeIrqlNotLessOrEqual : Z := 0x1010.
Definition ReturnCodeRTimeVmxNotSupported : Z := 0x1017.
Definition ReturnCodeRTimeVmxDisabled : Z := 0x1018.
Definition ReturnCodeRTimeVmxControlsMissing : Z := 0x1019.
Definition ReturnCodeRTimeVmxEnableFails : Z := 0x101a.
Definition ReturnCodeWsaeTimedOut : Z := 0x274c.
Definition ReturnCodeWsaeConnRefused : Z := 0x274d.
Definition ReturnCodeWsaeHostDown : Z := 0x2751.

(** ** Index groups *)

Definition GroupSymbolTab : Z := 0xf000.
Definition GroupSymbolName : Z := 0xf001.
Definition GroupSymbolValue : Z := 0xf002.
Definition GroupSymbolValueByName : Z := 0xf004.
Definition GroupSymbolInfoByName : Z := 0xf007.
Definition GroupSymbolDownload : Z := 0xf00a.
Definition GroupSymbolDownload2 : Z := 0xf00d.
Definition GroupSymbolNotification : Z := 0xf010.
Definition GroupSumupRead : Z := 0xf080.
Definition GroupSumupReadWrite : Z := 0xf082.
Definition GroupIoImageRwiob : Z := 0xf060.
Definition GroupDeviceData : Z := 0xf100.

(** ** Index offsets *)

Definition OffsetDeviceDataADSState : Z := 0x0.
Definition OffsetDeviceDataDeviceState : Z := 0x2.

(** ** AMS ports *)

Definition PortLogger : Z := 100.
Definition PortR0Rtime : Z := 200.
Definition PortR0Trace : Z := 290.
Definition PortR0Io : Z := 300.
Definition PortR0Sps : Z := 400.
Definition PortR0Nc : Z := 500.
Definition PortR0Isg : Z := 550.
Definition PortR0Pcs : Z := 600.
Definition PortR0Plc : Z := 801.
Definition PortR0PlcRts2 : Z := 811.
Definition PortR0PlcRts3 : Z := 821.
Definition PortR0PlcRts4 : Z := 831.

(** ** States of an ADS device *)

Definition ADSStateIdle : Z := 1.
Definition ADSStateReset : Z := 2.
Definition ADSStateInit : Z := 3.
Definition ADSStateStart : Z := 4.
Definition ADSStateStop : Z := 6.
Definition ADSStateSaveCfg : Z := 7.
Definition ADSStateLoadCfg : Z := 8.
Definition ADSStatePowerFailure : Z := 9.
Definition ADSStatePowerGood : Z := 10.
Definition ADSStateError : Z := 11.
Definition ADSStateShutdown : Z := 12.
Definition ADSStateSuspend : Z := 13.
Definition ADSStateResume : Z := 14.
Definition ADSStateMaxStates : Z := 255.

(** ** Symbol flags *)

Definition SymbolFlagPersistent : Z := 0x1.
Definition SymbolFlagBitValue : Z := 0x2.
Definition SymbolFlagReferenceTo : Z := 0x4.
Definition SymbolFlagTypeGuid : Z := 0x8.
Definition SymbolFlagTComObj : Z := 0x10.
Definition SymbolFlagReadOnly : Z := 0x20.
Definition SymbolFlagContextMask : Z := 0xf00.
Definition SymbolFlagAttributes : Z := 0x1000.
Definition SymbolFlagExtendedFlags : Z := 0x8000.

(** Every return code defs.go names, in its order. *)
Definition returnCodes : list Z :=
  [ReturnCodeNoErrors; ReturnCodeGlobalInternalError; ReturnCodeGlobalNoRtime; ReturnCodeGlobalAllocLockedMemError;
ReturnCodeGlobalInsertMailboxError; ReturnCodeGlobalWrongReceiveHmsg; ReturnCodeGlobalTargetPortNotFound;
ReturnCodeGlobalTargetNotFound; ReturnCodeGlobalUnknownCommandID; ReturnCodeGlobalBadTaskID; ReturnCodeGlobalNoIO;
ReturnCodeGlobalUnknownAdsCommand; ReturnCodeGlobalWin32Error; ReturnCodeGlobalPortNotConnected;
ReturnCodeGlobalInvalidAdsLength; ReturnCodeGlobalInvalidAmsNetID; ReturnCodeGlobalLowInstallLevel;
ReturnCodeGlobalNoDebugAvailable; ReturnCodeGlobalPortDisabled; ReturnCodeGlobalPortAlreadyConn;
ReturnCodeGlobalAdsSyncW32Error; ReturnCodeGlobalAdsSyncTimeout; ReturnCodeGlobalAdsSyncAmsError;
ReturnCodeGlobalAdsSyncNoIndexMap; ReturnCodeGlobalInvalidAdsPort; ReturnCodeGlobalNoMemory;
ReturnCodeGlobalTcpSendError; ReturnCodeGlobalHostUnreachable; ReturnCodeGlobalInvalidAmsFragment;
ReturnCodeGlobalTlsSendError; ReturnCodeGlobalAccessDenied; ReturnCodeRouterNoLockedMemory;
ReturnCodeRouterResizeMemory; ReturnCodeRouterMailboxFull; ReturnCodeRouterDebugBoxFull;
ReturnCodeRouterUnknownPortType; ReturnCodeRouterNotInitialized; ReturnCodeRouterPortAlreadyInUse;
ReturnCodeRouterNotRegistered; ReturnCodeRouterNoMoreQueues; ReturnCodeRouterInvalidPort;
ReturnCodeRouterNotActivated; ReturnCodeRouterFragmentBoxFull; ReturnCodeRouterFragmentTimeout;
ReturnCodeRouterToBeRemoved; ReturnCodeDeviceError; ReturnCodeDeviceServiceNotSupported;
ReturnCodeDeviceInvalidGroup; ReturnCodeDeviceInvalidOffset; ReturnCodeDeviceInvalidAccess;
ReturnCodeDeviceInvalidSize; ReturnCodeDeviceInvalidData; ReturnCodeDeviceNotReady; ReturnCodeDeviceBusy;
ReturnCodeDeviceInvalidContext; ReturnCodeDeviceNoMemory; ReturnCodeDeviceInvalidParam; ReturnCodeDeviceNotFound;
ReturnCodeDeviceSyntax; ReturnCodeDeviceIncompatible; ReturnCodeDeviceExists; ReturnCodeDeviceSymbolNoFound;
ReturnCodeDeviceSymbolVersionInvalid; ReturnCodeDeviceInvalidState; ReturnCodeDeviceTransModeNotSupported;
ReturnCodeDeviceNotifyHandleInvalid; ReturnCodeDeviceClientUnknown; ReturnCodeDeviceNoMoreHandles;
ReturnCodeDeviceInvalidWatchSize; ReturnCodeDeviceNotInitialized; ReturnCodeDeviceTimeout;
ReturnCodeDeviceNoInterface; ReturnCodeDeviceInvalidInterface; ReturnCodeDeviceInvalidClsID;
ReturnCodeDeviceInvalidObjID; ReturnCodeDevicePending; ReturnCodeDeviceAborted; ReturnCodeDeviceWarning;
ReturnCodeDeviceInvalidArrayIndex; ReturnCodeDeviceSymbolNotActive; ReturnCodeDeviceAccessDenied;
ReturnCodeDeviceLicenseNotFound; ReturnCodeDeviceLicenseExpired; ReturnCodeDeviceLicenseExceeded;
ReturnCodeDeviceLicenseInvalid; ReturnCodeDeviceLicenseSystemID; ReturnCodeDeviceLicenseNoTimeLimit;
ReturnCodeDeviceLicenseFutureIssue; ReturnCodeDeviceLicenseTimeToLong; ReturnCodeDeviceException;
ReturnCodeDeviceLicenseDuplicated; ReturnCodeDeviceSignatureInvalid; ReturnCodeDeviceCertificateInvalid;
ReturnCodeDeviceLicenseOemNotFound; ReturnCodeDeviceLicenseRestricted; ReturnCodeDeviceLicenseDemoDenied;
ReturnCodeDeviceInvalidFuncID; ReturnCodeDeviceOutOfRange; ReturnCodeDeviceInvalidAlignment;
ReturnCodeDeviceLicensePlatform; ReturnCodeDeviceForwardPL; ReturnCodeDeviceForwardDL; ReturnCodeDeviceForwardRT;
ReturnCodeClientError; ReturnCodeClientInvalidParameter; ReturnCodeClientListEmpty; ReturnCodeClientVarUsed;
ReturnCodeClientDuplicateInvokeID; ReturnCodeClientSyncTimeout; ReturnCodeClientW32Error;
ReturnCodeClientTimeoutInvalid; ReturnCodeClientPortNotOpen; ReturnCodeClientNoAMSAddress;
ReturnCodeClientSyncInternal; ReturnCodeClientAddHash; ReturnCodeClientRemoveHash; ReturnCodeClientNoMoreSymbols;
ReturnCodeClientSyncResponseInvalid; ReturnCodeClientSyncPortLocked; ReturnCodeClientRequestCancelled;
ReturnCodeRTimeInternal; ReturnCodeRTimeBadTimerPeriods; ReturnCodeRTimeInvalidTaskPtr;
ReturnCodeRTimeInvalidStackPtr; ReturnCodeRTimePrioExists; ReturnCodeRTimeNoMoreTcb; ReturnCodeRTimeNoMoreSemas;
ReturnCodeRTimeNoMoreQueues; ReturnCodeRTimeExtIrqAlreadyDef; ReturnCodeRTimeExtIrqNotDef;
ReturnCodeRTimeExtIrqInstallFailed; ReturnCodeRTimeIrqlNotLessOrEqual; ReturnCodeRTimeVmxNotSupported;
ReturnCodeRTimeVmxDisabled; ReturnCodeRTimeVmxControlsMissing; ReturnCodeRTimeVmxEnableFails; ReturnCodeWsaeTimedOut;
ReturnCodeWsaeConnRefused; ReturnCodeWsaeHostDown].

(** ** Texts *)

(** [SymbolVersionStrategy.String], on any [uint8]. *)
Definition SymbolVersionStrategy_String (s : Z) : string :=
  if s =? 0 then "AutoReload" else if s =? 1 then "Close" else if s =? 2 then "Ignore" else "Unknown".

(** [ReturnCode.Error] and [AMSError.Error]. *)
Definition ReturnCode_Error (rc : Z) : string := ReturnCode_String rc.
Definition AMSError_Error (code : Z) : string := ("AMS router: " ++ ReturnCode_String code)%string.

(** Every named code has a description, every description is of a named code, and no code
    is named twice. *)
Lemma returnCodes_described : map fst returnCodeDescriptions = returnCodes /\ NoDup returnCodes.
Proof. split; [reflexivity|]. apply (bool_decide_eq_true_1 (NoDup returnCodes)). by vm_compute. Qed.

(** No two named codes print alike, as an error of the device or of the router. *)
Lemma codes_print_apart : NoDup (map ReturnCode_Error returnCodes ++ map AMSError_Error returnCodes).
Proof. apply (bool_decide_eq_true_1 (NoDup _)). by vm_compute. Qed.

(** The flags of a symbol are single bits, apart from the four of the task context, which
    [ContextMask] extracts. *)
Definition symbol_flags : list Z :=
  [SymbolFlagPersistent; SymbolFlagBitValue; SymbolFlagReferenceTo; SymbolFlagTypeGuid; SymbolFlagTComObj;
   SymbolFlagReadOnly; SymbolFlagAttributes; SymbolFlagExtendedFlags].

Lemma symbol_flags_disjoint f g : f ∈ symbol_flags -> g ∈ symbol_flags -> f <> g ->
  SymbolFlag_Has f g = false /\ SymbolFlag_Has SymbolFlagContextMask f = false.
Proof.
  intros Hf Hg. unfold symbol_flags in *. rewrite !elem_of_cons, elem_of_nil in Hf, Hg.
  intuition subst; try done; by vm_compute.
Qed.

Lemma ContextMask_is_the_mask f : SymbolFlag_ContextMask f = Z.shiftr (Z.land f SymbolFlagContextMask) 8.
Proof.
  unfold SymbolFlag_ContextMask, SymbolFlagContextMask. rewrite Z.shiftr_land.
  replace (Z.shiftr 3840 8) with 15 by done. unfold u8. rewrite (Z.land_ones _ 4 ltac:(lia)).
  pose proof (Z.mod_pos_bound (Z.shiftr f 8) (2 ^ 4) ltac:(lia)). apply Z.mod_small. lia.
Qed.
