(* ===== verification/Pipeline.v ===== *)
(** client.go and cmd_notification.go end to end: from the bytes of notification frames to
    the caller's channel.

    The last step first: [deliverNotification], a send on the caller's channel that never
    waits, and what becomes of the update when it cannot be made.  Shards send
    concurrently, the caller receives and may close the channel; each send, receive and
    close is atomic, so a channel's life is a list of [event]s.

    Then the whole way.  [notifWorker] takes a frame off its queue, decodes it and hands
    each sample to the shard of its handle, waiting while that shard's queue is full; each
    shard is a goroutine that dispatches its samples in order, through the handler the
    session installed ([dispatchNotification], [handleNotification], [dispatchSample],
    [deliverNotification]).  The worker, the shards and the callers run concurrently: a
    run of the pipeline is a list of [turn]s, in any order. *)
From S2P Require Import Prelude Wire Strconv Defs Client SumCmd NotifStream SymbolTable GoTime Utf Codec Subs Window.

(** [ch_buf] oldest first; [ch_got] what the caller received, [ch_offered] every update
    the shards tried to send. *)
Record channel : Type := {
  ch_cap : Z; ch_buf : list Update; ch_closed : bool; ch_got : list Update; ch_offered : list Update }.

Definition make_channel (cap : Z) : channel :=
  {| ch_cap := cap; ch_buf := []; ch_closed := false; ch_got := []; ch_offered := [] |}.

Inductive delivery : Type := Delivered | Dropped | Cancelled | Recovered.

(** What a send finds: the context of the dispatch done; a caller waiting in a receive,
    which takes the update at once; which case [select] picks when several are ready. *)
Record send_view : Type := { sv_done : bool; sv_waiting : bool; sv_pick : bool }.

(** The send case is ready on a closed channel too, where it panics. *)
Definition send_ready (v : send_view) (c : channel) : bool :=
  ch_closed c || (len (ch_buf c) <? ch_cap c) || (sv_waiting v && (len (ch_buf c) =? 0)).

Definition offer (u : Update) (c : channel) : channel :=
  {| ch_cap := ch_cap c; ch_buf := ch_buf c; ch_closed := ch_closed c; ch_got := ch_got c;
     ch_offered := ch_offered c ++ [u] |}.
Definition put (v : send_view) (u : Update) (c : channel) : channel :=
  if sv_waiting v && (len (ch_buf c) =? 0)
  then {| ch_cap := ch_cap c; ch_buf := ch_buf c; ch_closed := ch_closed c; ch_got := ch_got c ++ [u];
          ch_offered := ch_offered c |}
  else {| ch_cap := ch_cap c; ch_buf := ch_buf c ++ [u]; ch_closed := ch_closed c; ch_got := ch_got c;
          ch_offered := ch_offered c |}.

Definition deliverNotification (v : send_view) (u : Update) (c : channel) : channel * delivery :=
  let c := offer u c in
  if sv_done v && (negb (send_ready v c) || sv_pick v) then (c, Cancelled)
  else if send_ready v c then
    if ch_closed c then (c, Recovered) else (put v u c, Delivered)
  else (c, Dropped).

Inductive event : Type := Send (v : send_view) (u : Update) | Recv | CloseChannel.

Definition receive (c : channel) : channel :=
  match ch_buf c with
  | [] => c
  | u :: buf => {| ch_cap := ch_cap c; ch_buf := buf; ch_closed := ch_closed c; ch_got := ch_got c ++ [u];
                   ch_offered := ch_offered c |}
  end.

Definition happens (c : channel) (e : event) : channel :=
  match e with
  | Send v u => (deliverNotification v u c).1
  | Recv => receive c
  | CloseChannel => {| ch_cap := ch_cap c; ch_buf := ch_buf c; ch_closed := true; ch_got := ch_got c; ch_offered := ch_offered c |}
  end.
Definition history (c : channel) (es : list event) : channel := foldl happens c es.

(** ** What reaches the caller *)

Lemma put_sequence v u c : ch_got (put v u c) ++ ch_buf (put v u c) = (ch_got c ++ ch_buf c) ++ [u].
Proof.
  unfold put. destruct (sv_waiting v && (len (ch_buf c) =? 0)) eqn:E; cbn; [|by rewrite app_assoc].
  apply andb_prop in E as [_ E%Z.eqb_eq]. destruct (ch_buf c); [by rewrite !app_nil_r|]. unfold len in E. cbn in E. lia.
Qed.

Lemma put_fits v u c : send_ready v c = true -> ch_closed c = false -> 0 <= ch_cap c -> len (ch_buf c) <= ch_cap c ->
  len (ch_buf (put v u c)) <= ch_cap c.
Proof.
  unfold send_ready, put. intros H Hc Hcap Hl. destruct (sv_waiting v && _); [done|]. rewrite Hc, orb_false_r in H.
  apply Z.ltb_lt in H. cbn. unfold len in *. rewrite length_app. cbn. lia.
Qed.

Record orderly (c : channel) : Prop := {
  od_order : ch_got c ++ ch_buf c `sublist_of` ch_offered c; od_room : len (ch_buf c) <= ch_cap c; od_cap : 0 <= ch_cap c }.

Lemma happens_cap c e : ch_cap (happens c e) = ch_cap c.
Proof.
  destruct e as [v u| |]; cbn [happens]; [|by unfold receive; case_match|done].
  unfold deliverNotification, put. by repeat case_match.
Qed.

Lemma happens_orderly c e : orderly c -> orderly (happens c e).
Proof.
  intros [Ho Hr Hc]. destruct e as [v u| |]; cbn [happens].
  - unfold deliverNotification. assert (Hw : orderly (offer u c)).
    { split; cbn; [|done|done]. etrans; [exact Ho|]. by apply sublist_inserts_r. }
    case_match; [done|]. case_match eqn:Hs; [|done]. case_match eqn:Hcl; [done|]. cbn [fst]. split.
    + rewrite put_sequence. unfold put. case_match; cbn; by apply sublist_app.
    + pose proof (put_fits v u (offer u c) Hs Hcl Hc Hr). unfold put in *. by case_match.
    + unfold put. by case_match.
  - unfold receive. destruct (ch_buf c) as [|u buf] eqn:Eb; [by split; rewrite ?Eb|]. split; cbn; [|unfold len in *; cbn in Hr; lia|done].
    by rewrite <- app_assoc.
  - by split.
Qed.

(** Whatever sends, receives and closes do, a dispatch never waits; the caller sees the
    updates in the order they were dispatched, each at most once; and the channel never
    holds more than it was made for. *)
Theorem updates_arrive_in_order cap es : 0 <= cap ->
  let c := history (make_channel cap) es in
  ch_got c ++ ch_buf c `sublist_of` ch_offered c /\ len (ch_buf c) <= cap.
Proof.
  intros Hcap. assert (H : orderly (history (make_channel cap) es) /\ ch_cap (history (make_channel cap) es) = cap).
  { unfold history. induction es as [|e es [IH1 IH2]] using rev_ind; [split; [split; [constructor|exact Hcap|exact Hcap]|done]|]. rewrite foldl_app. cbn [foldl].
    split; [by apply happens_orderly|]. by rewrite happens_cap. }
  destruct H as [[H1 H2 _] H3]. by rewrite H3 in H2.
Qed.

(** A caller that keeps up loses nothing: while every send finds room, the context alive
    and the channel open, all that is offered arrives. *)
Fixpoint keeps_up (c : channel) (es : list event) : Prop :=
  match es with
  | [] => True
  | e :: es => match e with
               | Send v _ => sv_done v = false /\ send_ready v c = true /\ ch_closed c = false
               | Recv => True
               | CloseChannel => False
               end /\ keeps_up (happens c e) es
  end.

Theorem nothing_dropped_when_kept_up cap es : keeps_up (make_channel cap) es ->
  let c := history (make_channel cap) es in ch_got c ++ ch_buf c = ch_offered c.
Proof.
  assert (Hi : ch_got (make_channel cap) ++ ch_buf (make_channel cap) = ch_offered (make_channel cap)) by done.
  revert Hi. generalize (make_channel cap). induction es as [|e es IH]; intros c Hi; [done|]. intros [He Hk].
  cbn [history foldl]. apply IH; [|done]. clear IH Hk. destruct e as [v u| |]; [| |done].
  2:{ cbn [happens]. unfold receive. destruct c as [cap0 [|u buf] cl got off]; cbn in *; [done|by rewrite <- app_assoc]. }
 
  destruct He as (H1 & H2 & H3). cbn [happens]. unfold deliverNotification. rewrite H1. cbn [andb].
  assert (Hs : send_ready v (offer u c) = true) by exact H2. rewrite Hs. cbn [offer ch_closed]. rewrite H3. cbn [fst].
  rewrite put_sequence. unfold put. case_match; cbn; by rewrite Hi.
Qed.

Definition sample_update (n : string) : Update := {| u_Variable := "MAIN.x"; u_Value := n; u_TimeStamp := None; u_Stale := None |}.
Definition free : send_view := {| sv_done := false; sv_waiting := false; sv_pick := false |}.

Lemma updates_arrive_in_order_witness :
  let c := history (make_channel 1) [Send free (sample_update "1"); Send free (sample_update "2"); Recv; Send free (sample_update "3")] in
  ch_got c ++ ch_buf c `sublist_of` ch_offered c /\ len (ch_buf c) <= 1.
Proof. apply (updates_arrive_in_order 1 [Send free (sample_update "1"); Send free (sample_update "2"); Recv; Send free (sample_update "3")]). lia. Defined.

Lemma nothing_dropped_when_kept_up_witness :
  let c := history (make_channel 1) [Send free (sample_update "1"); Recv; Send free (sample_update "2")] in
  ch_got c ++ ch_buf c = ch_offered c.
Proof. apply (nothing_dropped_when_kept_up 1 [Send free (sample_update "1"); Recv; Send free (sample_update "2")]). by vm_compute. Defined.

(** ** The mark of a stale handle is taken off before the send *)

(** A sample of a marked handle that meets a full channel takes the mark with it: it is
    dropped, and the next sample of the handle is delivered as fresh. *)
Theorem stale_mark_lost_on_full_channel handle reason (stale : gmap Z Reason) (u : Update) (c : channel) :
  stale !! handle = Some reason -> len (ch_buf c) = ch_cap c -> ch_closed c = false ->
  let '(stale', mark) := consumeStaleFlag handle stale in
  mark = Some reason
  /\ (deliverNotification free {| u_Variable := u_Variable u; u_Value := u_Value u; u_TimeStamp := u_TimeStamp u; u_Stale := mark |} c).2 = Dropped
  /\ (consumeStaleFlag handle stale').2 = None.
Proof.
  intros Hs Hl Hc. unfold consumeStaleFlag. rewrite Hs. cbn. split; [done|]. split.
  - unfold deliverNotification, send_ready. cbn. rewrite Hc, Hl, Z.ltb_irrefl. done.
  - by rewrite lookup_delete_eq.
Qed.

Lemma stale_mark_lost_on_full_channel_witness :
  let '(stale', mark) := consumeStaleFlag 7 {[7 := ReasonSymbolNotFound]} in
  mark = Some ReasonSymbolNotFound
  /\ (deliverNotification free {| u_Variable := "MAIN.x"; u_Value := "1"; u_TimeStamp := None; u_Stale := mark |} (make_channel 0)).2 = Dropped
  /\ (consumeStaleFlag 7 stale').2 = None.
Proof. apply (stale_mark_lost_on_full_channel 7 ReasonSymbolNotFound {[7 := ReasonSymbolNotFound]} (sample_update "1") (make_channel 0)); by vm_compute. Defined.

(** [pl_frames] is the queue of frames, [pl_routing] what the worker has decoded and not
    yet handed on, [pl_queues] the shards' channels, [pl_handler] whether the session has
    installed its handler; [pl_dispatched] records the samples in the order they were
    dispatched. *)
Record pipeline : Type := {
  pl_frames : list bytes; pl_routing : list notifSample; pl_queues : Z -> list notifSample;
  pl_handler : bool; pl_session : dispatcher; pl_channels : gmap Z channel;
  pl_dispatched : list notifSample }.

Definition notifShardQueue : Z := 4096.

(** The worker between two frames, and its [route] of the next sample decoded; every
    sample a frame emits is routed, also before an error. *)
Definition notifWorker (p : pipeline) : pipeline :=
  match pl_frames p, pl_routing p with
  | f :: fs, [] =>
      {| pl_frames := fs; pl_routing := (notif_frame f).1; pl_queues := pl_queues p; pl_handler := pl_handler p;
         pl_session := pl_session p; pl_channels := pl_channels p; pl_dispatched := pl_dispatched p |}
  | _, _ => p
  end.
Definition route (p : pipeline) : pipeline :=
  match pl_routing p with
  | [] => p
  | s :: rest =>
      if len (pl_queues p (shard_of s)) <? notifShardQueue then
        {| pl_frames := pl_frames p; pl_routing := rest;
           pl_queues := fun k => if k =? shard_of s then pl_queues p k ++ [s] else pl_queues p k;
           pl_handler := pl_handler p; pl_session := pl_session p; pl_channels := pl_channels p;
           pl_dispatched := pl_dispatched p |}
      else p
  end.

Section Pipeline.
Context `{FloatText} `{JsonText}.

(** One sample through the handler. *)
Definition dispatchNotification (now : Z) (v : send_view) (s : notifSample) (p : pipeline) : pipeline :=
  let record d chans := {| pl_frames := pl_frames p; pl_routing := pl_routing p; pl_queues := pl_queues p;
                           pl_handler := pl_handler p; pl_session := d; pl_channels := chans;
                           pl_dispatched := pl_dispatched p ++ [s] |} in
  if negb (pl_handler p) then record (pl_session p) (pl_channels p)
  else
    let '(d, o) := dispatchSample (pl_session p) now (sm_handle s) (sm_timestamp s) (sm_content s) true in
    match o with
    | DDeliver ch u => record d (alter (fun c => (deliverNotification v u c).1) ch (pl_channels p))
    | _ => record d (pl_channels p)
    end.

(** Shard [k] takes its next sample. *)
Definition shard_turn (k now : Z) (v : send_view) (p : pipeline) : pipeline :=
  match pl_queues p k with
  | [] => p
  | s :: q =>
      dispatchNotification now v s
        {| pl_frames := pl_frames p; pl_routing := pl_routing p;
           pl_queues := fun k' => if k' =? k then q else pl_queues p k'; pl_handler := pl_handler p;
           pl_session := pl_session p; pl_channels := pl_channels p; pl_dispatched := pl_dispatched p |}
  end.

Inductive turn : Type := NextFrame | Route | Shard (k now : Z) (v : send_view) | Receive (ch : Z).

Definition take_turn (p : pipeline) (t : turn) : pipeline :=
  match t with
  | NextFrame => notifWorker p
  | Route => route p
  | Shard k now v => shard_turn k now v p
  | Receive ch =>
      {| pl_frames := pl_frames p; pl_routing := pl_routing p; pl_queues := pl_queues p; pl_handler := pl_handler p;
         pl_session := pl_session p; pl_channels := alter receive ch (pl_channels p); pl_dispatched := pl_dispatched p |}
  end.
Definition turns (p : pipeline) (ts : list turn) : pipeline := foldl take_turn p ts.
End Pipeline.
