(* ===== verification/PipelineFacts.v ===== *)
(** A notification frame to the caller's channel, end to end: in whatever order the shards
    run, every sample of the frame becomes one update, decoded as its symbol says, and the
    updates of a subscription arrive in the order the PLC stamped them on the wire.  At the
    end, a decode that fails half-way: what [parse_left] (Codec.v) leaves in the cache is
    the same symbol but for the values of the members before the failing one, so the next
    decode is not affected by it. *)
From S2P Require Import Prelude Wire Strconv Defs Client SumCmd NotifStream SymbolTable GoTime Utf Codec CodecSafety Subs Window Pipeline.

(** ** Decoding does not depend on the value decoded before *)

Definition symbol_nested_ind (P : symbol -> Prop)
  (H : forall d cs, Forall (fun c => P c.2) cs -> P (MkSymbol d cs)) : forall s, P s :=
  fix F s := match s with
             | MkSymbol d cs => H d cs ((fix G cs : Forall (fun c => P c.2) cs := match cs with
                                          | [] => Forall_nil_2 _
                                          | c :: cs => Forall_cons_2 _ _ _ (F c.2) (G cs)
                                          end) cs)
             end.

Definition unparsed (d : symbolData) : symbolData :=
  {| sy_Name := sy_Name d; sy_FullName := sy_FullName d; sy_DataType := sy_DataType d; sy_Comment := sy_Comment d;
     sy_Handle := sy_Handle d; sy_Group := sy_Group d; sy_Offset := sy_Offset d; sy_Length := sy_Length d;
     sy_BaseType := sy_BaseType d; sy_Flags := sy_Flags d; sy_ContextMask := sy_ContextMask d;
     sy_Value := ""; sy_Valid := false; sy_ValueParsed := false; sy_Parent := sy_Parent d |}.

(** A symbol and its members without their values. *)
Fixpoint strip (s : symbol) : symbol :=
  let '(MkSymbol d cs) := s in MkSymbol (unparsed d) (map (fun '(k, c) => (k, strip c)) cs).

Section Strip.
Context `{FloatText} `{JsonText}.

Lemma strip_data s : sy_data (strip s) = unparsed (sy_data s). Proof. by destruct s. Qed.

Lemma parse_leaf_unparsed n d data start dts : parse_leaf n (unparsed d) data start dts = parse_leaf n d data start dts.
Proof.
  revert d dts. induction n as [|n IH]; intros d dts; [done|]. cbn [parse_leaf]. cbn [unparsed sy_Length sy_DataType sy_BaseType].
  case_match; [done|]. case_match; [done|].
  assert (Hw : forall ty, with_type (unparsed d) ty = unparsed (with_type d ty)) by done.
  rewrite !Hw, !IH. by repeat (case_match; rewrite ?Hw, ?IH).
Qed.

(** The members of a composite, decoded one after the other. *)
Fixpoint parse_members (offset stop : Z) (data : bytes) (dts : option datatypes) (cs : list (string * symbol))
  : res (list (string * symbol)) :=
  match cs with
  | [] => Ok []
  | (k, c) :: cs =>
      seg ← slice data offset stop;
      '(c', _) ← wrap_err "parsing child" (parse c seg (sy_Offset (sy_data c)) dts);
      cs' ← parse_members offset stop data dts cs;
      Ok ((k, c') :: cs')
  end.

Lemma parse_unfold d cs data offset dts : parse (MkSymbol d cs) data offset dts =
  if len data <? sy_Length d then Err (EMsg "s.Length exceeds data buffer size")
  else match cs with
       | [] => v ← parse_leaf 2 d data offset dts; Ok (MkSymbol (updateValue v d) [], v)
       | _ => cs' ← parse_members offset (if len data <? offset + sy_Length d then len data else offset + sy_Length d) data dts cs;
              let v := getJSON (MkSymbol d cs') in Ok (MkSymbol (updateValue v d) cs', v)
       end.
Proof.
  cbn [parse]. case_match; [done|]. destruct cs as [|c cs]; [done|]. f_equal.
  generalize (if len data <? offset + sy_Length d then len data else offset + sy_Length d). intros stop.
  assert (Hg : forall l, (fix go (cs : list (string * symbol)) : res (list (string * symbol)) :=
             match cs with
             | [] => Ok []
             | (k, c) :: cs =>
                 seg ← slice data offset stop;
                 '(c', _) ← wrap_err "parsing child" (parse c seg (sy_Offset (sy_data c)) dts);
                 cs' ← go cs;
                 Ok ((k, c') :: cs')
             end) l = parse_members offset stop data dts l).
  { induction l as [|[k x] l IH]; [done|]. cbn [parse_members]. by rewrite <- IH. }
  exact (Hg (c :: cs)).
Qed.

Lemma parse_members_length offset stop data dts cs cs' : parse_members offset stop data dts cs = Ok cs' -> length cs' = length cs.
Proof.
  revert cs'. induction cs as [|[k c] cs IH]; intros cs' E; [by injection E as <-|]. cbn in E.
  destruct (slice _ _ _); try done. cbn in E. destruct (wrap_err _ _) as [[c' v]| |]; try done. cbn in E.
  destruct (parse_members _ _ _ _ cs) as [l| |]; try done. injection E as <-. cbn. by rewrite (IH l).
Qed.

Lemma getJSON_composite d d' cs : cs <> [] -> getJSON (MkSymbol d cs) = getJSON (MkSymbol d' cs).
Proof. by destruct cs. Qed.

Lemma parse_strip s : forall data offset dts, parse (strip s) data offset dts = parse s data offset dts.
Proof.
  induction s as [d cs IH] using symbol_nested_ind. intros data offset dts. cbn [strip]. rewrite !parse_unfold.
  cbn [unparsed sy_Length]. case_match; [done|].
  assert (Hm : forall stop, parse_members offset stop data dts (map (fun '(k, c) => (k, strip c)) cs) = parse_members offset stop data dts cs).
  { intros stop. induction IH as [|[k c] cs Hc _ IHcs]; [done|]. cbn [map parse_members]. rewrite IHcs.
    rewrite strip_data. cbn [unparsed sy_Offset]. destruct (slice _ _ _); [cbn|done|done]. cbn in Hc. by rewrite Hc. }
  destruct cs as [|[k c] cs]; [cbn [map]; by rewrite parse_leaf_unparsed|].
  rewrite Hm. destruct (parse_members _ _ _ _ _) as [cs'| |] eqn:E; [|done|done]. cbn.
  assert (Hne : cs' <> []) by (intros ->; by apply parse_members_length in E).
  by rewrite (getJSON_composite (unparsed d) d).
Qed.

Lemma parse_keeps_shape s : forall data offset dts s' v, parse s data offset dts = Ok (s', v) -> strip s' = strip s.
Proof.
  induction s as [d cs IH] using symbol_nested_ind. intros data offset dts s' v. rewrite parse_unfold. case_match; [done|].
  destruct cs as [|c0 cs0].
  { destruct (parse_leaf _ _ _ _ _) as [x| |]; cbn; try done. by intros [= <- <-]. }
  generalize (if len data <? offset + sy_Length d then len data else offset + sy_Length d). intros stop. revert IH. generalize (c0 :: cs0). clear c0 cs0. intros cs IH.
  destruct (parse_members _ _ _ _ cs) as [cs'| |] eqn:E; cbn; try done. intros [= <- _]. cbn [strip]. f_equal.
  revert cs' E. induction IH as [|[k c] cs Hc _ IHcs]; intros cs' E; [by injection E as <-|]. cbn in E.
  destruct (slice _ _ _); try done. cbn in E. destruct (parse c _ _ _) as [[c' x]| |] eqn:Ec; try done. cbn in E.
  destruct (parse_members _ _ _ _ cs) as [l| |]; try done. injection E as <-. cbn [map]. rewrite (IHcs l) by done.
  by rewrite (Hc _ _ _ _ _ Ec).
Qed.

(** Two symbols alike but for their values decode alike. *)
Lemma parse_alike s s' data offset dts : strip s = strip s' -> parse s data offset dts = parse s' data offset dts.
Proof. intros E. by rewrite <- (parse_strip s), E, parse_strip. Qed.
End Strip.

(** ** One sample *)

(** Handle [h] is a live subscription of symbol [name], which decodes as [s] does, to
    channel [ch]; it is not the heartbeat and carries no stale mark. *)
Record subscribed (d : dispatcher) (ch h : Z) (name : string) (s : symbol) : Prop := {
  sb_active : exists e, activeNotifications (d_subs d) !! h = Some e /\ an_Sym e = Some name /\ an_Ch e = ch;
  sb_symbol : exists live, c_symbols (d_cache d) !! symbolKey name = Some live /\ strip live = strip s;
  sb_beat : h <> heartbeatHandle (d_heartbeat d);
  sb_mark : d_stale d !! h = None }.

Section Dispatch.
Context `{FloatText} `{JsonText}.

(** The update a sample of that subscription stands for. *)
Definition stands_for (dts : datatypes) (name : string) (s : symbol) (smp : notifSample) (u : Update) : Prop :=
  (exists s' v, parse s (sm_content smp) 0 (Some dts) = Ok (s', v)
     /\ u = {| u_Variable := name; u_Value := v; u_TimeStamp := sample_time (sm_timestamp smp); u_Stale := None |})
  /\ (sm_content smp = [] -> sy_Length (sy_data s) <= 0).

Lemma strip_length s s' : strip s = strip s' -> sy_Length (sy_data s) = sy_Length (sy_data s').
Proof. intros E. apply (f_equal (fun x => sy_Length (sy_data x))) in E. by rewrite !strip_data in E. Qed.

Lemma dispatch_live d now smp ch name s u :
  subscribed d ch (sm_handle smp) name s -> stands_for (c_datatypes (d_cache d)) name s smp u ->
  exists d', dispatchSample d now (sm_handle smp) (sm_timestamp smp) (sm_content smp) true = (d', DDeliver ch u)
    /\ c_datatypes (d_cache d') = c_datatypes (d_cache d)
    /\ forall ch' h' name' s', subscribed d ch' h' name' s' -> subscribed d' ch' h' name' s'.
Proof.
  intros [(e & Ha & Hn & Hc) (live & Hs & Hst) Hb Hm] [(s' & v & Hp & ->) He].
  unfold dispatchSample, consumeHeartbeat. rewrite (proj2 (Z.eqb_neq (sm_handle smp) _) Hb), orb_true_r. rewrite Ha. cbn [negb andb].
  cbn [d_cache d_stale negb andb]. rewrite Hn. cbn [default from_option id]. rewrite Hs.
  assert (Hz : (len (sm_content smp) =? 0) && (0 <? sy_Length (sy_data live)) = false).
  { apply andb_false_iff. destruct (Z.eqb_spec (len (sm_content smp)) 0) as [Hl|]; [right|by left].
    apply Z.ltb_ge. rewrite (strip_length _ _ Hst). apply He. by destruct (sm_content smp). }
  rewrite Hz. rewrite (parse_alike live s) by done. rewrite Hp. unfold consumeStaleFlag. rewrite Hm.
  eexists. split; [by rewrite Hc|]. split; [done|].
  intros ch' h' name' x [(e' & Ha' & Hn' & Hc') (live' & Hs' & Hst') Hb' Hm']. split; cbn; try done.
  - destruct (decide (h' = sm_handle smp)) as [-> | Hne].
    + rewrite lookup_insert_eq. rewrite Ha in Ha'. injection Ha' as <-. eexists. split; [done|]. by split.
    + rewrite lookup_insert_ne by done. by exists e'.
  - destruct (decide (symbolKey name' = symbolKey name)) as [E|E].
    + rewrite E, lookup_insert_eq. exists s'. split; [done|]. rewrite (parse_keeps_shape _ _ _ _ _ _ Hp), <- Hst.
      rewrite E, Hs in Hs'. by injection Hs' as <-.
    + rewrite lookup_insert_ne by done. by exists live'.
Qed.
End Dispatch.

(** ** Every sample on its way *)

Definition of_handle (h : Z) (l : list notifSample) : list notifSample := filter (fun s => sm_handle s = h) l.

Lemma of_handle_app h l k : of_handle h (l ++ k) = of_handle h l ++ of_handle h k.
Proof. apply filter_app. Qed.
Lemma of_handle_cons h s l : of_handle h (s :: l) = (if decide (sm_handle s = h) then [s] else []) ++ of_handle h l.
Proof. unfold of_handle. rewrite filter_cons. by case_decide. Qed.

#[local] Arguments of_handle : simpl never.

(** What the frames waiting in the queue hold. *)
Definition frames_samples (fs : list bytes) : list notifSample := concat (map (fun f => (notif_frame f).1) fs).

(** The samples of a handle the pipeline has not dispatched yet, oldest first. *)
Definition to_come (p : pipeline) (h : Z) : list notifSample :=
  of_handle h (pl_queues p (h mod notifShardCount)) ++ of_handle h (pl_routing p) ++ of_handle h (frames_samples (pl_frames p)).

Definition idle (p : pipeline) : Prop := pl_frames p = [] /\ pl_routing p = [] /\ forall k, pl_queues p k = [].

(** [total] is what the pipeline was given: no sample is lost or made up, a handle's
    samples keep their order, and each queue holds the samples of its own handles. *)
Record on_way (total : list notifSample) (p : pipeline) : Prop := {
  ow_order : forall h, of_handle h (pl_dispatched p) ++ to_come p h = of_handle h total;
  ow_shards : forall k, Forall (fun s => shard_of s = k) (pl_queues p k) }.

Lemma route_on_way total p : on_way total p -> on_way total (route p).
Proof.
  intros [Ho Hs]. unfold route. destruct (pl_routing p) as [|s rest] eqn:E; [done|]. case_match; [|done]. split.
  - intros h. rewrite <- Ho. unfold to_come. cbn [pl_dispatched pl_queues pl_routing pl_frames]. rewrite E, of_handle_cons. f_equal. unfold shard_of.
    destruct (decide (sm_handle s = h)) as [<-|Hne].
    + rewrite Z.eqb_refl, of_handle_app, of_handle_cons, decide_True by done. by rewrite <- !app_assoc.
    + case_match; [|done]. rewrite of_handle_app, of_handle_cons, decide_False by done. cbn. by rewrite app_nil_r.
  - intros k. cbn. destruct (Z.eqb_spec k (shard_of s)) as [->|]; [|done]. apply Forall_app. split; [done|by constructor].
Qed.

Lemma notifWorker_on_way total p : on_way total p -> on_way total (notifWorker p).
Proof.
  intros [Ho Hs]. unfold notifWorker. destruct (pl_frames p) as [|f fs] eqn:E; [done|].
  destruct (pl_routing p) eqn:E2; [|done]. split; [|done]. intros h. rewrite <- Ho. unfold to_come. rewrite E, E2.
  unfold frames_samples. cbn. by rewrite of_handle_app.
Qed.

(** Keeping each handle's order bounds the whole: what starts every handle's samples is
    part of them all. *)
Lemma of_handle_split h s l t : of_handle h l = s :: t ->
  exists a b, l = a ++ s :: b /\ of_handle h a = [] /\ of_handle h b = t.
Proof.
  induction l as [|x l IH]; [done|]. rewrite of_handle_cons. case_decide as Hx; cbn.
  - intros [= -> <-]. by exists [], l.
  - intros E. destruct (IH E) as (a & b & -> & Ha & Hb). exists (x :: a), b. split; [done|]. split; [|done].
    by rewrite of_handle_cons, decide_False.
Qed.

Lemma prefixes_submseteq l k : (forall h, of_handle h l `prefix_of` of_handle h k) -> l ⊆+ k.
Proof.
  revert k. induction l as [|s l IH]; intros k Hp; [apply submseteq_nil_l|].
  destruct (Hp (sm_handle s)) as [r Hr]. rewrite of_handle_cons, decide_True in Hr by done.
  apply of_handle_split in Hr as (a & b & -> & Ha & Hb). rewrite <- Permutation_middle. apply submseteq_skip, IH.
  intros h. specialize (Hp h). rewrite of_handle_app, !of_handle_cons in Hp. rewrite of_handle_app.
  destruct (decide (sm_handle s = h)) as [<-|]; [|done]. rewrite Ha, Hb. by exists r.
Qed.

Lemma on_way_submseteq total p : on_way total p -> pl_dispatched p ⊆+ total.
Proof. intros [Ho _]. apply prefixes_submseteq. intros h. rewrite <- Ho. by apply prefix_app_r. Qed.

Lemma shard_in_range s : 0 <= shard_of s < notifShardCount.
Proof. by apply Z.mod_pos_bound. Qed.

Section EndToEnd.
Context `{FloatText} `{JsonText}.

(** What a dispatch leaves alone. *)
Lemma dispatchNotification_frame now v s p :
  let p' := dispatchNotification now v s p in
  pl_frames p' = pl_frames p /\ pl_routing p' = pl_routing p /\ pl_queues p' = pl_queues p
  /\ pl_handler p' = pl_handler p /\ pl_dispatched p' = pl_dispatched p ++ [s].
Proof.
  cbv zeta. unfold dispatchNotification. destruct (pl_handler p); cbn; [|done].
  destruct (dispatchSample _ _ _ _ _ _) as [d o]. by destruct o.
Qed.

Lemma shard_turn_frame k now v p :
  let p' := shard_turn k now v p in
  pl_frames p' = pl_frames p /\ pl_routing p' = pl_routing p /\ pl_queues p' k = tail (pl_queues p k)
  /\ (forall k', k' <> k -> pl_queues p' k' = pl_queues p k') /\ pl_handler p' = pl_handler p
  /\ pl_dispatched p' = pl_dispatched p ++ take 1 (pl_queues p k).
Proof.
  cbv zeta. unfold shard_turn. destruct (pl_queues p k) as [|s q] eqn:E; [by rewrite E, app_nil_r|].
  match goal with |- context [dispatchNotification now v s ?q] => destruct (dispatchNotification_frame now v s q) as (-> & -> & -> & -> & ->) end.
  cbn. rewrite Z.eqb_refl. split_and!; try done. intros k' Hk. by rewrite (proj2 (Z.eqb_neq _ _) Hk).
Qed.

Lemma shard_turn_on_way total k now v p : on_way total p -> on_way total (shard_turn k now v p).
Proof.
  intros [Ho Hs]. destruct (shard_turn_frame k now v p) as (H1 & H2 & H3 & H4 & H5 & H6). split.
  - intros h. rewrite <- Ho. unfold to_come. rewrite H1, H2, H6, of_handle_app, <- app_assoc. f_equal.
    specialize (Hs k). destruct (decide (h mod notifShardCount = k)) as [E|E].
    + rewrite E, H3. destruct (pl_queues p k) as [|s q]; [done|]. cbn [take tail]. rewrite !of_handle_cons. cbn.
      by rewrite app_nil_r, <- !app_assoc.
    + rewrite H4 by done. destruct (pl_queues p k) as [|s q]; [done|]. cbn [take]. apply Forall_cons in Hs as [Hs _].
      rewrite of_handle_cons, decide_False; [done|]. intros <-. by apply E.
  - intros k'. destruct (decide (k' = k)) as [->|E]; [|by rewrite H4]. rewrite H3. specialize (Hs k).
    destruct Hs; [done|assumption].
Qed.

Lemma turns_on_way total ts p : on_way total p -> on_way total (turns p ts).
Proof.
  revert p. induction ts as [|t ts IH]; intros p Hp; [done|]. apply IH. destruct t.
  - by apply notifWorker_on_way.
  - by apply route_on_way.
  - by apply shard_turn_on_way.
  - destruct Hp. by split.
Qed.
End EndToEnd.

(** ** The shards drain *)

Definition live_turn (t : turn) : Prop := match t with Shard _ _ v => sv_done v = false | _ => True end.

Section Drain.
Context `{FloatText} `{JsonText}.

Lemma turns_app p ts ts' : turns p (ts ++ ts') = turns (turns p ts) ts'.
Proof. apply foldl_app. Qed.

Lemma drain_shard k : forall n p, length (pl_queues p k) = n -> exists ts, Forall live_turn ts /\
  let p' := turns p ts in pl_frames p' = pl_frames p /\ pl_routing p' = pl_routing p /\ pl_queues p' k = []
  /\ forall k', k' <> k -> pl_queues p' k' = pl_queues p k'.
Proof.
  induction n as [|n IH]; intros p Hn.
  { exists []. split; [done|]. by destruct (pl_queues p k) eqn:E. }
  destruct (shard_turn_frame k 0 free p) as (H1 & H2 & H3 & H4 & _ & _).
  destruct (IH (shard_turn k 0 free p)) as (ts & Hl & G1 & G2 & G3 & G4).
  { rewrite H3. destruct (pl_queues p k); [done|]. cbn in *. lia. }
  exists (Shard k 0 free :: ts). split; [by constructor|]. cbv zeta. change (turns p (Shard k 0 free :: ts)) with (turns (shard_turn k 0 free p) ts).
  rewrite G1, G2, H1, H2. split_and!; try done. intros k' Hk. by rewrite G4, H4.
Qed.

Lemma drain_shards (ks : list Z) : forall p, exists ts, Forall live_turn ts /\
  let p' := turns p ts in pl_frames p' = pl_frames p /\ pl_routing p' = pl_routing p
  /\ (forall k, k ∈ ks -> pl_queues p' k = []) /\ forall k, pl_queues p k = [] -> pl_queues p' k = [].
Proof.
  induction ks as [|k ks IH]; intros p; [exists []; split; [done|]; split_and!; try done; by intros k ?%elem_of_nil|].
  destruct (drain_shard k _ p eq_refl) as (ts & Hl & G1 & G2 & G3 & G4).
  destruct (IH (turns p ts)) as (ts' & Hl' & G1' & G2' & G3' & G4').
  exists (ts ++ ts'). split; [by apply Forall_app|]. cbv zeta in *. rewrite turns_app, G1', G2'. split_and!; try done.
  - intros x [->|Hx]%elem_of_cons; [by apply G4'|by apply G3'].
  - intros x Hx. apply G4'. destruct (decide (x = k)) as [->|]; [done|by rewrite G4].
Qed.

Lemma drain_queues total p : on_way total p -> exists ts, Forall live_turn ts /\
  let p' := turns p ts in pl_frames p' = pl_frames p /\ pl_routing p' = pl_routing p /\ forall k, pl_queues p' k = [].
Proof.
  intros Hw. destruct (drain_shards (seqZ 0 notifShardCount) p) as (ts & Hl & G1 & G2 & G3 & _).
  exists ts. split; [done|]. split_and!; try done. intros k.
  pose proof (ow_shards _ _ (turns_on_way total ts p Hw) k) as Hs.
  destruct (pl_queues (turns p ts) k) as [|s q] eqn:E; [done|]. exfalso. apply Forall_cons in Hs as [Hs _].
  pose proof (shard_in_range s). rewrite Hs in *. rewrite G3 in E; [done|]. by apply elem_of_seqZ.
Qed.

Lemma drain_routing total : forall rs p, pl_routing p = rs -> on_way total p -> exists ts, Forall live_turn ts /\
  let p' := turns p ts in pl_frames p' = pl_frames p /\ pl_routing p' = [] /\ forall k, pl_queues p' k = [].
Proof.
  induction rs as [|s rs IH]; intros p E Hw; destruct (drain_queues total p Hw) as (ts & Hl & G1 & G2 & G3).
  { exists ts. split; [done|]. split_and!; try done. by rewrite G2. }
  assert (E' : pl_routing (route (turns p ts)) = rs /\ pl_frames (route (turns p ts)) = pl_frames p).
  { unfold route. rewrite G2, E, G3. done. }
  destruct E' as [E1 E2].
  destruct (IH (route (turns p ts)) E1) as (ts' & Hl' & G1' & G2' & G3'); [by apply route_on_way, turns_on_way|].
  exists (ts ++ Route :: ts'). split; [apply Forall_app; split; [done|by constructor]|]. cbv zeta in *. rewrite turns_app.
  change (turns (turns p ts) (Route :: ts')) with (turns (route (turns p ts)) ts'). by rewrite G1', E2.
Qed.

(** From any state the workers can go on to where nothing is left. *)
Lemma pipeline_drains total : forall fs p, pl_frames p = fs -> on_way total p -> exists ts, Forall live_turn ts /\ idle (turns p ts).
Proof.
  induction fs as [|f fs IH]; intros p E Hw; destruct (drain_routing total _ p eq_refl Hw) as (ts & Hl & G1 & G2 & G3).
  { exists ts. split; [done|]. unfold idle. by rewrite G1, G2. }
  assert (E' : pl_frames (notifWorker (turns p ts)) = fs) by (unfold notifWorker; by rewrite G1, G2, E).
  destruct (IH (notifWorker (turns p ts)) E') as (ts' & Hl' & Hi); [by apply notifWorker_on_way, turns_on_way|].
  exists (ts ++ NextFrame :: ts'). split; [apply Forall_app; split; [done|by constructor]|]. by rewrite turns_app.
Qed.
End Drain.

(** ** To the caller's channel *)

(** Frame [f] is a notification carrying [stamps]: 20 bytes of header, the length of the
    payload, the 8 bytes left of the header, the payload. *)
Definition carries (f : bytes) (stamps : list (Z * list (Z * bytes))) : Prop :=
  exists n a b, Forall wf_stamp stamps /\ len (encode_stream n stamps) < 2 ^ 32 /\ len a = 20 /\ len b = 8
    /\ f = a ++ put_u32 (len (encode_stream n stamps)) ++ b ++ encode_stream n stamps.

Lemma carries_decodes f stamps : carries f stamps -> notif_frame f = (concat (map stamp_samples stamps), Ok ()).
Proof.
  intros (n & a & b & Hf & Hl & Ha & Hb & ->). unfold notif_frame. pose proof (len_nonneg (encode_stream n stamps)).
  rewrite (uint_at_app 4) by done. rewrite !len_app, len_le_put, Ha, Hb, Z.mod_small by done.
  rewrite (proj2 (Z.ltb_ge _ _)) by lia. rewrite (proj2 (Z.eqb_eq _ _)) by lia. cbn [negb].
  rewrite (app_assoc (put_u32 _)), (app_assoc a), drop_app_length' by (unfold len in *; rewrite !length_app, length_le_put; lia).
  by apply decodeNotification_encoded.
Qed.

Definition carried (stamps : list (list (Z * list (Z * bytes)))) : list notifSample :=
  concat (map (fun st => concat (map stamp_samples st)) stamps).

Lemma carried_samples fs stamps : Forall2 carries fs stamps -> frames_samples fs = carried stamps.
Proof.
  unfold frames_samples, carried. induction 1 as [|f st fs stamps Hf _ IH]; [done|]. cbn.
  by rewrite (carries_decodes _ _ Hf), IH.
Qed.

Section Delivery.
Context `{FloatText} `{JsonText}.

(** Handle [h] feeds channel [chan h] with the values of symbol [name h], which decodes as
    [sym h] does; sample [s] stands for update [upd s]. *)
Variables (chan : Z -> Z) (name : Z -> string) (sym : Z -> symbol) (upd : notifSample -> Update).
Variable p0 : pipeline.
Variable total : list notifSample.

(** The updates of the samples dispatched so far to channel [ch]. *)
Definition updates_for (ch : Z) (l : list notifSample) : list Update :=
  map upd (filter (fun s => chan (sm_handle s) = ch) l).

Definition understood (d : dispatcher) (s : notifSample) : Prop :=
  subscribed d (chan (sm_handle s)) (sm_handle s) (name (sm_handle s)) (sym (sm_handle s))
  /\ stands_for (c_datatypes (d_cache d)) (name (sm_handle s)) (sym (sm_handle s)) s (upd s).

(** An open channel that has room for all that is to come. *)
Definition roomy (c : channel) : Prop := ch_closed c = false /\ len (ch_buf c) + len total <= ch_cap c.

Record delivered (p : pipeline) : Prop := {
  dl_handler : pl_handler p = true;
  dl_session : forall s, s ∈ total -> understood (pl_session p) s;
  dl_channels : forall ch c0, pl_channels p0 !! ch = Some c0 -> roomy c0 -> exists c, pl_channels p !! ch = Some c
    /\ ch_got c ++ ch_buf c = (ch_got c0 ++ ch_buf c0) ++ updates_for ch (pl_dispatched p)
    /\ ch_cap c = ch_cap c0 /\ ch_closed c = false /\ len (ch_got c0) <= len (ch_got c) }.

Lemma updates_for_app ch l k : updates_for ch (l ++ k) = updates_for ch l ++ updates_for ch k.
Proof. unfold updates_for. by rewrite filter_app, map_app. Qed.
Lemma len_updates_for ch l : len (updates_for ch l) <= len l.
Proof. unfold updates_for. rewrite len_map. unfold len. pose proof (length_filter (fun s => chan (sm_handle s) = ch) l). lia. Qed.

(** A send on an open channel that has room puts the update behind the others. *)
Lemma deliver_open v u c : sv_done v = false -> ch_closed c = false -> len (ch_buf c) < ch_cap c ->
  let c' := (deliverNotification v u c).1 in
  ch_got c' ++ ch_buf c' = (ch_got c ++ ch_buf c) ++ [u] /\ ch_cap c' = ch_cap c /\ ch_closed c' = false
  /\ len (ch_got c) <= len (ch_got c').
Proof.
  intros Hv Hc Hl. unfold deliverNotification, send_ready. rewrite Hv. cbn. rewrite Hc, (proj2 (Z.ltb_lt _ _)) by done. cbn.
  unfold put. cbn. case_match; cbn; rewrite Hc; [|split_and!; [by rewrite app_assoc|done|done|lia]].
  apply andb_prop in H1 as [_ Hz]. apply Z.eqb_eq in Hz. destruct (ch_buf c); [|unfold len in *; cbn in *; lia].
  rewrite !app_nil_r. split_and!; try done. rewrite len_app. unfold len. lia.
Qed.

Lemma dispatch_delivered now v s p : delivered p -> sv_done v = false -> s ∈ total ->
  (length (pl_dispatched p ++ [s]) <= length total)%nat -> delivered (dispatchNotification now v s p).
Proof.
  intros [Hh Hs Hc] Hv Hin Hlen. unfold dispatchNotification. rewrite Hh. cbn [negb].
  destruct (Hs s Hin) as [Hsub Hst]. destruct (dispatch_live _ now _ _ _ _ _ Hsub Hst) as (d' & -> & Hdt & Hkeep).
  split; cbn [pl_handler pl_session pl_channels pl_dispatched]; [done| |].
  - intros s' Hs'. destruct (Hs s' Hs') as [Ha Hb]. split; [by apply Hkeep|]. by rewrite Hdt.
  - intros ch c0 E0 Hr. destruct (Hc ch c0 E0 Hr) as (c & Ec & Hg & Hcap & Hcl & Hgot).
    rewrite updates_for_app. unfold updates_for at 2. rewrite filter_cons, filter_nil.
    destruct (decide (chan (sm_handle s) = ch)) as [<-|Hne].
    2:{ exists c. rewrite lookup_alter_ne by done. by rewrite app_nil_r. }
    rewrite lookup_alter_eq, Ec. cbn. eexists. split; [done|].
    assert (Hlt : len (ch_buf c) < ch_cap c).
    { destruct Hr as [_ Hr]. apply (f_equal len) in Hg. rewrite !len_app in Hg. rewrite Hcap.
      pose proof (len_updates_for (chan (sm_handle s)) (pl_dispatched p)). rewrite length_app in Hlen. unfold len in *. cbn in Hlen. lia. }
    destruct (deliver_open v (upd s) c Hv Hcl Hlt) as (-> & -> & -> & Hmore). rewrite Hg, <- !app_assoc.
    split_and!; try done. lia.
Qed.

Lemma receive_keeps c : ch_got (receive c) ++ ch_buf (receive c) = ch_got c ++ ch_buf c
  /\ ch_cap (receive c) = ch_cap c /\ ch_closed (receive c) = ch_closed c /\ len (ch_got c) <= len (ch_got (receive c)).
Proof.
  unfold receive. destruct c as [cap [|u buf] cl got off]; cbn; [split_and!; try done; lia|].
  rewrite <- app_assoc. split_and!; try done. rewrite len_app. unfold len. lia.
Qed.

Lemma turn_delivered t p : on_way total p -> live_turn t -> delivered p -> delivered (take_turn p t).
Proof.
  intros Hw Hl Hd. destruct t as [| |k now v|ch]; cbn.
  - unfold notifWorker. destruct (pl_frames p), (pl_routing p); try done. by destruct Hd.
  - unfold route. destruct (pl_routing p); [done|]. case_match; [|done]. by destruct Hd.
  - destruct (pl_queues p k) as [|s q] eqn:E; [unfold shard_turn; by rewrite E|].
    pose proof (on_way_submseteq _ _ (shard_turn_on_way _ k now v _ Hw)) as Hsub.
    destruct (shard_turn_frame k now v p) as (_ & _ & _ & _ & _ & Ed). rewrite Ed, E in Hsub. cbn in Hsub.
    unfold shard_turn. rewrite E. apply dispatch_delivered; [by destruct Hd|done| |].
    + eapply elem_of_submseteq; [|exact Hsub]. apply elem_of_app. right. by apply list_elem_of_singleton.
    + by apply submseteq_length in Hsub.
  - destruct Hd as [Hh Hs Hc]. split; cbn; try done. intros ch' c0 E0 Hr. destruct (Hc ch' c0 E0 Hr) as (c & Ec & Hg & Hcap & Hcl & Hgot).
    destruct (decide (ch = ch')) as [->|Hne]; [|rewrite lookup_alter_ne by done; by exists c].
    rewrite lookup_alter_eq, Ec. cbn. eexists. split; [done|]. destruct (receive_keeps c) as (-> & -> & -> & Hmore).
    split_and!; try done. lia.
Qed.

Lemma turns_delivered ts : forall p, on_way total p -> Forall live_turn ts -> delivered p -> delivered (turns p ts).
Proof.
  induction ts as [|t ts IH]; intros p Hw Hl Hd; [done|]. apply Forall_cons in Hl as [Ht Hl].
  apply (IH (take_turn p t)); [|done|by apply turn_delivered]. by apply (turns_on_way total [t]).
Qed.
End Delivery.

Section Whole.
Context `{FloatText} `{JsonText}.

(** C4. However the worker, the shards and the caller interleave, every sample of the frames
    received is dispatched once, the samples of a subscription in the order of the wire;
    a channel with room receives, after what it held, exactly the updates of its samples
    in the order they were dispatched, each with its symbol's name, its value decoded as
    the symbol's type says and its stamp's time; and from any point the workers can go on
    until nothing is left. *)
Theorem notifications_reach_the_caller chan name sym upd p0 stamps ts :
  Forall2 carries (pl_frames p0) stamps -> pl_routing p0 = [] -> (forall k, pl_queues p0 k = []) ->
  pl_dispatched p0 = [] -> pl_handler p0 = true ->
  (forall s, s ∈ carried stamps -> understood chan name sym upd (pl_session p0) s) ->
  Forall live_turn ts ->
  let p := turns p0 ts in
  (forall ch c0, pl_channels p0 !! ch = Some c0 -> roomy (carried stamps) c0 ->
     exists c, pl_channels p !! ch = Some c
       /\ ch_got c ++ ch_buf c = (ch_got c0 ++ ch_buf c0) ++ updates_for chan upd ch (pl_dispatched p))
  /\ (forall h, of_handle h (pl_dispatched p) `prefix_of` of_handle h (carried stamps))
  /\ (idle p -> pl_dispatched p ≡ₚ carried stamps
                /\ forall h, of_handle h (pl_dispatched p) = of_handle h (carried stamps))
  /\ exists ts', Forall live_turn ts' /\ idle (turns p ts').
Proof.
  intros Hf Hr Hq Hn Hh Hu Hl. cbv zeta. rewrite <- (carried_samples _ _ Hf) in *. set (total := frames_samples (pl_frames p0)) in *.
  assert (Hw0 : on_way total p0).
  { split; [|intros k; by rewrite Hq]. intros h. unfold to_come. by rewrite Hn, Hr, Hq. }
  assert (Hd0 : delivered chan name sym upd p0 total p0).
  { split; [done|done|]. intros ch c0 E [Hc Hroom]. exists c0. rewrite Hn, app_nil_r. by split_and!. }
  assert (Hw := turns_on_way total ts p0 Hw0). assert (Hd := turns_delivered _ _ _ _ _ _ ts p0 Hw0 Hl Hd0).
  split_and!.
  - intros ch c0 E Hroom. destruct (dl_channels _ _ _ _ _ _ _ Hd ch c0 E Hroom) as (c & Hc & Hg & _). by exists c.
  - intros h. rewrite <- (ow_order _ _ Hw h). by apply prefix_app_r.
  - intros (I1 & I2 & I3). assert (Ho : forall h, of_handle h (pl_dispatched (turns p0 ts)) = of_handle h total).
    { intros h. rewrite <- (ow_order _ _ Hw h). unfold to_come. rewrite I1, I2, I3. by rewrite !app_nil_r. }
    split; [|done]. apply (anti_symm submseteq); apply prefixes_submseteq; intros h; by rewrite Ho.
  - by apply (pipeline_drains total _ _ eq_refl).
Qed.
End Whole.

(** ** A concrete run *)

#[local] Existing Instance bits_text.
#[local] Existing Instance empty_json.

Definition two_stamps : list (Z * list (Z * bytes)) :=
  [(10000000, [(7, put_u16 1); (8, put_u16 2)]); (20000000, [(7, put_u16 3)])].
Definition two_frame : bytes :=
  replicate 20 Byte.x00 ++ put_u32 (len (encode_stream 0 two_stamps)) ++ replicate 8 Byte.x00 ++ encode_stream 0 two_stamps.
Definition two_name (h : Z) : string := if h =? 7 then "MAIN.a" else "MAIN.b".
Definition two_symbol (h : Z) : symbol := MkSymbol (plain_data (two_name h) "INT" 0 2) [].
Definition two_update (s : notifSample) : Update :=
  {| u_Variable := two_name (sm_handle s); u_Value := format_int (le_get (sm_content s));
     u_TimeStamp := sample_time (sm_timestamp s); u_Stale := None |}.
Definition two_entry (h : Z) : activeNotification := {| an_Sym := Some (two_name h); an_Ch := 1; an_order := None |}.
Definition two_session : dispatcher :=
  {| d_closed := false; d_reconnecting := false; d_subs := set_active {[7 := two_entry 7; 8 := two_entry 8]} no_subs;
     d_window := fresh_window; d_heartbeat := {| heartbeatHandle := 0; heartbeatBeats := 0; heartbeatLastNs := 0 |};
     d_cache := {| c_symbols := {[symbolKey "MAIN.a" := two_symbol 7; symbolKey "MAIN.b" := two_symbol 8]};
                   c_datatypes := ∅; c_symbolVersion := 0 |};
     d_stale := ∅ |}.
Definition two_pipeline : pipeline :=
  {| pl_frames := [two_frame]; pl_routing := []; pl_queues := fun _ => []; pl_handler := true; pl_session := two_session;
     pl_channels := {[1 := make_channel 3]}; pl_dispatched := [] |}.
Definition two_turns : list turn :=
  [NextFrame; Route; Route; Shard 0 0 free; Shard 7 0 free; Receive 1; Route; Shard 7 0 free].

Example two_arrive :
  option_map (fun c => map (fun u => (u_Variable u, u_Value u, u_TimeStamp u)) (ch_got c ++ ch_buf c))
    (pl_channels (turns two_pipeline two_turns) !! 1)
  = Some [("MAIN.b"%string, "2"%string, Some (1 - secToUnixEpoch, 0)); ("MAIN.a"%string, "1"%string, Some (1 - secToUnixEpoch, 0));
          ("MAIN.a"%string, "3"%string, Some (2 - secToUnixEpoch, 0))].
Proof. by vm_compute. Qed.

Lemma two_understood s : s ∈ carried [two_stamps] -> understood (fun _ => 1) two_name two_symbol two_update two_session s.
Proof.
  assert (Hs : forall h, h = 7 \/ h = 8 -> subscribed two_session 1 h (two_name h) (two_symbol h)).
  { intros h [-> | ->]; split; try done; eexists; by vm_compute. }
  unfold carried. cbn. rewrite !elem_of_cons, elem_of_nil. intros [-> |[-> |[-> |[]]]].
  all: split; [apply Hs; by auto|split; [by do 2 eexists; split; vm_compute|by intros ?]].
Qed.

Lemma two_drained k : pl_queues (turns two_pipeline two_turns) k = [].
Proof. vm_compute. by repeat case_match. Qed.

Lemma notifications_reach_the_caller_witness :
  let p := turns two_pipeline two_turns in
  (exists c, pl_channels p !! 1 = Some c
     /\ ch_got c ++ ch_buf c = updates_for (fun _ => 1) two_update 1 (pl_dispatched p))
  /\ pl_dispatched p ≡ₚ carried [two_stamps].
Proof.
  assert (Hc : Forall2 carries [two_frame] [two_stamps]).
  { constructor; [|constructor]. exists 0, (replicate 20 Byte.x00), (replicate 8 Byte.x00).
    split_and!; try done. repeat constructor; by vm_compute. }
  destruct (notifications_reach_the_caller (fun _ => 1) two_name two_symbol two_update two_pipeline [two_stamps] two_turns
    Hc eq_refl (fun _ => eq_refl) eq_refl eq_refl two_understood ltac:(by repeat constructor)) as (H1 & _ & H3 & _).
  split.
  - destruct (H1 1 (make_channel 3) eq_refl) as (c & Hc1 & Hc2); [by vm_compute|]. exists c. split; [exact Hc1|]. rewrite Hc2. exact (app_nil_l _).
  - apply H3. clear. unfold idle.
    assert (E : pl_frames (turns two_pipeline two_turns) = [] /\ pl_routing (turns two_pipeline two_turns) = []) by (by vm_compute).
    split; [apply E|]. split; [apply E|]. apply two_drained.
Defined.

Section PartialDecode.
Context `{FloatText} `{JsonText}.

(** The members an attempt leaves, one after the other. *)
Fixpoint left_members (offset stop : Z) (data : bytes) (dts : option datatypes) (cs : list (string * symbol))
  : list (string * symbol) :=
  match cs with
  | [] => []
  | (k, c) :: cs =>
      match slice data offset stop with
      | Ok seg =>
          (k, parse_left c seg (sy_Offset (sy_data c)) dts)
            :: (if is_ok (parse c seg (sy_Offset (sy_data c)) dts) then left_members offset stop data dts cs else cs)
      | _ => (k, c) :: cs
      end
  end.

Lemma parse_left_unfold d cs data offset dts : parse_left (MkSymbol d cs) data offset dts =
  match parse (MkSymbol d cs) data offset dts with
  | Ok (s', _) => s'
  | _ => if len data <? sy_Length d then MkSymbol d cs
         else MkSymbol d (left_members offset
                (if len data <? offset + sy_Length d then len data else offset + sy_Length d) data dts cs)
  end.
Proof.
  cbn [parse_left]. destruct (parse (MkSymbol d cs) data offset dts) as [[]| |]; [done| |].
  all: case_match; [done|]; f_equal.
  all: generalize (if len data <? offset + sy_Length d then len data else offset + sy_Length d); intros stop.
  all: induction cs as [|[k c] cs IH]; [done|]; cbn [left_members]; destruct (slice _ _ _); [|done|done].
  all: by rewrite <- IH.
Qed.

(** A decode that succeeds leaves what it returns. *)
Lemma parse_left_ok s data offset dts s' v : parse s data offset dts = Ok (s', v) -> parse_left s data offset dts = s'.
Proof. destruct s as [d cs]. rewrite parse_left_unfold. by intros ->. Qed.

(** One that fails leaves the object it was asked for with its old value. *)
Lemma parse_left_own_value s data offset dts :
  is_ok (parse s data offset dts) = false -> sy_data (parse_left s data offset dts) = sy_data s.
Proof. destruct s as [d cs]. rewrite parse_left_unfold. destruct (parse _ _ _ _) as [[]| |]; [done| |]; by case_match. Qed.

(** Either way only values change: not the layout, the types or the names. *)
Lemma parse_left_shape s : forall data offset dts, strip (parse_left s data offset dts) = strip s.
Proof.
  induction s as [d cs IH] using symbol_nested_ind. intros data offset dts. rewrite parse_left_unfold.
  destruct (parse (MkSymbol d cs) data offset dts) as [[s' v]| |] eqn:E; [by eapply parse_keeps_shape| |].
  all: case_match; [done|]; cbn [strip]; f_equal; clear E.
  all: generalize (if len data <? offset + sy_Length d then len data else offset + sy_Length d); intros stop.
  all: induction IH as [|[k c] cs Hc _ IHcs]; [done|]; cbn [left_members]; destruct (slice _ _ _); [|done|done].
  all: cbn [map]; rewrite Hc; f_equal; by case_match.
Qed.

(** After a failed decode the next one gives what it would have given without it. *)
Theorem failed_decode_is_forgotten s bad off dts data offset dts' :
  parse (parse_left s bad off dts) data offset dts' = parse s data offset dts'.
Proof. apply parse_alike, parse_left_shape. Qed.
End PartialDecode.

(** ** A structure whose second member cannot be decoded *)

#[local] Existing Instance bits_text.
#[local] Existing Instance empty_json.

Definition half_symbol : symbol :=
  MkSymbol (plain_data "s" "ST_A" 0 4)
    [("a"%string, MkSymbol (plain_data "a" "INT" 0 2) []); ("b"%string, MkSymbol (plain_data "b" "BOOL" 2 2) [])].

(** The structure is not decoded, its first member has the new value all the same. *)
Lemma failed_decode_refreshes_a_prefix :
  is_ok (parse half_symbol (put_u16 5 ++ put_u16 1) 0 None) = false /\
  map (fun '(k, c) => (k, sy_Value (sy_data c))) (sy_children (parse_left half_symbol (put_u16 5 ++ put_u16 1) 0 None))
    = [("a"%string, "5"%string); ("b"%string, ""%string)] /\
  sy_Value (sy_data (parse_left half_symbol (put_u16 5 ++ put_u16 1) 0 None)) = ""%string.
Proof. by vm_compute. Qed.
