(* ===== verification/RawClient.v ===== *)
(** client.go: the end of a [Client] used on its own - the goroutines [Dial] starts, the
    callbacks they run, and [Close], which may be called by anyone, any number of times,
    also from inside a callback.  Goroutines interleave; every step is one of theirs. *)
From S2P Require Import Prelude Defs Peer NotifStream.

(** The goroutines by number: the listener, the transmitter, the notification worker, its
    shards, [recvWorkerCount] receive workers; then the readers, each numbered as its
    connection.  The shards are not in the client's wait group; the notification worker
    waits for them before it ends. *)
Definition listen : Z := 0.
Definition transmitWorker : Z := 1.
Definition notifWorker : Z := 2.
Definition first_shard : Z := 3.
Definition first_recv : Z := first_shard + notifShardCount.
Definition first_reader : Z := first_recv + recvWorkerCount.
Definition is_shard (g : Z) : bool := (first_shard <=? g) && (g <? first_recv).

(** Where the body of [Close] is: about to set [disconnected], to latch [peerClosed], to
    close the connections it took, to release the waiting requests, to cancel, to close
    the socket, to wait; or returned. *)
Inductive phase : Type :=
| Disconnect | Latch | ClosePeers (conns : list Z) | Release | Cancel | CloseSocket | Wait | Done.

#[export] Instance phase_eq_dec : EqDecision phase.
Proof. solve_decision. Defined.

(** [rw_workers]: the goroutines not ended, and whether they are inside a callback;
    [rw_inbound] the inbound sockets open.  [rw_phase] is [None] until [Close] is called,
    [rw_callers] all who called it, [Some g] a call made inside goroutine [g]'s callback. *)
Record raw : Type := {
  rw_disconnected : bool; rw_dropped : bool; rw_cancelled : bool; rw_socket : bool;
  rw_peerConns : list Z; rw_peerClosed : bool; rw_inbound : gset Z; rw_next : Z;
  rw_workers : gmap Z bool; rw_phase : option phase; rw_callers : list (option Z) }.

Definition set_workers (ws : gmap Z bool) (s : raw) : raw :=
  {| rw_disconnected := rw_disconnected s; rw_dropped := rw_dropped s; rw_cancelled := rw_cancelled s;
     rw_socket := rw_socket s; rw_peerConns := rw_peerConns s; rw_peerClosed := rw_peerClosed s;
     rw_inbound := rw_inbound s; rw_next := rw_next s; rw_workers := ws; rw_phase := rw_phase s; rw_callers := rw_callers s |}.
Definition set_flags (disc drp canc sock : bool) (s : raw) : raw :=
  {| rw_disconnected := disc; rw_dropped := drp; rw_cancelled := canc; rw_socket := sock;
     rw_peerConns := rw_peerConns s; rw_peerClosed := rw_peerClosed s; rw_inbound := rw_inbound s; rw_next := rw_next s;
     rw_workers := rw_workers s; rw_phase := rw_phase s; rw_callers := rw_callers s |}.
Definition set_peers (conns : list Z) (closed : bool) (open_ : gset Z) (s : raw) : raw :=
  {| rw_disconnected := rw_disconnected s; rw_dropped := rw_dropped s; rw_cancelled := rw_cancelled s;
     rw_socket := rw_socket s; rw_peerConns := conns; rw_peerClosed := closed; rw_inbound := open_;
     rw_next := rw_next s; rw_workers := rw_workers s; rw_phase := rw_phase s; rw_callers := rw_callers s |}.
Definition set_phase (p : phase) (s : raw) : raw :=
  {| rw_disconnected := rw_disconnected s; rw_dropped := rw_dropped s; rw_cancelled := rw_cancelled s;
     rw_socket := rw_socket s; rw_peerConns := rw_peerConns s; rw_peerClosed := rw_peerClosed s;
     rw_inbound := rw_inbound s; rw_next := rw_next s; rw_workers := rw_workers s; rw_phase := Some p; rw_callers := rw_callers s |}.
Definition add_caller (by_ : option Z) (s : raw) : raw :=
  {| rw_disconnected := rw_disconnected s; rw_dropped := rw_dropped s; rw_cancelled := rw_cancelled s;
     rw_socket := rw_socket s; rw_peerConns := rw_peerConns s; rw_peerClosed := rw_peerClosed s;
     rw_inbound := rw_inbound s; rw_next := rw_next s; rw_workers := rw_workers s; rw_phase := rw_phase s;
     rw_callers := rw_callers s ++ [by_] |}.

(** [startWorkers] on a socket just dialled. *)
Definition startWorkers : raw :=
  {| rw_disconnected := false; rw_dropped := false; rw_cancelled := false; rw_socket := true;
     rw_peerConns := []; rw_peerClosed := false; rw_inbound := ∅; rw_next := first_reader;
     rw_workers := gset_to_gmap false (list_to_set (seqZ 0 first_reader)); rw_phase := None; rw_callers := [] |}.

(** [AcceptPeerConn] of a new connection. *)
Definition AcceptPeerConn (s : raw) : raw :=
  if rw_peerClosed s || rw_cancelled s then s
  else {| rw_disconnected := rw_disconnected s; rw_dropped := rw_dropped s; rw_cancelled := rw_cancelled s;
          rw_socket := rw_socket s; rw_peerConns := rw_peerConns s ++ [rw_next s]; rw_peerClosed := rw_peerClosed s;
          rw_inbound := {[rw_next s]} ∪ rw_inbound s; rw_next := rw_next s + 1;
          rw_workers := <[rw_next s := false]> (rw_workers s); rw_phase := rw_phase s; rw_callers := rw_callers s |}.

(** [callOnDrop], by the listener or the transmitter: the waiting requests are released,
    the callback runs; the goroutine ends with it. *)
Definition callOnDrop (g : Z) (s : raw) : raw :=
  set_workers (<[g := true]> (rw_workers s))
    (set_flags (rw_disconnected s) true (rw_cancelled s) (rw_socket s) s).

(** The end of a goroutine; a reader closes its connection and takes it off the list. *)
Definition worker_ends (g : Z) (s : raw) : raw :=
  let s := set_workers (delete g (rw_workers s)) s in
  if first_reader <=? g then set_peers (forget g (rw_peerConns s)) (rw_peerClosed s) (rw_inbound s ∖ {[g]}) s else s.

(** Whether a goroutine outside a callback ends whatever the PLC does: the listener and
    the readers sit in a read until their socket is closed, the notification worker waits
    for its shards. *)
Definition must_end (g : Z) (s : raw) : bool :=
  if g =? listen then rw_cancelled s && negb (rw_socket s)
  else if first_reader <=? g then negb (bool_decide (g ∈ rw_inbound s))
  else rw_cancelled s && (negb (g =? notifWorker) || bool_decide (map_Forall (fun k _ => is_shard k = false) (rw_workers s))).

(** The body of [Close], one statement at a time. *)
Definition close_body (s : raw) : raw :=
  match rw_phase s with
  | Some Disconnect => set_phase Latch (set_flags true (rw_dropped s) (rw_cancelled s) (rw_socket s) s)
  | Some Latch => set_phase (ClosePeers (rw_peerConns s)) (set_peers [] true (rw_inbound s) s)
  | Some (ClosePeers (n :: conns)) =>
      set_phase (ClosePeers conns) (set_peers (rw_peerConns s) (rw_peerClosed s) (rw_inbound s ∖ {[n]}) s)
  | Some (ClosePeers []) => set_phase Release s
  | Some Release => set_phase Cancel (set_flags (rw_disconnected s) true (rw_cancelled s) (rw_socket s) s)
  | Some Cancel => set_phase CloseSocket (set_flags (rw_disconnected s) (rw_dropped s) true (rw_socket s) s)
  | Some CloseSocket => set_phase Wait (set_flags (rw_disconnected s) (rw_dropped s) (rw_cancelled s) false s)
  | Some Wait => if bool_decide (rw_workers s = ∅) then set_phase Done s else s
  | _ => s
  end.

(** [Close]: the first call runs the body, the others wait for it in [closeOnce]. *)
Definition Close (by_ : option Z) (s : raw) : raw :=
  let s := add_caller by_ s in match rw_phase s with None => set_phase Disconnect s | Some _ => s end.

(** [Close] has returned, to all its callers. *)
Definition close_returned (s : raw) : Prop := rw_phase s = Some Done.
(** A goroutine whose callback is in [Close]. *)
Definition in_close (g : Z) (s : raw) : bool :=
  bool_decide (Some g ∈ rw_callers s) && negb (bool_decide (rw_phase s = Some Done)).

(** The steps: the PLC dials in; the link fails under the listener or the transmitter; a
    sample is handed to the handler; a callback returns; a goroutine ends, made to or
    because of what the PLC does; [Close] is called, inside a callback or not, and runs. *)
Inductive raw_step : Type :=
| RAccept | RDrop (g : Z) | RSample (g : Z) | RReturn (g : Z) | REnd (g : Z) | RPeerEnds (g : Z)
| RClose (by_ : option Z) | RBody.

Definition rstep (s : raw) (a : raw_step) : raw :=
  match a with
  | RAccept => AcceptPeerConn s
  | RDrop g => if ((g =? listen) || (g =? transmitWorker)) && bool_decide (rw_workers s !! g = Some false)
               then callOnDrop g s else s
  | RSample g => if is_shard g && bool_decide (rw_workers s !! g = Some false)
                 then set_workers (<[g := true]> (rw_workers s)) s else s
  | RReturn g => if bool_decide (rw_workers s !! g = Some true) && negb (in_close g s)
                 then if is_shard g then set_workers (<[g := false]> (rw_workers s)) s else worker_ends g s
                 else s
  | REnd g => if bool_decide (rw_workers s !! g = Some false) && must_end g s then worker_ends g s else s
  | RPeerEnds g => if bool_decide (rw_workers s !! g = Some false) && ((g =? listen) && rw_cancelled s || (first_reader <=? g))
                   then worker_ends g s else s
  | RClose None => Close None s
  | RClose (Some g) => if bool_decide (rw_workers s !! g = Some true) && negb (in_close g s) then Close (Some g) s else s
  | RBody => close_body s
  end.
Definition rrun (s : raw) (l : list raw_step) : raw := foldl rstep s l.
