(* ===== verification/RawFacts.v ===== *)
(** RawClient.v: what is left of a client when [Close] has returned, and when it returns:
    exactly when nobody called it from inside one of the client's own callbacks. *)
From S2P Require Import Prelude Defs Peer PeerFacts NotifStream RawClient.

(** ** The invariant *)

Definition rank (p : option phase) : Z :=
  match p with
  | None => -1 | Some Disconnect => 0 | Some Latch => 1 | Some (ClosePeers _) => 2 | Some Release => 3
  | Some Cancel => 4 | Some CloseSocket => 5 | Some Wait => 6 | Some Done => 7
  end.

(** What [Close] has done so far, read off its position; an open inbound socket has its
    reader, and until [Close] is past it is among those to be closed; only listener,
    transmitter and shards are inside callbacks, and who is in [Close] is inside one. *)
Record raw_ok (s : raw) : Prop := {
  ro_disconnected : 1 <= rank (rw_phase s) -> rw_disconnected s = true;
  ro_latched : 2 <= rank (rw_phase s) -> rw_peerClosed s = true /\ rw_peerConns s = [];
  ro_open : forall n, n ∈ rw_inbound s -> is_Some (rw_workers s !! n) /\ first_reader <= n
    /\ (rank (rw_phase s) < 2 -> n ∈ rw_peerConns s)
    /\ (forall l, rw_phase s = Some (ClosePeers l) -> n ∈ l) /\ rank (rw_phase s) < 3;
  ro_released : 4 <= rank (rw_phase s) -> rw_dropped s = true;
  ro_cancelled : 5 <= rank (rw_phase s) -> rw_cancelled s = true;
  ro_socket : 6 <= rank (rw_phase s) -> rw_socket s = false;
  ro_done : 7 <= rank (rw_phase s) -> rw_workers s = ∅;
  ro_known : forall g b, rw_workers s !! g = Some b -> g < rw_next s;
  ro_next : first_reader <= rw_next s;
  ro_inside : forall g, rw_workers s !! g = Some true -> g < first_reader;
  ro_callers : forall g, Some g ∈ rw_callers s -> rw_phase s <> Some Done -> rw_workers s !! g = Some true }.

Lemma startWorkers_ok : raw_ok startWorkers.
Proof.
  split; try done; try (cbn; intros; lia).
  - intros g b [Hg _]%lookup_gset_to_gmap_Some. apply elem_of_list_to_set, elem_of_seqZ in Hg. cbn. lia.
  - by intros g [_ ?]%lookup_gset_to_gmap_Some.
  - by intros g ?%elem_of_nil.
Qed.

(** Only the goroutines change: outside [Close], and outside those in it. *)
Lemma workers_ok ws s : raw_ok s ->
  (forall n, n ∈ rw_inbound s -> is_Some (ws !! n)) ->
  (rw_workers s = ∅ -> ws = ∅) -> (forall g b, ws !! g = Some b -> is_Some (rw_workers s !! g)) ->
  (forall g, ws !! g = Some true -> g < first_reader) ->
  (forall g, in_close g s = true -> ws !! g = Some true) ->
  raw_ok (set_workers ws s).
Proof.
  intros [H1 H2 H3 H4 H5 H6 H7 H8 H9 H10 H11] Hin He Hk Ht Hc. split; cbn; try done.
  - intros n Hn. split; [by apply Hin|]. apply (H3 n Hn).
  - intros Hr. by apply He, H7.
  - intros g b Hg. destruct (Hk g b Hg) as [b' Hb]. by eapply H8.
  - intros g Hg Hp. apply Hc. unfold in_close. by rewrite bool_decide_true, bool_decide_false.
Qed.

Lemma worker_ends_ok g s : raw_ok s -> in_close g s = false -> raw_ok (worker_ends g s).
Proof.
  intros Hs Hg. unfold worker_ends.
  assert (Hc : forall h, in_close h s = true -> delete g (rw_workers s) !! h = Some true).
  { intros h Hh. destruct (decide (h = g)) as [->|]; [congruence|]. rewrite lookup_delete_ne by done.
    unfold in_close in Hh. apply andb_prop in Hh as [Hi Hp]. apply bool_decide_eq_true in Hi.
    apply negb_true_iff, bool_decide_eq_false in Hp. by apply ro_callers. }
  destruct (first_reader <=? g) eqn:E.
  - destruct s as [di dr ca so co cl op ne ws ph cs]. destruct Hs as [H1 H2 H3 H4 H5 H6 H7 H8 H9 H10 H11]. unfold in_close in *. cbn in *.
    split; cbn; try done.
    + intros Hr. by destruct (H2 Hr) as [-> ->].
    + intros n Hn. apply elem_of_difference in Hn as [Hn Hne]. destruct (H3 n Hn) as (A & A' & B & C).
      split; [rewrite lookup_delete_ne by set_solver; done|]. split; [done|]. split; [|done]. intros Hr. apply forget_other; [set_solver|by apply B].
    + intros Hr. rewrite H7 by done. apply delete_empty.
    + intros h b Hh. apply lookup_delete_Some in Hh as [_ Hh]. by eapply H8.
    + intros h Hh. apply lookup_delete_Some in Hh as [_ Hh]. by apply H10.
    + intros h Hi Hp. apply Hc. by rewrite bool_decide_true, bool_decide_false.
  - apply Z.leb_gt in E. apply workers_ok; try done.
    + intros n Hn. destruct (ro_open s Hs n Hn) as (A & A' & _). rewrite lookup_delete_ne by lia. done.
    + intros ->. apply delete_empty.
    + intros h b Hh. apply lookup_delete_Some in Hh as [_ Hh]. by eexists.
    + intros h Hh. apply lookup_delete_Some in Hh as [_ Hh]. by eapply ro_inside.
Qed.

Lemma in_close_inside g s : raw_ok s -> in_close g s = true -> rw_workers s !! g = Some true.
Proof.
  intros Hs Hh. unfold in_close in Hh. apply andb_prop in Hh as [Hi Hp]. apply bool_decide_eq_true in Hi.
  apply negb_true_iff, bool_decide_eq_false in Hp. by apply ro_callers.
Qed.

(** A goroutine goes into or out of its callback. *)
Lemma set_inside_ok g b s : raw_ok s -> is_Some (rw_workers s !! g) -> (b = true -> g < first_reader) ->
  (b = false -> in_close g s = false) -> raw_ok (set_workers (<[g := b]> (rw_workers s)) s).
Proof.
  intros Hs [x Hx] Hb Hc. apply workers_ok; try done.
  - intros n Hn. destruct (ro_open s Hs n Hn) as [A _]. destruct (decide (n = g)) as [->|]; [by rewrite lookup_insert_eq|by rewrite lookup_insert_ne].
  - intros E. by rewrite E in Hx.
  - intros h y. destruct (decide (h = g)) as [->|]; [by eauto|]. rewrite lookup_insert_ne by done. by eauto.
  - intros h. destruct (decide (h = g)) as [->|]; [rewrite lookup_insert_eq; intros [= ->]; by apply Hb|].
    rewrite lookup_insert_ne by done. by apply ro_inside.
  - intros h Hh. destruct (decide (h = g)) as [->|]; [|rewrite lookup_insert_ne by done; by apply in_close_inside].
    rewrite lookup_insert_eq. destruct b; [done|]. rewrite Hc in Hh; done.
Qed.

Lemma drop_ok s : raw_ok s -> raw_ok (set_flags (rw_disconnected s) true (rw_cancelled s) (rw_socket s) s).
Proof. intros []. by split. Qed.

Lemma raw_accept_ok s : raw_ok s -> raw_ok (AcceptPeerConn s).
Proof.
  intros Hs. unfold AcceptPeerConn. destruct (rw_peerClosed s || rw_cancelled s) eqn:E; [done|].
  apply orb_false_iff in E as [E1 E2]. destruct s as [di dr ca so co cl op ne ws ph cs]. cbn in *. subst.
  destruct Hs as [H1 H2 H3 H4 H5 H6 H7 H8 H9 H10 H11]. cbn in *.
  assert (Hr : rank ph < 2) by (destruct (Z.lt_ge_cases (rank ph) 2) as [|Hr]; [done|by apply H2 in Hr as [??]]).
  assert (Hn : ws !! ne = None) by (destruct (ws !! ne) as [b|] eqn:Hn; [specialize (H8 _ _ Hn); lia|done]).
  split; cbn; try done; try (intros; lia).
  - intros n [->%elem_of_singleton|Hi]%elem_of_union.
    + rewrite lookup_insert_eq. split; [done|]. split; [lia|]. split; [intros; set_solver|]. split; [|lia].
      intros l ->. cbn in Hr. lia.
    + destruct (H3 n Hi) as (A & A' & B & C). split; [|split; [done|split; [|done]]].
      * destruct (decide (n = ne)) as [->|]; [by rewrite lookup_insert_eq|by rewrite lookup_insert_ne].
      * intros _. apply elem_of_app. left. by apply B.
  - intros g b. destruct (decide (g = ne)) as [->|]; [lia|]. rewrite lookup_insert_ne by done. intros Hg. specialize (H8 _ _ Hg). lia.
  - intros g. destruct (decide (g = ne)) as [->|]; [by rewrite lookup_insert_eq|]. rewrite lookup_insert_ne by done. apply H10.
  - intros g Hi Hp. specialize (H11 g Hi Hp). destruct (decide (g = ne)) as [->|]; [congruence|]. by rewrite lookup_insert_ne.
Qed.

Lemma close_body_ok s : raw_ok s -> raw_ok (close_body s).
Proof.
  intros Hs. unfold close_body. destruct (rw_phase s) as [p|] eqn:E; [|done].
  destruct s as [di dr ca so co cl op ne ws ph cs]. cbn in E. subst ph. destruct Hs as [H1 H2 H3 H4 H5 H6 H7 H8 H9 H10 H11]. cbn in *.
  assert (Hcs : forall g, p <> Done -> Some g ∈ cs -> ws !! g = Some true) by (intros g Hp Hg; apply H11; [done|congruence]).
  destruct p as [| |[|n l]| | | | |]; cbn in *; try case_bool_decide;
    (split; cbn; try done; try (intros; lia); try (by intros g ? ?; apply Hcs)).
  all: try (intros m Hm; first [apply elem_of_difference in Hm as [Hm Hne]|idtac];
            destruct (H3 m Hm) as (A & A' & B & C & D); try lia; split_and!; try done; try lia).
  all: try (intros _; first [by apply H1|by apply H2|by apply H4|by apply H5|by apply H6]).
  - intros l [= <-]. by apply B.
  - specialize (C [] eq_refl). by apply elem_of_nil in C.
  - intros l' [= <-]. specialize (C _ eq_refl). set_solver.
Qed.

Lemma Close_ok by_ s : raw_ok s -> (forall g, by_ = Some g -> rw_workers s !! g = Some true) -> raw_ok (Close by_ s).
Proof.
  intros Hs Hg. destruct s as [di dr ca so co cl op ne ws ph cs]. destruct Hs as [H1 H2 H3 H4 H5 H6 H7 H8 H9 H10 H11].
  unfold Close. cbn in *.
  assert (Hcs : forall g, ph <> Some Done -> Some g ∈ cs ++ [by_] -> ws !! g = Some true).
  { intros g Hp [Hi|Hi%list_elem_of_singleton]%elem_of_app; [by apply H11|by apply Hg]. }
  destruct ph as [p|]; cbn; split; cbn; try done; try (intros; lia); try (intros g ? ?; by apply Hcs).
  intros n Hn. destruct (H3 n Hn) as (A & A' & B & C & D). split_and!; try done.
Qed.

Lemma rstep_ok s a : raw_ok s -> raw_ok (rstep s a).
Proof.
  intros Hs. destruct a as [|g|g|g|g|g|[g|]|]; cbn [rstep].
  - by apply raw_accept_ok.
  - destruct (_ && _) eqn:E; [|done]. apply andb_prop in E as [Eg Ew]. apply bool_decide_eq_true in Ew.
    unfold callOnDrop. change (rw_workers s) with (rw_workers (set_flags (rw_disconnected s) true (rw_cancelled s) (rw_socket s) s)).
    apply set_inside_ok; [by apply drop_ok|by eexists| |done]. intros _. apply orb_prop in Eg as [->%Z.eqb_eq | ->%Z.eqb_eq]; done.
  - destruct (_ && _) eqn:E; [|done]. apply andb_prop in E as [Eg Ew]. apply bool_decide_eq_true in Ew.
    apply set_inside_ok; [done|by eexists| |done]. intros _. unfold is_shard, first_reader, first_recv, first_shard, notifShardCount, recvWorkerCount in *.
    apply andb_prop in Eg as [_ Eg%Z.ltb_lt]. lia.
  - destruct (_ && _) eqn:E; [|done]. apply andb_prop in E as [Ew Ec]. apply bool_decide_eq_true in Ew. apply negb_true_iff in Ec.
    destruct (is_shard g); [apply set_inside_ok; [done|by eexists|done|done]|by apply worker_ends_ok].
  - destruct (_ && _) eqn:E; [|done]. apply andb_prop in E as [Ew _]. apply bool_decide_eq_true in Ew.
    apply worker_ends_ok; [done|]. destruct (in_close g s) eqn:Ec; [|done]. apply in_close_inside in Ec; [congruence|done].
  - destruct (_ && _) eqn:E; [|done]. apply andb_prop in E as [Ew _]. apply bool_decide_eq_true in Ew.
    apply worker_ends_ok; [done|]. destruct (in_close g s) eqn:Ec; [|done]. apply in_close_inside in Ec; [congruence|done].
  - destruct (_ && _) eqn:E; [|done]. apply andb_prop in E as [Ew _]. apply bool_decide_eq_true in Ew.
    apply Close_ok; [done|]. by intros h [= <-].
  - by apply Close_ok.
  - by apply close_body_ok.
Qed.

Lemma rrun_ok l s : raw_ok s -> raw_ok (rrun s l).
Proof. revert s. induction l as [|a l IH]; intros s Hs; [done|]. apply (IH (rstep s a)), rstep_ok, Hs. Qed.

(** ** Once it has returned *)

(** Nothing is left of the client. *)
Definition gone (s : raw) : Prop :=
  rw_workers s = ∅ /\ rw_inbound s = ∅ /\ rw_peerConns s = [] /\ rw_socket s = false
  /\ rw_disconnected s = true /\ rw_dropped s = true /\ rw_cancelled s = true /\ rw_peerClosed s = true.

Lemma returned_gone s : raw_ok s -> close_returned s -> gone s.
Proof.
  intros [H1 H2 H3 H4 H5 H6 H7 _ _ _ _] E. unfold close_returned in E. rewrite E in *. cbn in *.
  destruct H2 as [H2 H2']; [lia|]. unfold gone. rewrite H2, H2', H1, H4, H5, H6, H7 by lia. split_and!; try done.
  apply set_eq. intros n. split; [|by intros ?%elem_of_empty]. intros Hn. exfalso.
  destruct (H3 n Hn) as (_ & _ & _ & _ & ?). lia.
Qed.

Lemma returned_step s a : raw_ok s -> close_returned s -> close_returned (rstep s a).
Proof.
  intros Hs E. destruct (returned_gone s Hs E) as (Ew & _). unfold close_returned in *.
  destruct a as [|g|g|g|g|g|[g|]|]; cbn [rstep]; rewrite ?Ew, ?lookup_empty, ?bool_decide_false, ?andb_false_r by done; try done.
  - unfold AcceptPeerConn. by case_match.
  - unfold Close. cbn. by rewrite E.
  - unfold close_body. by rewrite E.
Qed.

Lemma returned_run l : forall s, raw_ok s -> close_returned s -> close_returned (rrun s l).
Proof. induction l as [|a l IH]; intros s Hs E; [done|]. apply (IH (rstep s a)); [by apply rstep_ok|by apply returned_step]. Qed.

(** ** Called from a callback, it never returns *)

Lemma stuck_step g s a : raw_ok s -> in_close g s = true -> in_close g (rstep s a) = true.
Proof.
  intros Hs Hg. pose proof (in_close_inside g s Hs Hg) as Hw.
  assert (H : forall s', rw_callers s' = rw_callers s \/ (exists x, rw_callers s' = rw_callers s ++ [x]) ->
    rw_phase s' <> Some Done -> in_close g s' = true).
  { intros s' Hc Hp. unfold in_close in *. apply andb_prop in Hg as [Hi _]. apply bool_decide_eq_true in Hi.
    rewrite bool_decide_true, bool_decide_false by (done || (destruct Hc as [-> |[x ->]]; set_solver)). done. }
  assert (Hp : rw_phase s <> Some Done).
  { unfold in_close in Hg. apply andb_prop in Hg as [_ Hg]. by apply negb_true_iff, bool_decide_eq_false in Hg. }
  destruct a as [|h|h|h|h|h|[h|]|]; cbn [rstep]; repeat case_match; try done; apply H; unfold callOnDrop, worker_ends, AcceptPeerConn, Close;
    repeat case_match; cbn; try (by left); try (by right; eexists); try done; try congruence.
  all: unfold close_body; repeat case_match; cbn; try (by left); try done; try congruence.
  exfalso. apply bool_decide_eq_true in H2. rewrite H2 in Hw. done.
Qed.

Lemma stuck_run g l : forall s, raw_ok s -> in_close g s = true -> in_close g (rrun s l) = true.
Proof. induction l as [|a l IH]; intros s Hs Hg; [done|]. apply (IH (rstep s a)); [by apply rstep_ok|by apply stuck_step]. Qed.

(** ** Otherwise it can return, by steps of the client alone *)

(** The client's own steps: nothing of the PLC, of the link or of other callers. *)
Definition own_step (a : raw_step) : Prop :=
  match a with RReturn _ | REnd _ | RBody => True | _ => False end.

(** [s'] can be reached from [s] by them. *)
Definition own_run (s s' : raw) : Prop := exists l, Forall own_step l /\ s' = rrun s l.

Lemma own_refl s : own_run s s. Proof. by exists []. Qed.
Lemma own_step_run s a : own_step a -> own_run s (rstep s a).
Proof. intros Ha. exists [a]. split; [by constructor|done]. Qed.
Lemma own_trans s s' s'' : own_run s s' -> own_run s' s'' -> own_run s s''.
Proof. intros (l & Hl & ->) (l' & Hl' & ->). exists (l ++ l'). split; [by apply Forall_app|]. unfold rrun. by rewrite foldl_app. Qed.

(** Where the body goes next, wherever it is before its wait. *)
Fixpoint body_steps (n : nat) (s : raw) : raw := match n with O => s | S n => body_steps n (close_body s) end.

Lemma body_steps_own n s : own_run s (body_steps n s).
Proof. revert s. induction n as [|n IH]; intros s; [apply own_refl|]. eapply own_trans; [by apply (own_step_run s RBody)|apply IH]. Qed.

Lemma close_body_callers s : rw_callers (close_body s) = rw_callers s.
Proof. unfold close_body. by repeat case_match. Qed.
Lemma body_steps_callers n s : rw_callers (body_steps n s) = rw_callers s.
Proof. revert s. induction n as [|n IH]; intros s; [done|]. cbn. by rewrite IH, close_body_callers. Qed.

(** The steps left before the wait. *)
Definition to_wait (p : phase) (s : raw) : nat :=
  match p with
  | Disconnect => 6 + length (rw_peerConns s) | Latch => 5 + length (rw_peerConns s)
  | ClosePeers l => 4 + length l | Release => 3 | Cancel => 2 | CloseSocket => 1 | Wait | Done => 0
  end.

Lemma body_waits n : forall s p, rw_phase s = Some p -> to_wait p s = n -> p <> Done -> rw_phase (body_steps n s) = Some Wait.
Proof.
  induction n as [|n IH]; intros s p E Hn Hd; [destruct p; done|].
  cbn [body_steps]. destruct p as [| |[|x l]| | | | |]; cbn in Hn; try done; eapply IH;
    try (unfold close_body; rewrite E; reflexivity); try done; unfold close_body; rewrite ?E; cbn; lia.
Qed.

(** At the wait, with no callback in [Close]. *)
Record at_wait (s : raw) : Prop := {
  aw_ok : raw_ok s; aw_phase : rw_phase s = Some Wait; aw_quiet : forall g, in_close g s = false }.

Lemma at_wait_step a s : at_wait s -> rw_phase (rstep s a) = Some Wait -> rw_callers (rstep s a) = rw_callers s -> at_wait (rstep s a).
Proof.
  intros [Hok Hp Hq] E Ec. split; [by apply rstep_ok|done|]. intros g. unfold in_close. rewrite Ec, E, <- Hp. apply Hq.
Qed.

(** A goroutine outside its callback, and not the notification worker with shards left. *)
Lemma end_outside g s : at_wait s -> rw_workers s !! g = Some false ->
  (g = notifWorker -> map_Forall (fun k _ => is_shard k = false) (rw_workers s)) ->
  exists s', own_run s s' /\ at_wait s' /\ rw_workers s' = delete g (rw_workers s).
Proof.
  intros Hs Hw Hn. pose proof (aw_ok s Hs) as Hok. assert (Hm : must_end g s = true).
  { unfold must_end. rewrite (ro_cancelled s), (ro_socket s) by (done || rewrite (aw_phase s Hs); cbn; lia). cbn.
    destruct (g =? listen); [done|]. destruct (first_reader <=? g).
    - rewrite bool_decide_false; [done|]. intros Hi. destruct (ro_open s Hok g Hi) as (_ & _ & _ & _ & Hr).
      rewrite (aw_phase s Hs) in Hr. cbn in Hr. lia.
    - destruct (Z.eqb_spec g notifWorker) as [Hg|]; [|done]. by rewrite bool_decide_true by by apply Hn. }
  assert (E : rstep s (REnd g) = worker_ends g s) by (cbn [rstep]; by rewrite bool_decide_true, Hm).
  assert (Hkeep : rw_phase (worker_ends g s) = rw_phase s /\ rw_callers (worker_ends g s) = rw_callers s
    /\ rw_workers (worker_ends g s) = delete g (rw_workers s)) by (unfold worker_ends; by case_match).
  destruct Hkeep as (E1 & E2 & E3). exists (rstep s (REnd g)). split; [by apply own_step_run|].
  rewrite <- E in E1, E2, E3. split; [|done]. apply at_wait_step; [done|by rewrite E1, (aw_phase s Hs)|done].
Qed.

Lemma end_one g b s : at_wait s -> rw_workers s !! g = Some b ->
  (g = notifWorker -> map_Forall (fun k _ => is_shard k = false) (rw_workers s)) ->
  exists s', own_run s s' /\ at_wait s' /\ rw_workers s' = delete g (rw_workers s).
Proof.
  intros Hs Hw Hn. destruct b; [|by apply end_outside].
  assert (E : rstep s (RReturn g) = if is_shard g then set_workers (<[g := false]> (rw_workers s)) s else worker_ends g s)
    by (cbn [rstep]; by rewrite bool_decide_true, (aw_quiet s Hs)).
  destruct (is_shard g) eqn:Eg.
  - assert (Hs1 : at_wait (rstep s (RReturn g))) by (apply at_wait_step; rewrite ?E; [done|apply (aw_phase s Hs)|done]).
    destruct (end_outside g (rstep s (RReturn g)) Hs1) as (s' & Hr & Ha & Ew).
    + rewrite E. apply lookup_insert_eq.
    + intros ->. done.
    + exists s'. split; [eapply own_trans; [by apply (own_step_run s (RReturn g))|done]|]. split; [done|].
      rewrite Ew, E. cbn. apply delete_insert_eq.
  - assert (Hkeep : rw_phase (worker_ends g s) = rw_phase s /\ rw_callers (worker_ends g s) = rw_callers s
      /\ rw_workers (worker_ends g s) = delete g (rw_workers s)) by (unfold worker_ends; by case_match).
    destruct Hkeep as (E1 & E2 & E3). exists (rstep s (RReturn g)). split; [by apply own_step_run|].
    rewrite <- E in E1, E2, E3. split; [|done]. apply at_wait_step; [done|by rewrite E1, (aw_phase s Hs)|done].
Qed.

Lemma all_end n : forall s, at_wait s -> size (rw_workers s) = n -> exists s', own_run s s' /\ at_wait s' /\ rw_workers s' = ∅.
Proof.
  induction n as [|n IH]; intros s Hs Hn; [exists s; split; [apply own_refl|split; [done|by apply map_size_empty_inv]]|].
  assert (Hpick : exists g b, rw_workers s !! g = Some b /\ (g = notifWorker -> map_Forall (fun k _ => is_shard k = false) (rw_workers s))).
  { destruct (decide (delete notifWorker (rw_workers s) = ∅)) as [He|Hne].
    - destruct (map_choose (rw_workers s)) as (g & b & Hg); [intros E; by rewrite E in Hn|]. exists g, b. split; [done|].
      intros _ k x Hk. destruct (decide (k = notifWorker)) as [->|Hk']; [done|].
      assert (Hd : delete notifWorker (rw_workers s) !! k = Some x) by (by rewrite lookup_delete_ne). by rewrite He in Hd.
    - destruct (map_choose _ Hne) as (g & b & [Hk Hg]%lookup_delete_Some). exists g, b. split; [done|]. congruence. }
  destruct Hpick as (g & b & Hg & Hk). destruct (end_one g b s Hs Hg Hk) as (s1 & Hr & Ha & Ew).
  destruct (IH s1 Ha) as (s' & Hr' & Ha' & Ew'); [rewrite Ew, map_size_delete, Hg; cbn; lia|].
  exists s'. split; [by eapply own_trans|done].
Qed.

Lemma can_return s p : raw_ok s -> rw_phase s = Some p -> (forall g, in_close g s = false) ->
  exists s', own_run s s' /\ close_returned s'.
Proof.
  intros Hok E Hq. destruct (decide (p = Done)) as [->|Hp]; [exists s; split; [apply own_refl|done]|].
  pose proof (body_waits _ s p E eq_refl Hp) as Ew. set (s1 := body_steps (to_wait p s) s) in *.
  assert (Hr1 : own_run s s1) by apply body_steps_own. pose proof (body_steps_callers (to_wait p s) s) as Ec. fold s1 in Ec.
  assert (Hs1 : at_wait s1).
  { split; [destruct Hr1 as (l & _ & ->); by apply rrun_ok|done|]. intros g. specialize (Hq g). unfold in_close in *. rewrite Ec, Ew.
    apply andb_false_iff in Hq as [->|Hq]; [done|]. exfalso. apply negb_false_iff, bool_decide_eq_true in Hq. congruence. }
  destruct (all_end _ s1 Hs1 eq_refl) as (s2 & Hr2 & Hs2 & Ew2). exists (rstep s2 RBody).
  split; [eapply own_trans; [exact Hr1|]; eapply own_trans; [exact Hr2|by apply own_step_run]|].
  unfold close_returned. cbn [rstep]. unfold close_body. by rewrite (aw_phase s2 Hs2), bool_decide_true.
Qed.

(** C17. Whoever calls [Close], however often and whatever else runs: a call that returned
    left no goroutine, no socket and no adopted connection behind, with every waiting
    request released and every later one refused, for good; and each call can return, by
    steps of the client alone, exactly when none was made from inside one of the client's
    own callbacks, the drop callback or the notification handler: such a call waits for
    the goroutine it runs on, and takes every other [Close] with it. *)
Theorem raw_close_contract l : let s := rrun startWorkers l in rw_phase s <> None ->
  (close_returned s -> gone s /\ forall l', gone (rrun s l'))
  /\ ((forall g, in_close g s = false) -> exists l', Forall own_step l' /\ close_returned (rrun s l'))
  /\ (forall g, in_close g s = true -> forall l', ~ close_returned (rrun s l')).
Proof.
  cbv zeta. intros Hp. assert (Hok : raw_ok (rrun startWorkers l)) by apply rrun_ok, startWorkers_ok.
  set (s := rrun startWorkers l) in *. split_and!.
  - intros E. split; [by apply returned_gone|]. intros l'. apply returned_gone; [by apply rrun_ok|by apply returned_run].
  - intros Hq. destruct (rw_phase s) as [p|] eqn:E; [|done]. destruct (can_return s p Hok E Hq) as (s' & (l' & Hl & ->) & Hr). by exists l'.
  - intros g Hg l' Hr. pose proof (stuck_run g l' s Hok Hg) as Hi. unfold in_close, close_returned in *. rewrite Hr in Hi.
    rewrite (bool_decide_true (Some Done = Some Done)), andb_false_r in Hi by done. done.
Qed.

Lemma raw_close_contract_witness :
  (exists l', Forall own_step l' /\ close_returned (rrun (rrun startWorkers [RAccept; RDrop 0; RClose None]) l'))
  /\ forall l', ~ close_returned (rrun (rrun startWorkers [RDrop listen; RClose (Some listen); RClose None]) l').
Proof.
  split.
  - apply (raw_close_contract [RAccept; RDrop 0; RClose None]); [by vm_compute|]. intros g. unfold in_close.
    replace (rw_callers (rrun startWorkers [RAccept; RDrop 0; RClose None])) with [@None Z] by by vm_compute.
    rewrite bool_decide_false; [done|]. intros Hi%list_elem_of_singleton. done.
  - apply (raw_close_contract [RDrop listen; RClose (Some listen); RClose None] ltac:(by vm_compute)) with (g := listen). by vm_compute.
Defined.

(** A drop can be announced twice: the listener and the transmitter both see it. *)
Lemma drop_announced_twice :
  let s := rrun startWorkers [RDrop listen; RDrop transmitWorker] in
  rw_workers s !! listen = Some true /\ rw_workers s !! transmitWorker = Some true.
Proof. by vm_compute. Qed.
