(* ===== verification/PeerMemory.v ===== *)
(** session.go: what the sessions of one process remember about devices - [peerRouteHosts],
    the set of devices that answer only on a connection they open themselves, keyed by host
    and port.  A session that had to fall back to such a connection remembers its device,
    a session that came up without one forgets it, and every session asks before it
    probes.  The sessions run concurrently; each access is atomic. *)
From S2P Require Import Prelude Strconv SymbolTableFacts Defs Ams Options.
From Stdlib Require Import Ascii.

(** [net.JoinHostPort] of a host and a number. *)
Definition JoinHostPort (host : string) (port : Z) : string :=
  if bool_decide (":"%char ∈ String.list_ascii_of_string host)
  then ("[" ++ host ++ "]:" ++ format_int port)%string
  else (host ++ ":" ++ format_int port)%string.

Definition peerRouteCacheKey (s : Session) : string := JoinHostPort (s_ip s) (s_port s).

Definition rememberPeerRouteHost (key : string) (m : gset string) : gset string := {[key]} ∪ m.
Definition forgetPeerRouteHost (key : string) (m : gset string) : gset string := m ∖ {[key]}.
Definition forgetPeerRouteHostIfUnused (s : Session) (peerConnsAdopted : Z) (m : gset string) : gset string :=
  if negb (peerConnsAdopted =? 0) then m else forgetPeerRouteHost (peerRouteCacheKey s) m.
Definition isKnownPeerRouteHost (key : string) (m : gset string) : bool := bool_decide (key ∈ m).

(** What the sessions do to it: a fallback that worked, a Connect that got through and the
    connections its device had opened by then. *)
Inductive lesson : Type := Rescued (s : Session) | Connected (s : Session) (peerConnsAdopted : Z).
Definition learn (m : gset string) (e : lesson) : gset string :=
  match e with
  | Rescued s => rememberPeerRouteHost (peerRouteCacheKey s) m
  | Connected s adopted => forgetPeerRouteHostIfUnused s adopted m
  end.
Definition lessons (es : list lesson) : gset string := foldl learn ∅ es.

(** ** Two devices never share a verdict *)

Lemma list_ascii_inj s t : String.list_ascii_of_string s = String.list_ascii_of_string t -> s = t.
Proof. intros E. by rewrite <- (String.string_of_list_ascii_of_string s), E, String.string_of_list_ascii_of_string. Qed.

Lemma format_int_no_colon z : ":"%char ∉ String.list_ascii_of_string (format_int z).
Proof.
  unfold format_int. destruct (Z.ltb_spec z 0); [|by apply format_uint_no_sep].
  cbn. intros [|Hin]%elem_of_cons; [done|]. revert Hin. apply format_uint_no_sep; [lia|done].
Qed.

(** The last colon divides. *)
Lemma last_colon (a b x y : list ascii) : ":"%char ∉ x -> ":"%char ∉ y ->
  a ++ ":"%char :: x = b ++ ":"%char :: y -> a = b /\ x = y.
Proof.
  intros Hx Hy. revert b. induction a as [|c a IH]; intros [|d b]; cbn; intros E.
  - by injection E as ->.
  - injection E as <- ->. exfalso. apply Hx, elem_of_app. right. by left.
  - injection E as -> <-. exfalso. apply Hy, elem_of_app. right. by left.
  - injection E as -> E. by destruct (IH b E) as [-> ->].
Qed.

Definition host_chars (host : string) : list ascii :=
  let cs := String.list_ascii_of_string host in
  if bool_decide (":"%char ∈ cs) then "["%char :: cs ++ ["]"%char] else cs.

Lemma JoinHostPort_chars h p :
  String.list_ascii_of_string (JoinHostPort h p) = host_chars h ++ ":"%char :: String.list_ascii_of_string (format_int p).
Proof.
  unfold JoinHostPort, host_chars. case_bool_decide; rewrite !list_ascii_app; [|done].
  change ("["%char :: String.list_ascii_of_string h ++ ["]"%char]) with (["["%char] ++ String.list_ascii_of_string h ++ ["]"%char]).
  by rewrite <- !app_assoc.
Qed.

Lemma host_chars_inj h h' : host_chars h = host_chars h' -> h = h'.
Proof.
  intros E. apply list_ascii_inj. unfold host_chars in E. cbv zeta in E. repeat case_bool_decide; try done.
  - injection E as E. by apply app_inj_tail in E as [E _].
  - exfalso. apply H0. rewrite <- E. right. apply elem_of_app. by left.
  - exfalso. apply H. rewrite E. right. apply elem_of_app. by left.
Qed.

Lemma JoinHostPort_inj h p h' p' : in_s 64 p -> in_s 64 p' -> JoinHostPort h p = JoinHostPort h' p' -> h = h' /\ p = p'.
Proof.
  intros Hp Hp' E. apply (f_equal String.list_ascii_of_string) in E. rewrite !JoinHostPort_chars in E.
  apply last_colon in E as [Eh Ep]; [|apply format_int_no_colon..].
  split; [by apply host_chars_inj|]. by apply format_int_inj, list_ascii_inj.
Qed.

(** ** What is remembered *)

(** A lesson that ends the memory of [s]'s device. *)
Definition forgets (s : Session) (e : lesson) : Prop :=
  match e with Connected s' adopted => s_ip s' = s_ip s /\ s_port s' = s_port s /\ adopted = 0 | Rescued _ => False end.
Definition about (s : Session) (e : lesson) : Prop :=
  match e with Rescued s' => s_ip s' = s_ip s /\ s_port s' = s_port s | Connected _ _ => False end.
Definition ports_ok (e : lesson) : Prop := match e with Rescued s | Connected s _ => in_s 64 (s_port s) end.

Lemma same_key s s' : in_s 64 (s_port s) -> in_s 64 (s_port s') ->
  peerRouteCacheKey s' = peerRouteCacheKey s <-> s_ip s' = s_ip s /\ s_port s' = s_port s.
Proof.
  intros H H'. unfold peerRouteCacheKey. split; [by apply JoinHostPort_inj|]. by intros [-> ->].
Qed.

(** A session expects its device to answer on a connection of its own exactly when some
    session was rescued that way for the same host and port, and none has since come up
    without such a connection: the last lesson about a device holds, and no device is
    judged by another's. *)
Theorem memory_holds_last_lesson s es : in_s 64 (s_port s) -> Forall ports_ok es ->
  isKnownPeerRouteHost (peerRouteCacheKey s) (lessons es) = true
  <-> exists before e after, es = before ++ e :: after /\ about s e /\ Forall (fun e' => ~ forgets s e') after.
Proof.
  intros Hs Hes. unfold isKnownPeerRouteHost. rewrite bool_decide_eq_true. unfold lessons.
  induction es as [|e es IH] using rev_ind.
  { split; [by intros ?%elem_of_empty|]. by intros ([|? ?] & ? & ? & ? & _). }
  apply Forall_app in Hes as [Hes He]. apply Forall_cons in He as [He _]. specialize (IH Hes). rewrite foldl_app. cbn [foldl].
  set (m := foldl learn ∅ es) in *.
  assert (Hkeep : (peerRouteCacheKey s ∈ learn m e <-> peerRouteCacheKey s ∈ m) -> ~ about s e -> ~ forgets s e ->
    peerRouteCacheKey s ∈ learn m e <-> exists before e' after, es ++ [e] = before ++ e' :: after /\ about s e' /\ Forall (fun e' => ~ forgets s e') after).
  { intros -> Ha Hf. rewrite IH. split.
    - intros (b & x & a & -> & Hx & Haf). exists b, x, (a ++ [e]). rewrite <- app_assoc. split_and!; try done. apply Forall_app. split; [done|by constructor].
    - intros (b & x & a & E & Hx & Haf). destruct a as [|y a _] using rev_ind.
      + apply app_inj_tail in E as [_ ->]. done.
      + rewrite app_comm_cons, app_assoc in E. apply app_inj_tail in E as [-> ->]. apply Forall_app in Haf as [Haf _]. eauto 10. }
  destruct e as [s'|s' adopted]; cbn [learn ports_ok about forgets] in *.
  - destruct (decide (s_ip s' = s_ip s /\ s_port s' = s_port s)) as [Heq|Hne].
    + split; [intros _|intros _]; [exists es, (Rescued s'), []; by split_and!|].
      unfold rememberPeerRouteHost. apply elem_of_union. left. apply elem_of_singleton. symmetry. by apply same_key.
    + apply Hkeep; [|done|auto]. unfold rememberPeerRouteHost. rewrite elem_of_union, elem_of_singleton. split; [|by right].
      intros [E|]; [|done]. exfalso. apply Hne. by apply same_key.
  - unfold forgetPeerRouteHostIfUnused in *. destruct (Z.eqb_spec adopted 0) as [->|Ha]; cbn [negb] in *; [|apply Hkeep; [done|auto|tauto]].
    destruct (decide (s_ip s' = s_ip s /\ s_port s' = s_port s)) as [Heq|Hne].
    + rewrite (proj2 (same_key s s' Hs He) Heq). unfold forgetPeerRouteHost. split; [set_solver|].
      intros (b & x & a & E & Hx & Haf). exfalso. destruct a as [|y a _] using rev_ind.
      * apply app_inj_tail in E as [_ <-]. done.
      * rewrite app_comm_cons, app_assoc in E. apply app_inj_tail in E as [_ <-]. apply Forall_app in Haf as [_ Haf].
        apply Forall_cons in Haf as [Haf _]. apply Haf. by destruct Heq.
    + apply Hkeep; [|by intros []|tauto]. unfold forgetPeerRouteHost. rewrite elem_of_difference, elem_of_singleton. split; [tauto|].
      intros Hin. split; [done|]. intros E. apply Hne. by apply same_key.
Qed.

(** A concrete history: two devices behind one host. *)
Definition memory_session (port : Z) : Session :=
  defaultSession {| ep_IP := "fe80::1"; ep_Port := port; ep_AMS := {| NetID := repeat Byte.x00 6; Port := 851 |}; ep_RouterPort := 0 |} 0.

Example memory_key : peerRouteCacheKey (memory_session 48898) = "[fe80::1]:48898"%string.
Proof. reflexivity. Qed.

Lemma memory_holds_last_lesson_witness :
  isKnownPeerRouteHost (peerRouteCacheKey (memory_session 48898))
    (lessons [Rescued (memory_session 48898); Rescued (memory_session 48899); Connected (memory_session 48899) 0; Connected (memory_session 48898) 2]) = true.
Proof.
  apply memory_holds_last_lesson; [by vm_compute|repeat constructor; by vm_compute|].
  exists [], (Rescued (memory_session 48898)), [Rescued (memory_session 48899); Connected (memory_session 48899) 0; Connected (memory_session 48898) 2].
  split_and!; try done. repeat constructor; cbn; intros H; try done; by destruct H as (_ & ? & ?).
Defined.
