(* ===== verification/Redial.v ===== *)
(** session.go: [Close] and a reconnect in flight, statement by statement.  The goroutine
    that owns the reconnect tears the old connection down, dials, checks that the session
    was not closed meanwhile and starts the workers of a new client ([Reconnect],
    [tearDownAndReset], [dialAndStart], [publishWiredClient]); [Close] closes what it finds,
    waits at most ten seconds for that goroutine and then for the workers of the client it
    loads.  Nothing else holds the two apart: a run is any interleaving of their
    statements, with any number of closes, drops and calls of [Reconnect].

    What [Close] releases and the other goroutines it waits for are Shutdown's; what a
    dial, a probe or a reload answers is Connect's. *)
From S2P Require Import Prelude.
From coqutil Require Import Datatypes.RecordSetters.
Export TriangleBracketNotations.

(** ** State *)

(** A client's goroutines: published and not started, running, ended. *)
Inductive workers : Type := WNew | WRunning | WEnded.
#[export] Instance workers_eq_dec : EqDecision workers. Proof. solve_decision. Defined.

(** A client with the socket and the context it was published with. *)
Record wclient : Type := { wc_conn : Z; wc_ctx : nat; wc_workers : workers }.

(** A goroutine that does not own the reconnect: [triggerReconnect], or [Reconnect] up to
    its gate. *)
Inductive gate_pc : Type := GTrigger | GTriggerChan | GHush | GGate | GOwn | GEnd.

(** The owner's place in [Reconnect]; the tear down is [RCancel] to [RRenew], the dial
    [RDial] to [RStart]; [RGiveUp i] is inside [giveUpReconnecting], whose steps are those
    of closer [i]. *)
Inductive owner_pc : Type :=
| RFsm | RChan | RCool | RCancel | RClosePrev | RWait | RRenew | RLoop | RDial | RSleep
| RStore (conn : Z) | RCheck (conn : Z) | RPublish (conn : Z) | RStart | RUp
| RGiveUp (closer : nat) | RSignal | RRelease.

(** [Close]; [giveUpReconnecting] stops after [KSock].  [KCancel] carries the context whose
    cancel function was read, [KWaitDone] the channel, [KWaitClient] the client. *)
Inductive closer_pc : Type :=
| KMark | KMarkCh | KOnce | KCancelRead | KCancel (ctx : nat) | KSock
| KGrab | KWaitDone (ch : nat) | KLoad | KWaitClient (client : nat) | KDone.
#[export] Instance closer_pc_eq_dec : EqDecision closer_pc. Proof. solve_decision. Defined.
Record rcloser : Type := { kc_waits : bool; kc_pc : closer_pc }.

Inductive teardown_once : Type := NotRun | Running | Ran.

(** [x_owner]: [reconnectOwner], and where its holder is; [x_done] is [reconnectDone], a
    channel by number or nil, [x_signalled] the channels closed; [x_conn] is
    [tx.connection], [x_open] the sockets open; [x_ctx] numbers the lifecycle context,
    [x_cancelled] those cancelled; the last client is the one published. *)
Record race : Type := {
  x_closedFSM : bool; x_closedCh : bool; x_owner : option owner_pc; x_gates : list gate_pc;
  x_done : option nat; x_signalled : gset nat; x_nextDone : nat;
  x_conn : option Z; x_open : gset Z; x_next : Z; x_ctx : nat; x_cancelled : gset nat;
  x_clients : list wclient; x_once : teardown_once; x_closers : list rcloser }.

(** A connected session. *)
Definition connected : race :=
  {| x_closedFSM := false; x_closedCh := false; x_owner := None; x_gates := []; x_done := None; x_signalled := ∅;
     x_nextDone := 0; x_conn := Some 0; x_open := {[0]}; x_next := 1; x_ctx := 0; x_cancelled := ∅;
     x_clients := [{| wc_conn := 0; wc_ctx := 0; wc_workers := WRunning |}]; x_once := NotRun; x_closers := [] |}.

(** Which way a statement goes where the network, a timer or the caller decides. *)
Inductive branch : Type := BGo | BFail | BGiveUp.

Definition make_done (s : race) : race :=
  match x_done s with
  | Some _ => s
  | None => s<| x_done := Some (x_nextDone s) |><| x_nextDone := S (x_nextDone s) |>
  end.
(** [closeReconnectDone]. *)
Definition closeReconnectDone (s : race) : race :=
  match x_done s with
  | Some ch => s<| x_signalled := {[ch]} ∪ x_signalled s |><| x_done := None |>
  | None => s
  end.
Definition close_conn (s : race) : race :=
  match x_conn s with Some n => s<| x_open := x_open s ∖ {[n]} |> | None => s end.
Definition set_client (i : nat) (w : workers) (s : race) : race :=
  s<| x_clients := alter (fun k => {| wc_conn := wc_conn k; wc_ctx := wc_ctx k; wc_workers := w |}) i (x_clients s) |>.
Definition current (s : race) : nat := pred (length (x_clients s)).
(** Whether [Wait] on a client's group would block. *)
Definition waits_for (i : nat) (s : race) : bool :=
  match x_clients s !! i with Some k => bool_decide (wc_workers k = WRunning) | None => false end.

(** ** The gate *)

(** One statement of a goroutine before its gate; with [BFail], the session does not
    reconnect by itself. *)
Definition gate_step (b : branch) (g : gate_pc) (s : race) : race * gate_pc :=
  match g with
  | GTrigger => (s, if x_closedFSM s then GEnd else GTriggerChan)
  | GTriggerChan => (make_done s, match b with BGo => GGate | _ => GHush end)
  | GHush => (closeReconnectDone s, GEnd)
  | GGate => (s, if x_closedFSM s then GHush else GOwn)
  | GOwn => match x_owner s with None => (s<| x_owner := Some RFsm |>, GEnd) | Some _ => (s, GEnd) end
  | GEnd => (s, GEnd)
  end.

(** ** The owner *)

Definition go (r : owner_pc) (s : race) : race := s<| x_owner := Some r |>.
(** [giveUpReconnecting] starts: a closer that does not wait. *)
Definition abandon (s : race) : race :=
  go (RGiveUp (length (x_closers s))) (s<| x_closers := x_closers s ++ [{| kc_waits := false; kc_pc := KMark |}] |>).

Definition owner_step (b : branch) (r : owner_pc) (s : race) : race :=
  match r with
  | RFsm => if x_closedFSM s then go RSignal s else match b with BGo => go RChan s | _ => go RSignal s end
  | RChan => go RCool (make_done s)
  | RCool => match b with
             | BGo => go RCancel s
             | BFail => if x_closedCh s then go RSignal s else s
             | BGiveUp => abandon s
             end
  | RCancel => go RClosePrev (s<| x_cancelled := {[x_ctx s]} ∪ x_cancelled s |>)
  | RClosePrev => go RWait (close_conn s)
  | RWait => if waits_for (current s) s then s else go RRenew s
  | RRenew => let s := s<| x_ctx := S (x_ctx s) |> in
              match b with BGo => go RLoop s | BFail => go RSleep s | BGiveUp => go RDial s end
  | RLoop => if x_closedFSM s then go RSignal s
             else match b with BGiveUp => abandon s | _ => go RDial s end
  | RDial => match b with
             | BGo => go (RStore (x_next s)) (s<| x_open := {[x_next s]} ∪ x_open s |><| x_next := x_next s + 1 |>)
             | _ => go RSleep s
             end
  | RSleep => match b with
              | BGo => go RLoop s
              | BFail => if x_closedCh s then go RSignal s else s
              | BGiveUp => abandon s
              end
  | RStore n => go (RCheck n) (s<| x_conn := Some n |>)
  | RCheck n =>
      if x_closedFSM s then
        let s := s<| x_open := x_open s ∖ {[n]} |><| x_conn := None |> in
        match b with BGo => go RSleep s | _ => go RCancel s end
      else go (RPublish n) s
  | RPublish n => go RStart (s<| x_clients := x_clients s ++ [{| wc_conn := n; wc_ctx := x_ctx s; wc_workers := WNew |}] |>)
  | RStart => go RUp (set_client (current s) WRunning s)
  | RUp => match b with BGo => go RSignal s | _ => go RCancel s end
  | RGiveUp i => match x_closers s !! i with
                 | Some k => if decide (kc_pc k = KDone) then go RSignal s else s
                 | None => s
                 end
  | RSignal => go RRelease (closeReconnectDone s)
  | RRelease =>
      let s := s<| x_owner := None |> in
      match b with
      | BGo => if x_closedFSM s then s else s<| x_gates := x_gates s ++ [GGate] |>
      | _ => s
      end
  end.

(** ** Close *)

Definition after_once (k : rcloser) : closer_pc := if kc_waits k then KGrab else KDone.

(** One statement of a closer; with [BFail], the ten seconds are over. *)
Definition closer_step (b : branch) (k : rcloser) (s : race) : race * closer_pc :=
  match kc_pc k with
  | KMark => (s<| x_closedFSM := true |>, KMarkCh)
  | KMarkCh => (s<| x_closedCh := true |>, KOnce)
  | KOnce => match x_once s with
             | NotRun => (s<| x_once := Running |>, KCancelRead)
             | Running => (s, KOnce)
             | Ran => (s, after_once k)
             end
  | KCancelRead => (s, KCancel (x_ctx s))
  | KCancel c => (s<| x_cancelled := {[c]} ∪ x_cancelled s |>, KSock)
  | KSock => ((close_conn s)<| x_once := Ran |>, after_once k)
  | KGrab => (s, match x_done s with Some ch => KWaitDone ch | None => KLoad end)
  | KWaitDone ch => (s, if bool_decide (ch ∈ x_signalled s) then KLoad
                        else match b with BFail => KLoad | _ => KWaitDone ch end)
  | KLoad => (s, if decide (x_clients s = []) then KDone else KWaitClient (current s))
  | KWaitClient i => (s, if waits_for i s then KWaitClient i else KDone)
  | KDone => (s, KDone)
  end.

(** ** A run *)

(** [RWorkers i] ends the workers of client [i]: with their context cancelled, and, in the
    second form, their read on a socket still open ended by the PLC. *)
Inductive race_step : Type :=
| XTrigger | XReconnect | XClose | XGate (i : nat) (b : branch) | XOwner (b : branch) | XCloser (i : nat) (b : branch)
| XWorkers (i : nat) | XLinkEnds (i : nat).

Definition can_end (k : wclient) (s : race) : bool :=
  bool_decide (wc_workers k = WRunning) && bool_decide (wc_ctx k ∈ x_cancelled s).

Definition step (s : race) (a : race_step) : race :=
  match a with
  | XTrigger => s<| x_gates := x_gates s ++ [GTrigger] |>
  | XReconnect => s<| x_gates := x_gates s ++ [GGate] |>
  | XClose => s<| x_closers := x_closers s ++ [{| kc_waits := true; kc_pc := KMark |}] |>
  | XGate i b => match x_gates s !! i with
                 | Some g => let '(s, g) := gate_step b g s in s<| x_gates := <[i := g]> (x_gates s) |>
                 | None => s
                 end
  | XOwner b => match x_owner s with Some r => owner_step b r s | None => s end
  | XCloser i b => match x_closers s !! i with
                   | Some k => let '(s, pc) := closer_step b k s in
                               s<| x_closers := <[i := {| kc_waits := kc_waits k; kc_pc := pc |}]> (x_closers s) |>
                   | None => s
                   end
  | XWorkers i => match x_clients s !! i with
                  | Some k => if can_end k s && negb (bool_decide (wc_conn k ∈ x_open s)) then set_client i WEnded s else s
                  | None => s
                  end
  | XLinkEnds i => match x_clients s !! i with
                   | Some k => if can_end k s then set_client i WEnded s else s
                   | None => s
                   end
  end.
Definition run (s : race) (l : list race_step) : race := foldl step s l.
