(* ===== verification/RedialFacts.v ===== *)
(** Redial.v: whatever a reconnect was doing when [Close] ran, and whether or not [Close]
    waited for it, no socket stays open and no workers keep running; and [Close] may
    return while the reconnect is still dialling. *)
From S2P Require Import Prelude Redial.
From coqutil Require Import Datatypes.RecordSetters.
#[local] Arguments constant {E} newValue _ /.

(** ** The connection and its workers *)

Definition live (k : wclient) : Prop := wc_workers k <> WEnded.
Definition no_workers (s : race) : Prop := forall i k, x_clients s !! i = Some k -> wc_workers k = WEnded.

(** The owner has closed the old connection and not installed a new one. *)
Definition unplugged (r : owner_pc) : bool :=
  match r with RWait | RRenew | RLoop | RDial | RSleep | RStore _ => true | _ => false end.
(** It has waited for the old workers and not started new ones. *)
Definition between (r : owner_pc) : bool :=
  match r with RRenew | RLoop | RDial | RSleep | RStore _ | RCheck _ | RPublish _ => true | _ => false end.

(** An open socket is the session's or about to become it; only the last client can have
    workers, on that socket and the current context; a client not started yet is the
    owner's. *)
Record link_ok (s : race) : Prop := {
  k_next : forall n, n ∈ x_open s \/ x_conn s = Some n \/ x_owner s = Some (RStore n) -> n < x_next s;
  k_open : forall n, n ∈ x_open s -> x_conn s = Some n \/ x_owner s = Some (RStore n);
  k_unplugged : forall r n, x_owner s = Some r -> unplugged r = true -> x_conn s = Some n -> n ∉ x_open s;
  k_checked : forall n, x_owner s = Some (RCheck n) \/ x_owner s = Some (RPublish n) -> x_conn s = Some n;
  k_between : forall r, x_owner s = Some r -> between r = true -> no_workers s;
  k_last : forall i k, x_clients s !! i = Some k -> live k ->
    S i = length (x_clients s) /\ wc_ctx k = x_ctx s /\ x_conn s = Some (wc_conn k);
  k_new : forall i k, x_clients s !! i = Some k -> wc_workers k = WNew -> x_owner s = Some RStart;
  k_start : forall k, x_owner s = Some RStart -> x_clients s !! current s = Some k -> wc_workers k = WNew }.

(** What it depends on. *)
Lemma link_same s s' : link_ok s -> x_open s' = x_open s -> x_conn s' = x_conn s -> x_next s' = x_next s ->
  x_owner s' = x_owner s -> x_clients s' = x_clients s -> x_ctx s' = x_ctx s -> link_ok s'.
Proof.
  intros [H1 H2 H3 H4 H5 H6 H7 H8] E1 E2 E3 E4 E5 E6.
  split; unfold no_workers, current in *; rewrite ?E1, ?E2, ?E3, ?E4, ?E5, ?E6; eauto.
Qed.

(** Closing sockets never hurts. *)
Lemma link_shrink s o : link_ok s -> o ⊆ x_open s -> link_ok (s<| x_open := o |>).
Proof.
  destruct s as [cf cc ow gs dn sg nd cn op nx ct ca cl on ks]. intros [H1 H2 H3 H4 H5 H6 H7 H8] Ho. unfold no_workers, current in *. cbn in *.
  split; unfold no_workers, current; cbn; eauto.
  - intros n [Hn|Hn]; apply H1; [left; set_solver|by right].
  - intros r n Hr Hu Hn Hi. apply (H3 r n Hr Hu Hn). set_solver.
Qed.

(** The owner moves on to a place that asks for nothing more. *)
Lemma link_go s r : link_ok s ->
  (forall n, x_owner s = Some (RStore n) -> n ∉ x_open s) ->
  (x_owner s = Some RStart -> forall i k, x_clients s !! i = Some k -> wc_workers k <> WNew) ->
  (unplugged r = true -> forall n, x_conn s = Some n -> n ∉ x_open s) ->
  (between r = true -> no_workers s) -> (forall n, r = RStore n -> n < x_next s) -> r <> RStart ->
  (forall n, r = RCheck n \/ r = RPublish n -> x_conn s = Some n) ->
  link_ok (go r s).
Proof.
  destruct s as [cf cc ow gs dn sg nd cn op nx ct ca cl on ks]. intros [H1 H2 H3 H4 H5 H6 H7 H8] Hst Hnew Hu Hb Hr Hs Hc.
  unfold no_workers, current in *. cbn in *. split; unfold no_workers, current; cbn; eauto.
  - intros n [Hn|[Hn|[= ->]]]; eauto.
  - intros n Hn. destruct (H2 n Hn) as [|E]; [by left|]. exfalso. by apply (Hst n E).
  - intros r' n [= <-]. eauto.
  - intros n [[= ->]|[= ->]]; eauto.
  - intros r' [= <-]. eauto.
  - intros i k Hk Hw. exfalso. by apply (Hnew (H7 i k Hk Hw) i k Hk).
  - intros k [= ->]. done.
Qed.

Lemma close_conn_open s n : x_conn (close_conn s) = Some n -> n ∉ x_open (close_conn s).
Proof. unfold close_conn. destruct s as [cf cc ow gs dn sg nd [m|] op nx ct ca cl on ks]; cbn; [intros [= ->]; set_solver|done]. Qed.

Lemma link_close_conn s : link_ok s -> link_ok (close_conn s).
Proof. intros H. unfold close_conn. destruct (x_conn s); [|done]. apply link_shrink; [done|set_solver]. Qed.

Lemma make_done_link s : link_ok s -> link_ok (make_done s).
Proof. intros H. unfold make_done. destruct (x_done s); [done|]. by destruct s, H. Qed.
Lemma signal_link s : link_ok s -> link_ok (closeReconnectDone s).
Proof. intros H. unfold closeReconnectDone. destruct (x_done s); [|done]. by destruct s, H. Qed.

Lemma gate_link b g s : link_ok s -> link_ok (gate_step b g s).1.
Proof.
  intros H. destruct g; cbn; try done; [by apply make_done_link|by apply signal_link|].
  destruct (x_owner s) eqn:E; [done|]. apply (link_go s RFsm); try (rewrite E; done); try done. by intros n [|].
Qed.

(** *** The owner's statements *)

Definition ordinary (r : owner_pc) : bool := match r with RStore _ | RStart => false | _ => true end.
Definition holds_none (r : owner_pc) : bool := match r with RStore _ | RCheck _ | RPublish _ | RStart => false | _ => true end.

(** From one place to another that asks for no more than the first gives. *)
Lemma link_move s r r' : link_ok s -> x_owner s = Some r -> ordinary r = true -> holds_none r' = true ->
  (unplugged r' = true -> unplugged r = true) -> (between r' = true -> between r = true) -> link_ok (go r' s).
Proof.
  intros H E Ho Hn Hu Hb. pose proof H as [H1 H2 H3 H4 H5 H6 H7 H8]. apply link_go; [done|..].
  - intros n En. rewrite E in En. injection En as ->. done.
  - intros En. rewrite E in En. injection En as ->. done.
  - intros Hr n Hc. by apply (H3 r n E); auto.
  - intros Hr. by apply (H5 r E); auto.
  - by intros n ->.
  - by intros ->.
  - intros n [-> | ->]; done.
Qed.

Lemma link_give_up s r : link_ok s -> x_owner s = Some r -> ordinary r = true -> link_ok (abandon s).
Proof. intros H E Ho. unfold abandon. eapply link_move; [by eapply link_same|exact E|done..]. Qed.

Lemma wait_link s : link_ok s -> x_owner s = Some RWait -> waits_for (current s) s = false -> link_ok (go RRenew s).
Proof.
  intros H E Hw. pose proof H as [H1 H2 H3 H4 H5 H6 H7 H8]. apply link_go; [done|intros n En; congruence|intros En; congruence| | | | |].
  - intros _ n. by apply (H3 RWait).
  - intros _ i k Hk. destruct (wc_workers k) eqn:Ek; [| |done].
    + specialize (H7 i k Hk Ek). congruence.
    + destruct (H6 i k Hk) as [Hi _]; [unfold live; by rewrite Ek|]. exfalso. unfold waits_for, current in Hw. rewrite <- Hi in Hw. cbn in Hw.
      by rewrite Hk, Ek, bool_decide_true in Hw.
  - done.
  - done.
  - by intros n [].
Qed.

Lemma renew_link s r : link_ok s -> x_owner s = Some RRenew -> holds_none r = true ->
  link_ok (go r (s<| x_ctx := S (x_ctx s) |>)).
Proof.
  intros [H1 H2 H3 H4 H5 H6 H7 H8] E Hn. pose proof (H5 _ E eq_refl) as Hnone. pose proof (fun n => H3 _ n E eq_refl) as Hunp. clear H5 H3.
  destruct s as [cf cc ow gs dn sg nd cn op nx ct ca cl on ks]. cbn in *. subst ow. unfold no_workers, current in *. cbn in *.
  split; unfold no_workers, current; cbn.
  - intros n [Hi|[Hi|[= ->]]]; [auto|auto|done].
  - intros n Hi. destruct (H2 n Hi) as [|]; [by left|done].
  - intros _ n _ _. apply Hunp.
  - intros n [[= ->]|[= ->]]; done.
  - done.
  - intros i k Hk Hl. destruct (Hl (Hnone i k Hk)).
  - intros i k Hk Hw. by rewrite (Hnone i k Hk) in Hw.
  - intros k [= ?]. by subst.
Qed.

Lemma dial_link s : link_ok s -> x_owner s = Some RDial ->
  link_ok (go (RStore (x_next s)) (s<| x_open := {[x_next s]} ∪ x_open s |><| x_next := x_next s + 1 |>)).
Proof.
  intros [H1 H2 H3 H4 H5 H6 H7 H8] E. pose proof (H5 _ E eq_refl) as Hnone. pose proof (fun n => H3 _ n E eq_refl) as Hunp. clear H5 H3.
  destruct s as [cf cc ow gs dn sg nd cn op nx ct ca cl on ks]. cbn in *. subst ow. unfold no_workers, current in *. cbn in *.
  split; unfold no_workers, current; cbn.
  - intros n [[->%elem_of_singleton|Hn]%elem_of_union|[Hn|[= <-]]]; [lia| | |lia]; specialize (H1 n ltac:(auto)); lia.
  - intros n [->%elem_of_singleton|Hn]%elem_of_union; [by right|]. destruct (H2 n Hn); [by left|done].
  - intros r n _ _ Hn Hi. apply elem_of_union in Hi as [->%elem_of_singleton|Hi]; [specialize (H1 nx ltac:(auto)); lia|by apply (Hunp n)].
  - by intros n [|].
  - done.
  - intros i k Hk Hl. destruct (Hl (Hnone i k Hk)).
  - intros i k Hk Hw. by rewrite (Hnone i k Hk) in Hw.
  - done.
Qed.

Lemma store_link n s : link_ok s -> x_owner s = Some (RStore n) -> link_ok (go (RCheck n) (s<| x_conn := Some n |>)).
Proof.
  intros [H1 H2 H3 H4 H5 H6 H7 H8] E. pose proof (H5 _ E eq_refl) as Hnone. pose proof (fun m => H3 _ m E eq_refl) as Hunp. clear H5 H3.
  destruct s as [cf cc ow gs dn sg nd cn op nx ct ca cl on ks]. cbn in *. subst ow. unfold no_workers, current in *. cbn in *.
  split; unfold no_workers, current; cbn.
  - intros m [Hm|[[= <-]|[= ]]]; auto.
  - intros m Hm. left. destruct (H2 m Hm) as [Hc|Hc]; [by destruct (Hunp m Hc)|]. congruence.
  - by intros r m [= <-].
  - intros m [[= ->]|[= ]]; done.
  - done.
  - intros i k Hk Hl. destruct (Hl (Hnone i k Hk)).
  - intros i k Hk Hw. by rewrite (Hnone i k Hk) in Hw.
  - done.
Qed.

(** The check fails: the socket is closed again. *)
Lemma refuse_link n r s : link_ok s -> x_owner s = Some (RCheck n) -> holds_none r = true ->
  link_ok (go r (s<| x_open := x_open s ∖ {[n]} |><| x_conn := None |>)).
Proof.
  intros [H1 H2 H3 H4 H5 H6 H7 H8] E Hn. pose proof (H5 _ E eq_refl) as Hnone. pose proof (H4 n (or_introl E)) as Hc. clear H5 H3.
  destruct s as [cf cc ow gs dn sg nd cn op nx ct ca cl on ks]. cbn in *. subst ow. unfold no_workers, current in *. cbn in *.
  split; unfold no_workers, current; cbn.
  - intros m [Hm|[?|[= ->]]]; [apply H1; left; set_solver|done|done].
  - intros m [Hm Hne]%elem_of_difference. destruct (H2 m Hm) as [E|]; [|done]. rewrite Hc in E. set_solver.
  - done.
  - intros m [[= ->]|[= ->]]; done.
  - done.
  - intros i k Hk Hl. destruct (Hl (Hnone i k Hk)).
  - intros i k Hk Hw. by rewrite (Hnone i k Hk) in Hw.
  - intros k [= ->]. done.
Qed.

Lemma publish_link n s : link_ok s -> x_owner s = Some (RPublish n) ->
  link_ok (go RStart (s<| x_clients := x_clients s ++ [{| wc_conn := n; wc_ctx := x_ctx s; wc_workers := WNew |}] |>)).
Proof.
  intros [H1 H2 H3 H4 H5 H6 H7 H8] E. pose proof (H5 _ E eq_refl) as Hnone. pose proof (H4 n (or_intror E)) as Hc. clear H5 H3.
  destruct s as [cf cc ow gs dn sg nd cn op nx ct ca cl on ks]. cbn in *. subst ow. unfold no_workers, current in *. cbn in *.
  split; unfold no_workers, current; cbn; try done.
  - intros m [Hm|[Hm|]]; [auto|auto|done].
  - intros m Hm. destruct (H2 m Hm); [by left|done].
  - by intros r m [= <-].
  - by intros m [|].
  - by intros r [= <-].
  - intros i k [Hk|[Hi Hk]]%lookup_app_Some Hl; [destruct (Hl (Hnone i k Hk))|].
    apply list_lookup_singleton_Some in Hk as [Hk <-]. rewrite length_app. cbn. split; [lia|by split].
  - intros k _. rewrite length_app, Nat.add_1_r. cbn [pred]. rewrite lookup_app_r, Nat.sub_diag by done. by intros [= <-].
Qed.

(** The clients after one of them changed its workers. *)
Lemma set_client_lookup i w s j k : x_clients (set_client i w s) !! j = Some k ->
  exists k0, x_clients s !! j = Some k0 /\ wc_conn k = wc_conn k0 /\ wc_ctx k = wc_ctx k0
    /\ (j = i -> wc_workers k = w) /\ (j <> i -> k = k0).
Proof.
  unfold set_client. destruct s as [cf cc ow gs dn sg nd cn op nx ct ca cl on ks]. cbn. intros Hj. destruct (decide (j = i)) as [->|Hne].
  - rewrite list_lookup_alter_eq in Hj. destruct (cl !! i) as [k0|] eqn:E; [|done]. injection Hj as <-. exists k0. by split_and!.
  - rewrite list_lookup_alter_ne in Hj by done. exists k. by split_and!.
Qed.

Lemma set_client_same i w s : x_open (set_client i w s) = x_open s /\ x_conn (set_client i w s) = x_conn s
  /\ x_next (set_client i w s) = x_next s /\ x_owner (set_client i w s) = x_owner s
  /\ x_ctx (set_client i w s) = x_ctx s /\ length (x_clients (set_client i w s)) = length (x_clients s).
Proof. unfold set_client. destruct s. cbn. by rewrite length_alter. Qed.

(** The workers of a running client end. *)
Lemma end_link i s : link_ok s -> (forall k, x_clients s !! i = Some k -> wc_workers k = WRunning) -> link_ok (set_client i WEnded s).
Proof.
  intros [H1 H2 H3 H4 H5 H6 H7 H8] Hk. destruct (set_client_same i WEnded s) as (E1 & E2 & E3 & E4 & E5 & E6).
  split; unfold no_workers, current; rewrite ?E1, ?E2, ?E3, ?E4, ?E5, ?E6; try done.
  - intros r Hr Hb j k (k0 & Hj & _ & _ & He & Hne)%set_client_lookup. destruct (decide (j = i)) as [->|Hji]; [by apply He|].
    rewrite Hne by done. by eapply H5.
  - intros j k (k0 & Hj & -> & -> & He & Hne)%set_client_lookup Hl. apply (H6 j k0 Hj).
    destruct (decide (j = i)) as [->|Hji]; [exfalso; by apply Hl, He|by rewrite <- Hne].
  - intros j k (k0 & Hj & _ & _ & He & Hne)%set_client_lookup Hw. destruct (decide (j = i)) as [->|Hji]; [by rewrite He in Hw|].
    rewrite Hne in Hw by done. by eapply H7.
  - intros k Hr (k0 & Hj & _ & _ & He & Hne)%set_client_lookup. specialize (H8 k0 Hr Hj). destruct (decide (pred (length (x_clients s)) = i)) as [Hji|Hji].
    + subst i. specialize (Hk k0 Hj). congruence.
    + by rewrite Hne.
Qed.

(** The owner starts the workers of the client it published. *)
Lemma start_link s : link_ok s -> x_owner s = Some RStart -> link_ok (go RUp (set_client (current s) WRunning s)).
Proof.
  intros [H1 H2 H3 H4 H5 H6 H7 H8] E. destruct (set_client_same (current s) WRunning s) as (E1 & E2 & E3 & E4 & E5 & E6).
  split; unfold no_workers; change (x_open (go RUp ?x)) with (x_open x); change (x_conn (go RUp ?x)) with (x_conn x);
    change (x_next (go RUp ?x)) with (x_next x); change (x_clients (go RUp ?x)) with (x_clients x); change (x_ctx (go RUp ?x)) with (x_ctx x);
    rewrite ?E1, ?E2, ?E3, ?E5, ?E6.
  - intros n [Hn|[Hn|]]; [auto|auto|done].
  - intros n Hn. destruct (H2 n Hn); [by left|congruence].
  - by intros r n [= <-].
  - by intros n [|].
  - by intros r [= <-].
  - intros j k (k0 & Hj & -> & -> & He & Hne)%set_client_lookup Hl. apply (H6 j k0 Hj).
    destruct (decide (j = current s)) as [->|Hji]; [by unfold live; rewrite (H8 k0 E Hj)|by rewrite <- Hne].
  - intros j k (k0 & Hj & _ & _ & He & Hne)%set_client_lookup Hw. destruct (decide (j = current s)) as [->|Hji]; [by rewrite He in Hw|].
    rewrite Hne in Hw by done. specialize (H7 j k0 Hj Hw). destruct (H6 j k0 Hj) as [Hi _]; [by unfold live; rewrite Hw|].
    exfalso. apply Hji. unfold current. by rewrite <- Hi.
  - done.
Qed.

Lemma owner_link b r s : link_ok s -> x_owner s = Some r -> link_ok (owner_step b r s).
Proof.
  intros H E.
  assert (Hmove : forall r', ordinary r = true -> holds_none r' = true ->
    (unplugged r' = true -> unplugged r = true) -> (between r' = true -> between r = true) -> link_ok (go r' s))
    by (intros; by eapply link_move).
  assert (Hgive : ordinary r = true -> link_ok (abandon s)) by (intros; by eapply link_give_up).
  destruct r as [| | | | | | | | | |n|n|n| | |i| |]; cbn [owner_step].
  - repeat case_match; by apply Hmove.
  - eapply (link_move (make_done s)); [by apply make_done_link|unfold make_done; destruct (x_done s); by destruct s|done..].
  - repeat case_match; try done; try by apply Hmove. by apply Hgive.
  - eapply (link_move (s<| x_cancelled := _ |>)); [by eapply link_same|by destruct s|done..].
  - assert (Ec : x_owner (close_conn s) = Some RClosePrev) by (unfold close_conn; destruct (x_conn s); by destruct s).
    apply link_go; [by apply link_close_conn|intros n En; congruence|intros En; congruence| |done|done|done|by intros n []].
    intros _ n. apply close_conn_open.
  - destruct (waits_for _ _) eqn:Ew; [done|by apply wait_link].
  - destruct b; by apply renew_link.
  - repeat case_match; try by apply Hmove. by apply Hgive.
  - destruct b; [by apply dial_link|by apply Hmove..].
  - repeat case_match; try done; try by apply Hmove. by apply Hgive.
  - by apply store_link.
  - case_match; [destruct b; by eapply refuse_link|]. apply link_go; [done|intros m En; congruence|intros En; congruence|done| |done|done|].
    + intros _. by eapply k_between.
    + intros m [|[= ->]]; [done|]. apply (k_checked s H). by left.
  - by apply publish_link.
  - by apply start_link.
  - destruct b; by apply Hmove.
  - repeat case_match; try done; by apply Hmove.
  - eapply (link_move (closeReconnectDone s)); [by apply signal_link|unfold closeReconnectDone; destruct (x_done s); by destruct s|done..].
  - assert (Hn : link_ok (s<| x_owner := None |>)).
    { destruct H as [H1 H2 H3 H4 H5 H6 H7 H8]. destruct s as [cf cc ow gs dn sg nd cn op nx ct ca cl on ks]. cbn in *. subst ow.
      split; unfold no_workers in *; cbn in *; try done.
      - intros n [|[|]]; [auto|auto|done].
      - intros n Hn. destruct (H2 n Hn); [by left|done].
      - by intros n [].
      - intros i k Hk Hw. by specialize (H7 i k Hk Hw). }
    destruct b; [|done..]. case_match; [done|by eapply link_same].
Qed.

Lemma closer_link b k s : link_ok s -> link_ok (closer_step b k s).1.
Proof.
  intros H. unfold closer_step. destruct (kc_pc k); cbn; try done; try by eapply link_same.
  - destruct (x_once s); cbn; by eapply link_same.
  - eapply (link_same (close_conn s)); [by apply link_close_conn|by destruct (close_conn s)..].
Qed.

Lemma step_link s a : link_ok s -> link_ok (step s a).
Proof.
  intros H. destruct a as [| | |i b|b|i b|i|i]; cbn [step]; try by eapply link_same.
  - destruct (x_gates s !! i) as [g|]; [|done]. pose proof (gate_link b g s H) as Hg. destruct (gate_step b g s) as [s1 g1]. cbn in Hg.
    by eapply link_same.
  - destruct (x_owner s) eqn:E; [by apply owner_link|done].
  - destruct (x_closers s !! i) as [k|]; [|done]. pose proof (closer_link b k s H) as Hk. destruct (closer_step b k s) as [s1 pc]. cbn in Hk.
    by eapply link_same.
  - destruct (x_clients s !! i) as [k|] eqn:E; [|done]. destruct (can_end k s && _) eqn:Ec; [|done]. apply end_link; [done|].
    apply andb_prop in Ec as [Ec _]. apply andb_prop in Ec as [Ec _]. apply bool_decide_eq_true in Ec. intros k' E'. congruence.
  - destruct (x_clients s !! i) as [k|] eqn:E; [|done]. destruct (can_end k s) eqn:Ec; [|done]. apply end_link; [done|].
    apply andb_prop in Ec as [Ec _]. apply bool_decide_eq_true in Ec. intros k' E'. congruence.
Qed.

Lemma connected_link : link_ok connected.
Proof.
  split; unfold no_workers; cbn; try done.
  - intros n [->%elem_of_singleton|[[= <-]|]]; [lia|lia|done].
  - intros n ->%elem_of_singleton. by left.
  - by intros n [].
  - intros [|i] k Hk; [by injection Hk as <-|done].
  - intros [|i] k Hk; [by injection Hk as <-|done].
Qed.

(** ** What a close has achieved *)

(** Workers run, or are about to be started. *)
Definition threat (s : race) : Prop :=
  (exists n, x_owner s = Some (RPublish n)) \/ exists i k, x_clients s !! i = Some k /\ live k.
(** Then their context is cancelled. *)
Definition doomed (s : race) : Prop := threat s -> x_ctx s ∈ x_cancelled s.
(** The connection is closed, or the owner is about to see that it must be. *)
Definition shut (s : race) : Prop := forall n, x_conn s = Some n -> n ∈ x_open s -> x_owner s = Some (RCheck n).

Definition past_once (pc : closer_pc) : bool :=
  match pc with KGrab | KWaitDone _ | KLoad | KWaitClient _ | KDone => true | _ => false end.

(** What the place of one closer says. *)
Record closer_ok (s : race) (k : rcloser) : Prop := {
  q_marked : kc_pc k <> KMark -> x_closedFSM s = true;
  q_past : past_once (kc_pc k) = true -> x_once s = Ran;
  q_read : forall c, kc_pc k = KCancel c -> threat s -> x_ctx s = c \/ x_ctx s ∈ x_cancelled s;
  q_sock : kc_pc k = KSock -> doomed s }.

Record once_ok (s : race) : Prop := {
  q_once : x_once s <> NotRun -> x_closedFSM s = true;
  q_ran : x_once s = Ran -> doomed s /\ shut s }.

(** A step that undoes nothing of it: on a closed session it starts no workers, renews no
    context under them and opens no connection. *)
Record undoes_nothing (s s' : race) : Prop := {
  u_fsm : x_closedFSM s = true -> x_closedFSM s' = true;
  u_once : x_once s' = x_once s;
  u_cancelled : x_cancelled s ⊆ x_cancelled s';
  u_threat : x_closedFSM s = true -> threat s' -> threat s /\ x_ctx s' = x_ctx s;
  u_shut : x_closedFSM s = true -> shut s -> shut s' }.

Lemma undoes_doomed s s' : undoes_nothing s s' -> x_closedFSM s = true -> doomed s -> doomed s'.
Proof. intros [U1 U2 U3 U4 U5] Hf Hd Ht. destruct (U4 Hf Ht) as [Ht' ->]. by apply U3, Hd. Qed.

Lemma undoes_closer s s' k : undoes_nothing s s' -> closer_ok s k -> closer_ok s' k.
Proof.
  intros U [Q1 Q2 Q3 Q4]. pose proof U as [U1 U2 U3 U4 U5]. split.
  - intros Hk. by apply U1, Q1.
  - intros Hk. rewrite U2. by apply Q2.
  - intros c Hk Ht. assert (Hf : x_closedFSM s = true) by (apply Q1; by rewrite Hk).
    destruct (U4 Hf Ht) as [Ht' ->]. destruct (Q3 c Hk Ht'); [by left|right; by apply U3].
  - intros Hk. assert (Hf : x_closedFSM s = true) by (apply Q1; by rewrite Hk). eapply undoes_doomed; eauto.
Qed.

Lemma undoes_once s s' : undoes_nothing s s' -> once_ok s -> once_ok s'.
Proof.
  intros U [Q1 Q2]. split; rewrite (u_once _ _ U); [intros Ho; by apply (u_fsm _ _ U), Q1|].
  intros Ho. destruct (Q2 Ho) as [Hd Hs]. assert (Hf : x_closedFSM s = true) by (apply Q1; by rewrite Ho).
  split; [by eapply undoes_doomed|by apply (u_shut _ _ U)].
Qed.

Lemma undoes_refl s s' : x_closedFSM s' = x_closedFSM s -> x_once s' = x_once s -> x_cancelled s' = x_cancelled s ->
  x_owner s' = x_owner s -> x_clients s' = x_clients s -> x_ctx s' = x_ctx s -> x_conn s' = x_conn s -> x_open s' = x_open s ->
  undoes_nothing s s'.
Proof.
  intros E1 E2 E3 E4 E5 E6 E7 E8. split; unfold threat, shut; rewrite ?E1, ?E2, ?E3, ?E4, ?E5, ?E6, ?E7, ?E8; done.
Qed.

(** The owner moves on, with the connection as it is. *)
Lemma undoes_go s s1 r r' : x_owner s = Some r -> (forall n, r <> RCheck n) -> (forall n, r' <> RPublish n) ->
  x_closedFSM s1 = x_closedFSM s -> x_once s1 = x_once s -> x_cancelled s ⊆ x_cancelled s1 ->
  (forall i k, x_clients s1 !! i = Some k -> live k -> threat s /\ x_ctx s1 = x_ctx s) ->
  (forall n, x_conn s1 = Some n -> n ∈ x_open s1 -> x_conn s = Some n /\ n ∈ x_open s) ->
  undoes_nothing s (go r' s1).
Proof.
  intros E Hc Hp E1 E2 E3 Ht Hn. split; try done.
  - intros Hf. exact (eq_trans E1 Hf).
  - intros _ [[n Ho]|(i & k & Hk & Hl)]; [injection Ho as ->; by destruct (Hp n)|by apply (Ht i k)].
  - intros _ Hs n Ho Hi. destruct (Hn n Ho Hi) as [Ho' Hi']. specialize (Hs n Ho' Hi'). rewrite E in Hs. injection Hs as ->. by destruct (Hc n).
Qed.

Lemma threat_client s i k : x_clients s !! i = Some k -> live k -> threat s.
Proof. right. by exists i, k. Qed.

Lemma owner_undoes b r s : link_ok s -> x_owner s = Some r -> undoes_nothing s (owner_step b r s).
Proof.
  intros H E.
  assert (Hrefl : undoes_nothing s s) by by apply undoes_refl.
  assert (Hmove : forall s1 r', (forall n, r <> RCheck n) -> (forall n, r' <> RPublish n) ->
    x_closedFSM s1 = x_closedFSM s -> x_once s1 = x_once s -> x_cancelled s ⊆ x_cancelled s1 -> x_ctx s1 = x_ctx s ->
    x_clients s1 = x_clients s -> x_conn s1 = x_conn s -> x_open s1 ⊆ x_open s -> undoes_nothing s (go r' s1)).
  { intros s1 r' Hc Hp E1 E2 E3 E4 E5 E6 E7. eapply undoes_go; eauto.
    - intros i k Hk Hl. rewrite E5 in Hk. split; [by eapply threat_client|done].
    - intros n Hn Hi. rewrite E6 in Hn. split; [done|by apply E7]. }
  assert (Hdone : forall t, t = make_done s \/ t = closeReconnectDone s -> x_closedFSM t = x_closedFSM s /\ x_once t = x_once s
    /\ x_cancelled t = x_cancelled s /\ x_ctx t = x_ctx s /\ x_clients t = x_clients s /\ x_conn t = x_conn s /\ x_open t = x_open s).
  { intros t [-> | ->]; unfold make_done, closeReconnectDone; destruct (x_done s); by destruct s. }
  assert (Hnone : between r = true -> forall i k, x_clients s !! i = Some k -> live k -> False).
  { intros Hb i k Hk Hl. apply Hl. by eapply (k_between s H). }
  destruct r as [| | | | | | | | | |n|n|n| | |i| |]; cbn [owner_step].
  - repeat case_match; by apply Hmove.
  - destruct (Hdone (make_done s)) as (? & ? & Ec & ? & ? & ? & Eo); [by left|]. apply Hmove; try done; [by rewrite Ec|by rewrite Eo].
  - repeat case_match; try done; by apply Hmove.
  - apply Hmove; try done. cbn. set_solver.
  - apply Hmove; try done; unfold close_conn; destruct (x_conn s) eqn:Ex; try done; by destruct s; cbn in *; set_solver.
  - case_match; [done|by apply Hmove].
  - assert (Hren : forall r', (forall n, r' <> RPublish n) -> undoes_nothing s (go r' (s<| x_ctx := S (x_ctx s) |>))).
    { intros r' Hr. eapply undoes_go; try done. intros i k Hk Hl. exfalso. by eapply Hnone. }
    destruct b; by apply Hren.
  - repeat case_match; by apply Hmove.
  - destruct b; [|by apply Hmove..]. eapply undoes_go; try done.
    + intros i k Hk Hl. exfalso. by eapply Hnone.
    + cbn. intros m Hm Hi. split; [done|]. apply elem_of_union in Hi as [->%elem_of_singleton|]; [|done].
      exfalso. pose proof (k_next s H (x_next s) ltac:(by auto)). lia.
  - repeat case_match; try done; by apply Hmove.
  - split; try done.
    + intros _ [[m Hm]|(i & k & Hk & Hl)]; [done|]. exfalso. by eapply Hnone.
    + intros _ _ m [= ->] _. done.
  - case_match eqn:Ef; [|split; try done; cbn; congruence].
    assert (Href : forall r', (forall m, r' <> RPublish m) -> undoes_nothing s (go r' (s<| x_open := x_open s ∖ {[n]} |><| x_conn := None |>))).
    { intros r' Hr. split; try done.
      intros _ [[m [= ->]]|(i & k & Hk & Hl)]; [by destruct (Hr m)|]. exfalso. by eapply Hnone. }
    destruct b; by apply Href.
  - eapply undoes_go; try done. intros i k Hk Hl. split; [|done]. left. by exists n.
  - destruct (set_client_same (current s) WRunning s) as (E1 & E2 & E3 & E4 & E5 & E6). eapply undoes_go; try done; try by destruct s.
    intros i k (k0 & Hk & _ & _ & _ & Hne)%set_client_lookup Hl. split; [|done]. eapply threat_client; [done|].
    destruct (decide (i = current s)) as [->|Hi]; [|by rewrite <- Hne]. unfold live. by rewrite (k_start s H k0 E Hk).
  - destruct b; by apply Hmove.
  - repeat case_match; try done; by apply Hmove.
  - destruct (Hdone (closeReconnectDone s)) as (? & ? & Ec & ? & ? & ? & Eo); [by right|]. apply Hmove; try done; [by rewrite Ec|by rewrite Eo].
  - assert (Hrel : undoes_nothing s (s<| x_owner := None |>)).
    { split; try done.
      - intros _ [[n Hn]|(i & k & Hk & Hl)]; [done|]. split; [by eapply threat_client|done].
      - intros _ Hs n Ho Hi. specialize (Hs n Ho Hi). congruence. }
    destruct b; [case_match; [done|]|done..]. destruct Hrel as [U1 U2 U3 U4 U5]. by split.
Qed.

Lemma gate_undoes b g s : undoes_nothing s (gate_step b g s).1.
Proof.
  assert (Hrefl : undoes_nothing s s) by by apply undoes_refl.
  destruct g; cbn; try done.
  - unfold make_done. destruct (x_done s); [done|]. by apply undoes_refl.
  - unfold closeReconnectDone. destruct (x_done s); [|done]. by apply undoes_refl.
  - destruct (x_owner s) eqn:E; [done|]. cbn. split; try done.
    + intros _ [[n Hn]|(i & k & Hk & Hl)]; [done|]. split; [by eapply threat_client|done].
    + intros _ Hs n Ho Hi. specialize (Hs n Ho Hi). congruence.
Qed.

Lemma end_undoes i s : undoes_nothing s (set_client i WEnded s).
Proof.
  destruct (set_client_same i WEnded s) as (E1 & E2 & E3 & E4 & E5 & E6).
  split; try done; unfold shut; rewrite ?E1, ?E2, ?E4, ?E5; try done.
  intros _ [[n Hn]|(j & k & (k0 & Hk & _ & _ & He & Hne)%set_client_lookup & Hl)]; (split; [|done]).
  - left. exists n. by rewrite <- E4.
  - eapply threat_client; [done|]. destruct (decide (j = i)) as [->|Hj]; [destruct Hl; by apply He|by rewrite <- Hne].
Qed.

(** One statement of a closer: the others' places, its own, and [shutdownOnce]. *)
Lemma closer_close b k s : link_ok s -> once_ok s -> closer_ok s k ->
  let s1 := (closer_step b k s).1 in
  (forall k', closer_ok s k' -> closer_ok s1 k')
  /\ closer_ok s1 {| kc_waits := kc_waits k; kc_pc := (closer_step b k s).2 |} /\ once_ok s1.
Proof.
  intros H Ho Hk. pose proof Hk as [K1 K2 K3 K4]. cbv zeta.
  assert (Hu : forall s1 pc, undoes_nothing s s1 -> closer_ok s1 {| kc_waits := kc_waits k; kc_pc := pc |} ->
    (forall k', closer_ok s k' -> closer_ok s1 k') /\ closer_ok s1 {| kc_waits := kc_waits k; kc_pc := pc |} /\ once_ok s1).
  { intros s1 pc U Hpc. split; [intros k' Hk'; by eapply undoes_closer|]. split; [done|by eapply undoes_once]. }
  assert (Hrefl : undoes_nothing s s) by by apply undoes_refl.
  assert (Hafter : x_once s = Ran -> x_closedFSM s = true -> forall pc, past_once pc = true -> closer_ok s {| kc_waits := kc_waits k; kc_pc := pc |}).
  { intros Er Ef pc Hp. split; cbn; try done; by (destruct pc). }
  assert (Hwait : past_once (after_once k) = true) by (unfold after_once; by destruct (kc_waits k)).
  unfold closer_step. destruct (kc_pc k) eqn:Ek; cbn [fst snd].
  - apply Hu; [by split|]. by split.
  - apply Hu; [by apply undoes_refl|]. split; try done. intros _. by apply K1.
  - assert (Ef : x_closedFSM s = true) by by apply K1. destruct (x_once s) eqn:Eo; cbn [fst snd].
    + split; [|split].
      * intros k' [P1 P2 P3 P4]. split; try done. intros Hp. specialize (P2 Hp). congruence.
      * by split.
      * split; [done|by intros [=]].
    + apply Hu; [done|]. by split.
    + apply Hu; [done|]. by apply Hafter.
  - apply Hu; [done|]. split; try done; [intros _; by apply K1|]. intros c [= <-] _. by left.
  - apply Hu.
    + split; try done. cbn. set_solver.
    + split; try done; [intros _; by apply K1|]. intros _ Ht.
      change (x_ctx s ∈ {[ctx]} ∪ x_cancelled s). destruct (K3 ctx eq_refl Ht) as [E|Hi]; [rewrite E|]; set_solver.
  - assert (Ef : x_closedFSM s = true) by by apply K1. specialize (K4 eq_refl).
    assert (Ec : x_closedFSM (close_conn s) = x_closedFSM s /\ x_cancelled (close_conn s) = x_cancelled s /\ x_ctx (close_conn s) = x_ctx s
      /\ x_owner (close_conn s) = x_owner s /\ x_clients (close_conn s) = x_clients s)
      by (unfold close_conn; destruct (x_conn s); by destruct s).
    destruct Ec as (C1 & C2 & C3 & C4 & C5).
    assert (Ht : forall t, t = (close_conn s)<| x_once := Ran |> -> x_closedFSM t = true /\ (doomed s -> doomed t)
      /\ (threat t -> threat s) /\ x_ctx t = x_ctx s /\ x_cancelled t = x_cancelled s /\ x_once t = Ran /\ shut t).
    { intros t ->. change (x_closedFSM (?x <| x_once := Ran |>)) with (x_closedFSM x). rewrite C1. split; [done|].
      assert (Hth : threat ((close_conn s)<| x_once := Ran |>) -> threat s).
      { unfold threat. change (x_owner (?x <| x_once := Ran |>)) with (x_owner x). change (x_clients (?x <| x_once := Ran |>)) with (x_clients x).
        by rewrite C4, C5. }
      split; [intros Hd Hx; change (x_ctx (close_conn s) ∈ x_cancelled (close_conn s)); rewrite C2, C3; by apply Hd, Hth|].
      split; [done|]. split; [done|]. split; [done|]. split; [done|]. intros n Hn Hi. by destruct (close_conn_open s n Hn). }
    destruct (Ht _ eq_refl) as (T1 & T2 & T3 & T4 & T5 & T6 & T7). split; [|split].
    + intros k' [P1 P2 P3 P4]. split; [done|done| |intros Hp; by apply T2, P4]. intros c Hc Hth. rewrite T4, T5. apply P3; [done|by apply T3].
    + split; [done|done|cbn; unfold after_once; by destruct (kc_waits k)|cbn; unfold after_once; by destruct (kc_waits k)].
    + split; [done|]. intros _. split; [by apply T2|done].
  - apply Hu; [done|]. apply Hafter; [by apply K2|by apply K1|by destruct (x_done s)].
  - apply Hu; [done|]. apply Hafter; [by apply K2|by apply K1|]. by repeat case_match.
  - apply Hu; [done|]. apply Hafter; [by apply K2|by apply K1|]. by case_match.
  - apply Hu; [done|]. apply Hafter; [by apply K2|by apply K1|]. by case_match.
  - apply Hu; [done|]. by apply Hafter; [apply K2|apply K1|].
Qed.

(** ** Every run *)

Record race_ok (s : race) : Prop := {
  ra_link : link_ok s; ra_once : once_ok s; ra_closers : Forall (closer_ok s) (x_closers s) }.

Lemma undoes_race s s' : race_ok s -> link_ok s' -> undoes_nothing s s' ->
  (forall k, k ∈ x_closers s' -> k ∈ x_closers s \/ kc_pc k = KMark) -> race_ok s'.
Proof.
  intros [L O C] L' U Hk. split; [done|by eapply undoes_once|]. apply Forall_forall. intros k Hin.
  destruct (Hk k Hin) as [Hin'|E].
  - eapply undoes_closer; [done|]. by eapply Forall_forall in C.
  - split; rewrite E; try done.
Qed.

Lemma gate_closers b g s : x_closers (gate_step b g s).1 = x_closers s.
Proof. destruct g; cbn; unfold make_done, closeReconnectDone; repeat case_match; by destruct s. Qed.

Lemma owner_closers b r s k : k ∈ x_closers (owner_step b r s) -> k ∈ x_closers s \/ kc_pc k = KMark.
Proof.
  assert (Hg : forall k, k ∈ x_closers (abandon s) -> k ∈ x_closers s \/ kc_pc k = KMark).
  { intros k' [Hi|Hi%list_elem_of_singleton]%elem_of_app; [by left|right; by subst]. }
  destruct r; cbn [owner_step]; unfold make_done, closeReconnectDone, close_conn; repeat case_match; auto.
Qed.

Lemma step_ok s a : race_ok s -> race_ok (step s a).
Proof.
  intros Hs. pose proof (step_link s a (ra_link s Hs)) as L'. pose proof Hs as [L O C].
  assert (Happ : forall k0 l, kc_pc k0 = KMark -> forall k, k ∈ l ++ [k0] -> k ∈ l \/ kc_pc k = KMark).
  { intros k0 l' E k [|Hi%list_elem_of_singleton]%elem_of_app; [by left|right; by subst]. }
  destruct a as [| | |i b|b|i b|i|i]; cbn [step] in *.
  - eapply undoes_race; [done|done|by apply undoes_refl|auto].
  - eapply undoes_race; [done|done|by apply undoes_refl|auto].
  - eapply undoes_race; [done|done|by apply undoes_refl|cbn; by apply Happ].
  - destruct (x_gates s !! i) as [g|]; [|done]. pose proof (gate_undoes b g s) as U. pose proof (gate_closers b g s) as Ec.
    destruct (gate_step b g s) as [s1 g1]. cbn in U, Ec. eapply undoes_race; [done|done| |].
    + destruct U as [U1 U2 U3 U4 U5]. by split.
    + change (x_closers (?x <| x_gates := ?y |>)) with (x_closers x). rewrite Ec. auto.
  - destruct (x_owner s) as [r|] eqn:E; [|done]. eapply undoes_race; [done|done|by apply owner_undoes|]. intros k. apply owner_closers.
  - destruct (x_closers s !! i) as [k|] eqn:E; [|done]. assert (Hk : closer_ok s k) by (eapply Forall_lookup in C; eauto).
    pose proof (closer_close b k s L O Hk) as (A1 & A2 & A3). assert (Ecl : x_closers (closer_step b k s).1 = x_closers s)
      by (unfold closer_step, close_conn; repeat case_match; by destruct s).
    destruct (closer_step b k s) as [s1 pc]. cbn in A1, A2, A3, Ecl.
    assert (Hsame : forall k', closer_ok s1 k' -> closer_ok (s1<| x_closers := <[i := {| kc_waits := kc_waits k; kc_pc := pc |}]> (x_closers s1) |>) k').
    { intros k' Hk'. eapply undoes_closer; [|done]. by apply undoes_refl. }
    split; [done|eapply undoes_once; [|done]; by apply undoes_refl|].
    change (x_closers (?x <| x_closers := ?y |>)) with y. apply Forall_insert; [|by apply Hsame].
    assert (HC : Forall (closer_ok s1) (x_closers s1)) by (rewrite Ecl; eapply Forall_impl; [exact C|exact A1]).
    eapply Forall_impl; [exact HC|exact Hsame].
  - destruct (x_clients s !! i) as [k|]; [|done]. case_match; [|done].
    eapply undoes_race; [done|done|by apply end_undoes|unfold set_client; destruct s; cbn; auto].
  - destruct (x_clients s !! i) as [k|]; [|done]. case_match; [|done].
    eapply undoes_race; [done|done|by apply end_undoes|unfold set_client; destruct s; cbn; auto].
Qed.

Lemma run_ok l : race_ok (run connected l).
Proof.
  assert (H : race_ok connected).
  { split; [by apply connected_link|split; cbn; [by intros []|done]|by constructor]. }
  revert H. generalize connected. induction l as [|a l IH]; intros s Hs; [done|]. apply (IH (step s a)), step_ok, Hs.
Qed.

(** ** The close *)

(** Once the transport is shut down, running workers have nothing to keep them. *)
Lemma ran_workers s j c : race_ok s -> x_once s = Ran -> x_clients s !! j = Some c -> live c ->
  wc_ctx c ∈ x_cancelled s /\ wc_conn c ∉ x_open s.
Proof.
  intros [L O _] Ho Hc Hl. destruct (q_ran s O Ho) as [Hd Hs]. destruct (k_last s L j c Hc Hl) as (_ & Ex & Econn).
  split; [rewrite Ex; apply Hd; by eapply threat_client|]. intros Hi. specialize (Hs _ Econn Hi).
  apply Hl. by eapply (k_between s L); [exact Hs|done|exact Hc].
Qed.

Lemma ran_sockets s n : race_ok s -> x_once s = Ran -> n ∈ x_open s -> x_owner s = Some (RStore n) \/ x_owner s = Some (RCheck n).
Proof.
  intros [L O _] Ho Hn. destruct (q_ran s O Ho) as [_ Hs]. destruct (k_open s L n Hn) as [Hc|]; [right; by apply Hs|by left].
Qed.

Lemma refused_socket s n b b' : race_ok s -> x_once s = Ran -> n ∈ x_open s -> n ∉ x_open (run s [XOwner b; XOwner b']).
Proof.
  intros Hs Ho Hn. pose proof (q_once s (ra_once s Hs)) as Hf. rewrite Ho in Hf. specialize (Hf ltac:(done)).
  cbn [run foldl step]. destruct (ran_sockets s n Hs Ho Hn) as [E|E]; rewrite E; destruct s as [cf cc ow gs dn sg nd cn op nx ct ca cl on ks]; cbn in *; subst.
  - destruct b'; cbn; set_solver.
  - destruct b, b', cc; cbn; set_solver.
Qed.

(** C20. However a reconnect and any number of closes interleave, and whether or not [Close]
    waited for the reconnect: when a [Close] has returned, a socket still open is one the
    reconnect has just dialled and closes within its next two statements, and workers
    still running have their context cancelled and their socket closed; when no reconnect
    is under way, no socket is open.  Workers that [Close] waits for can end at once: the
    wait after the ten seconds is never for ever. *)
Theorem close_survives_a_reconnect l : let s := run connected l in
  forall i k, x_closers s !! i = Some k ->
  (kc_pc k = KDone ->
     (forall n b b', n ∈ x_open s -> n ∉ x_open (run s [XOwner b; XOwner b']))
     /\ (forall j c, x_clients s !! j = Some c -> wc_workers c <> WEnded -> wc_ctx c ∈ x_cancelled s /\ wc_conn c ∉ x_open s)
     /\ (x_owner s = None -> x_open s = ∅))
  /\ (forall j, kc_pc k = KWaitClient j -> waits_for j (step s (XWorkers j)) = false).
Proof.
  cbv zeta. pose proof (run_ok l) as Hs. set (s := run connected l) in *. intros i k Hk.
  assert (Hok : closer_ok s k) by (eapply Forall_lookup in Hk; [exact Hk|apply (ra_closers s Hs)]).
  split.
  - intros E. assert (Ho : x_once s = Ran) by (apply (q_past s k Hok); by rewrite E). split_and!.
    + intros n b b'. by apply refused_socket.
    + intros j c. by apply ran_workers.
    + intros En. apply set_eq. intros n. split; [|by intros ?%elem_of_empty]. intros Hn.
      destruct (ran_sockets s n Hs Ho Hn); congruence.
  - intros j E. assert (Ho : x_once s = Ran) by (apply (q_past s k Hok); by rewrite E). cbn [step]. unfold waits_for.
    destruct (x_clients s !! j) as [c|] eqn:Ec; [|by rewrite Ec]. destruct (can_end c s && _) eqn:Ee.
    + destruct (x_clients (set_client j WEnded s) !! j) as [c'|] eqn:Ec'; [|done].
      destruct (set_client_lookup _ _ _ _ _ Ec') as (_ & _ & _ & _ & Hw & _). by rewrite Hw.
    + rewrite Ec. apply bool_decide_false. intros Hr. destruct (ran_workers s j c Hs Ho Ec) as [Hx Hn]; [unfold live; by rewrite Hr|].
      unfold can_end in Ee. rewrite (bool_decide_true _ Hr), (bool_decide_true _ Hx), (bool_decide_false _ Hn) in Ee. done.
Qed.

(** [Close] while the owner is dialling; its ten seconds pass. *)
Definition up_to_dial : list race_step :=
  [XReconnect; XGate 0 BGo; XGate 0 BGo; XOwner BGo; XOwner BGo; XOwner BGo; XOwner BGo; XOwner BGo; XWorkers 0; XOwner BGo; XOwner BGo; XOwner BGo].
Definition close_to_wait : list race_step := XClose :: replicate 7 (XCloser 0 BGo).
Definition timed_out : list race_step := up_to_dial ++ close_to_wait ++ [XCloser 0 BFail; XCloser 0 BGo; XCloser 0 BGo; XOwner BGo].

Lemma close_survives_a_reconnect_witness :
  let s := run connected timed_out in
  x_open s = {[1]} /\ 1 ∉ x_open (run s [XOwner BGo; XOwner BGo]).
Proof.
  split; [by vm_compute|].
  exact (proj1 (proj1 (close_survives_a_reconnect timed_out 0 {| kc_waits := true; kc_pc := KDone |} ltac:(by vm_compute)) eq_refl)
    1 BGo BGo ltac:(by vm_compute)).
Defined.

(** The channel [Close] waits on may be closed by another call of [Reconnect] that finds
    the session closed: [Close] returns in time and without a timeout while the owner is
    still dialling, and the owner opens a socket after that. *)
Theorem close_may_outrun_a_reconnect :
  let cut_short := up_to_dial ++ close_to_wait ++ [XReconnect; XGate 1 BGo; XGate 1 BGo; XCloser 0 BGo; XCloser 0 BGo; XCloser 0 BGo] in
  let s := run connected cut_short in
  x_closers s = [{| kc_waits := true; kc_pc := KDone |}] /\ x_owner s = Some RDial /\ x_open s = ∅
  /\ x_open (step s (XOwner BGo)) = {[1]} /\ ~ XCloser 0 BFail ∈ cut_short.
Proof.
  split_and!; try by vm_compute. unfold up_to_dial, close_to_wait. cbn. rewrite !elem_of_cons, elem_of_nil. naive_solver.
Qed.
