(* ===== verification/Report.v ===== *)
(** What the library says and when.  notification_api.go and client.go: records written at
    most once per interval.  Many goroutines meet the same condition at once; [reportNow]
    reads the clock, loads the stamp of the last report, and reports if its
    compare-and-swap wins.  The three are separate steps here, of any number of callers;
    [noteRouterReply] is the caller that asks for a full router mailbox.  symbols.go:
    warnings latched per symbol.  batch_result.go: the text of a batch error, which names
    a bounded number of symbols. *)
From S2P Require Import Prelude Wire Strconv Defs Policies Access Codes.

(** ** reportNow *)

(** A caller before it reads the clock, before it loads the stamp, before its
    compare-and-swap, and when it knows. *)
Inductive caller : Type := CClock | CLoad (now : Z) | CSwap (now prev : Z) | CKnows (report : bool).

(** [rp_reports]: the stamps of the reports made, in their order. *)
Record reporter : Type := { rp_last : Z; rp_callers : list caller; rp_reports : list Z }.
Definition quiet_reporter : reporter := {| rp_last := 0; rp_callers := []; rp_reports := [] |}.

Inductive report_step : Type := PCall | PStep (i : nat) (now : Z).

Definition caller_step (interval now : Z) (c : caller) (r : reporter) : reporter * caller :=
  match c with
  | CClock => (r, CLoad now)
  | CLoad now => (r, if now - rp_last r <? interval then CKnows false else CSwap now (rp_last r))
  | CSwap now prev =>
      if rp_last r =? prev
      then ({| rp_last := now; rp_callers := rp_callers r; rp_reports := rp_reports r ++ [now] |}, CKnows true)
      else (r, CKnows false)
  | CKnows _ => (r, c)
  end.
Definition report_act (interval : Z) (r : reporter) (a : report_step) : reporter :=
  match a with
  | PCall => {| rp_last := rp_last r; rp_callers := rp_callers r ++ [CClock]; rp_reports := rp_reports r |}
  | PStep i now =>
      match rp_callers r !! i with
      | Some c => let '(r, c) := caller_step interval now c r in
                  {| rp_last := rp_last r; rp_callers := <[i := c]> (rp_callers r); rp_reports := rp_reports r |}
      | None => r
      end
  end.
Definition reporting (interval : Z) (l : list report_step) : reporter := foldl (report_act interval) quiet_reporter l.

(** [noteRouterReply]: whether it warns, and the stamp after. *)
Definition mailboxWarnInterval : Z := 60 * Second.
Definition noteRouterReply (code now last : Z) : Z * bool :=
  if negb (code =? ReturnCodeGlobalInsertMailboxError) && negb (code =? ReturnCodeRouterMailboxFull) then (last, false)
  else reportNow now last mailboxWarnInterval.

(** ** Warnings latched per symbol *)

(** [warnInferenceOnce], under the cache's lock: whether it warns. *)
Definition warnInferenceOnce (inferenceWarned : bool) : bool * bool := (true, negb inferenceWarned).

(** [warnUnresolvedBaseType] of one symbol, by any number of goroutines: the first look
    under the lock, whether the type can be resolved after all, the second look. *)
Inductive warner : Type := WLook | WDerive | WLatch | WEnd.
Record latch : Type := { la_warned : bool; la_warners : list warner; la_warnings : nat }.
Definition warner_step (resolvable : bool) (w : warner) (l : latch) : latch * warner :=
  match w with
  | WLook => (l, if la_warned l then WEnd else WDerive)
  | WDerive => (l, if resolvable then WEnd else WLatch)
  | WLatch => if la_warned l then (l, WEnd)
              else ({| la_warned := true; la_warners := la_warners l; la_warnings := S (la_warnings l) |}, WEnd)
  | WEnd => (l, WEnd)
  end.
Inductive warn_step : Type := NCall | NStep (i : nat) (resolvable : bool).
Definition warn_act (l : latch) (a : warn_step) : latch :=
  match a with
  | NCall => {| la_warned := la_warned l; la_warners := la_warners l ++ [WLook]; la_warnings := la_warnings l |}
  | NStep i resolvable =>
      match la_warners l !! i with
      | Some w => let '(l, w) := warner_step resolvable w l in
                  {| la_warned := la_warned l; la_warners := <[i := w]> (la_warners l); la_warnings := la_warnings l |}
      | None => l
      end
  end.
Definition warning (l : list warn_step) : latch :=
  foldl warn_act {| la_warned := false; la_warners := []; la_warnings := 0 |} l.

(** ** Proofs *)

(** The last stamp is that of the last report, consecutive reports are an interval apart,
    and a caller about to swap has seen a stamp an interval ago. *)
Record spaced (interval : Z) (r : reporter) : Prop := {
  sp_last : list.last (0 :: rp_reports r) = Some (rp_last r);
  sp_gaps : forall i a b, (0 :: rp_reports r) !! i = Some a -> rp_reports r !! i = Some b -> a + interval <= b;
  sp_swap : forall now prev, CSwap now prev ∈ rp_callers r -> prev + interval <= now }.

Lemma insert_inv {A} (i : nat) (x : A) (l : list A) y : y ∈ <[i:=x]> l -> y = x \/ y ∈ l.
Proof.
  intros [j Hj]%list_elem_of_lookup. apply list_lookup_insert_Some in Hj as [(-> & -> & _)|[_ Hj]]; [by left|right].
  by eapply list_elem_of_lookup_2.
Qed.

Lemma spaced_act interval r a : spaced interval r -> spaced interval (report_act interval r a).
Proof.
  intros [S1 S2 S3]. destruct a as [|i now]; cbn [report_act].
  - split; cbn; [done|done|]. intros now prev [|Hi%list_elem_of_singleton]%elem_of_app; [by apply S3|done].
  - destruct (rp_callers r !! i) as [c|] eqn:E; [|done]. pose proof (list_elem_of_lookup_2 _ _ _ E) as Hin.
    destruct c as [|n|n p|b]; cbn [caller_step].
    + split; cbn; [done|done|]. intros n' p' [|]%insert_inv; [done|by apply S3].
    + split; cbn; [done|done|]. intros n' p' [Hc|]%insert_inv; [|by apply S3].
      destruct (Z.ltb_spec (n - rp_last r) interval); [done|]. injection Hc as -> ->. lia.
    + destruct (Z.eqb_spec (rp_last r) p) as [<-|Hp].
      * pose proof (S3 n (rp_last r) Hin) as Hgap. split; cbn [rp_last rp_reports rp_callers].
        -- change (list.last ((0 :: rp_reports r) ++ [n]) = Some n). by rewrite last_snoc.
        -- intros j a b Ha Hb. apply lookup_app_Some in Hb as [Hb|[Hj Hb]].
           ++ apply (S2 j a b); [|done]. change (((0 :: rp_reports r) ++ [n]) !! j = Some a) in Ha.
              apply lookup_app_Some in Ha as [|[Hl _]]; [done|]. apply lookup_lt_Some in Hb. cbn in Hl. lia.
           ++ apply list_lookup_singleton_Some in Hb as [Hj' <-]. assert (Ej : j = length (rp_reports r)) by lia. subst j.
              change (((0 :: rp_reports r) ++ [n]) !! length (rp_reports r) = Some a) in Ha.
              rewrite lookup_app_l in Ha by (cbn; lia). rewrite last_lookup in S1. cbn [length pred] in S1. rewrite S1 in Ha. injection Ha as <-. lia.
        -- intros n' p' [|Hi]%insert_inv; [done|]. by apply S3.
      * split; cbn; [done|done|]. intros n' p' [|]%insert_inv; [done|by apply S3].
    + split; cbn; [done|done|]. intros n' p' [|]%insert_inv; [done|by apply S3].
Qed.

(** Whatever the callers' clocks say and however they interleave, consecutive reports are
    at least an interval apart, the first from the start of time; each is one that the
    whole of [reportNow] done at once would make. *)
Theorem reports_are_spaced interval l i a b :
  (0 :: rp_reports (reporting interval l)) !! i = Some a -> rp_reports (reporting interval l) !! i = Some b ->
  a + interval <= b /\ reportNow b a interval = (b, true).
Proof.
  assert (H : spaced interval (reporting interval l)).
  { unfold reporting. assert (H0 : spaced interval quiet_reporter) by (split; cbn; [done|done|by intros ?? ?%elem_of_nil]).
    revert H0. generalize quiet_reporter. induction l as [|x l IH]; intros r Hr; [done|]. apply (IH (report_act interval r x)), spaced_act, Hr. }
  intros Ha Hb. pose proof (sp_gaps _ _ H i a b Ha Hb). split; [done|]. unfold reportNow. by rewrite (proj2 (Z.ltb_ge _ _)) by lia.
Qed.

Lemma reports_are_spaced_witness :
  0 + 30 <= 40 /\ reportNow 40 0 30 = (40, true).
Proof.
  apply (reports_are_spaced 30 [PCall; PCall; PStep 0 40; PStep 1 41; PStep 1 0; PStep 0 0; PStep 0 0; PStep 1 0] 0); reflexivity.
Defined.

(** Each symbol is warned about at most once, and not at all while its type resolves. *)
Theorem warned_at_most_once l : (la_warnings (warning l) <= 1)%nat
  /\ (Forall (fun a => match a with NStep _ resolvable => resolvable = true | NCall => True end) l -> la_warnings (warning l) = 0%nat).
Proof.
  assert (H : (la_warnings (warning l) <= 1)%nat /\ (la_warned (warning l) = false -> la_warnings (warning l) = 0%nat)).
  { unfold warning. set (l0 := {| la_warned := false; la_warners := []; la_warnings := 0 |}).
    assert (H0 : (la_warnings l0 <= 1)%nat /\ (la_warned l0 = false -> la_warnings l0 = 0%nat)) by (cbn; split; [lia|done]).
    revert H0. generalize l0. induction l as [|a l IH]; intros s [Hs Hw]; [done|]. apply (IH (warn_act s a)).
    destruct a as [|i r]; [done|]. cbn [warn_act]. destruct (la_warners s !! i) as [w|]; [|done].
    destruct w; cbn; try done. destruct (la_warned s) eqn:E; cbn; [split; [done|congruence]|]. rewrite Hw by done. split; [lia|done]. }
  split; [apply H|]. clear H. intros Hf. unfold warning. set (l0 := {| la_warned := false; la_warners := []; la_warnings := 0 |}).
  assert (H0 : la_warnings l0 = 0%nat /\ WLatch ∉ la_warners l0) by (cbn; split; [done|by intros ?%elem_of_nil]).
  revert H0. generalize l0. induction Hf as [|a l Ha _ IH]; intros s [Hs Hw]; [done|]. apply (IH (warn_act s a)).
  destruct a as [|i r]; cbn [warn_act].
  - cbn. split; [done|]. intros [|Hi%list_elem_of_singleton]%elem_of_app; [by apply Hw|done].
  - subst r. destruct (la_warners s !! i) as [w|] eqn:E; [|done]. pose proof (list_elem_of_lookup_2 _ _ _ E) as Hin.
    destruct w; cbn; [destruct (la_warned s)| |done|]; (split; [done|]); by intros [|Hi]%insert_inv.
Qed.

(** [String.concat] with the separator the message uses. *)
Fixpoint comma_list (l : list string) : string :=
  match l with
  | [] => ""
  | [x] => x
  | x :: l => (x ++ ", " ++ comma_list l)%string
  end.

Section Text.
(** [fmt.Sprintf("%v", err)]: the message of an error. *)
Context (err_text : goerr -> string).

(** [BatchItemError.String]. *)
Definition item_String (i : BatchItemError) : string :=
  match bi_Skipped i with
  | Some e => (bi_Symbol i ++ " (skipped: " ++ err_text e ++ ")")%string
  | None => (bi_Symbol i ++ " (code " ++ format_hex 0 (bi_Error i) ++ ")")%string
  end.

Definition maxNamedBatchItems : Z := 8.

(** The loop of [BatchError.Error] over the items, [total] of them, from index [i]. *)
Fixpoint name_items (total i : Z) (items : list BatchItemError) : string :=
  match items with
  | [] => ""
  | item :: items =>
      if i =? maxNamedBatchItems then (" and " ++ format_int (total - i)%Z ++ " more")%string
      else ((if (0 <? i)%Z then ", " else "") ++ item_String item ++ name_items total (i + 1)%Z items)%string
  end.

Definition Error (e : BatchError) : string :=
  ("batch " ++ be_Op e ++ ": " ++ format_int (len (be_Items e)) ++ " of " ++ format_int (be_Requested e)
   ++ " symbols failed: " ++ name_items (len (be_Items e)) 0%Z (be_Items e))%string.

Lemma append_assoc a b c : ((a ++ b) ++ c)%string = (a ++ (b ++ c))%string.
Proof. induction a as [|x a IH]; [done|]. change (String x ((a ++ b) ++ c) = String x (a ++ (b ++ c)))%string. by rewrite IH. Qed.
Lemma append_nil a : (a ++ "")%string = a.
Proof. induction a as [|x a IH]; [done|]. change (String x (a ++ "") = String x a)%string. by rewrite IH. Qed.

(** What the message says beyond the items it names. *)
Definition rest_text (n : Z) : string := if n <=? 0 then "" else (" and " ++ format_int n ++ " more")%string.

Lemma name_items_spec total items : forall i, 0 <= i <= maxNamedBatchItems -> total = i + len items ->
  name_items total i items =
    ((if ((0 <? i) && (i <? maxNamedBatchItems) && (0 <? len items))%Z then ", " else "")
     ++ comma_list (item_String <$> take (Z.to_nat (maxNamedBatchItems - i)%Z) items)
     ++ rest_text (total - maxNamedBatchItems)%Z)%string.
Proof.
  unfold maxNamedBatchItems. induction items as [|x items IH]; intros i Hi ->; cbn [name_items].
  - rewrite take_nil, andb_false_r. unfold rest_text. rewrite (proj2 (Z.leb_le _ _)); [done|]. unfold len; cbn [length]; lia.
  - unfold maxNamedBatchItems. destruct (Z.eqb_spec i 8) as [-> |Hn].
    + cbn -[len format_int]. unfold rest_text. rewrite (proj2 (Z.leb_gt (8 + len (x :: items) - 8) 0)) by (unfold len; cbn [length]; lia).
      done.
    + rewrite IH by (unfold len; cbn [length]; lia). replace (Z.to_nat (8 - i)) with (S (Z.to_nat (8 - (i + 1)))) by lia.
      rewrite firstn_cons, fmap_cons. rewrite (proj2 (Z.ltb_lt i 8)) by lia.
      rewrite (proj2 (Z.ltb_lt 0 (i + 1))) by lia. rewrite (proj2 (Z.ltb_lt 0 (len (x :: items)))) by (unfold len; cbn [length]; lia).
      rewrite !andb_true_r. f_equal. destruct items as [|y items].
      * rewrite take_nil, andb_false_r. cbn. done.
      * rewrite (proj2 (Z.ltb_lt 0 (len (y :: items)))) by (unfold len; cbn [length]; lia). rewrite andb_true_r.
        destruct (Z.ltb_spec (i + 1) 8).
        -- replace (Z.to_nat (8 - (i + 1))) with (S (Z.to_nat (8 - (i + 1) - 1))) by lia.
           rewrite firstn_cons, fmap_cons. cbn [andb comma_list]. by rewrite !append_assoc.
        -- replace (Z.to_nat (8 - (i + 1))) with O by lia. done.
Qed.

(** The message names the first eight failed symbols, separated by commas, and says how
    many more there are. *)
Theorem Error_names_eight e :
  Error e = ("batch " ++ be_Op e ++ ": " ++ format_int (len (be_Items e)) ++ " of " ++ format_int (be_Requested e)
    ++ " symbols failed: " ++ comma_list (item_String <$> take 8 (be_Items e)) ++ rest_text (len (be_Items e) - 8)%Z)%string.
Proof. unfold Error. by rewrite (name_items_spec _ _ 0) by (unfold maxNamedBatchItems; lia). Qed.
End Text.
